(* ===== verification/_CoqProject ===== *)
-Q . S2P
Prelude.v
Enums.v
Ids.v
Args.v
Checksum.v
Codec.v
Double.v
Rounding.v
Model.v
Authority.v
Economics.v
Planning.v
Protocol.v
Backend.v
Cuda.v
Discovery.v
State.v
Coordinator.v
Behaviour.v
Machine.v
Worker.v
Planner.v
Safety.v
Completion.v
Admission.v
Targets.v
Index.v
Ledger.v
Persistence.v
StateCodec.v
Recovery.v
Typed.v
Net.v
Sockets.v
WorkerProcess.v
Wire.v
Node.v
CoordinatorProcess.v
Serve.v
Durability.v
Crashes.v
System.v
Cli.v
Scenarios.v
Benchmark.v
