(* ===== verification/Prelude.v ===== *)
(** * Near-Memory Compute: verification library

    Near-Memory Compute is a control-plane runtime in C++20.  A _coordinator_
    ([src/src/coordinator.cpp]) decides whether an operation runs on an execution
    engine near the memory that holds its data, pins the decision to the
    authority that was current when it was taken, dispatches it to a _worker_
    ([src/apps/nmc_worker.cpp]), and accepts at most one verified completion.
    This library models the coordinator, everything it is built from and the
    programs around it, and proves what makes them correct.

    ** The program and the files that model it

    - Values and arithmetic.  [Prelude.v]: [Error] and [Result]
      ([expected.hpp]), machine widths as [Z] with the wrap-around written out
      ([u8], [u16], [u32], [u64]; ranges [in_u8] .. [in_u64]), early-return
      notations, shared list, map and string lemmas, hint databases.
      [Enums.v] ([enums.hpp] and the enums of other headers): every enumeration
      with a constructor [raw] for the values outside it, which a cast from the
      wire can produce.  [Ids.v] ([ids.hpp], [util.hpp]).  [Double.v]: doubles as
      their 64 bits, the comparisons the code makes on them, and the
      [long double] arithmetic of the cost model; [Rounding.v]: how far that
      arithmetic is from the exact quotient.  [Checksum.v]
      ([checksum.hpp], [digest.hpp]).  [Codec.v] ([codec.hpp]): the bounded
      reader and the writer.
    - Data.  [Model.v]: the descriptors of [dimension.hpp], [target.hpp],
      [dataset.hpp], [operation.hpp], [capability.hpp], [policy.hpp],
      [program.hpp], [plan.hpp], [result.hpp] and the records of
      [authority.hpp].  [State.v]: the seventeen tables of [RuntimeState]
      ([coordinator.hpp]); a [std::map] is a [gmap], and a loop over it runs over
      [map_entries], its entries in key order.
    - Decision procedures.  [Authority.v] ([authority.hpp]), [Economics.v]
      ([economics.hpp]), [Planning.v] ([planning.hpp]).
    - The coordinator.  [Coordinator.v]: one definition per method of
      [coordinator.cpp].  A method holds the lock from its first to its last
      statement, so it is one function from state to answer and state; the
      identifiers it draws with [Id::make()] are arguments.  [Behaviour.v]
      characterises the guarded methods; [Machine.v] makes the methods the
      commands of a state machine, with executions, reachability and the effect
      of every command on plans and results.  [Admission.v], [Targets.v],
      [Index.v]: what a target has to give, what is known of it, the index of
      active plans.
    - Around it.  [Protocol.v] ([protocol.hpp]): the messages.  [Backend.v]
      ([backend.cpp]): the two byte engines.  [Cuda.v] ([cuda_backend.cu]): the
      reduction kernel, one loop per thread, and its host side over answers of
      the CUDA runtime.  [Persistence.v] ([persistence.cpp]): the checksummed
      envelope, its reading and the atomic replacement, over answers of the file
      system.  [StateCodec.v] and [Recovery.v]:
      [encode_state], [decode_state], [Coordinator::save] and
      [Coordinator::load].  [Typed.v]: what the file can hold of every table along a
      history with restarts.  [Net.v] ([net.cpp]): frames over partial sends and
      receives.  [Sockets.v] ([net.cpp], [net.hpp]): the socket and listener
      objects, their handles, moves and the opening calls.  [Discovery.v]
      ([system_discovery.cpp]): hardware discovery over answers of the operating
      system.
    - The programs.  [Args.v]: the command lines of all three.  [Worker.v] and
      [WorkerProcess.v] ([nmc_worker.cpp]): what a worker announces and answers,
      its receive loop and exit codes; [Worker.v] also holds [setup_demo] of
      [nmc_cli.cpp], the concrete scenario the witnesses run.  [Node.v] and
      [CoordinatorProcess.v] ([nmc_coordinator.cpp]): the connection threads
      interleaved at every lock, socket call, file call and wait, and [main] from
      the command line to the accept loop; [Serve.v]: that loop and the sockets it
      shares among the threads.  [Durability.v] and [Crashes.v]: the
      state file along the lives of the process.  [Wire.v]: several of its
      threads on the socket of one worker.  [System.v]: both processes and the wire
      between them.  [Cli.v] ([nmc_cli.cpp]): every command, with its output and
      exit code.  [Scenarios.v] and [Benchmark.v] ([src/examples],
      [benchmark.cpp]): the example programs and the benchmark.

    ** Interfaces

    [CEnum]/[CEnumLaws] and [ParseEnum]/[ParseEnumLaws] are what an enumeration
    promises to the codecs; [WireMessage] is what a message codec promises to the
    protocol (its round trip and its safety on arbitrary bytes), with an instance
    per message; [reads], [bounded] and [exact] are the contracts of the readers,
    composed by [reads_bind] and its companions; [effect] is what a command
    promises to every invariant about plans and results.

    ** What the theorems show

    - Commit (C1-C6, C10, C25): a plan has at most one stored result and is
      COMMITTED exactly when that result is committed and verified, also across
      restarts; a client of the process is told "committed" only for such a
      plan; the coordinator refines an abstract ledger of plan statuses
      ([Ledger.v]); plans move along a fixed lifecycle graph; a plan whose
      authority was revoked never commits; an honest worker's answer to a
      dispatch does commit.
    - Crashes (C11, C13, [Durability.v], [Crashes.v]): wherever the process
      stops, between whichever steps of however many saves, the file holds what
      was saved of a state the coordinator was in, or a part that no load
      accepts; and as long as the frames carry what the file can hold, saves do not
      overlap and the file calls succeed, no commit a waiting client was told of
      is ever lost.
    - End to end (C14, C16): a dispatched plan travels through the coordinator's
      thread, the wire, the worker's loop and engine and, through the save, back
      to the client's answer; the benchmark commits all its operations, however many fit its
      target.
    - Types and durability (C8, C9, C15, C17, C32-C34): commands within what the
      file format can hold keep every table within it, hence recoverable; what
      [load] accepts, whatever its reads answer,
      single-byte corruption, atomic replacement, the round trip of the state,
      conservative recovery, and the restart of the process on a saved file.
    - Planning (C7, C36): that an eligible candidate is chosen, and the cheapest
      one; that on ordinary figures the cost model decides between the exact sums
      of its inputs, with the byte times rounded as stated; what makes a target eligible ([hard_filter_exact]), and
      that ranking does not depend on the order of the candidates
      ([ranking_deterministic]).
    - Admission, targets and duplicate suppression (C26-C28): slots and workspace
      stay within what a target has; a target nobody vouches for gets no work;
      one active plan per operation.
    - Wire (C29-C31, C38): delivery of messages through arbitrary fragmentation,
      rejection of corrupted frames, several threads on one socket; decoders on
      arbitrary bytes ([payload_decoding_safe]).
    - The processes (C3, C12, C18-C21, C39, C40): the coordinator process is the
      coordinator with its methods called one at a time; what a worker answers
      to a stream of frames and that it ends; that every socket has one owner
      until a listener writes over its handle, and that those open are the listener's and one for each connection whose
      thread lives; that the promise of a waiting client is set at most once, never lost, and
      answers that client, and the order of registration and disconnection in
      which nothing ever sets it.
    - Engines and hardware (C22, C23, C37): the byte engine; the CUDA reduction
      equals the sum under every schedule, and up to which size its index
      arithmetic is safe; discovery ends and reports what it was told
      ([discover_system_exact]).
    - The tool (C24), command lines ([command_lines_round_trip]) and methods
      (C35, [prepare_dispatch_exact]).
    - Where the code departs from what it means to do, on concrete executions:
      [crc32_is_not_ieee], [choose_path_overflow_reverses],
      [unsupported_capability_is_eligible], [nan_confidence_defeats_policy],
      [completion_for_other_target_commits], [slot_accounting_drifts],
      [ambiguous_completion_breaks_index], [saved_states_not_recovered],
      [default_object_closes_zero], [second_listen_leaks],
      [discover_system_stalls], [parse_port_wraps], [told_commits_can_be_lost],
      [short_send_breaks_frames], [shutdown_waits_for_a_connection],
      [routes_outlive_or_miss_connections].

    ** Bounds and fuel

    Loops over containers are structural.  The loops over system calls in
    [Net.v] consume one answer of the operating system per call and return
    [None] while they wait; [send_fair] and [recv_fair] say that enough calls
    make progress, and under them the loops are proved to return.  The receive
    loop of the worker has fuel, and more fuel than there are answers is proved
    enough (C19).  The epoch loop of the process start has the distance to the
    requested epoch as fuel, which [advance_until_reaches] proves enough.  A
    thread of the CUDA kernel needs two iterations, since the grid covers the
    input (C23); the walks of discovery need one step per record
    ([discover_system_exact]).
    Everything is executable; the witnesses run by [vm_compute].

    ** Not modelled

    The tests.  Console output of the two long-running processes other than what
    is stated above, and the elapsed times the benchmark prints.  The operating
    system, the network and the CUDA runtime are answers given as arguments.  The
    random words of the identifier generator are inputs; that drawn identifiers
    are not null and not in use is the hypothesis [draws_fresh] of the
    executions.  The host is little-endian with a 64-bit [size_t] and a 53-bit
    [long double] (MSVC), and [std::sort] is modelled by a stable sort, which
    [ranking_deterministic] shows to be immaterial for candidates of distinct
    targets and ordinary confidence values.  A thread's use of a socket and its
    test that the socket is open are one step, so the reuse of a handle between
    the two is not in the model, nor is what detached threads do after [main] has
    returned. *)

From Stdlib Require Export ZArith Lia.
From stdpp Require Export prelude gmap strings list sorting pretty numbers.

#[export] Set Default Goal Selector "!".

(** ** Scope and notations

    The C++ sources are written with early returns; the two notations below
    keep that shape.  [let? x := o otherwise e in k] is
    [auto it = find(..); if (it == end) return e; ...], and
    [reject_if b with e in k] is [if (b) return e; ...]. *)

Declare Scope nmc_scope.
Delimit Scope nmc_scope with nmc.

Notation "'let?' x := o 'otherwise' e 'in' k" :=
  (match o with Some x => k | None => e end)
  (at level 10, x binder, o at level 100, e at level 100, k at level 200, only parsing) : nmc_scope.

Notation "'reject_if' b 'with' e 'in' k" :=
  (if b then e else k)
  (at level 10, b at level 100, e at level 100, k at level 200, only parsing) : nmc_scope.

Notation "a !=? b" := (negb (Z.eqb a b)) (at level 70, no associativity) : nmc_scope.

(** [if (b) reasons.push_back(r);] *)
Definition push_if {A} (b : bool) (r : A) : list A := if b then [r] else [].

#[global] Open Scope nmc_scope.
#[global] Open Scope Z_scope.

(** ** Machine integers

    A [w]-bit unsigned integer is a [Z]; every arithmetic operation of the
    source that can wrap writes the wrap-around out with [u8] ... [u64]. *)

Definition u8 (z : Z) : Z := z mod 256.
Definition u16 (z : Z) : Z := z mod 65536.
Definition u32 (z : Z) : Z := z mod 4294967296.
Definition u64 (z : Z) : Z := z mod 18446744073709551616.

Definition UINT64_MAX : Z := 18446744073709551615.

Definition in_u8 (z : Z) : Prop := 0 <= z < 256.
Definition in_u16 (z : Z) : Prop := 0 <= z < 65536.
Definition in_u32 (z : Z) : Prop := 0 <= z < 4294967296.
Definition in_u64 (z : Z) : Prop := 0 <= z < 18446744073709551616.

Definition is_bytes (l : list Z) : Prop := Forall in_u8 l.

Create HintDb nmc discriminated.
Create HintDb nmc_codec discriminated.
Create HintDb nmc_bounds discriminated.

Lemma u64_range z : in_u64 (u64 z).
Proof. unfold in_u64, u64. apply Z.mod_pos_bound. lia. Qed.
Lemma u32_range z : in_u32 (u32 z).
Proof. unfold in_u32, u32. apply Z.mod_pos_bound. lia. Qed.
Lemma u8_range z : in_u8 (u8 z).
Proof. unfold in_u8, u8. apply Z.mod_pos_bound. lia. Qed.
Lemma u64_small z : in_u64 z → u64 z = z.
Proof. unfold in_u64, u64. intros. by apply Z.mod_small. Qed.
Lemma u32_small z : in_u32 z → u32 z = z.
Proof. unfold in_u32, u32. intros. by apply Z.mod_small. Qed.
Lemma u8_small z : in_u8 z → u8 z = z.
Proof. unfold in_u8, u8. intros. by apply Z.mod_small. Qed.

#[export] Hint Resolve u64_range u32_range u8_range : nmc.

(** ** [std::map] iteration

    [std::map<Id, V>] is a [gmap Z V]; a range-[for] over it visits the
    entries in ascending key order. *)

Definition key_le {V} (x y : Z * V) : Prop := x.1 <= y.1.
#[global] Instance key_le_dec {V} : RelDecision (@key_le V).
Proof. intros x y. unfold key_le. apply _. Defined.
#[global] Instance key_le_total {V} : Total (@key_le V).
Proof. intros x y. unfold key_le. lia. Qed.
#[global] Instance key_le_trans {V} : Transitive (@key_le V).
Proof. intros x y z. unfold key_le. lia. Qed.

Definition map_entries {V} (m : gmap Z V) : list (Z * V) :=
  merge_sort key_le (map_to_list m).

Lemma elem_of_map_entries {V} (m : gmap Z V) k v :
  (k, v) ∈ map_entries m ↔ m !! k = Some v.
Proof. unfold map_entries. by rewrite merge_sort_Permutation, elem_of_map_to_list. Qed.

Lemma map_entries_sorted {V} (m : gmap Z V) : StronglySorted key_le (map_entries m).
Proof. apply StronglySorted_merge_sort; apply _. Qed.

Lemma map_entries_NoDup {V} (m : gmap Z V) : NoDup (map_entries m).*1.
Proof. unfold map_entries. rewrite merge_sort_Permutation. apply NoDup_fst_map_to_list. Qed.

Lemma map_entries_singleton {V} (k : Z) (v : V) : map_entries {[k := v]} = [(k, v)].
Proof. unfold map_entries. by rewrite map_to_list_singleton. Qed.

Lemma map_entries_length {V} (m : gmap Z V) : length (map_entries m) = size m.
Proof. unfold map_entries. by rewrite merge_sort_Permutation, length_map_to_list. Qed.

(** The entries in key order, inserted one after the other into an empty map,
    give the map back. *)
Lemma list_to_map_entries {V} (m : gmap Z V) : list_to_map (map_entries m) = m.
Proof.
  rewrite <- (list_to_map_to_list m) at 2.
  apply list_to_map_proper; [apply map_entries_NoDup|].
  apply merge_sort_Permutation.
Qed.

(** ** [Result<T>] and [Error] ([expected.hpp]) *)

Record Error := make_error { code : string; message : string }.

#[global] Instance Error_eq_dec : EqDecision Error.
Proof. solve_decision. Defined.

(** [friend bool operator==(const Error&, const Error&)]: two errors are
    equal when their codes are. *)
Definition error_eqb (a b : Error) : bool := String.eqb (code a) (code b).

Inductive Result (A : Type) : Type :=
| Ok (val : A)
| Err (err : Error).
Arguments Ok {A} val.
Arguments Err {A} err.

Definition has_value {A} (r : Result A) : bool :=
  match r with Ok _ => true | Err _ => false end.
Definition is_error {A} (r : Result A) : bool := negb (has_value r).
Definition value_or {A} (r : Result A) (fallback : A) : A :=
  match r with Ok v => v | Err _ => fallback end.

(** [fail c m] is [return make_error(c, m);]. *)
Definition fail {A} (c m : string) : Result A := Err (make_error c m).

Definition error_code {A} (r : Result A) : option string :=
  match r with Ok _ => None | Err e => Some (code e) end.

(** ** Strings and decimal output *)

(** [std::to_string] of an unsigned integer. *)
Definition to_string_u64 (z : Z) : string := pretty (Z.to_N z).

(** A byte string as the bytes it holds. *)
Definition byte_of_ascii (a : Ascii.ascii) : Z := Z.of_N (Ascii.N_of_ascii a).
Definition ascii_of_byte (b : Z) : Ascii.ascii := Ascii.ascii_of_N (Z.to_N b).
Definition bytes_of_string (s : string) : list Z :=
  byte_of_ascii <$> String.list_ascii_of_string s.
Definition string_of_bytes (l : list Z) : string :=
  String.string_of_list_ascii (ascii_of_byte <$> l).

Lemma ascii_of_byte_of_ascii a : ascii_of_byte (byte_of_ascii a) = a.
Proof.
  unfold ascii_of_byte, byte_of_ascii. rewrite N2Z.id.
  apply Ascii.ascii_N_embedding.
Qed.

Lemma byte_of_ascii_range a : in_u8 (byte_of_ascii a).
Proof.
  unfold in_u8, byte_of_ascii. pose proof (Ascii.N_ascii_bounded a). lia.
Qed.

Lemma string_of_bytes_of_string s : string_of_bytes (bytes_of_string s) = s.
Proof.
  unfold string_of_bytes, bytes_of_string. rewrite <- list_fmap_compose.
  rewrite (list_fmap_ext _ id), list_fmap_id.
  - apply String.string_of_list_ascii_of_string.
  - intros i a _. apply ascii_of_byte_of_ascii.
Qed.

Lemma bytes_of_string_range s : is_bytes (bytes_of_string s).
Proof.
  apply Forall_fmap, Forall_true. intros a. apply byte_of_ascii_range.
Qed.

Lemma bytes_of_string_length s : length (bytes_of_string s) = String.length s.
Proof.
  unfold bytes_of_string. rewrite length_fmap.
  induction s; simpl; congruence.
Qed.

#[export] Hint Resolve bytes_of_string_range byte_of_ascii_range : nmc.

(** ** Lists *)

Lemma nth_lookup_lt {A} (l : list A) i d :
  (i < length l)%nat → l !! i = Some (nth i l d).
Proof. revert i. induction l; intros [|i]; simpl; [lia..|done|]. intros. apply IHl. lia. Qed.

Lemma push_if_nil {A} b (r : A) : push_if b r = [] ↔ b = false.
Proof. by destruct b. Qed.

Lemma neqb_false a b : (a !=? b) = false ↔ a = b.
Proof. by rewrite negb_false_iff, Z.eqb_eq. Qed.

Lemma app_nil_iff {A} (l1 l2 : list A) : l1 ++ l2 = [] ↔ l1 = [] ∧ l2 = [].
Proof. split; [apply app_nil|by intros [-> ->]]. Qed.

(** [it != end && test(it->second)] fails. *)
Lemma option_test_false {A} (o : option A) (test : A → bool) :
  match o with Some a => test a | None => false end = false ↔
  ∀ a, o = Some a → test a = false.
Proof. destruct o; naive_solver. Qed.

(** ** Tactics *)

(** Case analysis on every [match]/[if] of the goal and the hypotheses, with
    the contradictory branches closed. *)
Ltac case_all := repeat (case_match; simplify_eq/=).
Ltac case_all_done := case_all; try done.

(** Unfold the machine-integer range predicates and finish with [lia]. *)
Ltac ranges := unfold in_u8, in_u16, in_u32, in_u64, UINT64_MAX in *; lia.
