(* ===== verification/Enums.v ===== *)
(** * Enumerations ([enums.hpp], and the enums of [target.hpp],
      [operation.hpp] and [protocol.hpp])

    A C++ [enum class E : int] holds any value of its underlying integer
    type: the wire decoders build one with [static_cast<E>(raw)] without a
    range check.  Each enumeration is therefore an inductive type with the
    source's enumerators and one more constructor [raw v] for the values that
    name no enumerator; [enum_of_int] is [static_cast<E>] and always answers
    the enumerator when there is one.  The class [CEnum] is what the codecs
    and the parsers need of an enumeration, [CEnumLaws] what makes its tables
    right, and the generic theorems below are proved once against it. *)

From S2P Require Import Prelude.

(** ** The interface *)

Class CEnum (E : Type) := {
  enum_table : list E;          (** the enumerators, in declaration order *)
  enum_names : list string;     (** the array [m] of [to_string] *)
  enum_invalid : string;        (** what [to_string] answers otherwise *)
  to_int : E → Z;               (** [static_cast<int>] *)
  of_raw : Z → E
}.

(** [static_cast<E>(z)]. *)
Definition enum_of_int {E} `{CEnum E} (z : Z) : E :=
  default (of_raw z) (List.find (fun e => to_int e =? z) enum_table).

(** [detail::contains(table, v)]. *)
Definition contains {E} `{EqDecision E} (table : list E) (v : E) : bool :=
  existsb (fun e => bool_decide (e = v)) table.

(** [to_string(E v)]: a bounds check on the integer value, then the array. *)
Definition to_string {E} `{CEnum E} (v : E) : string :=
  if (0 <=? to_int v) && (to_int v <? Z.of_nat (length (enum_names (E:=E)))) then
    nth (Z.to_nat (to_int v)) (enum_names (E:=E)) enum_invalid
  else enum_invalid.

(** [parse_from_table]: the first table entry whose name is [name]. *)
Definition parse_from_table {E} `{CEnum E} (table : list E) (name : string) : option E :=
  List.find (fun e => String.eqb name (to_string e)) table.

(** [parse_range]: the values [0 .. count-1], cast one after the other. *)
Definition parse_range {E} `{CEnum E} (count : nat) (name : string) : option E :=
  List.find (fun e => String.eqb name (to_string e))
    (enum_of_int <$> (Z.of_nat <$> seq 0 count)).

(** [parse_enum<E>]: each specialization says which of the two it uses. *)
Class ParseEnum (E : Type) := parse_enum : string → option E.

(** A value is canonical when it is what casting its integer gives. *)
Definition canonical {E} `{CEnum E} (e : E) : Prop := enum_of_int (to_int e) = e.

(** A value that names an enumerator. *)
Definition valid_enum {E} `{CEnum E} (e : E) : Prop := e ∈ enum_table (E:=E).

Class CEnumLaws (E : Type) `{CEnum E} := {
  enum_table_ints : to_int <$> enum_table = Z.of_nat <$> seq 0 (length enum_table);
  enum_names_length : length (enum_names (E:=E)) = length (enum_table (E:=E));
  enum_names_NoDup : NoDup (enum_names (E:=E));
  enum_raw_int : ∀ v, to_int (of_raw (E:=E) v) = v;
  enum_small : (length (enum_table (E:=E)) ≤ 256)%nat;
  enum_complete : ∀ e : E, e ∈ enum_table ∨ ∃ v, e = of_raw v
}.

Class ParseEnumLaws (E : Type) `{CEnum E, ParseEnum E} :=
  parse_enum_spec : ∀ n, parse_enum (E:=E) n = parse_from_table enum_table n.

Ltac decide_true := apply (bool_decide_eq_true_1 _); vm_compute; reflexivity.

Ltac solve_enum_laws :=
  split;
  [ vm_compute; reflexivity | vm_compute; reflexivity | decide_true
  | reflexivity | decide_true
  | intros []; first [left; decide_true | right; eexists; reflexivity] ].

(** ** Generic theorems *)

Section enum_theory.
Context {E : Type} `{CEnumLaws E}.

Lemma enum_table_lookup (e : E) i :
  enum_table !! i = Some e → to_int e = Z.of_nat i.
Proof.
  intros Hi. pose proof (f_equal (.!! i) enum_table_ints) as Heq.
  rewrite !list_lookup_fmap, Hi in Heq. simpl in Heq.
  rewrite lookup_seq_lt in Heq by by eapply lookup_lt_Some. simpl in Heq. congruence.
Qed.

Lemma enum_int_inj (e1 e2 : E) :
  valid_enum e1 → valid_enum e2 → to_int e1 = to_int e2 → e1 = e2.
Proof.
  intros [i Hi]%list_elem_of_lookup [j Hj]%list_elem_of_lookup Heq.
  pose proof (enum_table_lookup _ _ Hi). pose proof (enum_table_lookup _ _ Hj).
  assert (i = j) by lia. congruence.
Qed.

Lemma find_unique {A} (f : A → bool) (l : list A) x :
  x ∈ l → f x = true → (∀ y, y ∈ l → f y = true → y = x) → List.find f l = Some x.
Proof.
  intros Hin Hf Huniq. destruct (List.find f l) as [y|] eqn:Hfind.
  - apply List.find_some in Hfind as [Hy Hfy]. f_equal. apply Huniq; [|done].
    by apply list_elem_of_In.
  - rewrite list_elem_of_In in Hin. by rewrite (List.find_none _ _ Hfind _ Hin) in Hf.
Qed.

Lemma enum_of_int_valid (e : E) : valid_enum e → canonical e.
Proof.
  intros He. unfold canonical, enum_of_int.
  rewrite (find_unique _ _ e); [done|done|lia|].
  intros y Hy ?%Z.eqb_eq. by apply enum_int_inj.
Qed.

Lemma to_int_of_int z : to_int (enum_of_int (E:=E) z) = z.
Proof.
  unfold enum_of_int. destruct (List.find _ _) eqn:Hf; simpl.
  - apply List.find_some in Hf as [_ ?]. lia.
  - apply enum_raw_int.
Qed.

Lemma enum_of_int_canonical z : canonical (enum_of_int (E:=E) z).
Proof. unfold canonical. by rewrite to_int_of_int. Qed.

Lemma valid_enum_range (e : E) :
  valid_enum e → 0 <= to_int e < Z.of_nat (length (enum_names (E:=E))).
Proof.
  intros [i Hi]%list_elem_of_lookup. rewrite (enum_table_lookup _ _ Hi).
  apply lookup_lt_Some in Hi. rewrite enum_names_length. lia.
Qed.

Lemma to_string_lookup (e : E) :
  valid_enum e → enum_names (E:=E) !! Z.to_nat (to_int e) = Some (to_string e).
Proof.
  intros He. pose proof (valid_enum_range _ He). unfold to_string.
  replace ((0 <=? to_int e) && (to_int e <? _)) with true by lia.
  apply nth_lookup_lt. lia.
Qed.

Lemma to_string_inj (e1 e2 : E) :
  valid_enum e1 → valid_enum e2 → to_string e1 = to_string e2 → e1 = e2.
Proof.
  intros H1 H2 Heq. apply enum_int_inj; [done..|].
  pose proof (to_string_lookup _ H1) as L1. pose proof (to_string_lookup _ H2) as L2.
  rewrite Heq in L1. pose proof (NoDup_lookup _ _ _ _ enum_names_NoDup L1 L2).
  pose proof (valid_enum_range _ H1). pose proof (valid_enum_range _ H2). lia.
Qed.

Lemma parse_from_table_to_string (e : E) :
  valid_enum e → parse_from_table enum_table (to_string e) = Some e.
Proof.
  intros He. apply find_unique; [done|apply String.eqb_refl|].
  intros y Hy ?%String.eqb_eq. by apply to_string_inj.
Qed.

Lemma parse_from_table_sound (e : E) n :
  parse_from_table enum_table n = Some e → valid_enum e ∧ to_string e = n.
Proof.
  intros [Hin Heq%String.eqb_eq]%List.find_some. split; [by apply list_elem_of_In|done].
Qed.

(** Casting every index below the enumerator count lists the table: the two
    parsers agree. *)
Lemma enum_of_int_table :
  enum_of_int <$> (Z.of_nat <$> seq 0 (length (enum_table (E:=E)))) = enum_table.
Proof.
  rewrite <- enum_table_ints, <- list_fmap_compose.
  rewrite <- (list_fmap_id enum_table) at 2. apply list_fmap_ext.
  intros i e Hi. simpl. apply enum_of_int_valid. by eapply list_elem_of_lookup_2.
Qed.

Lemma parse_range_from_table n :
  parse_range (E:=E) (length (enum_table (E:=E))) n = parse_from_table enum_table n.
Proof. unfold parse_range, parse_from_table. by rewrite enum_of_int_table. Qed.

Lemma parse_range_spec count n :
  count = length (enum_table (E:=E)) → parse_range (E:=E) count n = parse_from_table enum_table n.
Proof. intros ->. apply parse_range_from_table. Qed.

Lemma valid_enum_u16 (e : E) : valid_enum e → in_u16 (to_int e).
Proof.
  intros He. pose proof (valid_enum_range _ He). pose proof (enum_small (E:=E)).
  rewrite enum_names_length in *. ranges.
Qed.
End enum_theory.

#[export] Hint Resolve enum_of_int_valid enum_of_int_canonical valid_enum_u16 : nmc.

(** ** The enumerations *)

Module OperationClass.
Inductive OperationClass : Type :=
  | REDUCE | SUM | MIN | MAX | COUNT | FILTER | SCAN | COMPARE | CHECKSUM
  | HASH | COMPRESS | DECOMPRESS | ENCODE | DECODE | TRANSFORM | ELEMENTWISE
  | COPY_ELISION_TRANSFORM | INDEX_LOOKUP | GATHER | SCATTER
  | CUSTOM_REGISTERED | raw (v : Z).
#[global] Instance OperationClass_eq_dec : EqDecision OperationClass.
Proof. solve_decision. Defined.
Definition OperationClass_table : list OperationClass :=
  [REDUCE; SUM; MIN; MAX; COUNT; FILTER; SCAN; COMPARE; CHECKSUM; HASH;
   COMPRESS; DECOMPRESS; ENCODE; DECODE; TRANSFORM; ELEMENTWISE;
   COPY_ELISION_TRANSFORM; INDEX_LOOKUP; GATHER; SCATTER; CUSTOM_REGISTERED].
Definition OperationClass_names : list string :=
  ["REDUCE"; "SUM"; "MIN"; "MAX"; "COUNT"; "FILTER"; "SCAN"; "COMPARE";
   "CHECKSUM"; "HASH"; "COMPRESS"; "DECOMPRESS"; "ENCODE"; "DECODE";
   "TRANSFORM"; "ELEMENTWISE"; "COPY_ELISION_TRANSFORM"; "INDEX_LOOKUP";
   "GATHER"; "SCATTER"; "CUSTOM_REGISTERED"].
Definition OperationClass_int (e : OperationClass) : Z :=
  match e with
  | REDUCE => 0 | SUM => 1 | MIN => 2 | MAX => 3 | COUNT => 4 | FILTER => 5
  | SCAN => 6 | COMPARE => 7 | CHECKSUM => 8 | HASH => 9 | COMPRESS => 10
  | DECOMPRESS => 11 | ENCODE => 12 | DECODE => 13 | TRANSFORM => 14
  | ELEMENTWISE => 15 | COPY_ELISION_TRANSFORM => 16 | INDEX_LOOKUP => 17
  | GATHER => 18 | SCATTER => 19 | CUSTOM_REGISTERED => 20
  | raw v => v
  end.
End OperationClass.
Abbreviation OperationClass := OperationClass.OperationClass.
#[global] Instance OperationClass_enum : CEnum OperationClass :=
  {| enum_table := OperationClass.OperationClass_table;
     enum_names := OperationClass.OperationClass_names;
     enum_invalid := "INVALID_OPERATION_CLASS";
     to_int := OperationClass.OperationClass_int; of_raw := OperationClass.raw |}.
#[global] Instance OperationClass_laws : CEnumLaws OperationClass.
Proof. solve_enum_laws. Qed.

Module TargetKind.
Inductive TargetKind : Type :=
  | HOST_CPU_LOCAL | MEMORY_SIDE_PROCESSOR | PIM_CLASS | CXL_ADJACENT_COMPUTE
  | FABRIC_ATTACHED_COMPUTE | STORAGE_ADJACENT_COMPUTE
  | DPU_ADJACENT_MEMORY_SERVICE | ACCELERATOR_MEMORY_LOCAL | SOFTWARE_DEFINED
  | SYNTHETIC | UNKNOWN | raw (v : Z).
#[global] Instance TargetKind_eq_dec : EqDecision TargetKind.
Proof. solve_decision. Defined.
Definition TargetKind_table : list TargetKind :=
  [HOST_CPU_LOCAL; MEMORY_SIDE_PROCESSOR; PIM_CLASS; CXL_ADJACENT_COMPUTE;
   FABRIC_ATTACHED_COMPUTE; STORAGE_ADJACENT_COMPUTE;
   DPU_ADJACENT_MEMORY_SERVICE; ACCELERATOR_MEMORY_LOCAL; SOFTWARE_DEFINED;
   SYNTHETIC; UNKNOWN].
Definition TargetKind_names : list string :=
  ["HOST_CPU_LOCAL"; "MEMORY_SIDE_PROCESSOR"; "PIM_CLASS";
   "CXL_ADJACENT_COMPUTE"; "FABRIC_ATTACHED_COMPUTE";
   "STORAGE_ADJACENT_COMPUTE"; "DPU_ADJACENT_MEMORY_SERVICE";
   "ACCELERATOR_MEMORY_LOCAL"; "SOFTWARE_DEFINED"; "SYNTHETIC"; "UNKNOWN"].
Definition TargetKind_int (e : TargetKind) : Z :=
  match e with
  | HOST_CPU_LOCAL => 0 | MEMORY_SIDE_PROCESSOR => 1 | PIM_CLASS => 2
  | CXL_ADJACENT_COMPUTE => 3 | FABRIC_ATTACHED_COMPUTE => 4
  | STORAGE_ADJACENT_COMPUTE => 5 | DPU_ADJACENT_MEMORY_SERVICE => 6
  | ACCELERATOR_MEMORY_LOCAL => 7 | SOFTWARE_DEFINED => 8 | SYNTHETIC => 9
  | UNKNOWN => 10
  | raw v => v
  end.
End TargetKind.
Abbreviation TargetKind := TargetKind.TargetKind.
#[global] Instance TargetKind_enum : CEnum TargetKind :=
  {| enum_table := TargetKind.TargetKind_table;
     enum_names := TargetKind.TargetKind_names;
     enum_invalid := "INVALID_TARGET_KIND";
     to_int := TargetKind.TargetKind_int; of_raw := TargetKind.raw |}.
#[global] Instance TargetKind_laws : CEnumLaws TargetKind.
Proof. solve_enum_laws. Qed.

Module ProviderKind.
Inductive ProviderKind : Type :=
  | REAL | SYNTHETIC | UNKNOWN | UNSUPPORTED | raw (v : Z).
#[global] Instance ProviderKind_eq_dec : EqDecision ProviderKind.
Proof. solve_decision. Defined.
Definition ProviderKind_table : list ProviderKind :=
  [REAL; SYNTHETIC; UNKNOWN; UNSUPPORTED].
Definition ProviderKind_names : list string :=
  ["REAL"; "SYNTHETIC"; "UNKNOWN"; "UNSUPPORTED"].
Definition ProviderKind_int (e : ProviderKind) : Z :=
  match e with
  | REAL => 0 | SYNTHETIC => 1 | UNKNOWN => 2 | UNSUPPORTED => 3
  | raw v => v
  end.
End ProviderKind.
Abbreviation ProviderKind := ProviderKind.ProviderKind.
#[global] Instance ProviderKind_enum : CEnum ProviderKind :=
  {| enum_table := ProviderKind.ProviderKind_table;
     enum_names := ProviderKind.ProviderKind_names;
     enum_invalid := "INVALID_PROVIDER_KIND";
     to_int := ProviderKind.ProviderKind_int; of_raw := ProviderKind.raw |}.
#[global] Instance ProviderKind_laws : CEnumLaws ProviderKind.
Proof. solve_enum_laws. Qed.

Module CapabilityState.
Inductive CapabilityState : Type :=
  | SUPPORTED | UNSUPPORTED | UNKNOWN | REVALIDATION_REQUIRED | raw (v : Z).
#[global] Instance CapabilityState_eq_dec : EqDecision CapabilityState.
Proof. solve_decision. Defined.
Definition CapabilityState_table : list CapabilityState :=
  [SUPPORTED; UNSUPPORTED; UNKNOWN; REVALIDATION_REQUIRED].
Definition CapabilityState_names : list string :=
  ["SUPPORTED"; "UNSUPPORTED"; "UNKNOWN"; "REVALIDATION_REQUIRED"].
Definition CapabilityState_int (e : CapabilityState) : Z :=
  match e with
  | SUPPORTED => 0 | UNSUPPORTED => 1 | UNKNOWN => 2
  | REVALIDATION_REQUIRED => 3
  | raw v => v
  end.
End CapabilityState.
Abbreviation CapabilityState := CapabilityState.CapabilityState.
#[global] Instance CapabilityState_enum : CEnum CapabilityState :=
  {| enum_table := CapabilityState.CapabilityState_table;
     enum_names := CapabilityState.CapabilityState_names;
     enum_invalid := "INVALID_CAPABILITY_STATE";
     to_int := CapabilityState.CapabilityState_int; of_raw := CapabilityState.raw |}.
#[global] Instance CapabilityState_laws : CEnumLaws CapabilityState.
Proof. solve_enum_laws. Qed.

Module TargetLifecycle.
Inductive TargetLifecycle : Type :=
  | DISCOVERED | REGISTERED | PROBING | READY | BUSY | DEGRADED | DRAINING
  | REVALIDATION_REQUIRED | OFFLINE | FAILED | RETIRED | raw (v : Z).
#[global] Instance TargetLifecycle_eq_dec : EqDecision TargetLifecycle.
Proof. solve_decision. Defined.
Definition TargetLifecycle_table : list TargetLifecycle :=
  [DISCOVERED; REGISTERED; PROBING; READY; BUSY; DEGRADED; DRAINING;
   REVALIDATION_REQUIRED; OFFLINE; FAILED; RETIRED].
Definition TargetLifecycle_names : list string :=
  ["DISCOVERED"; "REGISTERED"; "PROBING"; "READY"; "BUSY"; "DEGRADED";
   "DRAINING"; "REVALIDATION_REQUIRED"; "OFFLINE"; "FAILED"; "RETIRED"].
Definition TargetLifecycle_int (e : TargetLifecycle) : Z :=
  match e with
  | DISCOVERED => 0 | REGISTERED => 1 | PROBING => 2 | READY => 3 | BUSY => 4
  | DEGRADED => 5 | DRAINING => 6 | REVALIDATION_REQUIRED => 7 | OFFLINE => 8
  | FAILED => 9 | RETIRED => 10
  | raw v => v
  end.
End TargetLifecycle.
Abbreviation TargetLifecycle := TargetLifecycle.TargetLifecycle.
#[global] Instance TargetLifecycle_enum : CEnum TargetLifecycle :=
  {| enum_table := TargetLifecycle.TargetLifecycle_table;
     enum_names := TargetLifecycle.TargetLifecycle_names;
     enum_invalid := "INVALID_TARGET_LIFECYCLE";
     to_int := TargetLifecycle.TargetLifecycle_int; of_raw := TargetLifecycle.raw |}.
#[global] Instance TargetLifecycle_laws : CEnumLaws TargetLifecycle.
Proof. solve_enum_laws. Qed.

Module ExecutionLifecycle.
Inductive ExecutionLifecycle : Type :=
  | PLANNED | RESERVED | DISPATCHED | RUNNING | VERIFYING | COMPLETED
  | COMMITTED | FAILED | OUTCOME_UNKNOWN | CANCELLED | FENCED | SUPERSEDED
  | raw (v : Z).
#[global] Instance ExecutionLifecycle_eq_dec : EqDecision ExecutionLifecycle.
Proof. solve_decision. Defined.
Definition ExecutionLifecycle_table : list ExecutionLifecycle :=
  [PLANNED; RESERVED; DISPATCHED; RUNNING; VERIFYING; COMPLETED; COMMITTED;
   FAILED; OUTCOME_UNKNOWN; CANCELLED; FENCED; SUPERSEDED].
Definition ExecutionLifecycle_names : list string :=
  ["PLANNED"; "RESERVED"; "DISPATCHED"; "RUNNING"; "VERIFYING"; "COMPLETED";
   "COMMITTED"; "FAILED"; "OUTCOME_UNKNOWN"; "CANCELLED"; "FENCED";
   "SUPERSEDED"].
Definition ExecutionLifecycle_int (e : ExecutionLifecycle) : Z :=
  match e with
  | PLANNED => 0 | RESERVED => 1 | DISPATCHED => 2 | RUNNING => 3
  | VERIFYING => 4 | COMPLETED => 5 | COMMITTED => 6 | FAILED => 7
  | OUTCOME_UNKNOWN => 8 | CANCELLED => 9 | FENCED => 10 | SUPERSEDED => 11
  | raw v => v
  end.
End ExecutionLifecycle.
Abbreviation ExecutionLifecycle := ExecutionLifecycle.ExecutionLifecycle.
#[global] Instance ExecutionLifecycle_enum : CEnum ExecutionLifecycle :=
  {| enum_table := ExecutionLifecycle.ExecutionLifecycle_table;
     enum_names := ExecutionLifecycle.ExecutionLifecycle_names;
     enum_invalid := "INVALID_EXECUTION_LIFECYCLE";
     to_int := ExecutionLifecycle.ExecutionLifecycle_int; of_raw := ExecutionLifecycle.raw |}.
#[global] Instance ExecutionLifecycle_laws : CEnumLaws ExecutionLifecycle.
Proof. solve_enum_laws. Qed.

Module ProgramLifecycle.
Inductive ProgramLifecycle : Type :=
  | REGISTERED | VALIDATED | READY | REVALIDATION_REQUIRED | INVALID
  | RETIRED | raw (v : Z).
#[global] Instance ProgramLifecycle_eq_dec : EqDecision ProgramLifecycle.
Proof. solve_decision. Defined.
Definition ProgramLifecycle_table : list ProgramLifecycle :=
  [REGISTERED; VALIDATED; READY; REVALIDATION_REQUIRED; INVALID; RETIRED].
Definition ProgramLifecycle_names : list string :=
  ["REGISTERED"; "VALIDATED"; "READY"; "REVALIDATION_REQUIRED"; "INVALID";
   "RETIRED"].
Definition ProgramLifecycle_int (e : ProgramLifecycle) : Z :=
  match e with
  | REGISTERED => 0 | VALIDATED => 1 | READY => 2
  | REVALIDATION_REQUIRED => 3 | INVALID => 4 | RETIRED => 5
  | raw v => v
  end.
End ProgramLifecycle.
Abbreviation ProgramLifecycle := ProgramLifecycle.ProgramLifecycle.
#[global] Instance ProgramLifecycle_enum : CEnum ProgramLifecycle :=
  {| enum_table := ProgramLifecycle.ProgramLifecycle_table;
     enum_names := ProgramLifecycle.ProgramLifecycle_names;
     enum_invalid := "INVALID_PROGRAM_LIFECYCLE";
     to_int := ProgramLifecycle.ProgramLifecycle_int; of_raw := ProgramLifecycle.raw |}.
#[global] Instance ProgramLifecycle_laws : CEnumLaws ProgramLifecycle.
Proof. solve_enum_laws. Qed.

Module EligibilityReason.
Inductive EligibilityReason : Type :=
  | NONE | TARGET_OFFLINE | TARGET_DEGRADED | TARGET_UNREACHABLE
  | TARGET_REVALIDATION_REQUIRED | OPERATION_UNSUPPORTED | OPERATION_UNKNOWN
  | DATATYPE_UNSUPPORTED | LAYOUT_UNSUPPORTED | ALIGNMENT_UNSUPPORTED
  | DATA_STALE | DATA_WRONG_GENERATION | DATA_UNREACHABLE
  | INSUFFICIENT_WORKSPACE | CONCURRENCY_EXHAUSTED | POLICY_DENIED
  | FAILURE_DOMAIN_CONFLICT | PROGRAM_INCOMPATIBLE | WRONG_TARGET_GENERATION
  | WRONG_WORKER_BOOT | WRONG_EPOCH | EVIDENCE_STALE
  | INSUFFICIENT_CONFIDENCE | raw (v : Z).
#[global] Instance EligibilityReason_eq_dec : EqDecision EligibilityReason.
Proof. solve_decision. Defined.
Definition EligibilityReason_table : list EligibilityReason :=
  [NONE; TARGET_OFFLINE; TARGET_DEGRADED; TARGET_UNREACHABLE;
   TARGET_REVALIDATION_REQUIRED; OPERATION_UNSUPPORTED; OPERATION_UNKNOWN;
   DATATYPE_UNSUPPORTED; LAYOUT_UNSUPPORTED; ALIGNMENT_UNSUPPORTED;
   DATA_STALE; DATA_WRONG_GENERATION; DATA_UNREACHABLE;
   INSUFFICIENT_WORKSPACE; CONCURRENCY_EXHAUSTED; POLICY_DENIED;
   FAILURE_DOMAIN_CONFLICT; PROGRAM_INCOMPATIBLE; WRONG_TARGET_GENERATION;
   WRONG_WORKER_BOOT; WRONG_EPOCH; EVIDENCE_STALE; INSUFFICIENT_CONFIDENCE].
Definition EligibilityReason_names : list string :=
  ["NONE"; "TARGET_OFFLINE"; "TARGET_DEGRADED"; "TARGET_UNREACHABLE";
   "TARGET_REVALIDATION_REQUIRED"; "OPERATION_UNSUPPORTED";
   "OPERATION_UNKNOWN"; "DATATYPE_UNSUPPORTED"; "LAYOUT_UNSUPPORTED";
   "ALIGNMENT_UNSUPPORTED"; "DATA_STALE"; "DATA_WRONG_GENERATION";
   "DATA_UNREACHABLE"; "INSUFFICIENT_WORKSPACE"; "CONCURRENCY_EXHAUSTED";
   "POLICY_DENIED"; "FAILURE_DOMAIN_CONFLICT"; "PROGRAM_INCOMPATIBLE";
   "WRONG_TARGET_GENERATION"; "WRONG_WORKER_BOOT"; "WRONG_EPOCH";
   "EVIDENCE_STALE"; "INSUFFICIENT_CONFIDENCE"].
Definition EligibilityReason_int (e : EligibilityReason) : Z :=
  match e with
  | NONE => 0 | TARGET_OFFLINE => 1 | TARGET_DEGRADED => 2
  | TARGET_UNREACHABLE => 3 | TARGET_REVALIDATION_REQUIRED => 4
  | OPERATION_UNSUPPORTED => 5 | OPERATION_UNKNOWN => 6
  | DATATYPE_UNSUPPORTED => 7 | LAYOUT_UNSUPPORTED => 8
  | ALIGNMENT_UNSUPPORTED => 9 | DATA_STALE => 10
  | DATA_WRONG_GENERATION => 11 | DATA_UNREACHABLE => 12
  | INSUFFICIENT_WORKSPACE => 13 | CONCURRENCY_EXHAUSTED => 14
  | POLICY_DENIED => 15 | FAILURE_DOMAIN_CONFLICT => 16
  | PROGRAM_INCOMPATIBLE => 17 | WRONG_TARGET_GENERATION => 18
  | WRONG_WORKER_BOOT => 19 | WRONG_EPOCH => 20 | EVIDENCE_STALE => 21
  | INSUFFICIENT_CONFIDENCE => 22
  | raw v => v
  end.
End EligibilityReason.
Abbreviation EligibilityReason := EligibilityReason.EligibilityReason.
#[global] Instance EligibilityReason_enum : CEnum EligibilityReason :=
  {| enum_table := EligibilityReason.EligibilityReason_table;
     enum_names := EligibilityReason.EligibilityReason_names;
     enum_invalid := "INVALID_ELIGIBILITY_REASON";
     to_int := EligibilityReason.EligibilityReason_int; of_raw := EligibilityReason.raw |}.
#[global] Instance EligibilityReason_laws : CEnumLaws EligibilityReason.
Proof. solve_enum_laws. Qed.

Module Decision.
Inductive Decision : Type :=
  | NEAR_MEMORY_SELECTED | ALTERNATE_NEAR_MEMORY_SELECTED
  | CONVENTIONAL_CPU_SELECTED | CONVENTIONAL_GPU_SELECTED | MOVEMENT_REQUIRED
  | DEFER | REJECT | REVALIDATION_REQUIRED | raw (v : Z).
#[global] Instance Decision_eq_dec : EqDecision Decision.
Proof. solve_decision. Defined.
Definition Decision_table : list Decision :=
  [NEAR_MEMORY_SELECTED; ALTERNATE_NEAR_MEMORY_SELECTED;
   CONVENTIONAL_CPU_SELECTED; CONVENTIONAL_GPU_SELECTED; MOVEMENT_REQUIRED;
   DEFER; REJECT; REVALIDATION_REQUIRED].
Definition Decision_names : list string :=
  ["NEAR_MEMORY_SELECTED"; "ALTERNATE_NEAR_MEMORY_SELECTED";
   "CONVENTIONAL_CPU_SELECTED"; "CONVENTIONAL_GPU_SELECTED";
   "MOVEMENT_REQUIRED"; "DEFER"; "REJECT"; "REVALIDATION_REQUIRED"].
Definition Decision_int (e : Decision) : Z :=
  match e with
  | NEAR_MEMORY_SELECTED => 0 | ALTERNATE_NEAR_MEMORY_SELECTED => 1
  | CONVENTIONAL_CPU_SELECTED => 2 | CONVENTIONAL_GPU_SELECTED => 3
  | MOVEMENT_REQUIRED => 4 | DEFER => 5 | REJECT => 6
  | REVALIDATION_REQUIRED => 7
  | raw v => v
  end.
End Decision.
Abbreviation Decision := Decision.Decision.
#[global] Instance Decision_enum : CEnum Decision :=
  {| enum_table := Decision.Decision_table;
     enum_names := Decision.Decision_names;
     enum_invalid := "INVALID_DECISION";
     to_int := Decision.Decision_int; of_raw := Decision.raw |}.
#[global] Instance Decision_laws : CEnumLaws Decision.
Proof. solve_enum_laws. Qed.

Module RetryClass.
Inductive RetryClass : Type :=
  | REPLAY_SAFE | IDEMPOTENT | AT_MOST_ONCE_REQUIRED | NON_RETRYABLE
  | UNKNOWN | raw (v : Z).
#[global] Instance RetryClass_eq_dec : EqDecision RetryClass.
Proof. solve_decision. Defined.
Definition RetryClass_table : list RetryClass :=
  [REPLAY_SAFE; IDEMPOTENT; AT_MOST_ONCE_REQUIRED; NON_RETRYABLE; UNKNOWN].
Definition RetryClass_names : list string :=
  ["REPLAY_SAFE"; "IDEMPOTENT"; "AT_MOST_ONCE_REQUIRED"; "NON_RETRYABLE";
   "UNKNOWN"].
Definition RetryClass_int (e : RetryClass) : Z :=
  match e with
  | REPLAY_SAFE => 0 | IDEMPOTENT => 1 | AT_MOST_ONCE_REQUIRED => 2
  | NON_RETRYABLE => 3 | UNKNOWN => 4
  | raw v => v
  end.
End RetryClass.
Abbreviation RetryClass := RetryClass.RetryClass.
#[global] Instance RetryClass_enum : CEnum RetryClass :=
  {| enum_table := RetryClass.RetryClass_table;
     enum_names := RetryClass.RetryClass_names;
     enum_invalid := "INVALID_RETRY_CLASS";
     to_int := RetryClass.RetryClass_int; of_raw := RetryClass.raw |}.
#[global] Instance RetryClass_laws : CEnumLaws RetryClass.
Proof. solve_enum_laws. Qed.

Module VerifyState.
Inductive VerifyState : Type :=
  | UNVERIFIED | VERIFIED | MISMATCH | CORRUPT | UNKNOWN | raw (v : Z).
#[global] Instance VerifyState_eq_dec : EqDecision VerifyState.
Proof. solve_decision. Defined.
Definition VerifyState_table : list VerifyState :=
  [UNVERIFIED; VERIFIED; MISMATCH; CORRUPT; UNKNOWN].
Definition VerifyState_names : list string :=
  ["UNVERIFIED"; "VERIFIED"; "MISMATCH"; "CORRUPT"; "UNKNOWN"].
Definition VerifyState_int (e : VerifyState) : Z :=
  match e with
  | UNVERIFIED => 0 | VERIFIED => 1 | MISMATCH => 2 | CORRUPT => 3
  | UNKNOWN => 4
  | raw v => v
  end.
End VerifyState.
Abbreviation VerifyState := VerifyState.VerifyState.
#[global] Instance VerifyState_enum : CEnum VerifyState :=
  {| enum_table := VerifyState.VerifyState_table;
     enum_names := VerifyState.VerifyState_names;
     enum_invalid := "INVALID_VERIFY_STATE";
     to_int := VerifyState.VerifyState_int; of_raw := VerifyState.raw |}.
#[global] Instance VerifyState_laws : CEnumLaws VerifyState.
Proof. solve_enum_laws. Qed.

Module DataType.
Inductive DataType : Type :=
  | U8 | I8 | U16 | I16 | U32 | I32 | U64 | I64 | F32 | F64 | BF16 | F16
  | raw (v : Z).
#[global] Instance DataType_eq_dec : EqDecision DataType.
Proof. solve_decision. Defined.
Definition DataType_table : list DataType :=
  [U8; I8; U16; I16; U32; I32; U64; I64; F32; F64; BF16; F16].
Definition DataType_names : list string :=
  ["U8"; "I8"; "U16"; "I16"; "U32"; "I32"; "U64"; "I64"; "F32"; "F64";
   "BF16"; "F16"].
Definition DataType_int (e : DataType) : Z :=
  match e with
  | U8 => 0 | I8 => 1 | U16 => 2 | I16 => 3 | U32 => 4 | I32 => 5 | U64 => 6
  | I64 => 7 | F32 => 8 | F64 => 9 | BF16 => 10 | F16 => 11
  | raw v => v
  end.
End DataType.
Abbreviation DataType := DataType.DataType.
#[global] Instance DataType_enum : CEnum DataType :=
  {| enum_table := DataType.DataType_table;
     enum_names := DataType.DataType_names;
     enum_invalid := "INVALID_DATATYPE";
     to_int := DataType.DataType_int; of_raw := DataType.raw |}.
#[global] Instance DataType_laws : CEnumLaws DataType.
Proof. solve_enum_laws. Qed.

Module Layout.
Inductive Layout : Type :=
  | CONTIGUOUS | STRIDED | BLOCKED | COMPRESSED | SPARSE | TILED | raw (v : Z).
#[global] Instance Layout_eq_dec : EqDecision Layout.
Proof. solve_decision. Defined.
Definition Layout_table : list Layout :=
  [CONTIGUOUS; STRIDED; BLOCKED; COMPRESSED; SPARSE; TILED].
Definition Layout_names : list string :=
  ["CONTIGUOUS"; "STRIDED"; "BLOCKED"; "COMPRESSED"; "SPARSE"; "TILED"].
Definition Layout_int (e : Layout) : Z :=
  match e with
  | CONTIGUOUS => 0 | STRIDED => 1 | BLOCKED => 2 | COMPRESSED => 3
  | SPARSE => 4 | TILED => 5
  | raw v => v
  end.
End Layout.
Abbreviation Layout := Layout.Layout.
#[global] Instance Layout_enum : CEnum Layout :=
  {| enum_table := Layout.Layout_table;
     enum_names := Layout.Layout_names;
     enum_invalid := "INVALID_LAYOUT";
     to_int := Layout.Layout_int; of_raw := Layout.raw |}.
#[global] Instance Layout_laws : CEnumLaws Layout.
Proof. solve_enum_laws. Qed.

Module PolicyOutcome.
Inductive PolicyOutcome : Type :=
  | NEAR_MEMORY_REQUIRED | NEAR_MEMORY_PREFERRED | UNCONSTRAINED | raw (v : Z).
#[global] Instance PolicyOutcome_eq_dec : EqDecision PolicyOutcome.
Proof. solve_decision. Defined.
Definition PolicyOutcome_table : list PolicyOutcome :=
  [NEAR_MEMORY_REQUIRED; NEAR_MEMORY_PREFERRED; UNCONSTRAINED].
Definition PolicyOutcome_names : list string :=
  ["NEAR_MEMORY_REQUIRED"; "NEAR_MEMORY_PREFERRED"; "UNCONSTRAINED"].
Definition PolicyOutcome_int (e : PolicyOutcome) : Z :=
  match e with
  | NEAR_MEMORY_REQUIRED => 0 | NEAR_MEMORY_PREFERRED => 1
  | UNCONSTRAINED => 2
  | raw v => v
  end.
End PolicyOutcome.
Abbreviation PolicyOutcome := PolicyOutcome.PolicyOutcome.
#[global] Instance PolicyOutcome_enum : CEnum PolicyOutcome :=
  {| enum_table := PolicyOutcome.PolicyOutcome_table;
     enum_names := PolicyOutcome.PolicyOutcome_names;
     enum_invalid := "INVALID_POLICY_OUTCOME";
     to_int := PolicyOutcome.PolicyOutcome_int; of_raw := PolicyOutcome.raw |}.
#[global] Instance PolicyOutcome_laws : CEnumLaws PolicyOutcome.
Proof. solve_enum_laws. Qed.

Module IntegrityState.
Inductive IntegrityState : Type :=
  | UNKNOWN | INTACT | SUSPECT | CORRUPT | raw (v : Z).
#[global] Instance IntegrityState_eq_dec : EqDecision IntegrityState.
Proof. solve_decision. Defined.
Definition IntegrityState_table : list IntegrityState :=
  [UNKNOWN; INTACT; SUSPECT; CORRUPT].
Definition IntegrityState_names : list string :=
  ["UNKNOWN"; "INTACT"; "SUSPECT"; "CORRUPT"].
Definition IntegrityState_int (e : IntegrityState) : Z :=
  match e with
  | UNKNOWN => 0 | INTACT => 1 | SUSPECT => 2 | CORRUPT => 3
  | raw v => v
  end.
End IntegrityState.
Abbreviation IntegrityState := IntegrityState.IntegrityState.
#[global] Instance IntegrityState_enum : CEnum IntegrityState :=
  {| enum_table := IntegrityState.IntegrityState_table;
     enum_names := IntegrityState.IntegrityState_names;
     enum_invalid := "INVALID_INTEGRITY_STATE";
     to_int := IntegrityState.IntegrityState_int; of_raw := IntegrityState.raw |}.
#[global] Instance IntegrityState_laws : CEnumLaws IntegrityState.
Proof. solve_enum_laws. Qed.

Module AccessSemantics.
Inductive AccessSemantics : Type :=
  | COHERENT | NON_COHERENT | DIRECT | STAGED | raw (v : Z).
#[global] Instance AccessSemantics_eq_dec : EqDecision AccessSemantics.
Proof. solve_decision. Defined.
Definition AccessSemantics_table : list AccessSemantics :=
  [COHERENT; NON_COHERENT; DIRECT; STAGED].
Definition AccessSemantics_names : list string :=
  ["COHERENT"; "NON_COHERENT"; "DIRECT"; "STAGED"].
Definition AccessSemantics_int (e : AccessSemantics) : Z :=
  match e with
  | COHERENT => 0 | NON_COHERENT => 1 | DIRECT => 2 | STAGED => 3
  | raw v => v
  end.
End AccessSemantics.
Abbreviation AccessSemantics := AccessSemantics.AccessSemantics.
#[global] Instance AccessSemantics_enum : CEnum AccessSemantics :=
  {| enum_table := AccessSemantics.AccessSemantics_table;
     enum_names := AccessSemantics.AccessSemantics_names;
     enum_invalid := "INVALID_ACCESS_SEMANTICS";
     to_int := AccessSemantics.AccessSemantics_int; of_raw := AccessSemantics.raw |}.
#[global] Instance AccessSemantics_laws : CEnumLaws AccessSemantics.
Proof. solve_enum_laws. Qed.

Module IntegrityRequirement.
Inductive IntegrityRequirement : Type :=
  | NONE | CHECKED | STRICT | raw (v : Z).
#[global] Instance IntegrityRequirement_eq_dec : EqDecision IntegrityRequirement.
Proof. solve_decision. Defined.
Definition IntegrityRequirement_table : list IntegrityRequirement :=
  [NONE; CHECKED; STRICT].
Definition IntegrityRequirement_names : list string :=
  ["NONE"; "CHECKED"; "STRICT"].
Definition IntegrityRequirement_int (e : IntegrityRequirement) : Z :=
  match e with
  | NONE => 0 | CHECKED => 1 | STRICT => 2
  | raw v => v
  end.
End IntegrityRequirement.
Abbreviation IntegrityRequirement := IntegrityRequirement.IntegrityRequirement.
#[global] Instance IntegrityRequirement_enum : CEnum IntegrityRequirement :=
  {| enum_table := IntegrityRequirement.IntegrityRequirement_table;
     enum_names := IntegrityRequirement.IntegrityRequirement_names;
     enum_invalid := "INVALID_INTEGRITY_REQUIREMENT";
     to_int := IntegrityRequirement.IntegrityRequirement_int; of_raw := IntegrityRequirement.raw |}.
#[global] Instance IntegrityRequirement_laws : CEnumLaws IntegrityRequirement.
Proof. solve_enum_laws. Qed.

Module FrameType.
Inductive FrameType : Type :=
  | HELLO | REGISTER_TARGET | CAPABILITY | DATA_EVIDENCE | HEARTBEAT
  | DISPATCH | DISPATCH_ACK | RESULT | COMMIT_ACK | ERROR | PING | PONG
  | SHUTDOWN | REVALIDATE | CLIENT_REGISTER_OPERATION | CLIENT_PLAN
  | CLIENT_DISPATCH | CLIENT_GET_RESULT | CLIENT_REPLY | raw (v : Z).
#[global] Instance FrameType_eq_dec : EqDecision FrameType.
Proof. solve_decision. Defined.
Definition FrameType_table : list FrameType :=
  [HELLO; REGISTER_TARGET; CAPABILITY; DATA_EVIDENCE; HEARTBEAT; DISPATCH;
   DISPATCH_ACK; RESULT; COMMIT_ACK; ERROR; PING; PONG; SHUTDOWN; REVALIDATE;
   CLIENT_REGISTER_OPERATION; CLIENT_PLAN; CLIENT_DISPATCH;
   CLIENT_GET_RESULT; CLIENT_REPLY].
Definition FrameType_names : list string :=
  ["HELLO"; "REGISTER_TARGET"; "CAPABILITY"; "DATA_EVIDENCE"; "HEARTBEAT";
   "DISPATCH"; "DISPATCH_ACK"; "RESULT"; "COMMIT_ACK"; "ERROR"; "PING";
   "PONG"; "SHUTDOWN"; "REVALIDATE"; "CLIENT_REGISTER_OPERATION";
   "CLIENT_PLAN"; "CLIENT_DISPATCH"; "CLIENT_GET_RESULT"; "CLIENT_REPLY"].
Definition FrameType_int (e : FrameType) : Z :=
  match e with
  | HELLO => 0 | REGISTER_TARGET => 1 | CAPABILITY => 2 | DATA_EVIDENCE => 3
  | HEARTBEAT => 4 | DISPATCH => 5 | DISPATCH_ACK => 6 | RESULT => 7
  | COMMIT_ACK => 8 | ERROR => 9 | PING => 10 | PONG => 11 | SHUTDOWN => 12
  | REVALIDATE => 13 | CLIENT_REGISTER_OPERATION => 14 | CLIENT_PLAN => 15
  | CLIENT_DISPATCH => 16 | CLIENT_GET_RESULT => 17 | CLIENT_REPLY => 18
  | raw v => v
  end.
End FrameType.
Abbreviation FrameType := FrameType.FrameType.
#[global] Instance FrameType_enum : CEnum FrameType :=
  {| enum_table := FrameType.FrameType_table;
     enum_names := FrameType.FrameType_names;
     enum_invalid := "UNKNOWN_FRAME_TYPE";
     to_int := FrameType.FrameType_int; of_raw := FrameType.raw |}.
#[global] Instance FrameType_laws : CEnumLaws FrameType.
Proof. solve_enum_laws. Qed.

(** ** The specializations of [parse_enum] *)

#[global] Instance OperationClass_parse : ParseEnum OperationClass := parse_from_table OperationClass.OperationClass_table.
#[global] Instance OperationClass_parse_laws : ParseEnumLaws OperationClass.
Proof. intros s. reflexivity. Qed.
#[global] Instance TargetKind_parse : ParseEnum TargetKind := parse_from_table TargetKind.TargetKind_table.
#[global] Instance TargetKind_parse_laws : ParseEnumLaws TargetKind.
Proof. intros s. reflexivity. Qed.
#[global] Instance ProviderKind_parse : ParseEnum ProviderKind := parse_range 4.
#[global] Instance ProviderKind_parse_laws : ParseEnumLaws ProviderKind.
Proof. intros s. by apply parse_range_spec. Qed.
#[global] Instance CapabilityState_parse : ParseEnum CapabilityState := parse_range 4.
#[global] Instance CapabilityState_parse_laws : ParseEnumLaws CapabilityState.
Proof. intros s. by apply parse_range_spec. Qed.
#[global] Instance TargetLifecycle_parse : ParseEnum TargetLifecycle := parse_range 11.
#[global] Instance TargetLifecycle_parse_laws : ParseEnumLaws TargetLifecycle.
Proof. intros s. by apply parse_range_spec. Qed.
#[global] Instance ExecutionLifecycle_parse : ParseEnum ExecutionLifecycle := parse_range 12.
#[global] Instance ExecutionLifecycle_parse_laws : ParseEnumLaws ExecutionLifecycle.
Proof. intros s. by apply parse_range_spec. Qed.
#[global] Instance ProgramLifecycle_parse : ParseEnum ProgramLifecycle := parse_range 6.
#[global] Instance ProgramLifecycle_parse_laws : ParseEnumLaws ProgramLifecycle.
Proof. intros s. by apply parse_range_spec. Qed.
#[global] Instance EligibilityReason_parse : ParseEnum EligibilityReason := parse_range 23.
#[global] Instance EligibilityReason_parse_laws : ParseEnumLaws EligibilityReason.
Proof. intros s. by apply parse_range_spec. Qed.
#[global] Instance Decision_parse : ParseEnum Decision := parse_range 8.
#[global] Instance Decision_parse_laws : ParseEnumLaws Decision.
Proof. intros s. by apply parse_range_spec. Qed.
#[global] Instance RetryClass_parse : ParseEnum RetryClass := parse_range 5.
#[global] Instance RetryClass_parse_laws : ParseEnumLaws RetryClass.
Proof. intros s. by apply parse_range_spec. Qed.
#[global] Instance VerifyState_parse : ParseEnum VerifyState := parse_range 5.
#[global] Instance VerifyState_parse_laws : ParseEnumLaws VerifyState.
Proof. intros s. by apply parse_range_spec. Qed.
#[global] Instance DataType_parse : ParseEnum DataType := parse_range 12.
#[global] Instance DataType_parse_laws : ParseEnumLaws DataType.
Proof. intros s. by apply parse_range_spec. Qed.
#[global] Instance Layout_parse : ParseEnum Layout := parse_range 6.
#[global] Instance Layout_parse_laws : ParseEnumLaws Layout.
Proof. intros s. by apply parse_range_spec. Qed.
#[global] Instance PolicyOutcome_parse : ParseEnum PolicyOutcome := parse_range 3.
#[global] Instance PolicyOutcome_parse_laws : ParseEnumLaws PolicyOutcome.
Proof. intros s. by apply parse_range_spec. Qed.
#[global] Instance IntegrityState_parse : ParseEnum IntegrityState := parse_range 4.
#[global] Instance IntegrityState_parse_laws : ParseEnumLaws IntegrityState.
Proof. intros s. by apply parse_range_spec. Qed.
#[global] Instance AccessSemantics_parse : ParseEnum AccessSemantics := parse_range 4.
#[global] Instance AccessSemantics_parse_laws : ParseEnumLaws AccessSemantics.
Proof. intros s. by apply parse_range_spec. Qed.
#[global] Instance IntegrityRequirement_parse : ParseEnum IntegrityRequirement := parse_range 3.
#[global] Instance IntegrityRequirement_parse_laws : ParseEnumLaws IntegrityRequirement.
Proof. intros s. by apply parse_range_spec. Qed.

(** [is_valid_frame_type]: membership in the canonical table [kFrameTypes]. *)
Definition is_valid_frame_type (v : FrameType) : bool :=
  contains FrameType.FrameType_table v.
