(* ===== verification/Ids.v ===== *)
(** * Identities, generations and size arithmetic ([ids.hpp], [util.hpp])

    [Id<Tag>] and [Generation<Tag>] wrap one [uint64_t]; the tag only keeps
    the kinds apart at compile time.  The model keeps one abbreviation per
    alias of the source and the 64-bit value itself.  Identities are drawn
    from [UniqueIdSource], whose pseudo-random generator is seeded from
    [std::random_device]: its outputs are a parameter ([prng_]). *)

From S2P Require Import Prelude.

(** ** Strongly typed values *)

Abbreviation NearMemoryTargetId := Z (only parsing).
Abbreviation NearMemoryTargetGeneration := Z (only parsing).
Abbreviation MemoryDomainId := Z (only parsing).
Abbreviation MemoryDomainGeneration := Z (only parsing).
Abbreviation DatasetId := Z (only parsing).
Abbreviation DatasetGeneration := Z (only parsing).
Abbreviation DataRegionId := Z (only parsing).
Abbreviation DataRegionGeneration := Z (only parsing).
Abbreviation OperationId := Z (only parsing).
Abbreviation OperationGeneration := Z (only parsing).
Abbreviation KernelOrProgramId := Z (only parsing).
Abbreviation ProgramGeneration := Z (only parsing).
Abbreviation CapabilityId := Z (only parsing).
Abbreviation CapabilityGeneration := Z (only parsing).
Abbreviation ExecutionPlanId := Z (only parsing).
Abbreviation ExecutionPlanGeneration := Z (only parsing).
Abbreviation DispatchId := Z (only parsing).
Abbreviation AttemptId := Z (only parsing).
Abbreviation ResultId := Z (only parsing).
Abbreviation ResultGeneration := Z (only parsing).
Abbreviation PolicyId := Z (only parsing).
Abbreviation PolicyGeneration := Z (only parsing).
Abbreviation EvidenceId := Z (only parsing).
Abbreviation EvidenceGeneration := Z (only parsing).
Abbreviation WorkerId := Z (only parsing).
Abbreviation WorkerBootId := Z (only parsing).
Abbreviation CoordinatorId := Z (only parsing).
Abbreviation CoordinatorEpoch := Z (only parsing).
Abbreviation FailureDomainId := Z (only parsing).

(** [Id::is_null], [Generation::is_null]: zero is the sentinel. *)
Definition is_null (v : Z) : bool := v =? 0.

(** [Generation::operator++]: saturates at the largest value. *)
Definition generation_incr (g : Z) : Z := if g =? UINT64_MAX then g else g + 1.

(** ** [UniqueIdSource] *)

Definition golden : Z := 0x9E3779B97F4A7C15.

Record UniqueIdSource := {
  counter_ : Z;            (** [std::atomic<uint64_t> counter_{0}] *)
  prng_ : nat → Z;         (** the successive outputs of [prng_] *)
  draws : nat              (** how many were taken *)
}.

(** The mixing of one counter value and one generator output. *)
Definition unique_id (counter r : Z) : Z :=
  let r := Z.lxor r (u64 (counter * golden)) in
  if r =? 0 then golden else r.

(** [UniqueIdSource::next], which [Id::make] wraps. *)
Definition next (s : UniqueIdSource) : Z * UniqueIdSource :=
  (unique_id (counter_ s) (u64 (prng_ s (draws s))),
   {| counter_ := u64 (counter_ s + 1); prng_ := prng_ s; draws := S (draws s) |}).

(** ** [util.hpp] *)

Definition checked_add_u64 (a b : Z) : option Z :=
  if UINT64_MAX - a <? b then None else Some (u64 (a + b)).

Definition checked_mul_u64 (a b : Z) : option Z :=
  if negb (a =? 0) && (UINT64_MAX / a <? b) then None else Some (u64 (a * b)).

Definition align_up_u64 (value alignment : Z) : Z :=
  if alignment =? 0 then value else
  let rem := value mod alignment in
  if rem =? 0 then value else
  let add := alignment - rem in
  let result := u64 (value + add) in
  if result <? value then 0 else result.

Definition is_power_of_two (v : Z) : bool :=
  negb (v =? 0) && (Z.land v (u64 (v - 1)) =? 0).

(** ** Lemmas *)

Lemma lxor_u64_range a b : in_u64 a → in_u64 b → in_u64 (Z.lxor a b).
Proof.
  intros Ha Hb. unfold in_u64 in *.
  assert (Hnn : 0 <= Z.lxor a b) by (apply Z.lxor_nonneg; lia).
  split; [done|].
  destruct (decide (Z.lxor a b = 0)) as [->|Hne]; [lia|].
  change 18446744073709551616 with (2 ^ 64). apply Z.log2_lt_pow2; [lia|].
  eapply Z.le_lt_trans; [apply Z.log2_lxor; lia|].
  assert (∀ x, 0 <= x < 2 ^ 64 → Z.log2 x < 64) as Hlog.
  { intros x Hx. destruct (decide (x = 0)) as [->|]; [simpl; lia|].
    apply Z.log2_lt_pow2; lia. }
  apply Z.max_lub_lt; apply Hlog; lia.
Qed.

Lemma unique_id_range c r : in_u64 r → in_u64 (unique_id c r).
Proof.
  intros Hr. unfold unique_id.
  case_match; [unfold golden; ranges|]. apply lxor_u64_range; auto with nmc.
Qed.

Lemma golden_invertible c : in_u64 c → u64 (u64 (c * golden) * 0xF1DE83E19937733D) = c.
Proof.
  intros Hc. unfold u64, golden. rewrite Zmult_mod_idemp_l, <- Z.mul_assoc.
  rewrite <- Zmult_mod_idemp_r.
  replace ((0x9E3779B97F4A7C15 * 0xF1DE83E19937733D) mod 18446744073709551616) with 1
    by (vm_compute; reflexivity).
  rewrite Z.mul_1_r. by apply Z.mod_small.
Qed.

(** Because the multiplier is odd, a repeated generator output still gives a
    different identity at a different counter value. *)
Lemma unique_id_counter_inj c1 c2 r :
  in_u64 c1 → in_u64 c2 → c1 ≠ c2 →
  Z.lxor r (u64 (c1 * golden)) ≠ Z.lxor r (u64 (c2 * golden)).
Proof.
  intros H1 H2 Hne Heq. apply Hne.
  apply (f_equal (Z.lxor r)) in Heq.
  rewrite <- !Z.lxor_assoc, Z.lxor_nilpotent, !Z.lxor_0_l in Heq.
  rewrite <- (golden_invertible c1), <- (golden_invertible c2) by done. by rewrite Heq.
Qed.

Lemma checked_mul_None a b :
  in_u64 a → in_u64 b → checked_mul_u64 a b = None ↔ UINT64_MAX < a * b.
Proof.
  intros Ha Hb. unfold checked_mul_u64.
  destruct (decide (a = 0)) as [->|Hne]; [simpl; split; [done|ranges]|].
  rewrite (proj2 (Z.eqb_neq a 0)) by done. simpl.
  pose proof (Z.div_mod UINT64_MAX a Hne).
  pose proof (Z.mod_pos_bound UINT64_MAX a ltac:(ranges)).
  destruct (Z.ltb_spec (UINT64_MAX / a) b); split; intros; try done.
  - nia.
  - exfalso. nia.
Qed.

Lemma checked_mul_Some a b v :
  in_u64 a → in_u64 b → checked_mul_u64 a b = Some v → v = a * b ∧ in_u64 v.
Proof.
  intros Ha Hb Hv.
  assert (~ UINT64_MAX < a * b) by (rewrite <- checked_mul_None by done; congruence).
  unfold checked_mul_u64 in Hv. case_match; [done|]. injection Hv as <-.
  assert (in_u64 (a * b)) by (unfold in_u64, UINT64_MAX in *; nia).
  rewrite u64_small by done. done.
Qed.

(** Land with the predecessor clears the lowest set bit, so it is zero
    exactly on the powers of two. *)
Lemma land_pred_pow2 v : 0 < v → (Z.land v (v - 1) = 0 ↔ ∃ k, 0 <= k ∧ v = 2 ^ k).
Proof.
  intros Hv. split.
  - intros H0. exists (Z.log2 v). split; [apply Z.log2_nonneg|].
    destruct (Z.log2_spec v Hv) as [Hlo Hhi].
    destruct (decide (v = 2 ^ Z.log2 v)) as [|Hne]; [done|exfalso].
    assert (Hlog : Z.log2 (v - 1) = Z.log2 v).
    { apply Z.log2_unique; [apply Z.log2_nonneg|]. lia. }
    assert (Hb : Z.testbit (Z.land v (v - 1)) (Z.log2 v) = true).
    { rewrite Z.land_spec, Z.bit_log2 by done. simpl.
      rewrite <- Hlog. apply Z.bit_log2.
      pose proof (Z.pow_pos_nonneg 2 (Z.log2 v) ltac:(lia) (Z.log2_nonneg _)). lia. }
    by rewrite H0, Z.bits_0 in Hb.
  - intros (k & Hk & ->). apply Z.bits_inj'. intros n Hn.
    rewrite Z.land_spec, Z.bits_0, Z.pow2_bits_eqb by done.
    destruct (Z.eqb_spec k n) as [->|]; [|done]. simpl.
    rewrite Z.sub_1_r, <- Z.ones_equiv. apply Z.ones_spec_high. lia.
Qed.

(** The overflow-checked helpers of [util.hpp] are exact: on 64-bit
    operands [checked_add_u64] and [checked_mul_u64] return the mathematical
    sum and product when it fits in 64 bits, and nothing otherwise. *)
Lemma checked_arithmetic_exact a b :
  in_u64 a → in_u64 b →
  checked_add_u64 a b = (if a + b <=? UINT64_MAX then Some (a + b) else None) ∧
  checked_mul_u64 a b = (if a * b <=? UINT64_MAX then Some (a * b) else None).
Proof.
  intros Ha Hb. split.
  - unfold checked_add_u64. destruct (Z.ltb_spec (UINT64_MAX - a) b).
    + by rewrite (proj2 (Z.leb_gt _ _)) by lia.
    + rewrite (proj2 (Z.leb_le _ _)) by lia. by rewrite u64_small by ranges.
  - destruct (checked_mul_u64 a b) as [v|] eqn:Hm.
    + assert (~ UINT64_MAX < a * b) by (rewrite <- checked_mul_None by done; congruence).
      rewrite (proj2 (Z.leb_le _ _)) by lia.
      by destruct (checked_mul_Some a b v) as [-> _].
    + apply checked_mul_None in Hm; [|done..]. by rewrite (proj2 (Z.leb_gt _ _)) by lia.
Qed.

Lemma checked_arithmetic_exact_witness :
  checked_add_u64 UINT64_MAX 1 = None ∧ checked_mul_u64 4294967296 4294967296 = None.
Proof.
  split.
  - apply (checked_arithmetic_exact UINT64_MAX 1); unfold in_u64, UINT64_MAX; lia.
  - apply (checked_arithmetic_exact 4294967296 4294967296); unfold in_u64; lia.
Defined.

(** [align_up_u64] returns the least multiple of the alignment that is not below
    the value, or 0 when that multiple needs more than 64 bits; a zero alignment
    leaves the value alone.  [is_power_of_two] holds of exactly the powers of two. *)
Lemma align_up_exact value alignment :
  in_u64 value → in_u64 alignment →
  let up := alignment * ((value + alignment - 1) / alignment) in
  align_up_u64 value alignment =
    (if alignment =? 0 then value else if up <=? UINT64_MAX then up else 0) ∧
  (is_power_of_two value = true ↔ ∃ k, 0 <= k ∧ value = 2 ^ k).
Proof.
  intros Hv Ha up. split.
  - unfold align_up_u64. destruct (Z.eqb_spec alignment 0); [done|].
    pose proof (Z.div_mod value alignment ltac:(done)) as Hdm.
    pose proof (Z.mod_pos_bound value alignment ltac:(ranges)) as Hmb.
    set (q := value / alignment) in *. set (r := value mod alignment) in *.
    destruct (Z.eqb_spec r 0) as [Hr|Hr].
    + assert (Hup : up = value).
      { subst up. replace (value + alignment - 1) with (alignment - 1 + q * alignment) by lia.
        rewrite Z.div_add, Z.div_small by ranges. lia. }
      rewrite Hup. by rewrite (proj2 (Z.leb_le _ _)) by ranges.
    + assert (Hup : up = value + (alignment - r)).
      { subst up. replace (value + alignment - 1) with (r - 1 + (q + 1) * alignment) by lia.
        rewrite Z.div_add, Z.div_small by ranges. lia. }
      rewrite Hup. clearbody up q r. destruct (Z.leb_spec (value + (alignment - r)) UINT64_MAX).
      * rewrite u64_small by ranges. by rewrite (proj2 (Z.ltb_ge _ _)) by lia.
      * unfold u64. rewrite <- (Z.mod_unique _ _ 1 (value + (alignment - r) - 18446744073709551616)) by ranges.
        by rewrite (proj2 (Z.ltb_lt _ _)) by ranges.
  - unfold is_power_of_two. destruct (Z.eqb_spec value 0) as [->|]; simpl.
    + split; [done|]. intros (k & Hk & Heq). pose proof (Z.pow_pos_nonneg 2 k). lia.
    + rewrite u64_small by ranges. rewrite Z.eqb_eq. apply land_pred_pow2. ranges.
Qed.

Lemma align_up_exact_witness :
  align_up_u64 13 8 = 16 ∧ align_up_u64 UINT64_MAX 8 = 0.
Proof.
  split.
  - apply (align_up_exact 13 8); unfold in_u64; lia.
  - apply (align_up_exact UINT64_MAX 8); unfold in_u64, UINT64_MAX; lia.
Defined.

(** [Id::make] never returns the null identity, whatever the generator
    produces; and two calls at different counter values that happen to draw the same
    random word mix to different values. *)
Lemma make_never_null s :
  is_null (fst (next s)) = false ∧ in_u64 (fst (next s)) ∧
  ∀ c r, in_u64 c → in_u64 (counter_ s) → c ≠ counter_ s →
    Z.lxor r (u64 (c * golden)) ≠ Z.lxor r (u64 (counter_ s * golden)).
Proof.
  split_and!; simpl.
  - unfold is_null, unique_id. case_match eqn:E; [done|]. by apply Z.eqb_neq, Z.eqb_neq.
  - apply unique_id_range. auto with nmc.
  - intros. by apply unique_id_counter_inj.
Qed.
