(* ===== verification/Args.v ===== *)
(** * Command lines ([parse_args] and the options of the three programs)

    The loop over [argv], the conversions of the standard library the options go
    through ([std::stoull], [std::stoi]; [None] is the exception they throw, which
    ends the program), and the options of the worker and of the coordinator. *)

From Stdlib Require Import Ascii.
From S2P Require Import Prelude Ids.

(** ** [parse_args] *)

(** [s.rfind("--", 0) == 0]. *)
Definition is_flag (s : string) : bool :=
  match s with
  | String a (String b _) => Ascii.eqb a "-"%char && Ascii.eqb b "-"%char
  | _ => false
  end.
(** [s.substr(2)]. *)
Definition flag_key (s : string) : string := String.substring 2 (String.length s - 2) s.

(** The loop over [argv] after the program's name. *)
Fixpoint parse_args (argv : list string) (a : gmap string string) : gmap string string :=
  match argv with
  | [] => a
  | s :: rest =>
      if is_flag s then
        match rest with
        | v :: rest' =>
            if is_flag v then parse_args rest (<[flag_key s := "1"]> a)
            else parse_args rest' (<[flag_key s := v]> a)
        | [] => <[flag_key s := "1"]> a
        end
      else parse_args rest a
  end.

(** ** Numbers *)

Definition is_space (c : Ascii.ascii) : bool :=
  let b := byte_of_ascii c in (b =? 32) || ((9 <=? b) && (b <=? 13)).
Definition digit_of (c : Ascii.ascii) : option Z :=
  let b := byte_of_ascii c in if (48 <=? b) && (b <=? 57) then Some (b - 48) else None.

Fixpoint skip_spaces (s : string) : string :=
  match s with
  | String c rest => if is_space c then skip_spaces rest else s
  | EmptyString => s
  end.
(** The digits at the front, as a number; what follows them is not looked at. *)
Fixpoint read_digits (acc : Z) (s : string) : Z :=
  match s with
  | String c rest =>
      match digit_of c with Some d => read_digits (acc * 10 + d) rest | None => acc end
  | EmptyString => acc
  end.
(** A sign and digits; [None] without a digit. *)
Definition read_number (s : string) : option (bool * Z) :=
  let s := skip_spaces s in
  let '(neg, s) := match s with
                   | String c rest =>
                       if Ascii.eqb c "-"%char then (true, rest)
                       else if Ascii.eqb c "+"%char then (false, rest) else (false, s)
                   | EmptyString => (false, s)
                   end in
  match s with
  | String c _ => match digit_of c with Some _ => Some (neg, read_digits 0 s) | None => None end
  | EmptyString => None
  end.

(** [std::stoull]: a minus sign negates modulo 2^64. *)
Definition stoull (s : string) : option Z :=
  match read_number s with
  | None => None
  | Some (neg, v) => if UINT64_MAX <? v then None else Some (if neg then u64 (- v) else v)
  end.
(** [std::stoi], with a 32-bit [int]. *)
Definition stoi (s : string) : option Z :=
  match read_number s with
  | None => None
  | Some (neg, v) =>
      let v := if neg then - v else v in
      if (v <? - 2147483648) || (2147483647 <? v) then None else Some v
  end.

Definition parse_u64 (s : string) (dflt : Z) : option Z :=
  if String.eqb s "" then Some dflt else stoull s.
(** [static_cast<std::uint16_t>(std::stoi(s))]. *)
Definition parse_port (s : string) : option Z := u16 <$> stoi s.

(** [args.count(key) ? args[key] : dflt]. *)
Definition arg_or (a : gmap string string) (key dflt : string) : string :=
  default dflt (a !! key).
Definition arg_given (a : gmap string string) (key : string) : bool := bool_decide (is_Some (a !! key)).

(** ** The worker's options *)

(** [coord.rfind(':')]: what stands before and after the last colon. *)
Fixpoint split_address (s : string) : option (string * string) :=
  match s with
  | EmptyString => None
  | String c rest =>
      match split_address rest with
      | Some (host, port) => Some (String c host, port)
      | None => if Ascii.eqb c ":"%char then Some ("", rest) else None
      end
  end.

Record WorkerArgs := {
  wa_host : string; wa_port : Z; wa_name : string; wa_target : string; wa_synthetic : bool;
  wa_hold_result : bool; wa_latency : Z; wa_throughput : Z; wa_dataset_id : Z;
  wa_region_id : Z; wa_domain_id : Z; wa_concurrency : Z
}.

Definition worker_args (a : gmap string string) : option WorkerArgs :=
  let coord := arg_or a "coordinator" "127.0.0.1:0" in
  let? hp := (match split_address coord with
              | None => Some (coord, 0)
              | Some (host, p) => pair host <$> parse_port p
              end) otherwise None in
  let? latency := parse_u64 (arg_or a "latency" "") 12000000 otherwise None in
  let? throughput := parse_u64 (arg_or a "throughput" "") (100 * 2 ^ 30) otherwise None in
  let? dataset_id := parse_u64 (arg_or a "dataset-id" "") 1000 otherwise None in
  let? region_id := parse_u64 (arg_or a "region-id" "") 1001 otherwise None in
  let? domain_id := parse_u64 (arg_or a "domain-id" "") 2000 otherwise None in
  let? concurrency := parse_u64 (arg_or a "concurrency" "") 4 otherwise None in
  Some {| wa_host := hp.1; wa_port := hp.2; wa_name := arg_or a "name" "worker";
          wa_target := arg_or a "target" "nm-target"; wa_synthetic := arg_given a "synthetic";
          wa_hold_result := arg_given a "hold-result"; wa_latency := latency;
          wa_throughput := throughput; wa_dataset_id := dataset_id; wa_region_id := region_id;
          wa_domain_id := domain_id; wa_concurrency := u32 concurrency |}.

(** ** The coordinator's options *)

Record CoordinatorArgs := { coa_port : Z; coa_persist : string; coa_epoch : Z }.

Definition coordinator_args (a : gmap string string) : option CoordinatorArgs :=
  let? port := (match a !! "port" with Some s => parse_port s | None => Some 0 end) otherwise None in
  let? epoch := (match a !! "epoch" with Some s => stoull s | None => Some 1 end) otherwise None in
  Some {| coa_port := port; coa_persist := arg_or a "persist" ""; coa_epoch := epoch |}.

(** ** Printed numbers *)

Lemma pretty_char_digit x : (x < 10)%N → digit_of (pretty_N_char x) = Some (Z.of_N x).
Proof. intros Hx. destruct x as [|p]; [done|]. do 4 (destruct p as [p|p|]; try done; try lia). Qed.

Lemma mod_10_lt x : (x `mod` 10 < 10)%N.
Proof. by apply N.mod_lt. Qed.

(** A property of the digits printed in front of [s], by induction on them. *)
Lemma pretty_go_ind (P : string → Prop) x s :
  (∀ d s, (d < 10)%N → P s → P (String (pretty_N_char d) s)) → P s → P (pretty_N_go x s).
Proof.
  intros Hstep. revert s. induction (N.lt_wf_0 x) as [x _ IH]. intros s Hs.
  destruct (decide (x = 0%N)) as [->|Hx]; [by rewrite pretty_N_go_0|].
  rewrite pretty_N_go_step by lia. apply IH; [apply N.div_lt; lia|]. apply Hstep; [apply mod_10_lt|done].
Qed.

Lemma pretty_go_value x s : read_digits 0 (pretty_N_go x s) = read_digits (Z.of_N x) s.
Proof.
  revert s. induction (N.lt_wf_0 x) as [x _ IH]. intros s.
  destruct (decide (x = 0%N)) as [->|Hx]; [by rewrite pretty_N_go_0|].
  rewrite pretty_N_go_step by lia. rewrite IH by (apply N.div_lt; lia). cbn [read_digits].
  rewrite pretty_char_digit by apply mod_10_lt. f_equal.
  rewrite N2Z.inj_div, N2Z.inj_mod. pose proof (Z.div_mod (Z.of_N x) 10). lia.
Qed.

Lemma to_string_value n : 0 <= n → read_digits 0 (to_string_u64 n) = n.
Proof.
  intros Hn. unfold to_string_u64, pretty, pretty_N. case_decide as Hz.
  - change (read_digits 0 "0") with 0. lia.
  - rewrite pretty_go_value. simpl. lia.
Qed.

(** A string of digits, with at least one. *)
Fixpoint all_digits (s : string) : bool :=
  match s with
  | EmptyString => true
  | String c rest => bool_decide (is_Some (digit_of c)) && all_digits rest
  end.
Lemma to_string_digits n : all_digits (to_string_u64 n) = true ∧ to_string_u64 n ≠ "".
Proof.
  unfold to_string_u64, pretty, pretty_N. case_decide as Hz; [done|]. split.
  - apply (pretty_go_ind (fun s => all_digits s = true)); [|done].
    intros d s Hd Hs. cbn [all_digits]. by rewrite pretty_char_digit.
  - rewrite pretty_N_go_step by lia. apply (pretty_go_ind (fun s => s ≠ "")); done.
Qed.
#[local] Opaque to_string_u64.

Lemma digit_not_special c d :
  digit_of c = Some d → is_space c = false ∧ Ascii.eqb c "-"%char = false ∧
  Ascii.eqb c "+"%char = false ∧ Ascii.eqb c ":"%char = false.
Proof.
  unfold digit_of, is_space. intros Hd.
  destruct ((48 <=? byte_of_ascii c) && (byte_of_ascii c <=? 57)) eqn:Hb; [|done].
  apply andb_true_iff in Hb as [H1%Z.leb_le H2%Z.leb_le].
  split; [rewrite orb_false_iff, andb_false_iff, !Z.eqb_neq, !Z.leb_gt; lia|].
  split_and!; apply Ascii.eqb_neq; intros ->; vm_compute in H1, H2; congruence.
Qed.

(** A string of digits is its number, for both conversions. *)
Lemma read_number_digits s :
  all_digits s = true → s ≠ "" → read_number s = Some (false, read_digits 0 s).
Proof.
  destruct s as [|c s]; [done|]. cbn [all_digits].
  intros [Hc%bool_decide_eq_true_1 _]%andb_true_iff _. destruct Hc as [d Hd].
  destruct (digit_not_special c d Hd) as (Hs & Hm & Hp & _).
  unfold read_number. cbn [skip_spaces]. by rewrite Hs, Hm, Hp, Hd.
Qed.
Lemma read_number_to_string n : 0 <= n → read_number (to_string_u64 n) = Some (false, n).
Proof.
  intros Hn. destruct (to_string_digits n). by rewrite read_number_digits, to_string_value.
Qed.

Lemma stoull_to_string n : in_u64 n → stoull (to_string_u64 n) = Some n.
Proof.
  intros Hn. unfold stoull. rewrite read_number_to_string by ranges.
  by rewrite (proj2 (Z.ltb_ge _ _)) by ranges.
Qed.
Lemma parse_u64_to_string n dflt : in_u64 n → parse_u64 (to_string_u64 n) dflt = Some n.
Proof.
  intros Hn. unfold parse_u64. destruct (to_string_digits n) as [_ Hne].
  by rewrite (proj2 (String.eqb_neq _ _) Hne), stoull_to_string.
Qed.
Lemma stoi_to_string n : 0 <= n <= 2147483647 → stoi (to_string_u64 n) = Some n.
Proof.
  intros Hn. unfold stoi. rewrite read_number_to_string by lia. simpl.
  by rewrite !(proj2 (Z.ltb_ge _ _)) by lia.
Qed.

(** A port above 16 bits is taken modulo 2^16. *)
Lemma parse_port_wraps n : 0 <= n <= 2147483647 → parse_port (to_string_u64 n) = Some (n mod 65536).
Proof. intros Hn. unfold parse_port. by rewrite stoi_to_string. Qed.

Lemma digits_not_flag s : all_digits s = true → is_flag s = false.
Proof.
  destruct s as [|c s]; [done|]. cbn [all_digits]. intros [Hc%bool_decide_eq_true_1 _]%andb_true_iff.
  destruct Hc as [d Hd]. destruct (digit_not_special c d Hd) as (_ & Hm & _).
  unfold is_flag. rewrite Hm. by destruct s.
Qed.
Lemma to_string_not_flag n : is_flag (to_string_u64 n) = false.
Proof. apply digits_not_flag, to_string_digits. Qed.

(** ** Addresses *)

Lemma digits_no_colon s : all_digits s = true → split_address s = None.
Proof.
  induction s as [|c s IH]; [done|]. cbn [all_digits split_address].
  intros [Hc%bool_decide_eq_true_1 Hs]%andb_true_iff. destruct Hc as [d Hd].
  destruct (digit_not_special c d Hd) as (_ & _ & _ & Hcol). by rewrite IH, Hcol.
Qed.
Lemma append_cons c s t : String c s +:+ t = String c (s +:+ t).
Proof. reflexivity. Qed.
Lemma split_address_last host p :
  split_address p = None → split_address (host +:+ ":" +:+ p) = Some (host, p).
Proof.
  intros Hp. induction host as [|c host IH].
  - change ("" +:+ ":" +:+ p) with (String ":" p). simpl. by rewrite Hp.
  - rewrite append_cons. simpl. by rewrite IH.
Qed.

Lemma address_not_flag host p : is_flag host = false → is_flag (host +:+ ":" +:+ p) = false.
Proof.
  destruct host as [|a [|b host]]; [by destruct p|intros _|done]. simpl.
  by rewrite andb_false_r.
Qed.

(** ** Properties *)

(** The command lines that spell the options out. *)
Definition switch (given : bool) (flag : string) : list string := if given then [flag] else [].
Definition worker_argv (w : WorkerArgs) : list string :=
  ["--coordinator"; wa_host w +:+ ":" +:+ to_string_u64 (wa_port w);
   "--name"; wa_name w; "--target"; wa_target w;
   "--latency"; to_string_u64 (wa_latency w); "--throughput"; to_string_u64 (wa_throughput w);
   "--dataset-id"; to_string_u64 (wa_dataset_id w); "--region-id"; to_string_u64 (wa_region_id w);
   "--domain-id"; to_string_u64 (wa_domain_id w);
   "--concurrency"; to_string_u64 (wa_concurrency w)] ++
  switch (wa_synthetic w) "--synthetic" ++ switch (wa_hold_result w) "--hold-result".
Definition coordinator_argv (c : CoordinatorArgs) : list string :=
  ["--port"; to_string_u64 (coa_port c); "--epoch"; to_string_u64 (coa_epoch c);
   "--persist"; coa_persist c].

Definition worker_args_ok (w : WorkerArgs) : Prop :=
  in_u16 (wa_port w) ∧ in_u64 (wa_latency w) ∧ in_u64 (wa_throughput w) ∧
  in_u64 (wa_dataset_id w) ∧ in_u64 (wa_region_id w) ∧ in_u64 (wa_domain_id w) ∧
  in_u32 (wa_concurrency w) ∧ is_flag (wa_host w) = false ∧ is_flag (wa_name w) = false ∧
  is_flag (wa_target w) = false.
Definition coordinator_args_ok (c : CoordinatorArgs) : Prop :=
  in_u16 (coa_port c) ∧ in_u64 (coa_epoch c) ∧ is_flag (coa_persist c) = false.

(** An option with a value, and a switch at the end or before another option. *)
Lemma parse_option f v rest a :
  is_flag f = true → is_flag v = false →
  parse_args (f :: v :: rest) a = parse_args rest (<[flag_key f := v]> a).
Proof. intros Hf Hv. simpl. by rewrite Hf, Hv. Qed.
Lemma parse_switches f g (b1 b2 : bool) a :
  is_flag f = true → is_flag g = true →
  parse_args (switch b1 f ++ switch b2 g) a =
  (if b2 then <[flag_key g := "1"]> else id) ((if b1 then <[flag_key f := "1"]> else id) a).
Proof. intros Hf Hg. destruct b1, b2; simpl; by rewrite ?Hf, ?Hg. Qed.

Lemma parse_port_to_string n : in_u16 n → parse_port (to_string_u64 n) = Some n.
Proof. intros Hn. rewrite parse_port_wraps by ranges. by rewrite Z.mod_small by ranges. Qed.

Lemma worker_args_parse w :
  worker_args_ok w → worker_args (parse_args (worker_argv w) ∅) = Some w.
Proof.
  intros (Hp & Hl & Ht & Hd & Hr & Hm & Hc & Hh & Hn & Hg). unfold worker_argv.
  cbn [app]. rewrite !parse_option by (done || apply to_string_not_flag || by apply address_not_flag).
  rewrite parse_switches by done. unfold worker_args, arg_or, arg_given.
  set (base := <[flag_key "--concurrency" := to_string_u64 (wa_concurrency w)]> _).
  assert (Hk : ∀ k, k ≠ "synthetic" → k ≠ "hold-result" →
    (if wa_hold_result w then <[flag_key "--hold-result" := "1"]> else id)
      ((if wa_synthetic w then <[flag_key "--synthetic" := "1"]> else id) base) !! k = base !! k).
  { intros k H1 H2. change (flag_key "--hold-result") with "hold-result".
    change (flag_key "--synthetic") with "synthetic".
    destruct (wa_hold_result w), (wa_synthetic w); cbn [id]; by rewrite ?lookup_insert_ne by done. }
  rewrite !Hk by done. unfold base. cbn [flag_key].
  change (flag_key "--coordinator") with "coordinator". change (flag_key "--name") with "name".
  change (flag_key "--target") with "target". change (flag_key "--latency") with "latency".
  change (flag_key "--throughput") with "throughput". change (flag_key "--dataset-id") with "dataset-id".
  change (flag_key "--region-id") with "region-id". change (flag_key "--domain-id") with "domain-id".
  change (flag_key "--concurrency") with "concurrency".
  simplify_map_eq. rewrite split_address_last by (apply digits_no_colon, to_string_digits).
  rewrite parse_port_to_string by done. cbn [fmap option_fmap option_map default].
  rewrite !parse_u64_to_string by ranges. rewrite u32_small by done.
  destruct w as [? ? ? ? [] [] ? ? ? ? ? ?]; reflexivity.
Qed.

Lemma coordinator_args_parse c :
  coordinator_args_ok c → coordinator_args (parse_args (coordinator_argv c) ∅) = Some c.
Proof.
  intros (Hp & He & Hf). unfold coordinator_argv.
  rewrite !parse_option by (done || apply to_string_not_flag). cbn [parse_args].
  change (flag_key "--port") with "port". change (flag_key "--epoch") with "epoch".
  change (flag_key "--persist") with "persist".
  unfold coordinator_args, arg_or. simplify_map_eq.
  rewrite parse_port_to_string, stoull_to_string by done. by destruct c.
Qed.

(** Command lines round-trip.  For every worker configuration and every
    coordinator configuration whose numbers fit their types and whose texts do
    not start with two dashes, the command line that spells it out is read back
    as that configuration: the address is cut at its last colon, every number is
    read exactly, a switch is on when it is given. *)
Theorem command_lines_round_trip w c :
  worker_args_ok w → coordinator_args_ok c →
  worker_args (parse_args (worker_argv w) ∅) = Some w ∧
  coordinator_args (parse_args (coordinator_argv c) ∅) = Some c.
Proof. split; [by apply worker_args_parse|by apply coordinator_args_parse]. Qed.

Definition sample_worker_args : WorkerArgs :=
  {| wa_host := "::1"; wa_port := 4242; wa_name := "w1"; wa_target := "t"; wa_synthetic := true;
     wa_hold_result := false; wa_latency := 12000000; wa_throughput := 7; wa_dataset_id := 14;
     wa_region_id := 15; wa_domain_id := 13; wa_concurrency := 2 |}.

Lemma command_lines_round_trip_witness :
  worker_args (parse_args (worker_argv sample_worker_args) ∅) = Some sample_worker_args ∧
  coordinator_args (parse_args ["--port"; "80"; "--epoch"; "3"; "--persist"; "state.bin"] ∅) =
    Some {| coa_port := 80; coa_persist := "state.bin"; coa_epoch := 3 |}.
Proof.
  apply (command_lines_round_trip sample_worker_args
    {| coa_port := 80; coa_persist := "state.bin"; coa_epoch := 3 |}).
  - unfold worker_args_ok, in_u16, in_u64, in_u32. simpl. split_and!; (lia || reflexivity).
  - unfold coordinator_args_ok, in_u16, in_u64. simpl. split_and!; (lia || reflexivity).
Defined.
