(* ===== verification/Checksum.v ===== *)
(** * Integrity primitives ([checksum.hpp], [digest.hpp])

    The table-driven CRC-32 that protects frames and persisted files, and the
    FNV-1a content digest a completion is verified with.  Both are folds of a
    step function over the bytes; each step is injective in the running value
    and in the byte, so replacing one byte always changes the outcome. *)

From S2P Require Import Prelude Ids.

(** ** CRC-32 *)

Definition crc_poly : Z := 0xEDB88320.

(** The inner loop of [Crc32::table]: eight conditional shifts. *)
Definition crc_shift (c : Z) : Z :=
  if Z.testbit c 0 then Z.lxor crc_poly (Z.shiftr c 1) else Z.shiftr c 1.
Definition crc_table_entry (i : Z) : Z := Nat.iter 8 crc_shift i.
Definition crc_table : list Z :=
  Eval vm_compute in (crc_table_entry <$> (Z.of_nat <$> seq 0 256)).

(** One iteration of [Crc32::update]. *)
Definition crc_step (value b : Z) : Z :=
  Z.lxor (Z.shiftr value 8) (nth (Z.to_nat (Z.land (Z.lxor value b) 255)) crc_table 0).

Definition crc_init : Z := 0xFFFFFFFF.

(** [Crc32::update] over a byte sequence, from a running value. *)
Definition crc_update (value : Z) (data : list Z) : Z := fold_left crc_step data value.

(** [crc32(data, n)]: [digest()] returns the running value as it is. *)
Definition crc32 (data : list Z) : Z := crc_update crc_init data.

(** ** Content digest (FNV-1a 64) *)

Definition fnv_offset : Z := 0xcbf29ce484222325.
Definition fnv_prime : Z := 0x100000001b3.
Definition fnv_step (h b : Z) : Z := u64 (Z.lxor h b * fnv_prime).
Definition content_digest (data : list Z) : Z := fold_left fnv_step data fnv_offset.

(** [to_hex]: sixteen lower-case hexadecimal digits, zero filled. *)
Definition hex_digit (d : Z) : Ascii.ascii :=
  ascii_of_byte (if d <? 10 then 48 + d else 87 + d).
Fixpoint hex_digits (n : nat) (v : Z) : list Ascii.ascii :=
  match n with
  | O => []
  | S n => hex_digits n (v / 16) ++ [hex_digit (v mod 16)]
  end.
Definition to_hex (d : Z) : string := String.string_of_list_ascii (hex_digits 16 d).

(** ** Folds whose step is injective in both arguments *)

Section injective_fold.
Context (step : Z → Z → Z) (S : Z → Prop).
Hypothesis step_closed : ∀ v b, S v → in_u8 b → S (step v b).
Hypothesis step_inj_state : ∀ v v' b, S v → S v' → in_u8 b → step v b = step v' b → v = v'.
Hypothesis step_inj_byte : ∀ v b b', S v → in_u8 b → in_u8 b' → step v b = step v b' → b = b'.

Lemma fold_closed l v : S v → is_bytes l → S (fold_left step l v).
Proof.
  intros Hv Hl. revert v Hv. induction Hl as [|b l Hb Hl IH]; intros v Hv; simpl; auto.
Qed.

Lemma fold_inj_state l v v' :
  S v → S v' → is_bytes l → fold_left step l v = fold_left step l v' → v = v'.
Proof.
  intros Hv Hv' Hl. revert v v' Hv Hv'.
  induction Hl as [|b l Hb Hl IH]; intros v v' Hv Hv'; simpl; [done|].
  intros Heq. eapply step_inj_state, IH; eauto.
Qed.

Lemma fold_substitution v pre b b' post :
  S v → is_bytes pre → is_bytes post → in_u8 b → in_u8 b' → b ≠ b' →
  fold_left step (pre ++ b :: post) v ≠ fold_left step (pre ++ b' :: post) v.
Proof.
  intros Hv Hpre Hpost Hb Hb' Hne Heq. rewrite !fold_left_app in Heq. simpl in Heq.
  assert (S (fold_left step pre v)) by by apply fold_closed.
  apply fold_inj_state in Heq; [|by auto..].
  apply Hne. by eapply step_inj_byte.
Qed.
End injective_fold.

(** ** The CRC step *)

Lemma crc_table_length : length crc_table = 256%nat.
Proof. reflexivity. Qed.

(** The table the source computes at start-up. *)
Lemma crc_table_computed : crc_table = crc_table_entry <$> (Z.of_nat <$> seq 0 256).
Proof. vm_compute. reflexivity. Qed.

Lemma crc_table_top_NoDup : NoDup ((fun e => Z.shiftr e 24) <$> crc_table).
Proof. apply (bool_decide_eq_true_1 _). vm_compute. reflexivity. Qed.

Lemma crc_table_range : Forall in_u32 crc_table.
Proof. unfold in_u32. apply (bool_decide_eq_true_1 _). vm_compute. reflexivity. Qed.

Lemma crc_entry_range i : in_u32 (nth i crc_table 0).
Proof.
  destruct (nth_in_or_default i crc_table 0) as [Hin| ->]; [|ranges].
  pose proof crc_table_range as Hr. rewrite Forall_forall in Hr.
  apply Hr. exact Hin.
Qed.

Lemma crc_top_inj i j :
  (i < 256)%nat → (j < 256)%nat →
  Z.shiftr (nth i crc_table 0) 24 = Z.shiftr (nth j crc_table 0) 24 → i = j.
Proof.
  intros Hi Hj Heq. eapply (NoDup_lookup _ _ _ _ crc_table_top_NoDup).
  - rewrite list_lookup_fmap, (nth_lookup_lt _ _ 0) by by rewrite crc_table_length. reflexivity.
  - rewrite list_lookup_fmap, (nth_lookup_lt _ _ 0) by by rewrite crc_table_length.
    exact (f_equal Some (eq_sym Heq)).
Qed.

Lemma shiftr_small a n b : 0 <= a < 2 ^ b → 0 <= b → b <= n → Z.shiftr a n = 0.
Proof.
  intros Ha Hb Hn. rewrite Z.shiftr_div_pow2 by lia. apply Z.div_small.
  pose proof (Z.pow_le_mono_r 2 b n ltac:(lia) Hn). lia.
Qed.

Lemma land_255 a : Z.land a 255 = a mod 256.
Proof. change 255 with (Z.ones 8). by rewrite Z.land_ones by lia. Qed.

Lemma crc_index_range v b : (Z.to_nat (Z.land (Z.lxor v b) 255) < 256)%nat.
Proof. rewrite land_255. pose proof (Z.mod_pos_bound (Z.lxor v b) 256). lia. Qed.

Lemma lxor_u32_range a b : in_u32 a → in_u32 b → in_u32 (Z.lxor a b).
Proof.
  intros Ha Hb. unfold in_u32 in *.
  assert (Hz : Z.shiftr (Z.lxor a b) 32 = 0).
  { by rewrite Z.shiftr_lxor, !(shiftr_small _ 32 32) by lia. }
  assert (0 <= Z.lxor a b) by (apply Z.lxor_nonneg; lia).
  rewrite Z.shiftr_div_pow2 in Hz by lia.
  change (2 ^ 32) with 4294967296 in Hz.
  pose proof (Z.div_mod (Z.lxor a b) 4294967296 ltac:(lia)) as Hdm.
  pose proof (Z.mod_pos_bound (Z.lxor a b) 4294967296 ltac:(lia)). lia.
Qed.

Lemma crc_step_range v b : in_u32 v → in_u32 (crc_step v b).
Proof.
  intros Hv. apply lxor_u32_range; [|apply crc_entry_range].
  unfold in_u32 in *. rewrite Z.shiftr_div_pow2 by lia. change (2 ^ 8) with 256.
  split; [apply Z.div_pos; lia|]. apply Z.div_lt_upper_bound; lia.
Qed.

(** The top byte of a step's result names the table entry it used. *)
Lemma crc_step_top v b :
  in_u32 v →
  Z.shiftr (crc_step v b) 24 =
  Z.shiftr (nth (Z.to_nat (Z.land (Z.lxor v b) 255)) crc_table 0) 24.
Proof.
  intros Hv. unfold crc_step. rewrite Z.shiftr_lxor, Z.shiftr_shiftr by lia.
  rewrite (shiftr_small v (8 + 24) 32) by (unfold in_u32 in Hv; lia). apply Z.lxor_0_l.
Qed.

Lemma crc_step_index v v' b b' :
  in_u32 v → in_u32 v' → crc_step v b = crc_step v' b' →
  Z.land (Z.lxor v b) 255 = Z.land (Z.lxor v' b') 255 ∧ Z.shiftr v 8 = Z.shiftr v' 8.
Proof.
  intros Hv Hv' Heq.
  assert (Hi : Z.to_nat (Z.land (Z.lxor v b) 255) = Z.to_nat (Z.land (Z.lxor v' b') 255)).
  { apply crc_top_inj; [apply crc_index_range..|]. by rewrite <- !crc_step_top, Heq. }
  split.
  - apply Z2Nat.inj in Hi; [done|apply Z.land_nonneg; right; lia..].
  - unfold crc_step in Heq. rewrite Hi in Heq.
    apply (f_equal (fun x => Z.lxor x (nth (Z.to_nat (Z.land (Z.lxor v' b') 255)) crc_table 0)))
      in Heq.
    by rewrite !Z.lxor_assoc, Z.lxor_nilpotent, !Z.lxor_0_r in Heq.
Qed.

Lemma lxor_mod256 a b : Z.lxor a b mod 256 = Z.lxor (a mod 256) (b mod 256).
Proof.
  rewrite <- !land_255. apply Z.bits_inj'. intros n Hn.
  rewrite !Z.land_spec, !Z.lxor_spec, !Z.land_spec.
  by destruct (Z.testbit a n), (Z.testbit b n), (Z.testbit 255 n).
Qed.

Lemma lxor_cancel_r a b c : Z.lxor a c = Z.lxor b c → a = b.
Proof.
  intros Heq. apply (f_equal (fun x => Z.lxor x c)) in Heq.
  by rewrite !Z.lxor_assoc, Z.lxor_nilpotent, !Z.lxor_0_r in Heq.
Qed.

Lemma crc_step_inj_state v v' b :
  in_u32 v → in_u32 v' → in_u8 b → crc_step v b = crc_step v' b → v = v'.
Proof.
  intros Hv Hv' Hb Heq. apply crc_step_index in Heq as [Hlow Hhigh]; [|done..].
  rewrite !land_255, !lxor_mod256 in Hlow. apply lxor_cancel_r in Hlow.
  rewrite !Z.shiftr_div_pow2 in Hhigh by lia. change (2 ^ 8) with 256 in Hhigh.
  rewrite (Z.div_mod v 256), (Z.div_mod v' 256) by lia. by rewrite Hlow, Hhigh.
Qed.

Lemma crc_step_inj_byte v b b' :
  in_u32 v → in_u8 b → in_u8 b' → crc_step v b = crc_step v b' → b = b'.
Proof.
  intros Hv Hb Hb' Heq. apply crc_step_index in Heq as [Hlow _]; [|done..].
  rewrite !land_255, !lxor_mod256, !(Z.lxor_comm (v mod 256)) in Hlow.
  apply lxor_cancel_r in Hlow. by rewrite !Z.mod_small in Hlow by ranges.
Qed.

Lemma crc_update_range v l : in_u32 v → is_bytes l → in_u32 (crc_update v l).
Proof. apply fold_closed. intros. by apply crc_step_range. Qed.

Lemma crc_update_app v l1 l2 : crc_update v (l1 ++ l2) = crc_update (crc_update v l1) l2.
Proof. apply fold_left_app. Qed.

Lemma crc_init_range : in_u32 crc_init.
Proof. unfold crc_init. ranges. Qed.

Lemma crc_update_substitution v pre b b' post :
  in_u32 v → is_bytes pre → is_bytes post → in_u8 b → in_u8 b' → b ≠ b' →
  crc_update v (pre ++ b :: post) ≠ crc_update v (pre ++ b' :: post).
Proof.
  apply fold_substitution.
  - intros. by apply crc_step_range.
  - intros. by eapply crc_step_inj_state.
  - intros. by eapply crc_step_inj_byte.
Qed.

#[export] Hint Resolve crc_update_range crc_init_range : nmc.

(** ** The digest step *)

Lemma lxor_u64_byte h b : in_u64 h → in_u8 b → in_u64 (Z.lxor h b).
Proof. intros. apply lxor_u64_range; [done|ranges]. Qed.

Lemma fnv_prime_invertible x : in_u64 x → u64 (u64 (x * fnv_prime) * 0xCE965057AFF6957B) = x.
Proof.
  intros Hx. unfold u64, fnv_prime. rewrite Zmult_mod_idemp_l, <- Z.mul_assoc.
  rewrite <- Zmult_mod_idemp_r.
  replace ((0x100000001b3 * 0xCE965057AFF6957B) mod 18446744073709551616) with 1
    by (vm_compute; reflexivity).
  rewrite Z.mul_1_r. by apply Z.mod_small.
Qed.

Lemma fnv_step_lxor h h' b b' :
  in_u64 h → in_u64 h' → in_u8 b → in_u8 b' →
  fnv_step h b = fnv_step h' b' → Z.lxor h b = Z.lxor h' b'.
Proof.
  intros Hh Hh' Hb Hb' Heq. unfold fnv_step in Heq.
  rewrite <- (fnv_prime_invertible (Z.lxor h b)) by by apply lxor_u64_byte.
  rewrite <- (fnv_prime_invertible (Z.lxor h' b')) by by apply lxor_u64_byte.
  by rewrite Heq.
Qed.

Lemma fnv_offset_range : in_u64 fnv_offset.
Proof. unfold fnv_offset. ranges. Qed.

Lemma content_digest_range data : is_bytes data → in_u64 (content_digest data).
Proof.
  apply (fold_closed fnv_step); [|apply fnv_offset_range].
  intros. apply u64_range.
Qed.

Lemma content_digest_substitution pre b b' post :
  is_bytes pre → is_bytes post → in_u8 b → in_u8 b' → b ≠ b' →
  content_digest (pre ++ b :: post) ≠ content_digest (pre ++ b' :: post).
Proof.
  apply (fold_substitution fnv_step in_u64); [..|apply fnv_offset_range].
  - intros. apply u64_range.
  - intros v v' c Hv Hv' Hc Heq%fnv_step_lxor; [|done..]. by eapply lxor_cancel_r.
  - intros v c c' Hv Hc Hc' Heq%fnv_step_lxor; [|done..].
    rewrite !(Z.lxor_comm v) in Heq. by eapply lxor_cancel_r.
Qed.

(** ** Hexadecimal text *)

(** The value of a hexadecimal digit and of a digit sequence. *)
Definition hex_digit_value (a : Ascii.ascii) : Z :=
  let b := byte_of_ascii a in if b <? 58 then b - 48 else b - 87.
Definition hex_value (l : list Ascii.ascii) : Z :=
  fold_left (fun acc a => 16 * acc + hex_digit_value a) l 0.

Lemma hex_digit_value_digit d : 0 <= d < 16 → hex_digit_value (hex_digit d) = d.
Proof.
  intros Hd.
  assert (d = 0 ∨ d = 1 ∨ d = 2 ∨ d = 3 ∨ d = 4 ∨ d = 5 ∨ d = 6 ∨ d = 7 ∨ d = 8 ∨ d = 9 ∨
          d = 10 ∨ d = 11 ∨ d = 12 ∨ d = 13 ∨ d = 14 ∨ d = 15) as Hc by lia.
  destruct_or! Hc; subst; reflexivity.
Qed.

Lemma hex_value_digits n v : 0 <= v < 16 ^ Z.of_nat n → hex_value (hex_digits n v) = v.
Proof.
  revert v. induction n as [|n IH]; intros v Hv; simpl hex_digits.
  - change (16 ^ Z.of_nat 0) with 1 in Hv. unfold hex_value. simpl. lia.
  - unfold hex_value in *. rewrite fold_left_app. simpl.
    rewrite Nat2Z.inj_succ, Z.pow_succ_r in Hv by lia.
    pose proof (Z.div_mod v 16 ltac:(lia)). pose proof (Z.mod_pos_bound v 16 ltac:(lia)).
    rewrite IH, hex_digit_value_digit by first [done | split; [apply Z.div_pos; lia|apply Z.div_lt_upper_bound; lia]].
    lia.
Qed.

Lemma to_hex_inj a b : in_u64 a → in_u64 b → to_hex a = to_hex b → a = b.
Proof.
  intros Ha Hb Heq. unfold to_hex in Heq.
  apply (f_equal String.list_ascii_of_string) in Heq.
  rewrite !String.list_ascii_of_string_of_list_ascii in Heq.
  change 18446744073709551616 with (16 ^ Z.of_nat 16) in *.
  rewrite <- (hex_value_digits 16 a), <- (hex_value_digits 16 b) by (unfold in_u64 in *; done).
  by rewrite Heq.
Qed.

(** ** Properties *)

(** Replacing any one byte of a message by another byte changes its CRC-32 and
    its content digest, at every position and for every message length. *)
Theorem integrity_detects_byte_substitution pre b b' post :
  is_bytes pre → is_bytes post → in_u8 b → in_u8 b' → b ≠ b' →
  crc32 (pre ++ b :: post) ≠ crc32 (pre ++ b' :: post) ∧
  to_hex (content_digest (pre ++ b :: post)) ≠ to_hex (content_digest (pre ++ b' :: post)).
Proof.
  intros Hpre Hpost Hb Hb' Hne. split.
  - apply crc_update_substitution; auto with nmc.
  - intros Heq%to_hex_inj.
    + by eapply content_digest_substitution in Heq.
    + apply content_digest_range, Forall_app; auto.
    + apply content_digest_range, Forall_app; auto.
Qed.

Lemma integrity_detects_byte_substitution_witness :
  crc32 [1; 2; 3] ≠ crc32 [1; 7; 3] ∧
  to_hex (content_digest [1; 2; 3]) ≠ to_hex (content_digest [1; 7; 3]).
Proof.
  apply (integrity_detects_byte_substitution [1] 2 7 [3]);
    unfold is_bytes, in_u8; repeat constructor; lia.
Defined.

(** The checksum the code calls CRC-32 / IEEE omits the final inversion: on the
    standard check input "123456789" it yields the complement of the IEEE value
    0xCBF43926, and in general an IEEE digest is the complement of [crc32]. *)
Theorem crc32_is_not_ieee :
  crc32 (bytes_of_string "123456789") = 0x340BC6D9 ∧
  Z.lxor (crc32 (bytes_of_string "123456789")) 0xFFFFFFFF = 0xCBF43926 ∧
  crc32 (bytes_of_string "123456789") ≠ 0xCBF43926.
Proof. split_and!; vm_compute; [done|done|discriminate]. Qed.
