(* ===== verification/Codec.v ===== *)
(** * The bounded binary codec ([codec.hpp])

    [ByteReader] is the source's cursor over a buffer (data, size, position);
    a decoder is a function from a reader to a value and the advanced reader,
    or nothing ([return false] / [return std::nullopt]).  [ByteWriter] is a
    buffer that only grows: a [write_*] is the bytes it appends, and a
    sequence of writes their concatenation.  Integers are stored in the host
    byte order of the supported platform, little endian; a [double] travels as
    its 64-bit pattern.

    [reads p bs a] is the interface the message codecs are proved against: at
    any position of any buffer where the bytes [bs] stand, [p] answers [a] and
    moves just past them. *)

From S2P Require Import Prelude Enums Ids.

Definition kMaxCodecBlobBytes : Z := 64 * 1024 * 1024.

(** ** Little-endian integers *)

Fixpoint le_bytes (n : nat) (v : Z) : list Z :=
  match n with
  | O => []
  | S n => v mod 256 :: le_bytes n (v / 256)
  end.
Fixpoint le_value (l : list Z) : Z :=
  match l with
  | [] => 0
  | b :: l => b + 256 * le_value l
  end.

(** ** [ByteReader] *)

Record ByteReader := { data_ : list Z; pos_ : nat }.

Definition size_ (r : ByteReader) : nat := length (data_ r).
Definition remaining (r : ByteReader) : nat := (size_ r - pos_ r)%nat.
Definition at_end (r : ByteReader) : bool := Nat.leb (size_ r) (pos_ r).
Definition advance (n : nat) (r : ByteReader) : ByteReader :=
  {| data_ := data_ r; pos_ := (pos_ r + n)%nat |}.

Definition Reader (A : Type) : Type := ByteReader → option (A * ByteReader).
Definition rret {A} (a : A) : Reader A := fun r => Some (a, r).
Definition rfail {A} : Reader A := fun _ => None.
Definition rbind {A B} (p : Reader A) (k : A → Reader B) : Reader B :=
  fun r => match p r with Some (a, r') => k a r' | None => None end.

Notation "'let!' x := p 'in' k" := (rbind p (fun x => k))
  (at level 10, x binder, p at level 100, k at level 200,
   format "'[v' 'let!'  x  :=  p  'in' '/' k ']'") : nmc_scope.

(** [if (!r.read_x(a)) return e; ...] on a reader in hand. *)
Notation "'read?' a , r := o 'otherwise' e 'in' k" :=
  (match o with Some (a, r) => k | None => e end)
  (at level 10, a name, r name, o at level 100, e at level 100, k at level 200,
   only parsing) : nmc_scope.

(** [read_fixed]: bounds first, then the copy. *)
Definition read_fixed (n : nat) : Reader (list Z) := fun r =>
  if Nat.ltb (remaining r) n then None
  else Some (take n (drop (pos_ r) (data_ r)), advance n r).

Definition read_uint (n : nat) : Reader Z :=
  let! bs := read_fixed n in rret (le_value bs).
Definition read_u8 : Reader Z := read_uint 1.
Definition read_u16 : Reader Z := read_uint 2.
Definition read_u32 : Reader Z := read_uint 4.
Definition read_u64 : Reader Z := read_uint 8.
Definition read_i64 : Reader Z :=
  let! v := read_uint 8 in
  rret (if v <? 9223372036854775808 then v else v - 18446744073709551616).
Definition read_f64 : Reader Z := read_uint 8.

(** [read_span]: a view of the next [n] bytes. *)
Definition read_span (n : Z) : Reader (list Z) := fun r =>
  match checked_mul_u64 n 1 with
  | None => None
  | Some _ =>
      if Z.of_nat (remaining r) <? n then None
      else Some (take (Z.to_nat n) (drop (pos_ r) (data_ r)), advance (Z.to_nat n) r)
  end.

(** [read_blob] and [read_string]: a 64-bit length, bounded by
    [kMaxCodecBlobBytes] and by what remains, then the bytes. *)
Definition read_blob : Reader (list Z) :=
  let! len := read_u64 in
  fun r =>
    if kMaxCodecBlobBytes <? len then None
    else if Z.of_nat (remaining r) <? len then None
    else Some (take (Z.to_nat len) (drop (pos_ r) (data_ r)), advance (Z.to_nat len) r).
Definition read_string : Reader string :=
  let! bs := read_blob in rret (string_of_bytes bs).

Definition skip (n : Z) : Reader unit := fun r =>
  if Z.of_nat (remaining r) <? n then None else Some (tt, advance (Z.to_nat n) r).

(** The decoders' counted loops: [for (i = 0; i < n && i < cap; ++i)]. *)
Fixpoint read_times {A} (n : nat) (p : Reader A) : Reader (list A) :=
  match n with
  | O => rret []
  | S n => let! a := p in let! l := read_times n p in rret (a :: l)
  end.
Definition read_capped {A} (n cap : Z) (p : Reader A) : Reader (list A) :=
  read_times (Z.to_nat (Z.min n cap)) p.

(** ** [ByteWriter] *)

Definition write_u8 (v : Z) : list Z := le_bytes 1 v.
Definition write_u16 (v : Z) : list Z := le_bytes 2 v.
Definition write_u32 (v : Z) : list Z := le_bytes 4 v.
Definition write_u64 (v : Z) : list Z := le_bytes 8 v.
Definition write_i64 (v : Z) : list Z := le_bytes 8 v.
Definition write_f64 (v : Z) : list Z := le_bytes 8 v.
Definition write_raw (data : list Z) : list Z := data.
Definition write_blob (data : list Z) : list Z :=
  write_u64 (Z.of_nat (length data)) ++ data.
Definition write_string (s : string) : list Z := write_blob (bytes_of_string s).

(** [w.write_u8(b ? 1 : 0)] and [v != 0]. *)
Definition write_bool (b : bool) : list Z := write_u8 (if b then 1 else 0).
Definition read_bool : Reader bool :=
  let! v := read_u8 in rret (negb (v =? 0)).

(** [w.write_u16(static_cast<std::uint16_t>(e))] and
    [static_cast<E>(raw)]. *)
Definition write_enum16 {E} `{CEnum E} (e : E) : list Z := write_u16 (u16 (to_int e)).
Definition read_enum16 {E} `{CEnum E} : Reader E :=
  let! v := read_u16 in rret (enum_of_int v).

Definition write_list {A} (enc : A → list Z) (l : list A) : list Z := concat (enc <$> l).

(** ** Little-endian lemmas *)

Lemma le_bytes_length n v : length (le_bytes n v) = n.
Proof. revert v. induction n; intros; simpl; auto. Qed.

Lemma le_bytes_range n v : is_bytes (le_bytes n v).
Proof.
  revert v. induction n; intros; simpl; constructor; [|apply IHn].
  unfold in_u8. apply Z.mod_pos_bound. lia.
Qed.

Lemma is_bytes_app a b : is_bytes a → is_bytes b → is_bytes (a ++ b).
Proof. apply Forall_app_2. Qed.
Lemma write_u16_bytes v : is_bytes (write_u16 v).
Proof. apply le_bytes_range. Qed.
Lemma write_u32_bytes v : is_bytes (write_u32 v).
Proof. apply le_bytes_range. Qed.
Lemma write_u64_bytes v : is_bytes (write_u64 v).
Proof. apply le_bytes_range. Qed.
Lemma write_enum16_bytes {E} `{CEnum E} (e : E) : is_bytes (write_enum16 e).
Proof. apply le_bytes_range. Qed.
#[export] Hint Resolve is_bytes_app write_u16_bytes write_u32_bytes write_u64_bytes write_enum16_bytes
  : nmc_codec.
Lemma write_string_bytes s : is_bytes (write_string s).
Proof. apply is_bytes_app; [apply write_u64_bytes|apply bytes_of_string_range]. Qed.
Lemma write_bool_bytes b : is_bytes (write_bool b).
Proof. apply le_bytes_range. Qed.
Lemma write_f64_bytes v : is_bytes (write_f64 v).
Proof. apply le_bytes_range. Qed.
Lemma write_list_bytes {A} (put : A → list Z) l :
  (∀ a, is_bytes (put a)) → is_bytes (write_list put l).
Proof.
  intros Hput. unfold write_list. induction l as [|a l IH]; [by apply Forall_nil|].
  simpl. by apply is_bytes_app.
Qed.
Lemma write_blob_bytes l : is_bytes l → is_bytes (write_blob l).
Proof. intros. apply is_bytes_app; [apply write_u64_bytes|done]. Qed.
#[export] Hint Resolve write_string_bytes write_bool_bytes write_f64_bytes write_blob_bytes : nmc_codec.

(** The lengths of the encodings. *)
Lemma write_u64_length v : length (write_u64 v) = 8%nat.
Proof. reflexivity. Qed.
Lemma write_enum16_length {E} `{CEnum E} (e : E) : length (write_enum16 e) = 2%nat.
Proof. reflexivity. Qed.
Lemma write_bool_length b : length (write_bool b) = 1%nat.
Proof. reflexivity. Qed.
Lemma write_blob_length l : length (write_blob l) = (8 + length l)%nat.
Proof. reflexivity. Qed.
Lemma write_string_length s : length (write_string s) = (8 + String.length s)%nat.
Proof. unfold write_string. by rewrite write_blob_length, bytes_of_string_length. Qed.
Create Rewrite HintDb nmc_length.
#[export] Hint Rewrite @length_app write_u64_length @write_enum16_length write_bool_length
  write_blob_length write_string_length : nmc_length.

Lemma le_value_bytes n v : le_value (le_bytes n v) = v mod 256 ^ Z.of_nat n.
Proof.
  revert v. induction n as [|n IH]; intros v; simpl.
  - by rewrite Z.mod_1_r.
  - rewrite IH. rewrite Nat2Z.inj_succ, Z.pow_succ_r by lia.
    rewrite (Z.rem_mul_r v 256) by (try apply Z.pow_pos_nonneg; lia). lia.
Qed.

Lemma le_value_range l : is_bytes l → 0 <= le_value l < 256 ^ Z.of_nat (length l).
Proof.
  induction 1 as [|b l Hb Hl IH]; simpl le_value; simpl length; [done|].
  rewrite Nat2Z.inj_succ, Z.pow_succ_r by lia. ranges.
Qed.

Lemma le_bytes_value l : is_bytes l → le_bytes (length l) (le_value l) = l.
Proof.
  induction 1 as [|b l Hb Hl IH]; simpl; [done|]. unfold in_u8 in Hb.
  assert ((b + 256 * le_value l) mod 256 = b) as ->.
  { symmetry. apply (Z.mod_unique _ _ (le_value l)); lia. }
  assert ((b + 256 * le_value l) / 256 = le_value l) as ->.
  { symmetry. apply (Z.div_unique _ _ _ b); lia. }
  by rewrite IH.
Qed.

Lemma write_u32_inj a b : in_u32 a → in_u32 b → write_u32 a = write_u32 b → a = b.
Proof.
  intros Ha Hb Heq. apply (f_equal le_value) in Heq. change write_u32 with (le_bytes 4) in Heq.
  by rewrite !le_value_bytes, !Z.mod_small in Heq.
Qed.
Lemma write_u64_inj a b : in_u64 a → in_u64 b → write_u64 a = write_u64 b → a = b.
Proof.
  intros Ha Hb Heq. apply (f_equal le_value) in Heq. change write_u64 with (le_bytes 8) in Heq.
  by rewrite !le_value_bytes, !Z.mod_small in Heq.
Qed.

Lemma substituted_bytes pre b b' post :
  is_bytes (pre ++ b :: post) → in_u8 b' → is_bytes (pre ++ b' :: post).
Proof.
  unfold is_bytes. rewrite !Forall_app, !Forall_cons_iff. intuition.
Qed.

(** ** The [reads] interface *)

Definition reads {A} (p : Reader A) (bs : list Z) (a : A) : Prop :=
  ∀ pre rest,
    p {| data_ := pre ++ bs ++ rest; pos_ := length pre |} =
    Some (a, {| data_ := pre ++ bs ++ rest; pos_ := (length pre + length bs)%nat |}).

Lemma reads_ret {A} (a : A) : reads (rret a) [] a.
Proof. intros pre rest. unfold rret. do 3 f_equal. simpl. lia. Qed.

Lemma reads_bind {A B} (p : Reader A) (k : A → Reader B) b1 b2 a c :
  reads p b1 a → reads (k a) b2 c → reads (rbind p k) (b1 ++ b2) c.
Proof.
  intros Hp Hk pre rest. unfold rbind.
  rewrite <- (app_assoc b1 b2 rest), Hp.
  specialize (Hk (pre ++ b1) rest). rewrite length_app, <- app_assoc in Hk.
  rewrite Hk, length_app. do 3 f_equal. lia.
Qed.

(** The last field of a message. *)
Lemma reads_bind_last {A B} (p : Reader A) (k : A → Reader B) bs a c :
  reads p bs a → reads (k a) [] c → reads (rbind p k) bs c.
Proof. intros Hp Hk. rewrite <- (app_nil_r bs). by eapply reads_bind. Qed.

Lemma reads_fixed bs : reads (read_fixed (length bs)) bs bs.
Proof.
  intros pre rest. unfold read_fixed, remaining, size_, advance. simpl.
  rewrite !length_app. destruct (Nat.ltb_spec (length pre + (length bs + length rest) - length pre) (length bs)).
  - lia.
  - by rewrite drop_app_length, take_app_length.
Qed.

Lemma reads_uint n v : 0 <= v < 256 ^ Z.of_nat n → reads (read_uint n) (le_bytes n v) v.
Proof.
  intros Hv. apply reads_bind_last with (a := le_bytes n v).
  - rewrite <- (le_bytes_length n v) at 1. apply reads_fixed.
  - rewrite le_value_bytes, Z.mod_small by done. apply reads_ret.
Qed.

Lemma reads_u8 v : in_u8 v → reads read_u8 (write_u8 v) v.
Proof. intros. by apply (reads_uint 1). Qed.
Lemma reads_u16 v : in_u16 v → reads read_u16 (write_u16 v) v.
Proof. intros. by apply (reads_uint 2). Qed.
Lemma reads_u32 v : in_u32 v → reads read_u32 (write_u32 v) v.
Proof. intros. by apply (reads_uint 4). Qed.
Lemma reads_u64 v : in_u64 v → reads read_u64 (write_u64 v) v.
Proof. intros. by apply (reads_uint 8). Qed.
Lemma reads_f64 v : in_u64 v → reads read_f64 (write_f64 v) v.
Proof. intros. by apply (reads_uint 8). Qed.

Lemma reads_i64 v :
  -9223372036854775808 <= v < 9223372036854775808 → reads read_i64 (write_i64 v) v.
Proof.
  intros Hv. unfold read_i64, write_i64.
  set (w := v mod 18446744073709551616).
  assert (Hw : le_bytes 8 v = le_bytes 8 w).
  { rewrite <- (le_bytes_value (le_bytes 8 v)), le_bytes_length, le_value_bytes
      by apply le_bytes_range. done. }
  rewrite Hw. apply reads_bind_last with (a := w).
  - apply reads_uint. subst w. apply Z.mod_pos_bound. lia.
  - replace (if w <? 9223372036854775808 then w else w - 18446744073709551616) with v; [apply reads_ret|].
    subst w. destruct (Z.leb_spec 0 v).
    + rewrite Z.mod_small by lia. by destruct (Z.ltb_spec v 9223372036854775808); lia.
    + rewrite <- (Z.mod_unique v _ (-1) (v + 18446744073709551616)) by lia.
      by destruct (Z.ltb_spec (v + 18446744073709551616) 9223372036854775808); lia.
Qed.

(** A byte sequence a blob or string may hold. *)
Definition blob_ok (l : list Z) : Prop := Z.of_nat (length l) <= kMaxCodecBlobBytes.
Definition string_ok (s : string) : Prop := Z.of_nat (String.length s) <= kMaxCodecBlobBytes.

Lemma reads_blob l : blob_ok l → reads read_blob (write_blob l) l.
Proof.
  intros Hl. unfold blob_ok, kMaxCodecBlobBytes in Hl. eapply reads_bind.
  - apply reads_u64. ranges.
  - intros pre rest. unfold remaining, size_, advance. simpl.
    rewrite !length_app, Nat2Z.id, drop_app_length, take_app_length.
    unfold kMaxCodecBlobBytes. rewrite (proj2 (Z.ltb_ge _ _)) by lia.
    by rewrite (proj2 (Z.ltb_ge _ _)) by lia.
Qed.

Lemma reads_string s : string_ok s → reads read_string (write_string s) s.
Proof.
  intros Hs. apply reads_bind_last with (a := bytes_of_string s).
  - apply reads_blob. unfold blob_ok. by rewrite bytes_of_string_length.
  - rewrite string_of_bytes_of_string. apply reads_ret.
Qed.

Lemma reads_bool b : reads read_bool (write_bool b) b.
Proof.
  unfold read_bool, write_bool.
  eapply reads_bind_last; [apply reads_u8; destruct b; ranges|]. destruct b; apply reads_ret.
Qed.

Lemma reads_enum16 {E} `{CEnum E} (e : E) :
  canonical e → in_u16 (to_int e) → reads read_enum16 (write_enum16 e) e.
Proof.
  intros Hc Hr. unfold read_enum16, write_enum16.
  eapply reads_bind_last; [apply reads_u16; unfold u16; apply Z.mod_pos_bound; lia|].
  unfold u16. rewrite Z.mod_small, Hc by done. apply reads_ret.
Qed.

Lemma reads_times {A} (p : Reader A) (enc : A → list Z) (l : list A) :
  Forall (fun a => reads p (enc a) a) l →
  reads (read_times (length l) p) (write_list enc l) l.
Proof.
  induction 1 as [|a l Ha Hl IH]; simpl; [apply reads_ret|].
  unfold write_list in *. simpl. eapply reads_bind; [done|].
  eapply reads_bind_last; [done|apply reads_ret].
Qed.

Lemma reads_capped {A} (p : Reader A) (enc : A → list Z) (l : list A) cap :
  Forall (fun a => reads p (enc a) a) l → Z.of_nat (length l) <= cap →
  reads (read_capped (Z.of_nat (length l)) cap p) (write_list enc l) l.
Proof.
  intros Hl Hcap. unfold read_capped. rewrite Z.min_l, Nat2Z.id by done. by apply reads_times.
Qed.

(** What a decoder answers on exactly the encoded bytes. *)
Lemma reads_whole {A} (p : Reader A) bs a :
  reads p bs a → p {| data_ := bs; pos_ := 0 |} = Some (a, {| data_ := bs; pos_ := length bs |}).
Proof. intros H. specialize (H [] []). simpl in H. by rewrite app_nil_r in H. Qed.

#[export] Hint Resolve reads_u8 reads_u16 reads_u32 reads_u64 reads_f64 reads_i64
  reads_blob reads_string reads_bool reads_enum16 reads_ret : nmc_codec.

(** Read a message field by field. *)
Ltac reads_step :=
  lazymatch goal with
  | |- reads (rbind _ _) (_ ++ _) _ => eapply reads_bind
  | |- reads (rbind _ _) _ _ => eapply reads_bind_last
  end.

(** ** Decoders on arbitrary bytes

    [bounded p Q]: on any buffer of bytes, when [p] accepts, the buffer is
    unchanged, the cursor moved forward and stayed within the buffer, and the
    value satisfies [Q]. *)

Definition in_bounds (r : ByteReader) : Prop := is_bytes (data_ r) ∧ (pos_ r ≤ size_ r)%nat.

Definition bounded {A} (p : Reader A) (Q : A → Prop) : Prop :=
  ∀ r a r', in_bounds r → p r = Some (a, r') →
    data_ r' = data_ r ∧ (pos_ r ≤ pos_ r' ≤ size_ r)%nat ∧ Q a.

Lemma bounded_after {A} (p : Reader A) Q r a r' :
  bounded p Q → in_bounds r → p r = Some (a, r') → in_bounds r' ∧ Q a.
Proof.
  intros Hp Hr Heq. destruct (Hp r a r' Hr Heq) as (Hd & Hpos & HQ).
  split; [|done]. destruct Hr as [Hb _]. split.
  - by rewrite Hd.
  - unfold size_ in *. rewrite Hd. lia.
Qed.

Lemma bounded_ret {A} (a : A) (Q : A → Prop) : Q a → bounded (rret a) Q.
Proof. intros HQ r b r' [_ Hr] [= -> ->]. done. Qed.

Lemma bounded_fail {A} (Q : A → Prop) : bounded rfail Q.
Proof. intros r b r' _ [=]. Qed.

Lemma bounded_bind {A B} (p : Reader A) (k : A → Reader B) Q1 Q2 :
  bounded p Q1 → (∀ a, Q1 a → bounded (k a) Q2) → bounded (rbind p k) Q2.
Proof.
  intros Hp Hk r b r' Hr. unfold rbind. destruct (p r) as [[a r1]|] eqn:Hpr; [|done].
  intros Hkr. destruct (Hp _ _ _ Hr Hpr) as (Hd1 & Hpos1 & HQ1).
  destruct (bounded_after _ _ _ _ _ Hp Hr Hpr) as [Hr1 _].
  destruct (Hk a HQ1 _ _ _ Hr1 Hkr) as (Hd & Hpos & HQ).
  split_and!; [congruence| | |done]; unfold size_ in *; rewrite Hd1 in *; lia.
Qed.

Lemma bounded_impl {A} (p : Reader A) (Q1 Q2 : A → Prop) :
  bounded p Q1 → (∀ a, Q1 a → Q2 a) → bounded p Q2.
Proof. intros Hp Himp r a r' Hr Heq. destruct (Hp r a r' Hr Heq) as (? & ? & ?). auto. Qed.

Lemma bounded_take n r :
  in_bounds r → (n ≤ remaining r)%nat →
  is_bytes (take n (drop (pos_ r) (data_ r))) ∧
  length (take n (drop (pos_ r) (data_ r))) = n.
Proof.
  intros [Hb Hp] Hn. unfold remaining, size_ in *. split.
  - apply Forall_take, Forall_drop, Hb.
  - rewrite length_take, length_drop. lia.
Qed.

Lemma bounded_fixed n : bounded (read_fixed n) (fun l => is_bytes l ∧ length l = n).
Proof.
  intros r l r' Hr. unfold read_fixed. destruct (Nat.ltb_spec (remaining r) n); [done|].
  intros [= <- <-]. split_and!; simpl; try done; try (unfold remaining in *; destruct Hr; lia).
  all: apply bounded_take; done.
Qed.

Lemma bounded_uint n : bounded (read_uint n) (fun v => 0 <= v < 256 ^ Z.of_nat n).
Proof.
  eapply bounded_bind; [apply bounded_fixed|]. intros l [Hl <-].
  apply bounded_ret. by apply le_value_range.
Qed.

Lemma bounded_u8 : bounded read_u8 in_u8.
Proof. apply bounded_uint. Qed.
Lemma bounded_u16 : bounded read_u16 in_u16.
Proof. apply bounded_uint. Qed.
Lemma bounded_u32 : bounded read_u32 in_u32.
Proof. apply bounded_uint. Qed.
Lemma bounded_u64 : bounded read_u64 in_u64.
Proof. apply bounded_uint. Qed.
Lemma bounded_f64 : bounded read_f64 in_u64.
Proof. apply bounded_uint. Qed.

Lemma bounded_blob : bounded read_blob (fun l => is_bytes l ∧ blob_ok l).
Proof.
  eapply bounded_bind; [apply bounded_u64|]. intros len Hlen r l r' Hr.
  destruct (Z.ltb_spec kMaxCodecBlobBytes len); [done|].
  destruct (Z.ltb_spec (Z.of_nat (remaining r)) len) as [|Hrem]; [done|]. intros [= <- <-].
  destruct (bounded_take (Z.to_nat len) r Hr) as [Hb Hl]; [lia|].
  split_and!; simpl; [done|lia| |done|].
  - unfold remaining in Hrem. destruct Hr as [_ ?]. lia.
  - unfold blob_ok. rewrite Hl. ranges.
Qed.

Lemma string_of_bytes_length l : String.length (string_of_bytes l) = length l.
Proof. induction l; simpl; [done|]. by f_equal. Qed.

Lemma bounded_string : bounded read_string string_ok.
Proof.
  eapply bounded_bind; [apply bounded_blob|]. intros l [_ Hl]. apply bounded_ret.
  unfold string_ok. by rewrite string_of_bytes_length.
Qed.

Lemma bounded_bool : bounded read_bool (fun _ => True).
Proof. eapply bounded_bind; [apply bounded_u8|]. intros. by apply bounded_ret. Qed.

(** A wire enumeration comes back canonical, but need not name an
    enumerator. *)
Definition wire_enum {E} `{CEnum E} (e : E) : Prop := canonical e ∧ in_u16 (to_int e).

Lemma write_enum16_of_int {E} `{CEnumLaws E} z :
  in_u16 z → write_enum16 (enum_of_int (E:=E) z) = write_u16 z.
Proof. intros Hz. unfold write_enum16, u16. by rewrite to_int_of_int, Z.mod_small. Qed.

Lemma bounded_enum16 {E} `{CEnumLaws E} : bounded (read_enum16 (E:=E)) wire_enum.
Proof.
  eapply bounded_bind; [apply bounded_u16|]. intros v Hv. apply bounded_ret. split.
  - apply enum_of_int_canonical.
  - by rewrite to_int_of_int.
Qed.

Lemma bounded_times {A} (p : Reader A) Q n :
  bounded p Q → bounded (read_times n p) (fun l => Forall Q l ∧ length l = n).
Proof.
  intros Hp. induction n as [|n IH]; simpl; [by apply bounded_ret|].
  eapply bounded_bind; [done|]. intros a Ha. eapply bounded_bind; [done|].
  intros l [Hl Hlen]. apply bounded_ret. simpl. auto.
Qed.

Lemma bounded_capped {A} (p : Reader A) Q n cap :
  bounded p Q → 0 <= cap →
  bounded (read_capped n cap p) (fun l => Forall Q l ∧ Z.of_nat (length l) <= cap).
Proof.
  intros Hp Hcap. eapply bounded_impl; [by apply bounded_times|].
  intros l [Hl Hlen]. split; [done|]. lia.
Qed.

#[export] Hint Resolve bounded_u8 bounded_u16 bounded_u32 bounded_u64 bounded_f64
  bounded_blob bounded_string bounded_bool : nmc_bounds.

(** ** Exactness of the fixed-width reads

    [exact p enc]: what [p] consumed is precisely the encoding of what it
    answered. *)

Definition exact {A} (p : Reader A) (enc : A → list Z) : Prop :=
  ∀ r a r', in_bounds r → p r = Some (a, r') →
    in_bounds r' ∧ data_ r' = data_ r ∧
    drop (pos_ r) (data_ r) = enc a ++ drop (pos_ r') (data_ r').

Lemma exact_fixed n : exact (read_fixed n) id.
Proof.
  intros r l r' Hr Heq. destruct (bounded_after _ _ _ _ _ (bounded_fixed n) Hr Heq) as [Hr' _].
  split; [done|]. unfold read_fixed in Heq. destruct (Nat.ltb _ _); simplify_eq. simpl.
  split; [done|]. unfold id. by rewrite <- drop_drop, take_drop.
Qed.

Lemma exact_uint n : exact (read_uint n) (le_bytes n).
Proof.
  intros r v r' Hr Heq. unfold read_uint, rbind in Heq.
  destruct (read_fixed n r) as [[l r1]|] eqn:Hf; simplify_eq/=.
  destruct (exact_fixed n _ _ _ Hr Hf) as (Hr1 & Hd & Hdrop).
  destruct (bounded_fixed n _ _ _ Hr Hf) as (_ & _ & Hb & Hl).
  unfold rret in Heq. simplify_eq. split_and!; [done..|]. rewrite Hdrop. f_equal.
  by rewrite le_bytes_value.
Qed.

Lemma exact_u16 : exact read_u16 write_u16.
Proof. apply exact_uint. Qed.
Lemma exact_u32 : exact read_u32 write_u32.
Proof. apply exact_uint. Qed.
Lemma exact_u64 : exact read_u64 write_u64.
Proof. apply exact_uint. Qed.

Lemma exact_span n : 0 <= n → exact (read_span n) (fun l => l).
Proof.
  intros Hn r l r' Hr Heq. unfold read_span in Heq. case_match; [|done].
  destruct (Z.ltb_spec (Z.of_nat (remaining r)) n); simplify_eq. simpl.
  unfold remaining, size_ in *. destruct Hr as [Hb Hp]. unfold size_ in Hp. split_and!.
  - split; [done|]. unfold size_. simpl. lia.
  - done.
  - by rewrite <- drop_drop, take_drop.
Qed.

Lemma read_span_length n r l r' :
  0 <= n → in_bounds r → read_span n r = Some (l, r') →
  Z.of_nat (length l) = n ∧ is_bytes l.
Proof.
  intros Hn Hr Heq. unfold read_span in Heq. case_match; [|done].
  destruct (Z.ltb_spec (Z.of_nat (remaining r)) n); simplify_eq.
  destruct (bounded_take (Z.to_nat n) r Hr) as [? Hl]; [lia|]. rewrite Hl. split; [lia|done].
Qed.
