(* ===== verification/Double.v ===== *)
(** * Floating point ([double], [long double])

    A [double] is its binary64 bit pattern, a 64-bit [Z]: this is what the
    codec stores, and the comparisons the sources use ([<], [>], [!=]) are
    defined on it as IEEE 754 defines them (NaN is unordered, the two zeros
    are equal, every other pattern is ordered by sign and magnitude).  The
    cost model converts with [long double] arithmetic, which the supported
    compiler (MSVC) implements as binary64; that arithmetic is the Standard
    Library's executable specification [SpecFloat] at precision 53. *)

From Stdlib Require Import SpecFloat.
From S2P Require Import Prelude.

(** ** Comparisons on bit patterns *)

Definition f64_exp (b : Z) : Z := (b / 2 ^ 52) mod 2048.
Definition f64_frac (b : Z) : Z := b mod 2 ^ 52.
Definition f64_sign (b : Z) : bool := 2 ^ 63 <=? b.
Definition f64_is_nan (b : Z) : bool := (f64_exp b =? 2047) && negb (f64_frac b =? 0).

(** Sign and magnitude as one integer: ordered like the numbers. *)
Definition f64_key (b : Z) : Z :=
  if f64_sign b then - (b mod 2 ^ 63) else b mod 2 ^ 63.

Definition f64_lt (a b : Z) : bool :=
  negb (f64_is_nan a) && negb (f64_is_nan b) && (f64_key a <? f64_key b).
Definition f64_gt (a b : Z) : bool := f64_lt b a.
Definition f64_ne (a b : Z) : bool :=
  f64_is_nan a || f64_is_nan b || negb (f64_key a =? f64_key b).

(** Some patterns: 0.0, 0.5, 0.95 and a quiet NaN. *)
Definition f64_zero : Z := 0.
Definition f64_half : Z := 0x3FE0000000000000.
Definition f64_0_95 : Z := 0x3FEE666666666666.
Definition f64_qnan : Z := 0x7FF8000000000000.

Lemma f64_lt_irrefl a : f64_lt a a = false.
Proof. unfold f64_lt. rewrite Z.ltb_irrefl. by rewrite andb_false_r. Qed.

Lemma f64_lt_key a b :
  f64_is_nan a = false → f64_is_nan b = false → f64_lt a b = (f64_key a <? f64_key b).
Proof. intros Ha Hb. unfold f64_lt. by rewrite Ha, Hb. Qed.

Lemma f64_ne_key a b :
  f64_is_nan a = false → f64_is_nan b = false → f64_ne a b = negb (f64_key a =? f64_key b).
Proof. intros Ha Hb. unfold f64_ne. by rewrite Ha, Hb. Qed.

(** ** [long double] arithmetic *)

Definition ld_prec : Z := 53.
Definition ld_emax : Z := 1024.

(** [static_cast<long double>(u)]: round to nearest, ties to even. *)
Definition ld_of_u64 (u : Z) : spec_float := binary_normalize ld_prec ld_emax u 0 false.
Definition ld_mul : spec_float → spec_float → spec_float := SFmul ld_prec ld_emax.
Definition ld_div : spec_float → spec_float → spec_float := SFdiv ld_prec ld_emax.

(** The integer part of a finite value, towards zero. *)
Definition ld_trunc (f : spec_float) : option Z :=
  match f with
  | S754_zero _ => Some 0
  | S754_finite s m e =>
      let a := if 0 <=? e then Z.pos m * 2 ^ e else Z.pos m / 2 ^ (- e) in
      Some (if s then - a else a)
  | S754_infinity _ | S754_nan => None
  end.

(** [static_cast<std::uint64_t>(f)] is defined when the truncated value fits;
    [ld_cast_defined] says so, and [ld_to_u64] is the value (outside its domain,
    where C++ leaves the behaviour undefined, the model reduces modulo 2^64). *)
Definition ld_cast_defined (f : spec_float) : bool :=
  match ld_trunc f with
  | Some z => (0 <=? z) && (z <=? UINT64_MAX)
  | None => false
  end.
Definition ld_to_u64 (f : spec_float) : Z :=
  match ld_trunc f with Some z => u64 z | None => 0 end.

(** ** [std::to_string(double)]

    The [%f] format: sign, integer part, a dot and six decimals, rounded to
    nearest with ties to even. *)

Definition round_half_even (n d : Z) : Z :=
  let q := n / d in
  let r := n mod d in
  if 2 * r <? d then q
  else if d <? 2 * r then q + 1
  else if Z.even q then q else q + 1.

(** The magnitude of a finite pattern in millionths. *)
Definition f64_millionths (b : Z) : Z :=
  let e := f64_exp b in
  let m := if e =? 0 then f64_frac b else 2 ^ 52 + f64_frac b in
  let s := (if e =? 0 then 1 else e) - 1075 in
  if 0 <=? s then m * 2 ^ s * 1000000 else round_half_even (m * 1000000) (2 ^ (- s)).

Definition pad6 (s : string) : string :=
  (String.string_of_list_ascii (repeat (ascii_of_byte 48) (6 - String.length s)) +:+ s).

Definition to_string_f64 (b : Z) : string :=
  let sign := if f64_sign b then "-" else "" in
  (if f64_exp b =? 2047 then
     sign +:+ (if f64_frac b =? 0 then "inf" else "nan")
   else
     let k := f64_millionths b in
     sign +:+ to_string_u64 (k / 1000000) +:+ "." +:+ pad6 (to_string_u64 (k mod 1000000))).

Example to_string_f64_0_95 : to_string_f64 f64_0_95 = "0.950000".
Proof. vm_compute. reflexivity. Qed.
