(* ===== verification/Rounding.v ===== *)
(** * [long double] arithmetic rounds correctly

    What the floating-point operations of [Double] compute, in integers: the
    rounding step of a product or a quotient is within half a unit in the last
    place of the exact value, and the cast of a quotient of integers to an integer
    is the integer quotient as long as the dividend has no more than 53 bits. *)

From Stdlib Require Import SpecFloat.
From S2P Require Import Prelude Double.

(** ** Digits and shifts *)

Lemma digits2_pos_bounds p : 2 ^ (Z.pos (digits2_pos p) - 1) <= Z.pos p < 2 ^ Z.pos (digits2_pos p).
Proof.
  induction p as [p IH|p IH|]; simpl digits2_pos; [..|by vm_compute].
  all: rewrite Pos2Z.inj_succ, Z.pow_succ_r, Z.sub_1_r, Z.pred_succ by done.
  all: replace (Z.pos (digits2_pos p)) with (Z.succ (Z.pos (digits2_pos p) - 1)) at 1 by lia.
  all: rewrite Z.pow_succ_r by lia; lia.
Qed.
Lemma Zdigits2_pow q n : 0 <= n → 2 ^ n <= q < 2 ^ (n + 1) → Zdigits2 q = n + 1.
Proof.
  intros Hn Hq. destruct q as [|p|p]; [pose proof (Z.pow_pos_nonneg 2 n); lia| |pose proof (Z.pow_pos_nonneg 2 n); lia].
  simpl. pose proof (digits2_pos_bounds p) as Hd. set (d := Z.pos (digits2_pos p)) in *.
  assert (1 <= d) by (unfold d; lia).
  assert (d - 1 < n + 1) by (apply (Z.pow_lt_mono_r_iff 2); lia).
  assert (n < d) by (apply (Z.pow_lt_mono_r_iff 2); lia). lia.
Qed.

(** A value [m * w + rest] at unit [w]: where the rest lies. *)
Definition located (w rest : Z) (l : location) : Prop :=
  match l with
  | loc_Exact => rest = 0
  | loc_Inexact c => rest ≠ 0 ∧ (2 * rest ?= w) = c
  end.

Lemma new_location_located w rest : 0 < w → 0 <= rest < w → located w rest (new_location w rest).
Proof.
  intros Hw Hr. unfold new_location, new_location_even, new_location_odd.
  destruct (Z.even w) eqn:Hev; destruct (Z.eqb_spec rest 0); simpl; try done.
  split; [done|]. rewrite <- Z.negb_odd in Hev. apply negb_false_iff, Z.odd_spec in Hev as [k ->].
  destruct (Z.compare_spec (2 * rest + 1) (2 * k + 1)).
  - apply Z.compare_lt_iff. lia.
  - apply Z.compare_lt_iff. lia.
  - apply Z.compare_gt_iff. lia.
Qed.

Definition record_at (w N : Z) (r : shr_record) : Prop :=
  0 <= shr_m r ∧ 0 <= N - shr_m r * w < w ∧ located w (N - shr_m r * w) (loc_of_shr_record r).

Lemma record_of_location w N m l :
  0 <= m → 0 <= N - m * w < w → located w (N - m * w) l → record_at w N (shr_record_of_loc m l).
Proof. intros. by destruct l as [|[]]. Qed.

Lemma shift_located (w rest : Z) (l : location) (bit : bool) :
  0 <= rest < w → located w rest l →
  located (2 * w) (if bit then rest + w else rest)
    (loc_of_shr_record {| shr_m := 0; shr_r := bit;
       shr_s := match l with loc_Exact => false | _ => true end |}).
Proof.
  intros Hr Hl. destruct l as [|c]; simpl in Hl.
  - subst rest. destruct bit; [|done]. split; [lia|]. apply Z.compare_eq_iff. lia.
  - destruct Hl as [Hne _]. destruct bit; (split; [lia|]).
    + apply Z.compare_gt_iff. lia.
    + apply Z.compare_lt_iff. lia.
Qed.

Lemma shr_1_record w N r : record_at w N r → record_at (2 * w) N (shr_1 r).
Proof.
  destruct r as [m b s]. unfold record_at. cbn [shr_m]. intros (Hm & Hr & Hl).
  pose proof (shift_located _ _ _ false Hr Hl) as H0. pose proof (shift_located _ _ _ true Hr Hl) as H1.
  assert (Hs : match loc_of_shr_record {| shr_m := m; shr_r := b; shr_s := s |} with
               | loc_Exact => false | _ => true end = b || s) by by destruct b, s.
  rewrite Hs in H0, H1. clear Hs Hl.
  destruct m as [|[p|p|]|p]; [..|lia]; cbn [shr_1 shr_m]; (split; [lia|]; split; [lia|]).
  - by replace (N - 0 * (2 * w)) with (N - 0 * w) by lia.
  - by replace (N - Z.pos p * (2 * w)) with (N - Z.pos p~1 * w + w) by lia.
  - by replace (N - Z.pos p * (2 * w)) with (N - Z.pos p~0 * w) by lia.
  - by replace (N - 0 * (2 * w)) with (N - 1 * w + w) by lia.
Qed.

Lemma iter_shr n : ∀ w N r, record_at w N r → record_at (2 ^ Z.pos n * w) N (SpecFloat.iter_pos shr_1 n r).
Proof.
  induction n as [n IH|n IH|]; intros w N r Hr; cbn [SpecFloat.iter_pos]; [..|by apply shr_1_record].
  - replace (2 ^ Z.pos n~1 * w) with (2 ^ Z.pos n * (2 ^ Z.pos n * (2 * w))).
    + by apply IH, IH, shr_1_record.
    + replace (Z.pos n~1) with (Z.pos n + Z.pos n + 1) by lia.
      rewrite !Z.pow_add_r by lia. change (2 ^ 1) with 2. lia.
  - replace (2 ^ Z.pos n~0 * w) with (2 ^ Z.pos n * (2 ^ Z.pos n * w)).
    + by apply IH, IH.
    + replace (Z.pos n~0) with (Z.pos n + Z.pos n) by lia. rewrite !Z.pow_add_r by lia. lia.
Qed.
Lemma shr_record_at w N r e n :
  0 <= n → record_at w N r → (shr r e n).2 = e + n ∧ record_at (2 ^ n * w) N (shr r e n).1.
Proof.
  intros Hn Hr. destruct n as [|n|n]; [|split; [done|by apply (iter_shr n)]|lia].
  cbn [shr fst snd]. split; [lia|]. by replace (2 ^ 0 * w) with w by lia.
Qed.

(** ** Rounding to nearest *)

Lemma rounded_near w N r :
  0 < w → record_at w N r →
  shr_m r <= round_nearest_even (shr_m r) (loc_of_shr_record r) <= shr_m r + 1 ∧
  2 * Z.abs (round_nearest_even (shr_m r) (loc_of_shr_record r) * w - N) <= w.
Proof.
  intros Hw (Hm & Hr & Hl). set (x := shr_m r) in *.
  destruct (loc_of_shr_record r) as [|[]]; cbn [located round_nearest_even] in *.
  - lia.
  - destruct Hl as [_ Hl%Z.compare_eq_iff]. destruct (Z.even x); lia.
  - destruct Hl as [_ Hl]. change (2 * (N - x * w) < w) in Hl. lia.
  - destruct Hl as [_ Hl%Z.compare_gt_iff]. lia.
Qed.

Abbreviation two53 := 9007199254740992.
Abbreviation two52 := 4503599627370496.

(** A positive float with a full mantissa. *)
Record normal (f : spec_float) (m e : Z) : Prop := {
  nm_value : f = S754_finite false (Z.to_pos m) e;
  nm_mantissa : two52 <= m < two53;
  nm_exponent : -1000 <= e <= 900
}.

Lemma fexp_53 n e : -1074 <= n + e → fexp ld_prec ld_emax (53 + n + e) = n + e.
Proof. unfold fexp, emin, ld_prec, ld_emax. lia. Qed.

Lemma shifted_mantissa q r y n rec :
  0 < y → 0 <= r < y → 0 <= n → 2 ^ (52 + n) <= q < 2 ^ (53 + n) →
  record_at (2 ^ n * y) (q * y + r) rec → two52 <= shr_m rec < two53.
Proof.
  intros Hy Hr Hn Hq (H0 & H1 & _). rewrite !Z.pow_add_r in Hq by lia.
  change (2 ^ 52) with two52 in Hq. change (2 ^ 53) with two53 in Hq.
  pose proof (Z.pow_pos_nonneg 2 n ltac:(lia) Hn). set (w := 2 ^ n) in *. clearbody w.
  assert (shr_m rec * w <= q < (shr_m rec + 1) * w) by nia. nia.
Qed.

(** The rounding step: [q] and the rest [r] of a division by [y], with [n] digits
    too many, become a float whose mantissa is a nearest one. *)
Lemma round_aux q r y e n :
  0 < y → 0 <= r < y → 0 <= n → 2 ^ (52 + n) <= q < 2 ^ (53 + n) → -1000 <= e + n → e + n <= 890 →
  ∃ R m e', normal (binary_round_aux ld_prec ld_emax false q e (new_location y r)) m e' ∧
    e + n <= e' ∧ m * 2 ^ (e' - (e + n)) = R ∧ 2 * Z.abs (R * (2 ^ n * y) - (q * y + r)) <= 2 ^ n * y.
Proof.
  intros Hy Hr Hn Hq He1 He2. unfold binary_round_aux, shr_fexp at 1.
  assert (Hq0 : 0 < q) by (pose proof (Z.pow_pos_nonneg 2 (52 + n)); lia).
  rewrite (Zdigits2_pow q (52 + n)) by (replace (52 + n + 1) with (53 + n) by lia; lia).
  replace (52 + n + 1 + e) with (53 + n + e) by lia. rewrite fexp_53 by lia.
  replace (n + e - e) with n by lia.
  destruct (shr_record_at y (q * y + r) (shr_record_of_loc q (new_location y r)) e n Hn)
    as [He Hrec].
  { apply record_of_location; [lia|lia|]. replace (q * y + r - q * y) with r by lia.
    by apply new_location_located. }
  destruct (shr _ e n) as [rec e1]. cbn [fst snd] in He, Hrec. subst e1.
  pose proof (Z.pow_pos_nonneg 2 n ltac:(lia) Hn) as Hpn.
  assert (Hw : 0 < 2 ^ n * y) by lia.
  destruct (rounded_near _ _ _ Hw Hrec) as [Hb Hnear].
  set (R := round_nearest_even (shr_m rec) (loc_of_shr_record rec)) in *.
  assert (Hm : two52 <= shr_m rec < two53) by by apply (shifted_mantissa q r y n).
  exists R. destruct (decide (R = two53)) as [HR|HR].
  - rewrite HR. change (shr_fexp ld_prec ld_emax two53 (e + n) loc_Exact) with
      (shr (shr_record_of_loc two53 loc_Exact) (e + n) (fexp ld_prec ld_emax (54 + (e + n)) - (e + n))).
    replace (54 + (e + n)) with (53 + 1 + (e + n)) by lia. rewrite fexp_53 by lia.
    replace (1 + (e + n) - (e + n)) with 1 by lia. exists two52, (e + n + 1).
    cbn [shr SpecFloat.iter_pos shr_1 shr_record_of_loc shr_m orb].
    rewrite (proj2 (Z.leb_le _ _)) by (unfold ld_emax, ld_prec; lia).
    split; [split; [done|done|lia]|]. split; [lia|]. split; [|by rewrite <- HR].
    by replace (e + n + 1 - (e + n)) with 1 by lia.
  - unfold shr_fexp. rewrite (Zdigits2_pow R 52) by (change (2 ^ (52 + 1)) with two53; change (2 ^ 52) with two52; lia).
    replace (52 + 1 + (e + n)) with (53 + 0 + (e + n)) by lia. rewrite fexp_53 by lia.
    replace (0 + (e + n) - (e + n)) with 0 by lia. exists R, (e + n).
    cbn [shr shr_record_of_loc shr_m]. destruct R as [|p|p] eqn:ER; [lia| |lia].
    rewrite (proj2 (Z.leb_le _ _)) by (unfold ld_emax, ld_prec; lia).
    split; [split; [done|lia|lia]|]. split; [lia|]. split; [|done].
    replace (e + n - (e + n)) with 0 by lia. lia.
Qed.

(** The rounding step for any number of digits: the value is within 2^-53 of the
    exact one, and exact when 53 bits are enough. *)
Lemma round_value q r y e :
  0 < y → 0 <= r < y → two52 <= q < 2 ^ 120 → -900 <= e <= 700 →
  ∃ m e', normal (binary_round_aux ld_prec ld_emax false q e (new_location y r)) m e' ∧
    e <= e' ∧ two53 * Z.abs (m * 2 ^ (e' - e) * y - (q * y + r)) <= q * y + r ∧
    ∀ t k, 0 <= k → 0 <= t < two53 → q * y + r = t * 2 ^ k * y → m * 2 ^ (e' - e) = t * 2 ^ k.
Proof.
  intros Hy Hr Hq He. set (n := Z.log2 q - 52).
  destruct (Z.log2_spec q ltac:(lia)) as [Hl1 Hl2].
  assert (Hn : 0 <= n <= 68).
  { unfold n. pose proof (Z.log2_le_mono two52 q ltac:(lia)). change (Z.log2 two52) with 52 in *.
    pose proof (Z.log2_lt_pow2 q 120 ltac:(lia)). lia. }
  destruct (round_aux q r y e n) as (R & m & e' & Hnm & Hle & HR & Hnear); try lia.
  { unfold n. replace (52 + (Z.log2 q - 52)) with (Z.log2 q) by lia.
    replace (53 + (Z.log2 q - 52)) with (Z.succ (Z.log2 q)) by lia. lia. }
  exists m, e'. split; [done|]. split; [lia|].
  assert (Hv : m * 2 ^ (e' - e) = R * 2 ^ n).
  { rewrite <- HR, <- Z.mul_assoc, <- Z.pow_add_r by lia. f_equal. f_equal. lia. }
  rewrite Hv. assert (Hqn : two52 * 2 ^ n <= q).
  { change two52 with (2 ^ 52). rewrite <- Z.pow_add_r by lia.
    by replace (52 + n) with (Z.log2 q) by (unfold n; lia). }
  rewrite Z.mul_assoc in Hnear. pose proof (Z.pow_pos_nonneg 2 n ltac:(lia) ltac:(lia)) as Hpn. split; [nia|].
  intros t k Hk Ht Hex. assert (Hqv : q = t * 2 ^ k).
  { set (v := t * 2 ^ k) in *. clearbody v. assert (r = (v - q) * y) by lia. nia. }
  assert (r = 0) as -> by (subst q; lia). subst q.
  assert (Hnk : n <= k).
  { apply Znot_gt_le. intros Hgt. assert (2 ^ k * 2 <= 2 ^ n).
    { change 2 with (2 ^ 1) at 2. rewrite <- Z.pow_add_r by lia. apply Z.pow_le_mono_r; lia. }
    pose proof (Z.pow_pos_nonneg 2 k ltac:(lia) Hk). change two53 with (2 * two52) in Ht. nia. }
  replace k with (n + (k - n)) in Hnear |- * by lia. rewrite Z.pow_add_r in Hnear |- * by lia.
  set (j := 2 ^ (k - n)) in *. set (w := 2 ^ n) in *.
  assert (2 * Z.abs (R - t * j) * w <= w) by nia. assert (R = t * j) by nia. nia.
Qed.

Lemma iter_xO p d : Z.pos (Pos.iter xO p d) = Z.pos p * 2 ^ Z.pos d.
Proof.
  induction d as [|d IH] using Pos.peano_ind; [simpl; lia|].
  rewrite Pos.iter_succ, Pos2Z.inj_xO, IH, Pos2Z.inj_succ, Z.pow_succ_r by lia. lia.
Qed.

(** An integer of at most 53 bits is converted exactly. *)
Lemma ld_of_u64_normal u :
  0 < u < two53 → ∃ m e, normal (ld_of_u64 u) m e ∧ -52 <= e <= 0 ∧ m = u * 2 ^ (- e).
Proof.
  intros Hu. destruct u as [|p|p]; [lia| |lia]. unfold ld_of_u64, binary_normalize, binary_round.
  pose proof (digits2_pos_bounds p) as Hd. set (d := Z.pos (digits2_pos p)) in *.
  assert (Hd1 : 1 <= d <= 53).
  { split; [unfold d; lia|]. apply Z.lt_succ_r. apply Z.nle_gt. intros Hge.
    assert (2 ^ 53 <= 2 ^ (d - 1)) by (apply Z.pow_le_mono_r; lia). change (2 ^ 53) with two53 in *. lia. }
  replace (fexp ld_prec ld_emax (d + 0)) with (d - 53) by (unfold fexp, emin, ld_prec, ld_emax; lia).
  assert (Hsh : ∃ mz, shl_align p 0 (d - 53) = (mz, d - 53) ∧ Z.pos mz = Z.pos p * 2 ^ (53 - d)).
  { unfold shl_align. replace (d - 53 - 0) with (d - 53) by lia.
    destruct (d - 53) as [|k|k] eqn:Ek; [|lia|].
    - exists p. replace (53 - d) with 0 by lia. split; [done|lia].
    - exists (Pos.iter xO p k). split; [done|]. rewrite iter_xO. f_equal. f_equal. lia. }
  destruct Hsh as (mz & -> & Hmz).
  assert (Hmb : two52 <= Z.pos mz < two53).
  { rewrite Hmz. change two52 with (2 ^ 52). change two53 with (2 ^ 53).
    replace 52 with (d - 1 + (53 - d)) by lia. replace 53 with (d + (53 - d)) at 4 by lia.
    rewrite !Z.pow_add_r by lia. pose proof (Z.pow_pos_nonneg 2 (53 - d)). nia. }
  destruct (round_value (Z.pos mz) 0 1 (d - 53)) as (m & e' & Hnm & He & _ & Hex); try lia.
  change (new_location 1 0) with loc_Exact in Hnm. exists m, e'.
  specialize (Hex (Z.pos mz) 0 ltac:(lia) ltac:(lia) ltac:(lia)).
  assert (e' = d - 53) as ->.
  { apply Z.le_antisymm; [|lia]. apply Z.nlt_ge. intros Hlt.
    assert (2 ^ 1 <= 2 ^ (e' - (d - 53))) by (apply Z.pow_le_mono_r; lia).
    pose proof (nm_mantissa _ _ _ Hnm). change (2 ^ 0) with 1 in Hex. change (2 ^ 1) with 2 in *.
    change two53 with (2 * two52) in Hmb. nia. }
  split; [done|]. split; [lia|]. replace (- (d - 53)) with (53 - d) by lia. rewrite <- Hmz.
  replace (d - 53 - (d - 53)) with 0 in Hex by lia. lia.
Qed.

Lemma ld_mul_normal f1 m1 e1 f2 m2 e2 :
  normal f1 m1 e1 → normal f2 m2 e2 → -900 <= e1 + e2 <= 700 →
  ∃ m e, normal (ld_mul f1 f2) m e ∧ e1 + e2 <= e ∧
    two53 * Z.abs (m * 2 ^ (e - (e1 + e2)) - m1 * m2) <= m1 * m2 ∧
    ∀ t k, 0 <= k → 0 <= t < two53 → m1 * m2 = t * 2 ^ k → m * 2 ^ (e - (e1 + e2)) = t * 2 ^ k.
Proof.
  intros [-> Hm1 He1] [-> Hm2 He2] He. unfold ld_mul, SFmul. cbn [xorb].
  rewrite Pos2Z.inj_mul, !Z2Pos.id by lia.
  destruct (round_value (m1 * m2) 0 1 (e1 + e2)) as (m & e & Hnm & Hle & Hnear & Hex); try lia.
  { change (2 ^ 120) with 1329227995784915872903807060280344576. nia. }
  change (new_location 1 0) with loc_Exact in Hnm. exists m, e.
  rewrite !Z.mul_1_r, Z.add_0_r in Hnear. split_and!; [done|done|done|].
  intros t k Hk Ht Hp. apply Hex; lia.
Qed.

Lemma ld_div_normal f1 m1 e1 f2 m2 e2 :
  normal f1 m1 e1 → normal f2 m2 e2 → -800 <= e1 - e2 <= 700 →
  ∃ m e, normal (ld_div f1 f2) m e ∧ e1 - e2 - 53 <= e ∧
    two53 * Z.abs (m * 2 ^ (e - (e1 - e2 - 53)) * m2 - m1 * two53) <= m1 * two53 ∧
    ∀ t k, 0 <= k → 0 <= t < two53 → m1 * two53 = t * 2 ^ k * m2 →
      m * 2 ^ (e - (e1 - e2 - 53)) = t * 2 ^ k.
Proof.
  intros [-> Hm1 He1] [-> Hm2 He2] He. unfold ld_div, SFdiv, SFdiv_core_binary. cbn [xorb].
  rewrite !Z2Pos.id by lia.
  rewrite (Zdigits2_pow m1 52), (Zdigits2_pow m2 52)
    by (change (2 ^ (52 + 1)) with two53; change (2 ^ 52) with two52; lia).
  replace (52 + 1 + e1 - (52 + 1 + e2)) with (e1 - e2) by lia.
  replace (Z.min (fexp ld_prec ld_emax (e1 - e2)) (e1 - e2)) with (e1 - e2 - 53)
    by (unfold fexp, emin, ld_prec, ld_emax; lia).
  replace (e1 - e2 - (e1 - e2 - 53)) with 53 by lia. cbv iota.
  replace (Z.shiftl m1 53) with (m1 * two53) by (rewrite Z.shiftl_mul_pow2 by lia; done).
  pose proof (Z_div_mod (m1 * two53) m2 ltac:(lia)) as Hdm.
  destruct (Z.div_eucl (m1 * two53) m2) as [q r]. destruct Hdm as [Hqr Hr].
  destruct (round_value q r m2 (e1 - e2 - 53)) as (m & e & Hnm & Hle & Hnear & Hex); try lia.
  { change (2 ^ 120) with 1329227995784915872903807060280344576. nia. }
  replace (q * m2 + r) with (m1 * two53) in Hnear, Hex by lia. by exists m, e.
Qed.

(** The integer part. *)
Lemma ld_trunc_normal f m e K :
  normal f m e → 0 <= K → 0 <= K + e →
  ∃ d, ld_trunc f = Some d ∧ 0 <= d ∧ d * 2 ^ K <= m * 2 ^ (K + e) < (d + 1) * 2 ^ K.
Proof.
  intros [-> Hm He] HK HKe. unfold ld_trunc. rewrite Z2Pos.id by lia. eexists. split; [done|].
  pose proof (Z.pow_pos_nonneg 2 K ltac:(lia) HK) as HpK.
  destruct (Z.leb_spec 0 e).
  - rewrite Z.pow_add_r by lia. pose proof (Z.pow_pos_nonneg 2 e ltac:(lia) ltac:(lia)). nia.
  - pose proof (Z.pow_pos_nonneg 2 (- e) ltac:(lia) ltac:(lia)) as Hpe.
    replace (2 ^ K) with (2 ^ (K + e) * 2 ^ (- e)) in * by (rewrite <- Z.pow_add_r by lia; f_equal; lia).
    pose proof (Z.div_mod m (2 ^ (- e)) ltac:(lia)). pose proof (Z.mod_pos_bound m (2 ^ (- e)) Hpe).
    pose proof (Z.pow_pos_nonneg 2 (K + e) ltac:(lia) HKe). pose proof (Z.div_pos m (2 ^ (- e))). nia.
Qed.

(** ** The cast of a quotient *)

(** [t] is [n / d] up to two roundings and the truncation, and exactly the
    integer quotient when [n] has at most 53 bits. *)
Definition quotient_of (n d t : Z) : Prop :=
  0 <= t ∧ (t * d - n) * 2 ^ 51 <= n ∧ (n - (t + 1) * d) * 2 ^ 51 <= n ∧ (n < two53 → t = n / d).

(** What the two roundings leave, with [K] binary digits after the point: [x] is
    the product, [w] the quotient. *)
Lemma two_roundings n d y w x M :
  0 <= n → 0 < y → 0 < M → 0 <= d → d * M <= w < (d + 1) * M →
  two53 * Z.abs (w * y - x) <= x → two53 * Z.abs (x - n * M) <= n * M →
  (d * y - n) * 2 ^ 51 <= n ∧ (n - (d + 1) * y) * 2 ^ 51 <= n.
Proof.
  intros Hn Hy HM Hd [Hw1 Hw2] H1 H2.
  assert (Hlo : d * y * M <= w * y) by nia. assert (Hhi : w * y <= (d + 1) * y * M) by nia.
  set (u := w * y) in *. set (N := n * M) in *. set (D := d * y * M) in *. set (E := (d + 1) * y * M) in *.
  assert ((D - N) * 2251799813685248 <= N) by lia.
  assert ((N - E) * 2251799813685248 <= N) by lia.
  change (2 ^ 51) with 2251799813685248. unfold D, N, E in *. split; nia.
Qed.

Lemma small_quotient n y d w M :
  0 < n < two53 → 0 < y → 0 < M → d * M <= w < (d + 1) * M →
  two53 * Z.abs (w * y - n * M) <= n * M → (∀ k, n = k * y → w = k * M) → d = n / y.
Proof.
  intros Hn Hy HM Hd Hw Hex. set (k := n / y).
  pose proof (Z.div_mod n y ltac:(lia)) as Hdm. pose proof (Z.mod_pos_bound n y Hy) as Hr. fold k in Hdm.
  assert (Hnear : Z.abs (w * y - n * M) < M) by nia.
  assert (Hlt : w < (k + 1) * M) by nia.
  assert (Hge : k * M <= w).
  { destruct (decide (n mod y = 0)) as [H0|H0]; [rewrite (Hex k) by lia; lia|]. nia. }
  nia.
Qed.

(** A quotient of floats, scaled: [x] over [y] is [w], to within 2^-53. *)
Lemma quotient_scaled fx mx ex fy y my ey K :
  normal fx mx ex → normal fy my ey → my = y * 2 ^ (- ey) → ey <= 0 → -800 <= ex - ey <= 700 →
  0 <= K → 53 + ey - ex <= K → - ex <= K →
  ∃ d w, ld_trunc (ld_div fx fy) = Some d ∧ 0 <= d ∧ d * 2 ^ K <= w < (d + 1) * 2 ^ K ∧
    two53 * Z.abs (w * y - mx * 2 ^ (K + ex)) <= mx * 2 ^ (K + ex) ∧
    (∀ k, 0 <= k < two53 → ex <= 1 + ey + 52 → mx * two53 = k * 2 ^ (53 + ey - ex) * my → w = k * 2 ^ K).
Proof.
  intros Hx Hy Hmy Hey Hr HK HK1 HK2.
  destruct (ld_div_normal _ _ _ _ _ _ Hx Hy Hr) as (m & e & Hq & Hle & Hnear & Hex).
  destruct (ld_trunc_normal _ _ _ K Hq HK ltac:(lia)) as (d & Hd & Hd0 & Hdb).
  exists d, (m * 2 ^ (K + e)). split_and!; [done|done|apply Hdb|apply Hdb| |].
  - set (e0 := ex - ey - 53) in *. set (V := m * 2 ^ (e - e0)) in *.
    assert (HW : m * 2 ^ (K + e) = V * 2 ^ (K + e0)).
    { unfold V. rewrite <- Z.mul_assoc, <- Z.pow_add_r by lia. do 2 f_equal. lia. }
    assert (HX : two53 * 2 ^ (K + e0) = 2 ^ (K + ex) * 2 ^ (- ey)).
    { change two53 with (2 ^ 53). rewrite <- !Z.pow_add_r by lia. f_equal. unfold e0. lia. }
    rewrite HW. pose proof (Z.pow_pos_nonneg 2 (- ey) ltac:(lia) ltac:(lia)) as Hp.
    pose proof (Z.pow_pos_nonneg 2 (K + e0) ltac:(lia) ltac:(lia)) as Hp0.
    set (p := 2 ^ (- ey)) in *. set (c := 2 ^ (K + e0)) in *. set (X := mx * 2 ^ (K + ex)) in *.
    assert (HXc : mx * two53 * c = X * p) by (unfold X; lia).
    assert (Hs : two53 * (Z.abs (V * c * y - X) * p) <= X * p).
    { replace (Z.abs (V * c * y - X) * p) with (Z.abs (V * my - mx * two53) * c).
      - rewrite <- HXc. nia.
      - rewrite <- (Z.abs_eq c), <- (Z.abs_eq p), <- !Z.abs_mul by lia. f_equal. subst my. lia. }
    clearbody X V c p. nia.
  - intros k Hk He Hm. specialize (Hex k (53 + ey - ex) ltac:(lia) Hk Hm).
    replace (K + e) with (e - (ex - ey - 53) + (K - (53 + ey - ex))) by lia.
    rewrite Z.pow_add_r by lia. rewrite Z.mul_assoc, Hex, <- Z.mul_assoc, <- Z.pow_add_r by lia. do 2 f_equal. lia.
Qed.

(** The product of two integers, likewise; it is exact when it has at most 53
    bits. *)
Lemma product_scaled a b K :
  0 < a < two53 → 0 < b < two53 → 104 <= K →
  ∃ m e, normal (ld_mul (ld_of_u64 a) (ld_of_u64 b)) m e ∧ -104 <= e <= 60 ∧
    two53 * Z.abs (m * 2 ^ (K + e) - a * b * 2 ^ K) <= a * b * 2 ^ K ∧
    (a * b < two53 → e <= 0 ∧ m * 2 ^ (K + e) = a * b * 2 ^ K).
Proof.
  intros Ha Hb HK.
  destruct (ld_of_u64_normal a Ha) as (ma & ea & Hna & Hea & Hma).
  destruct (ld_of_u64_normal b Hb) as (mb & eb & Hnb & Heb & Hmb).
  destruct (ld_mul_normal _ _ _ _ _ _ Hna Hnb ltac:(lia)) as (m & e & Hn & Hle & Hnear & Hex).
  exists m, e. pose proof (nm_mantissa _ _ _ Hn) as Hm.
  assert (Hs : ma * mb = a * b * 2 ^ (- (ea + eb))).
  { subst ma mb. replace (- (ea + eb)) with (- ea + - eb) by lia. rewrite Z.pow_add_r by lia. lia. }
  assert (HX : m * 2 ^ (K + e) = m * 2 ^ (e - (ea + eb)) * 2 ^ (K + (ea + eb))).
  { rewrite <- Z.mul_assoc, <- Z.pow_add_r by lia. do 2 f_equal. lia. }
  assert (HT : a * b * 2 ^ K = ma * mb * 2 ^ (K + (ea + eb))).
  { rewrite Hs, <- (Z.mul_assoc (a * b) _ (2 ^ (K + _))), <- Z.pow_add_r by lia. do 2 f_equal. lia. }
  pose proof (Z.pow_pos_nonneg 2 (K + (ea + eb)) ltac:(lia) ltac:(lia)) as Hp.
  assert (Hnear' : two53 * Z.abs (m * 2 ^ (K + e) - a * b * 2 ^ K) <= a * b * 2 ^ K).
  { rewrite HX, HT, <- Z.mul_sub_distr_r, Z.abs_mul, (Z.abs_eq (2 ^ (K + (ea + eb)))) by lia. nia. }
  pose proof (Z.pow_pos_nonneg 2 K ltac:(lia) ltac:(lia)) as HpK.
  assert (Hpow : ∀ c, 0 <= c → c <= e → two52 * 2 ^ c * 2 ^ K <= m * 2 ^ (K + e)).
  { intros c Hc Hce. rewrite <- Z.mul_assoc, <- Z.pow_add_r by lia.
    assert (2 ^ (c + K) <= 2 ^ (K + e)) by (apply Z.pow_le_mono_r; lia).
    pose proof (Z.pow_pos_nonneg 2 (c + K) ltac:(lia) ltac:(lia)). nia. }
  split_and!; [done|lia| |done|].
  - apply Z.nlt_ge. intros He. specialize (Hpow 61 ltac:(lia) ltac:(lia)).
    change (2 ^ 61) with 2305843009213693952 in Hpow.
    assert (Hab : a * b < two53 * two53) by nia. set (u := a * b) in *.
    assert (m * 2 ^ (K + e) <= 2 * (u * 2 ^ K)) by lia.
    assert (u * 2 ^ K < two53 * two53 * 2 ^ K) by (apply Z.mul_lt_mono_pos_r; lia). lia.
  - intros Hsm. rewrite HX, HT, Hs. specialize (Hex (a * b) (- (ea + eb)) ltac:(lia) ltac:(nia) Hs).
    rewrite Hex. split; [|done]. apply Z.nlt_ge. intros He.
    specialize (Hpow 1 ltac:(lia) ltac:(lia)). change (2 ^ 1) with 2 in Hpow.
    rewrite HX, Hex, <- Hs, <- HT in Hpow.
    assert (a * b * 2 ^ K < two53 * 2 ^ K) by (apply Z.mul_lt_mono_pos_r; lia). lia.
Qed.

(** [static_cast<uint64_t>((long double)a * b / (long double)y)]. *)
Lemma quotient_cast a b y :
  0 <= a < two53 → 0 < b < two53 → 0 < y < two53 →
  ∃ t, ld_trunc (ld_div (ld_mul (ld_of_u64 a) (ld_of_u64 b)) (ld_of_u64 y)) = Some t ∧
    quotient_of (a * b) y t.
Proof.
  intros Ha Hb Hy. destruct (ld_of_u64_normal y Hy) as (my & ey & Hny & Hey & Hmy).
  destruct (decide (a = 0)) as [->|Ha0].
  { destruct (ld_of_u64_normal b Hb) as (mb & eb & [-> _ _] & _). destruct Hny as [-> _ _].
    exists 0. split; [done|]. unfold quotient_of. rewrite Z.div_0_l; lia. }
  destruct (product_scaled a b 400) as (m & e & Hn & He & Hnear & Hex); try lia.
  destruct (quotient_scaled _ _ _ _ y _ _ 400 Hn Hny Hmy) as (t & w & Ht & Ht0 & Hw & Hq & Hqx); try lia.
  exists t. split; [done|]. set (M := 2 ^ 400) in *.
  assert (HM : 0 < M) by (apply Z.pow_pos_nonneg; lia).
  destruct (two_roundings (a * b) t y w (m * 2 ^ (400 + e)) M ltac:(nia) ltac:(lia) HM Ht0 Hw Hq Hnear) as [H1 H2].
  split_and!; [done..|]. intros Hsm. destruct (Hex Hsm) as [He0 Hx].
  apply (small_quotient (a * b) y t w M); [nia|lia|done|done|by rewrite <- Hx|].
  intros k Hk. apply Hqx; [nia|lia|].
  assert (Hc : 0 < 2 ^ (400 + e)) by (apply Z.pow_pos_nonneg; lia).
  apply (Z.mul_reg_r _ _ (2 ^ (400 + e))); [lia|].
  replace (m * two53 * 2 ^ (400 + e)) with (a * b * M * two53) by (rewrite <- Hx; lia).
  rewrite Hk, Hmy. replace (k * 2 ^ (53 + ey - e) * (y * 2 ^ (- ey)) * 2 ^ (400 + e))
    with (k * y * (2 ^ (53 + ey - e) * 2 ^ (- ey) * 2 ^ (400 + e))) by lia.
  rewrite <- !Z.pow_add_r by lia. replace (53 + ey - e + - ey + (400 + e)) with (400 + 53) by lia.
  rewrite Z.pow_add_r by lia. fold M. change (2 ^ 53) with two53. lia.
Qed.
