(* ===== verification/Model.v ===== *)
(** * The data model ([dimension.hpp], [target.hpp], [dataset.hpp],
      [operation.hpp], [capability.hpp], [policy.hpp], [program.hpp],
      [authority.hpp], [plan.hpp], [result.hpp])

    One record per struct of the source, in a module of the struct's name so
    that the fields keep theirs; [dflt] is the value the default member
    initializers give, and the [set_*] functions are the field assignments the
    coordinator performs.  Integers are [Z] at the width the struct declares
    (64-bit, except the 32-bit [concurrency_capacity] and [queued]); a
    [double] is its bit pattern; [std::optional] is [option]; [std::map] is
    [gmap]. *)

From S2P Require Import Prelude Enums Ids Double.

(** [dimension.hpp]: element count, type, layout and alignment of a region. *)
Module DataShape.
Record DataShape : Type := mk {
  element_count : Z; data_type : DataType; layout : Layout; alignment : Z
}.
(** Default member initializers. *)
Definition dflt : DataShape :=
  {| element_count := 0; data_type := DataType.U8; layout := Layout.CONTIGUOUS;
     alignment := 1 |}.
End DataShape.
Abbreviation DataShape := DataShape.DataShape.

(** [dimension.hpp]: a byte offset and length. *)
Module ByteWindow.
Record ByteWindow : Type := mk {
  offset : Z; length : Z
}.
(** Default member initializers. *)
Definition dflt : ByteWindow :=
  {| offset := 0; length := 0 |}.
End ByteWindow.
Abbreviation ByteWindow := ByteWindow.ByteWindow.

(** [target.hpp]: performance estimates; [confidence] is a [double]. *)
Module PerfEstimate.
Record PerfEstimate : Type := mk {
  latency_ns : Z; throughput_bps : Z; setup_ns : Z; confidence : Z; measured : bool
}.
(** Default member initializers. *)
Definition dflt : PerfEstimate :=
  {| latency_ns := 0; throughput_bps := 0; setup_ns := 0; confidence := f64_zero;
     measured := false |}.
End PerfEstimate.
Abbreviation PerfEstimate := PerfEstimate.PerfEstimate.

(** [target.hpp]: the durable definition of a target. *)
Module TargetDefinition.
Record TargetDefinition : Type := mk {
  id : NearMemoryTargetId; generation : NearMemoryTargetGeneration;
  provider : ProviderKind; kind : TargetKind; name : string; description : string;
  failure_domain : FailureDomainId; memory_domains : list MemoryDomainId;
  supported_ops : list OperationClass; supported_data_types : list DataType;
  supported_layouts : list Layout; max_input_bytes : Z; alignment_constraint : Z;
  concurrency_capacity : Z; queue_depth : Z; workspace_bytes : Z;
  access_semantics : AccessSemantics; requires_staging : bool; synthetic : bool;
  supports_verification : bool; supports_cancellation : bool; supports_drain : bool;
  authority_owner : string
}.
(** Default member initializers. *)
Definition dflt : TargetDefinition :=
  {| id := 0; generation := 0; provider := ProviderKind.UNKNOWN;
     kind := TargetKind.UNKNOWN; name := ""; description := ""; failure_domain := 0;
     memory_domains := []; supported_ops := []; supported_data_types := [];
     supported_layouts := []; max_input_bytes := 0; alignment_constraint := 1;
     concurrency_capacity := 1; queue_depth := 1; workspace_bytes := 0;
     access_semantics := AccessSemantics.DIRECT; requires_staging := false;
     synthetic := true; supports_verification := false; supports_cancellation := false;
     supports_drain := false; authority_owner := "" |}.
End TargetDefinition.
Abbreviation TargetDefinition := TargetDefinition.TargetDefinition.

(** [target.hpp]: the dynamic state of a target. *)
Module TargetRuntime.
Record TargetRuntime : Type := mk {
  lifecycle : TargetLifecycle; id : NearMemoryTargetId; owner_boot : WorkerBootId;
  evidence_id : EvidenceId; evidence_generation : EvidenceGeneration; reachable : bool;
  concurrency_in_use : Z; workspace_in_use : Z; current_queue_depth : Z;
  performance : PerfEstimate; dynamic_current : bool; queued : Z
}.
(** Default member initializers. *)
Definition dflt : TargetRuntime :=
  {| lifecycle := TargetLifecycle.DISCOVERED; id := 0; owner_boot := 0;
     evidence_id := 0; evidence_generation := 0; reachable := false;
     concurrency_in_use := 0; workspace_in_use := 0; current_queue_depth := 0;
     performance := PerfEstimate.dflt; dynamic_current := false; queued := 0 |}.
(** [rt.lifecycle = l]. *)
Definition set_lifecycle (l : TargetLifecycle) (x : TargetRuntime) : TargetRuntime :=
  {| lifecycle := l; id := id x; owner_boot := owner_boot x;
     evidence_id := evidence_id x; evidence_generation := evidence_generation x;
     reachable := reachable x; concurrency_in_use := concurrency_in_use x;
     workspace_in_use := workspace_in_use x;
     current_queue_depth := current_queue_depth x; performance := performance x;
     dynamic_current := dynamic_current x; queued := queued x |}.
(** Dynamic authority lost: not current, not reachable, in state [l]. *)
Definition invalidate (l : TargetLifecycle) (x : TargetRuntime) : TargetRuntime :=
  {| lifecycle := l; id := id x; owner_boot := owner_boot x;
     evidence_id := evidence_id x; evidence_generation := evidence_generation x;
     reachable := false; concurrency_in_use := concurrency_in_use x;
     workspace_in_use := workspace_in_use x;
     current_queue_depth := current_queue_depth x; performance := performance x;
     dynamic_current := false; queued := queued x |}.
End TargetRuntime.
Abbreviation TargetRuntime := TargetRuntime.TargetRuntime.

(** [dataset.hpp]. *)
Module MemoryDomainDescriptor.
Record MemoryDomainDescriptor : Type := mk {
  id : MemoryDomainId; generation : MemoryDomainGeneration; name : string;
  durable : bool
}.
(** Default member initializers. *)
Definition dflt : MemoryDomainDescriptor :=
  {| id := 0; generation := 0; name := ""; durable := true |}.
End MemoryDomainDescriptor.
Abbreviation MemoryDomainDescriptor := MemoryDomainDescriptor.MemoryDomainDescriptor.

(** [dataset.hpp]. *)
Module DatasetDescriptor.
Record DatasetDescriptor : Type := mk {
  id : DatasetId; generation : DatasetGeneration; name : string; producer : string;
  durable : bool
}.
(** Default member initializers. *)
Definition dflt : DatasetDescriptor :=
  {| id := 0; generation := 0; name := ""; producer := ""; durable := true |}.
End DatasetDescriptor.
Abbreviation DatasetDescriptor := DatasetDescriptor.DatasetDescriptor.

(** [dataset.hpp]. *)
Module DataRegionDescriptor.
Record DataRegionDescriptor : Type := mk {
  id : DataRegionId; generation : DataRegionGeneration; dataset : DatasetId;
  dataset_generation : DatasetGeneration; memory_domain : MemoryDomainId;
  window : ByteWindow; shape : DataShape; integrity : IntegrityState; durable : bool
}.
(** Default member initializers. *)
Definition dflt : DataRegionDescriptor :=
  {| id := 0; generation := 0; dataset := 0; dataset_generation := 0;
     memory_domain := 0; window := ByteWindow.dflt; shape := DataShape.dflt;
     integrity := IntegrityState.UNKNOWN; durable := true |}.
End DataRegionDescriptor.
Abbreviation DataRegionDescriptor := DataRegionDescriptor.DataRegionDescriptor.

(** [dataset.hpp]: where the data is and whether it is current and reachable. *)
Module DataEvidence.
Record DataEvidence : Type := mk {
  region : DataRegionId; region_generation : DataRegionGeneration;
  dataset_generation : DatasetGeneration; memory_domain : MemoryDomainId;
  memory_domain_generation : MemoryDomainGeneration; present : bool; current : bool;
  reachable : bool; integrity : IntegrityState; mutable_ : bool;
  dynamic_current : bool; evidence_id : EvidenceId;
  evidence_generation : EvidenceGeneration; publisher : WorkerBootId;
  location_note : string
}.
(** Default member initializers. *)
Definition dflt : DataEvidence :=
  {| region := 0; region_generation := 0; dataset_generation := 0; memory_domain := 0;
     memory_domain_generation := 0; present := false; current := false;
     reachable := false; integrity := IntegrityState.UNKNOWN; mutable_ := false;
     dynamic_current := false; evidence_id := 0; evidence_generation := 0;
     publisher := 0; location_note := "" |}.
(** [x.dynamic_current = false]. *)
Definition set_stale (x : DataEvidence) : DataEvidence :=
  {| region := region x; region_generation := region_generation x;
     dataset_generation := dataset_generation x; memory_domain := memory_domain x;
     memory_domain_generation := memory_domain_generation x; present := present x;
     current := current x; reachable := reachable x; integrity := integrity x;
     mutable_ := mutable_ x; dynamic_current := false; evidence_id := evidence_id x;
     evidence_generation := evidence_generation x; publisher := publisher x;
     location_note := location_note x |}.
End DataEvidence.
Abbreviation DataEvidence := DataEvidence.DataEvidence.

(** [operation.hpp]: an explicit, bounded operation. *)
Module OperationSpec.
Record OperationSpec : Type := mk {
  id : OperationId; generation : OperationGeneration; op_class : OperationClass;
  dataset : DatasetId; dataset_generation : DatasetGeneration; region : DataRegionId;
  region_generation : DataRegionGeneration; shape : DataShape; input_bytes : Z;
  output_bytes : Z; workspace_bytes : Z; output_data_type : DataType;
  determinism_required : bool; max_tolerated_latency_ns : Z;
  required_throughput_bps : Z; integrity : IntegrityRequirement;
  retry_class : RetryClass; policy : PolicyId; policy_generation : PolicyGeneration;
  program : option KernelOrProgramId; program_generation : option ProgramGeneration;
  description : string
}.
(** Default member initializers. *)
Definition dflt : OperationSpec :=
  {| id := 0; generation := 0; op_class := OperationClass.SUM; dataset := 0;
     dataset_generation := 0; region := 0; region_generation := 0;
     shape := DataShape.dflt; input_bytes := 0; output_bytes := 0;
     workspace_bytes := 0; output_data_type := DataType.F64;
     determinism_required := true; max_tolerated_latency_ns := 0;
     required_throughput_bps := 0; integrity := IntegrityRequirement.CHECKED;
     retry_class := RetryClass.NON_RETRYABLE; policy := 0; policy_generation := 0;
     program := None; program_generation := None; description := "" |}.
End OperationSpec.
Abbreviation OperationSpec := OperationSpec.OperationSpec.

(** [capability.hpp]. *)
Module CapabilityEntry.
Record CapabilityEntry : Type := mk {
  id : CapabilityId; generation : CapabilityGeneration; target : NearMemoryTargetId;
  key : string; state : CapabilityState; required_for_execution : bool; detail : string
}.
(** Default member initializers. *)
Definition dflt : CapabilityEntry :=
  {| id := 0; generation := 0; target := 0; key := "";
     state := CapabilityState.UNKNOWN; required_for_execution := false; detail := "" |}.
End CapabilityEntry.
Abbreviation CapabilityEntry := CapabilityEntry.CapabilityEntry.

(** [capability.hpp]: the capabilities of one target, keyed by semantic key. *)
Module CapabilitySet.
Record CapabilitySet : Type := mk {
  target : NearMemoryTargetId; target_generation : NearMemoryTargetGeneration;
  generation : CapabilityGeneration; entries : gmap string CapabilityEntry;
  evidence_id : EvidenceId; evidence_generation : EvidenceGeneration;
  publisher : WorkerBootId; dynamic_current : bool
}.
(** Default member initializers. *)
Definition dflt : CapabilitySet :=
  {| target := 0; target_generation := 0; generation := 0; entries := ∅;
     evidence_id := 0; evidence_generation := 0; publisher := 0;
     dynamic_current := false |}.
(** [x.dynamic_current = false]. *)
Definition set_stale (x : CapabilitySet) : CapabilitySet :=
  {| target := target x; target_generation := target_generation x;
     generation := generation x; entries := entries x; evidence_id := evidence_id x;
     evidence_generation := evidence_generation x; publisher := publisher x;
     dynamic_current := false |}.
End CapabilitySet.
Abbreviation CapabilitySet := CapabilitySet.CapabilitySet.

(** [policy.hpp]; the two [double] fields are bit patterns. *)
Module Policy.
Record Policy : Type := mk {
  id : PolicyId; generation : PolicyGeneration; name : string; outcome : PolicyOutcome;
  permitted_fallbacks : list Decision; required_confidence : Z; near_memory_bias : Z;
  reject_on_stale : bool; max_near_memory_input_bytes : Z; require_verification : bool
}.
(** Default member initializers. *)
Definition dflt : Policy :=
  {| id := 0; generation := 0; name := ""; outcome := PolicyOutcome.UNCONSTRAINED;
     permitted_fallbacks := []; required_confidence := f64_zero;
     near_memory_bias := f64_zero; reject_on_stale := true;
     max_near_memory_input_bytes := 0; require_verification := false |}.
End Policy.
Abbreviation Policy := Policy.Policy.

(** [program.hpp]. *)
Module Program.
Record Program : Type := mk {
  id : KernelOrProgramId; generation : ProgramGeneration; name : string;
  op_class : OperationClass; target_kind : TargetKind; digest : string;
  data_types : list DataType; layouts : list Layout; workspace_bytes : Z;
  lifecycle : ProgramLifecycle; predefined : bool; validated : bool
}.
(** Default member initializers. *)
Definition dflt : Program :=
  {| id := 0; generation := 0; name := ""; op_class := OperationClass.SUM;
     target_kind := TargetKind.UNKNOWN; digest := ""; data_types := []; layouts := [];
     workspace_bytes := 0; lifecycle := ProgramLifecycle.REGISTERED;
     predefined := true; validated := false |}.
End Program.
Abbreviation Program := Program.Program.

(** [authority.hpp]: the identities and generations a plan pins. *)
Module AuthoritySnapshot.
Record AuthoritySnapshot : Type := mk {
  epoch : CoordinatorEpoch; worker_boot : WorkerBootId; target : NearMemoryTargetId;
  target_generation : NearMemoryTargetGeneration;
  memory_domain_generation : MemoryDomainGeneration;
  dataset_generation : DatasetGeneration; region_generation : DataRegionGeneration;
  operation_generation : OperationGeneration;
  program_generation : option ProgramGeneration;
  capability_generation : CapabilityGeneration; policy_generation : PolicyGeneration;
  evidence_generation : EvidenceGeneration; plan_generation : ExecutionPlanGeneration
}.
(** Default member initializers. *)
Definition dflt : AuthoritySnapshot :=
  {| epoch := 0; worker_boot := 0; target := 0; target_generation := 0;
     memory_domain_generation := 0; dataset_generation := 0; region_generation := 0;
     operation_generation := 0; program_generation := None; capability_generation := 0;
     policy_generation := 0; evidence_generation := 0; plan_generation := 0 |}.
End AuthoritySnapshot.
Abbreviation AuthoritySnapshot := AuthoritySnapshot.AuthoritySnapshot.

(** [authority.hpp]. *)
Module PlanAuthority.
Record PlanAuthority : Type := mk {
  snapshot : AuthoritySnapshot; plan : ExecutionPlanId;
  plan_generation : ExecutionPlanGeneration
}.
(** Default member initializers. *)
Definition dflt : PlanAuthority :=
  {| snapshot := AuthoritySnapshot.dflt; plan := 0; plan_generation := 0 |}.
End PlanAuthority.
Abbreviation PlanAuthority := PlanAuthority.PlanAuthority.

(** [authority.hpp]: the authority a completion carries. *)
Module CompletionAuthority.
Record CompletionAuthority : Type := mk {
  plan : ExecutionPlanId; plan_generation : ExecutionPlanGeneration;
  dispatch : DispatchId; attempt : AttemptId; target : NearMemoryTargetId;
  target_generation : NearMemoryTargetGeneration; worker_boot : WorkerBootId;
  epoch : CoordinatorEpoch; dataset_generation : DatasetGeneration;
  region_generation : DataRegionGeneration; result_generation : ResultGeneration;
  operation_generation : OperationGeneration
}.
(** Default member initializers. *)
Definition dflt : CompletionAuthority :=
  {| plan := 0; plan_generation := 0; dispatch := 0; attempt := 0; target := 0;
     target_generation := 0; worker_boot := 0; epoch := 0; dataset_generation := 0;
     region_generation := 0; result_generation := 0; operation_generation := 0 |}.
End CompletionAuthority.
Abbreviation CompletionAuthority := CompletionAuthority.CompletionAuthority.

(** [plan.hpp]. *)
Module ExecutionPlan.
Record ExecutionPlan : Type := mk {
  id : ExecutionPlanId; generation : ExecutionPlanGeneration;
  authority : PlanAuthority; target : NearMemoryTargetId;
  target_generation : NearMemoryTargetGeneration; operation : OperationId;
  op_class : OperationClass; dataset : DatasetId;
  dataset_generation : DatasetGeneration; region : DataRegionId;
  region_generation : DataRegionGeneration; lifecycle : ExecutionLifecycle;
  reserved_slots : Z; reserved_workspace : Z; dispatch_id : option DispatchId;
  attempt_id : option AttemptId; retry_class : RetryClass; decision : Decision;
  notes : list string
}.
(** Default member initializers. *)
Definition dflt : ExecutionPlan :=
  {| id := 0; generation := 0; authority := PlanAuthority.dflt; target := 0;
     target_generation := 0; operation := 0; op_class := OperationClass.SUM;
     dataset := 0; dataset_generation := 0; region := 0; region_generation := 0;
     lifecycle := ExecutionLifecycle.PLANNED; reserved_slots := 0;
     reserved_workspace := 0; dispatch_id := None; attempt_id := None;
     retry_class := RetryClass.NON_RETRYABLE; decision := Decision.MOVEMENT_REQUIRED;
     notes := [] |}.
(** [plan.lifecycle = l]. *)
Definition set_lifecycle (l : ExecutionLifecycle) (x : ExecutionPlan) : ExecutionPlan :=
  {| id := id x; generation := generation x; authority := authority x;
     target := target x; target_generation := target_generation x;
     operation := operation x; op_class := op_class x; dataset := dataset x;
     dataset_generation := dataset_generation x; region := region x;
     region_generation := region_generation x; lifecycle := l;
     reserved_slots := reserved_slots x; reserved_workspace := reserved_workspace x;
     dispatch_id := dispatch_id x; attempt_id := attempt_id x;
     retry_class := retry_class x; decision := decision x; notes := notes x |}.
(** The three assignments at the end of [reserve]. *)
Definition set_reserved (slots ws : Z) (l : ExecutionLifecycle) (x : ExecutionPlan) : ExecutionPlan :=
  {| id := id x; generation := generation x; authority := authority x;
     target := target x; target_generation := target_generation x;
     operation := operation x; op_class := op_class x; dataset := dataset x;
     dataset_generation := dataset_generation x; region := region x;
     region_generation := region_generation x; lifecycle := l; reserved_slots := slots;
     reserved_workspace := ws; dispatch_id := dispatch_id x;
     attempt_id := attempt_id x; retry_class := retry_class x; decision := decision x;
     notes := notes x |}.
(** The two assignments at the end of [prepare_dispatch]. *)
Definition set_dispatch (d : DispatchId) (a : AttemptId) (x : ExecutionPlan) : ExecutionPlan :=
  {| id := id x; generation := generation x; authority := authority x;
     target := target x; target_generation := target_generation x;
     operation := operation x; op_class := op_class x; dataset := dataset x;
     dataset_generation := dataset_generation x; region := region x;
     region_generation := region_generation x; lifecycle := lifecycle x;
     reserved_slots := reserved_slots x; reserved_workspace := reserved_workspace x;
     dispatch_id := Some d; attempt_id := Some a; retry_class := retry_class x;
     decision := decision x; notes := notes x |}.
End ExecutionPlan.
Abbreviation ExecutionPlan := ExecutionPlan.ExecutionPlan.

(** [result.hpp]: a completion with its provenance. *)
Module ExecutionResult.
Record ExecutionResult : Type := mk {
  id : ResultId; generation : ResultGeneration; plan : ExecutionPlanId;
  plan_generation : ExecutionPlanGeneration; dispatch : DispatchId;
  attempt : AttemptId; target : NearMemoryTargetId;
  target_generation : NearMemoryTargetGeneration; worker_boot : WorkerBootId;
  epoch : CoordinatorEpoch; dataset_generation : DatasetGeneration;
  region_generation : DataRegionGeneration; operation_generation : OperationGeneration;
  verification : VerifyState; output_digest : string; output_bytes : Z;
  committed : bool; ambiguous : bool; note : string
}.
(** Default member initializers. *)
Definition dflt : ExecutionResult :=
  {| id := 0; generation := 0; plan := 0; plan_generation := 0; dispatch := 0;
     attempt := 0; target := 0; target_generation := 0; worker_boot := 0; epoch := 0;
     dataset_generation := 0; region_generation := 0; operation_generation := 0;
     verification := VerifyState.UNVERIFIED; output_digest := ""; output_bytes := 0;
     committed := false; ambiguous := false; note := "" |}.
End ExecutionResult.
Abbreviation ExecutionResult := ExecutionResult.ExecutionResult.

(** ** Methods and free functions of the data headers *)

(** [bytes_per_element] ([dimension.hpp]). *)
Definition bytes_per_element (dt : DataType) : Z :=
  match dt with
  | DataType.U8 | DataType.I8 => 1
  | DataType.U16 | DataType.I16 | DataType.F16 | DataType.BF16 => 2
  | DataType.U32 | DataType.I32 | DataType.F32 => 4
  | DataType.U64 | DataType.I64 | DataType.F64 => 8
  | DataType.raw _ => 0
  end.

(** [DataShape::element_bytes]. *)
Definition element_bytes (s : DataShape) : option Z :=
  let n := bytes_per_element (DataShape.data_type s) in
  if n =? 0 then None else checked_mul_u64 (DataShape.element_count s) n.

(** [ByteWindow::operator==]. *)
Definition window_eqb (a b : ByteWindow) : bool :=
  (ByteWindow.offset a =? ByteWindow.offset b) && (ByteWindow.length a =? ByteWindow.length b).

(** [TargetDefinition::is_synthetic]. *)
Definition is_synthetic (d : TargetDefinition) : bool :=
  TargetDefinition.synthetic d || bool_decide (TargetDefinition.kind d = TargetKind.SYNTHETIC).

(** [classification_label]. *)
Definition classification_label (def : TargetDefinition) (run : TargetRuntime) : string :=
  if TargetDefinition.synthetic def then "SYNTHETIC"
  else if TargetRuntime.reachable run && TargetRuntime.dynamic_current run then "REAL"
  else if bool_decide (TargetDefinition.kind def = TargetKind.HOST_CPU_LOCAL) then "REAL"
  else "UNKNOWN".

(** [CapabilitySet::state_of]: an absent key is UNKNOWN. *)
Definition state_of (cs : CapabilitySet) (key : string) : CapabilityState :=
  match CapabilitySet.entries cs !! key with
  | None => CapabilityState.UNKNOWN
  | Some e => CapabilityEntry.state e
  end.
