(* ===== verification/Authority.v ===== *)
(** * Authority validation ([authority.hpp])

    Every plan pins a snapshot of identities and generations.  The two
    functions of this file list the dimensions on which a completion differs
    from a plan's pinned authority, and on which a pinned snapshot differs from
    the current one; an empty list means accepted. *)

From S2P Require Import Prelude Ids Model.

Record StaleReason := { dimension : string; stale_detail : string }.

Definition validate_completion_against_plan
    (completion : CompletionAuthority) (plan : PlanAuthority) : list StaleReason :=
  let s := PlanAuthority.snapshot plan in
  push_if (CompletionAuthority.plan completion !=? PlanAuthority.plan plan)
    {| dimension := "plan"; stale_detail := "completion plan id mismatch" |} ++
  push_if (CompletionAuthority.plan_generation completion !=? PlanAuthority.plan_generation plan)
    {| dimension := "plan_generation"; stale_detail := "completion plan generation mismatch" |} ++
  push_if (CompletionAuthority.target_generation completion !=? AuthoritySnapshot.target_generation s)
    {| dimension := "target_generation"; stale_detail := "completion target generation mismatch" |} ++
  push_if (CompletionAuthority.worker_boot completion !=? AuthoritySnapshot.worker_boot s)
    {| dimension := "worker_boot"; stale_detail := "completion worker boot mismatch" |} ++
  push_if (CompletionAuthority.epoch completion !=? AuthoritySnapshot.epoch s)
    {| dimension := "epoch"; stale_detail := "completion epoch mismatch" |} ++
  push_if (CompletionAuthority.dataset_generation completion !=? AuthoritySnapshot.dataset_generation s)
    {| dimension := "dataset_generation"; stale_detail := "completion dataset generation mismatch" |} ++
  push_if (CompletionAuthority.region_generation completion !=? AuthoritySnapshot.region_generation s)
    {| dimension := "region_generation"; stale_detail := "completion region generation mismatch" |} ++
  push_if (CompletionAuthority.operation_generation completion !=? AuthoritySnapshot.operation_generation s)
    {| dimension := "operation_generation"; stale_detail := "completion operation generation mismatch" |}.

Definition validate_plan_against_current
    (plan : PlanAuthority) (current : AuthoritySnapshot) : list StaleReason :=
  let s := PlanAuthority.snapshot plan in
  push_if (AuthoritySnapshot.epoch s !=? AuthoritySnapshot.epoch current)
    {| dimension := "epoch"; stale_detail := "coordinator epoch moved" |} ++
  push_if (AuthoritySnapshot.worker_boot s !=? AuthoritySnapshot.worker_boot current)
    {| dimension := "worker_boot"; stale_detail := "worker boot changed" |} ++
  push_if (AuthoritySnapshot.target_generation s !=? AuthoritySnapshot.target_generation current)
    {| dimension := "target_generation"; stale_detail := "target generation moved" |} ++
  push_if (AuthoritySnapshot.memory_domain_generation s !=? AuthoritySnapshot.memory_domain_generation current)
    {| dimension := "memory_domain_generation"; stale_detail := "memory domain generation moved" |} ++
  push_if (AuthoritySnapshot.dataset_generation s !=? AuthoritySnapshot.dataset_generation current)
    {| dimension := "dataset_generation"; stale_detail := "dataset generation moved" |} ++
  push_if (AuthoritySnapshot.region_generation s !=? AuthoritySnapshot.region_generation current)
    {| dimension := "region_generation"; stale_detail := "region generation moved" |} ++
  push_if (AuthoritySnapshot.operation_generation s !=? AuthoritySnapshot.operation_generation current)
    {| dimension := "operation_generation"; stale_detail := "operation generation moved" |} ++
  push_if (negb (bool_decide (AuthoritySnapshot.program_generation s =
                              AuthoritySnapshot.program_generation current)))
    {| dimension := "program_generation"; stale_detail := "program generation moved" |} ++
  push_if (AuthoritySnapshot.capability_generation s !=? AuthoritySnapshot.capability_generation current)
    {| dimension := "capability_generation"; stale_detail := "capability generation moved" |} ++
  push_if (AuthoritySnapshot.policy_generation s !=? AuthoritySnapshot.policy_generation current)
    {| dimension := "policy_generation"; stale_detail := "policy generation moved" |} ++
  push_if (AuthoritySnapshot.evidence_generation s !=? AuthoritySnapshot.evidence_generation current)
    {| dimension := "evidence_generation"; stale_detail := "evidence generation moved" |}.

(** The error text of a rejection: every dimension followed by ["; "]. *)
Definition join_dimensions (l : list StaleReason) : string :=
  fold_left (fun why s => why +:+ dimension s +:+ "; ") l "".

(** Split an emptiness of appended [push_if]s into the conditions. *)
Ltac split_push_if :=
  repeat match goal with
  | |- context [?a ++ ?b = []] => rewrite (app_nil_iff a b)
  | |- context [push_if ?b ?r = []] => rewrite (push_if_nil b r)
  end.

(** The eight dimensions a completion must reproduce. *)
Definition completion_matches (c : CompletionAuthority) (p : PlanAuthority) : Prop :=
  let s := PlanAuthority.snapshot p in
  CompletionAuthority.plan c = PlanAuthority.plan p ∧
  CompletionAuthority.plan_generation c = PlanAuthority.plan_generation p ∧
  CompletionAuthority.target_generation c = AuthoritySnapshot.target_generation s ∧
  CompletionAuthority.worker_boot c = AuthoritySnapshot.worker_boot s ∧
  CompletionAuthority.epoch c = AuthoritySnapshot.epoch s ∧
  CompletionAuthority.dataset_generation c = AuthoritySnapshot.dataset_generation s ∧
  CompletionAuthority.region_generation c = AuthoritySnapshot.region_generation s ∧
  CompletionAuthority.operation_generation c = AuthoritySnapshot.operation_generation s.

Lemma validate_completion_nil c p :
  validate_completion_against_plan c p = [] ↔ completion_matches c p.
Proof.
  unfold validate_completion_against_plan, completion_matches. cbv zeta.
  split_push_if. by rewrite !neqb_false.
Qed.

Lemma validate_plan_nil p current :
  validate_plan_against_current p current = [] ↔
  current = {| AuthoritySnapshot.epoch := AuthoritySnapshot.epoch (PlanAuthority.snapshot p);
     AuthoritySnapshot.worker_boot := AuthoritySnapshot.worker_boot (PlanAuthority.snapshot p);
     AuthoritySnapshot.target := AuthoritySnapshot.target current;
     AuthoritySnapshot.target_generation := AuthoritySnapshot.target_generation (PlanAuthority.snapshot p);
     AuthoritySnapshot.memory_domain_generation :=
       AuthoritySnapshot.memory_domain_generation (PlanAuthority.snapshot p);
     AuthoritySnapshot.dataset_generation := AuthoritySnapshot.dataset_generation (PlanAuthority.snapshot p);
     AuthoritySnapshot.region_generation := AuthoritySnapshot.region_generation (PlanAuthority.snapshot p);
     AuthoritySnapshot.operation_generation := AuthoritySnapshot.operation_generation (PlanAuthority.snapshot p);
     AuthoritySnapshot.program_generation := AuthoritySnapshot.program_generation (PlanAuthority.snapshot p);
     AuthoritySnapshot.capability_generation := AuthoritySnapshot.capability_generation (PlanAuthority.snapshot p);
     AuthoritySnapshot.policy_generation := AuthoritySnapshot.policy_generation (PlanAuthority.snapshot p);
     AuthoritySnapshot.evidence_generation := AuthoritySnapshot.evidence_generation (PlanAuthority.snapshot p);
     AuthoritySnapshot.plan_generation := AuthoritySnapshot.plan_generation current |}.
Proof.
  destruct p as [s pl pg], s, current. unfold validate_plan_against_current. simpl.
  split_push_if. rewrite !neqb_false, negb_false_iff, bool_decide_eq_true.
  split; [by intros; destruct_and!; subst|by intros [= ]; subst].
Qed.
