(* ===== verification/Economics.v ===== *)
(** * Movement-versus-compute economics ([economics.hpp])

    [evaluate_terms] and [choose_path] compare the cost of executing near
    memory with the cost of moving the data.  Sums are 64-bit and wrap; byte
    times go through [long double] ([Double.v]). *)

From Stdlib Require Import SpecFloat.
From S2P Require Import Prelude Enums Double Rounding Model.

Module TransferEstimate.
Record TransferEstimate : Type := mk {
  bytes_to_move : Z; bandwidth_bps : Z; latency_ns : Z;
  staging_cost_ns : Z; serialization_cost_ns : Z; registration_cost_ns : Z
}.
End TransferEstimate.
Abbreviation TransferEstimate := TransferEstimate.TransferEstimate.

Module ComputeCostEstimate.
Record ComputeCostEstimate : Type := mk {
  execution_ns : Z; setup_ns : Z; queue_delay_ns : Z; result_return_bytes : Z;
  confidence : Z
}.
End ComputeCostEstimate.
Abbreviation ComputeCostEstimate := ComputeCostEstimate.ComputeCostEstimate.

Record EconomicTerms := {
  data_bytes_to_move : Z; transfer_latency_ns : Z; transfer_bytes_time_ns : Z;
  staging_ns : Z; serialization_ns : Z; registration_ns : Z;
  near_setup_ns : Z; near_execution_ns : Z; near_queue_delay_ns : Z;
  conventional_execution_ns : Z; result_bytes : Z; result_transfer_ns : Z;
  workspace_ns : Z; terms_confidence : Z
}.

Record EconomicsResult := {
  decision : Decision; near_total_ns : Z; conventional_total_ns : Z;
  movement_avoided_bytes : Z; near_memory_judged_beneficial : bool;
  explanation : list string; terms : list string
}.

Import TransferEstimate ComputeCostEstimate.

(** [bytes * 1'000'000'000.0L / bandwidth] in [long double]. *)
Definition byte_time (bytes bandwidth : Z) : spec_float :=
  ld_div (ld_mul (ld_of_u64 bytes) (ld_of_u64 1000000000)) (ld_of_u64 bandwidth).
Definition byte_time_ns (bytes bandwidth : Z) : Z := ld_to_u64 (byte_time bytes bandwidth).

Definition evaluate_terms (tr : TransferEstimate) (conv near : ComputeCostEstimate)
    : EconomicTerms :=
  {| data_bytes_to_move := bytes_to_move tr;
     transfer_latency_ns := latency_ns tr;
     transfer_bytes_time_ns :=
       if 0 <? bandwidth_bps tr then byte_time_ns (bytes_to_move tr) (bandwidth_bps tr) else 0;
     staging_ns := staging_cost_ns tr;
     serialization_ns := serialization_cost_ns tr;
     registration_ns := registration_cost_ns tr;
     near_setup_ns := setup_ns near;
     near_execution_ns := execution_ns near;
     near_queue_delay_ns := queue_delay_ns near;
     conventional_execution_ns := execution_ns conv;
     result_bytes := result_return_bytes near;
     result_transfer_ns :=
       if (0 <? bandwidth_bps tr) && (0 <? result_return_bytes near)
       then byte_time_ns (result_return_bytes near) (bandwidth_bps tr) else 0;
     workspace_ns := 0;
     terms_confidence := confidence near |}.

Definition kSynthesisPenaltyNs : Z := 1000000.

(** The two totals, accumulated as [choose_path] does. *)
Definition conv_total (tr : TransferEstimate) (t : EconomicTerms) : Z :=
  let c := u64 (u64 (staging_ns t + serialization_ns t) + registration_ns t) in
  let c := u64 (c + conventional_execution_ns t) in
  if 0 <? bandwidth_bps tr then
    u64 (u64 (c + transfer_latency_ns t) + transfer_bytes_time_ns t)
  else u64 (c + kSynthesisPenaltyNs).
Definition near_total (t : EconomicTerms) : Z :=
  u64 (u64 (u64 (near_setup_ns t + near_execution_ns t) + near_queue_delay_ns t)
       + result_transfer_ns t).

Definition choose_path (tr : TransferEstimate) (conv near : ComputeCostEstimate)
    : EconomicsResult :=
  let t := evaluate_terms tr conv near in
  let conv_total := conv_total tr t in
  let near_total := near_total t in
  let near_beneficial := near_total <=? conv_total in
  {| decision := if near_beneficial then Decision.NEAR_MEMORY_SELECTED
                 else Decision.CONVENTIONAL_CPU_SELECTED;
     near_total_ns := near_total;
     conventional_total_ns := conv_total;
     movement_avoided_bytes := data_bytes_to_move t;
     near_memory_judged_beneficial := near_beneficial;
     explanation :=
       [ "near-memory compute: " +:+ to_string_u64 near_total +:+ " ns";
         "conventional compute (move data): " +:+ to_string_u64 conv_total +:+ " ns";
         if near_beneficial then
           "selection: NEAR_MEMORY_SELECTED because near-memory path is not more expensive than moving data."
         else
           "selection: CONVENTIONAL_COMPUTE_SELECTED because the movement path is not more expensive than near-memory setup/execution." ];
     terms :=
       [ "data_bytes_to_move=" +:+ to_string_u64 (data_bytes_to_move t) +:+ " B";
         "transfer_latency=" +:+ to_string_u64 (transfer_latency_ns t) +:+ " ns";
         "transfer_bytes_time=" +:+ to_string_u64 (transfer_bytes_time_ns t) +:+ " ns";
         "near_setup=" +:+ to_string_u64 (near_setup_ns t) +:+ " ns";
         "near_execution=" +:+ to_string_u64 (near_execution_ns t) +:+ " ns";
         "near_queue_delay=" +:+ to_string_u64 (near_queue_delay_ns t) +:+ " ns";
         "conventional_execution=" +:+ to_string_u64 (conventional_execution_ns t) +:+ " ns";
         "result_return_bytes=" +:+ to_string_u64 (result_bytes t) +:+ " B";
         "result_transfer=" +:+ to_string_u64 (result_transfer_ns t) +:+ " ns";
         "confidence=" +:+ to_string_f64 (terms_confidence t) ] |}.

(** ** The mathematical costs *)

Definition exact_near_cost (t : EconomicTerms) : Z :=
  near_setup_ns t + near_execution_ns t + near_queue_delay_ns t + result_transfer_ns t.
Definition exact_conv_cost (tr : TransferEstimate) (t : EconomicTerms) : Z :=
  staging_ns t + serialization_ns t + registration_ns t + conventional_execution_ns t +
  (if 0 <? bandwidth_bps tr then transfer_latency_ns t + transfer_bytes_time_ns t
   else kSynthesisPenaltyNs).

Lemma u64_add_l a b : u64 (u64 a + b) = u64 (a + b).
Proof. unfold u64. apply Zplus_mod_idemp_l. Qed.

Lemma near_total_wraps t : near_total t = u64 (exact_near_cost t).
Proof.
  unfold near_total, exact_near_cost.
  by rewrite (u64_add_l _ (near_queue_delay_ns t)), u64_add_l.
Qed.

Lemma conv_total_wraps tr t : conv_total tr t = u64 (exact_conv_cost tr t).
Proof.
  unfold conv_total, exact_conv_cost.
  rewrite (u64_add_l _ (registration_ns t)), (u64_add_l _ (conventional_execution_ns t)).
  case_match; rewrite ?(u64_add_l _ (transfer_latency_ns t)), u64_add_l; f_equal; lia.
Qed.

Lemma choose_path_decision tr conv near :
  let r := choose_path tr conv near in
  (decision r = Decision.NEAR_MEMORY_SELECTED ↔ near_total_ns r <= conventional_total_ns r) ∧
  (decision r = Decision.NEAR_MEMORY_SELECTED ∨ decision r = Decision.CONVENTIONAL_CPU_SELECTED).
Proof.
  simpl. destruct (Z.leb_spec (near_total (evaluate_terms tr conv near))
                              (conv_total tr (evaluate_terms tr conv near)));
    split; auto; split; intros; done || lia.
Qed.

(** Costs below 2^60 ns (36 years), sizes and bandwidths below 2^53, and moves
    that take less than 2^60 ns: the sums and the casts stay within 64 bits. *)
Definition ordinary (tr : TransferEstimate) (conv near : ComputeCostEstimate) : Prop :=
  let cost c := 0 <= c < 2 ^ 60 in
  let moved b := 0 <= b < 2 ^ 53 ∧ b * 1000000000 < 2 ^ 60 * Z.max 1 (bandwidth_bps tr) in
  Forall cost [latency_ns tr; staging_cost_ns tr; serialization_cost_ns tr; registration_cost_ns tr;
               execution_ns conv; setup_ns near; execution_ns near; queue_delay_ns near] ∧
  0 <= bandwidth_bps tr < 2 ^ 53 ∧
  (0 < bandwidth_bps tr → moved (bytes_to_move tr) ∧ moved (result_return_bytes near)).

(** The time the bytes take on a known link: what the cast of the [long double]
    quotient is. *)
Lemma byte_time_ns_spec bytes bw :
  0 <= bytes < 2 ^ 53 → 0 < bw < 2 ^ 53 → bytes * 1000000000 < 2 ^ 60 * bw →
  quotient_of (bytes * 1000000000) bw (byte_time_ns bytes bw) ∧ byte_time_ns bytes bw < 2 ^ 61.
Proof.
  intros Hb Hw Hs. unfold byte_time_ns, byte_time, ld_to_u64.
  destruct (quotient_cast bytes 1000000000 bw) as (t & -> & Hq); [exact Hb|lia|exact Hw|].
  destruct Hq as (Ht & Hhi & Hlo & Hex). assert (Hlt : t < 2 ^ 61).
  { change (2 ^ 51) with 2251799813685248 in *. change (2 ^ 60) with 1152921504606846976 in *.
    change (2 ^ 61) with 2305843009213693952. nia. }
  rewrite u64_small by (unfold in_u64; lia). by repeat split.
Qed.
Lemma quotient_of_zero d : 0 < d → quotient_of 0 d 0.
Proof. intros Hd. unfold quotient_of. rewrite Z.div_0_l; lia. Qed.

(** The two byte times [evaluate_terms] fills in. *)
Lemma evaluated_times tr conv near :
  ordinary tr conv near → 0 < bandwidth_bps tr →
  let t := evaluate_terms tr conv near in
  (quotient_of (bytes_to_move tr * 1000000000) (bandwidth_bps tr) (transfer_bytes_time_ns t) ∧
   transfer_bytes_time_ns t < 2 ^ 61) ∧
  (quotient_of (result_return_bytes near * 1000000000) (bandwidth_bps tr) (result_transfer_ns t) ∧
   result_transfer_ns t < 2 ^ 61).
Proof.
  intros (_ & Hbw & Hm) Hpos. destruct (Hm Hpos) as [[Hb1 Hs1] [Hb2 Hs2]]. rewrite Z.max_r in Hs1, Hs2 by lia.
  simpl. rewrite (proj2 (Z.ltb_lt _ _) Hpos). split; [apply byte_time_ns_spec; lia|]. simpl.
  destruct (Z.ltb_spec 0 (result_return_bytes near)); [apply byte_time_ns_spec; lia|].
  replace (result_return_bytes near) with 0 by lia. by split; [apply quotient_of_zero|].
Qed.

(** Claim C36: the cheaper path is chosen, by true costs.  For given costs and
    times on the link below 2^60 ns and sizes and bandwidths below 2^53,
    [choose_path] reports for near-memory
    execution the target's setup, execution and queueing plus the time the result
    takes on the link, and for the conventional path staging, serialization,
    registration and execution plus the link's latency and the time the data
    take; on an unknown link the former is free and the latter is the 1 ms
    penalty.  A time on the link is bytes * 10^9 / bandwidth to within one
    nanosecond and one part in 2^51, and exactly the integer quotient while
    bytes * 10^9 is below 2^53.
    Near-memory execution is selected exactly when its total is not larger, and
    the conventional CPU otherwise. *)
Theorem choose_path_exact tr conv near :
  ordinary tr conv near →
  let r := choose_path tr conv near in
  ∃ move back,
    near_total_ns r = setup_ns near + execution_ns near + queue_delay_ns near + back ∧
    conventional_total_ns r = staging_cost_ns tr + serialization_cost_ns tr +
      registration_cost_ns tr + execution_ns conv + move ∧
    (bandwidth_bps tr = 0 → back = 0 ∧ move = 1000000) ∧
    (0 < bandwidth_bps tr →
     quotient_of (result_return_bytes near * 1000000000) (bandwidth_bps tr) back ∧
     quotient_of (bytes_to_move tr * 1000000000) (bandwidth_bps tr) (move - latency_ns tr)) ∧
    decision r = (if near_total_ns r <=? conventional_total_ns r
                  then Decision.NEAR_MEMORY_SELECTED else Decision.CONVENTIONAL_CPU_SELECTED) ∧
    movement_avoided_bytes r = bytes_to_move tr.
Proof.
  intros Ho r. pose proof Ho as (Hc & Hbw & _). rewrite !Forall_cons_iff in Hc.
  destruct Hc as (Hl & Hst & Hse & Hre & Hec & Hsu & Hen & Hqu & _).
  set (t := evaluate_terms tr conv near).
  exists (if 0 <? bandwidth_bps tr then latency_ns tr + transfer_bytes_time_ns t else 1000000), (result_transfer_ns t).
  unfold r. cbn [choose_path near_total_ns conventional_total_ns decision movement_avoided_bytes].
  fold t. rewrite near_total_wraps, conv_total_wraps. unfold exact_near_cost, exact_conv_cost.
  destruct (Z.ltb_spec 0 (bandwidth_bps tr)) as [Hpos|Hz].
  - destruct (evaluated_times tr conv near Ho Hpos) as [[Hq1 Hlt1] [Hq2 Hlt2]]. fold t in Hq1, Hlt1, Hq2, Hlt2.
    pose proof (proj1 Hq1). pose proof (proj1 Hq2). cbn [t evaluate_terms near_setup_ns near_execution_ns
      near_queue_delay_ns staging_ns serialization_ns registration_ns conventional_execution_ns transfer_latency_ns].
    rewrite !u64_small by (unfold in_u64; lia). split; [lia|]. split; [lia|]. split; [lia|]. split; [|done].
    intros _. split; [done|]. by replace (latency_ns tr + _ - _) with (transfer_bytes_time_ns t) by lia.
  - assert (Hrt : result_transfer_ns t = 0).
    { simpl. by rewrite (proj2 (Z.ltb_ge _ _)) by lia. }
    rewrite Hrt. cbn [t evaluate_terms near_setup_ns near_execution_ns near_queue_delay_ns staging_ns
      serialization_ns registration_ns conventional_execution_ns].
    rewrite !u64_small by (unfold in_u64, kSynthesisPenaltyNs; lia). unfold kSynthesisPenaltyNs.
    split; [lia|]. split; [lia|]. split; [done|]. split; [lia|done].
Qed.

Definition demo_transfer : TransferEstimate :=
  {| bytes_to_move := 8589934592; bandwidth_bps := 40000000000; latency_ns := 50000;
     staging_cost_ns := 0; serialization_cost_ns := 0; registration_cost_ns := 0 |}.
Definition demo_conventional : ComputeCostEstimate :=
  {| execution_ns := 8589934592; setup_ns := 0; queue_delay_ns := 0;
     result_return_bytes := 8; confidence := f64_zero |}.
Definition demo_near : ComputeCostEstimate :=
  {| execution_ns := 12000000; setup_ns := 0; queue_delay_ns := 12000000;
     result_return_bytes := 8; confidence := f64_0_95 |}.

Lemma choose_path_exact_witness :
  near_total_ns (choose_path demo_transfer demo_conventional demo_near) = 24000000 ∧
  Z.abs (conventional_total_ns (choose_path demo_transfer demo_conventional demo_near) - 8804732956) <= 1 ∧
  decision (choose_path demo_transfer demo_conventional demo_near) =
    Decision.NEAR_MEMORY_SELECTED.
Proof.
  destruct (choose_path_exact demo_transfer demo_conventional demo_near)
    as (move & back & Hn & Hc & _ & Hq & Hd & _).
  - split; [repeat constructor; vm_compute; congruence|]. split; [vm_compute; split; congruence|].
    intros _. vm_compute. repeat split; congruence.
  - destruct (Hq eq_refl) as [(_ & _ & _ & Hb) (Ht0 & Hhi & Hlo & _)].
    specialize (Hb eq_refl). change (back = 0) in Hb.
    cbn [demo_transfer demo_conventional demo_near bytes_to_move bandwidth_bps latency_ns staging_cost_ns
         serialization_cost_ns registration_cost_ns execution_ns setup_ns queue_delay_ns] in *.
    rewrite Hd. rewrite Hn, Hc. change (2 ^ 51) with 2251799813685248 in *.
    split; [lia|]. split; [lia|]. rewrite (proj2 (Z.leb_le _ _)) by lia. reflexivity.
Defined.

(** The totals are plain 64-bit sums, so a cost that overflows wraps to a small
    one and reverses the decision: with a staging cost of 2^64-1 ns and one more
    nanosecond of serialization, moving the data is judged free. *)
Theorem choose_path_overflow_reverses :
  let tr := {| bytes_to_move := 1; bandwidth_bps := 0; latency_ns := 0;
               staging_cost_ns := UINT64_MAX; serialization_cost_ns := 1;
               registration_cost_ns := 0 |} in
  let conv := {| execution_ns := 0; setup_ns := 0; queue_delay_ns := 0;
                 result_return_bytes := 0; confidence := f64_zero |} in
  let near := {| execution_ns := 2000000; setup_ns := 0; queue_delay_ns := 0;
                 result_return_bytes := 0; confidence := f64_zero |} in
  exact_near_cost (evaluate_terms tr conv near) < exact_conv_cost tr (evaluate_terms tr conv near) ∧
  conventional_total_ns (choose_path tr conv near) = kSynthesisPenaltyNs ∧
  decision (choose_path tr conv near) = Decision.CONVENTIONAL_CPU_SELECTED.
Proof. split_and!; vm_compute; reflexivity. Qed.
