(* ===== verification/Planning.v ===== *)
(** * Hard feasibility filtering and ranking ([planning.hpp])

    [hard_filter] lists every reason a target is ineligible, before any cost
    is looked at; [rank_candidates] orders the eligible ones.  The pointers of
    [HardFilterInput] are options. *)

From S2P Require Import Prelude Enums Ids Double Model.

Record EligibilityReasonDetail := { reason : EligibilityReason; detail : string }.

Module HardFilterInput.
Record HardFilterInput : Type := mk {
  target : option TargetDefinition; runtime : option TargetRuntime;
  op : option OperationSpec; data : option DataEvidence;
  caps : option CapabilitySet; program : option Program; policy : option Policy;
  current_worker_boot : option WorkerBootId;
  current_target_generation : option NearMemoryTargetGeneration
}.
End HardFilterInput.
Abbreviation HardFilterInput := HardFilterInput.HardFilterInput.

Definition op_workspace_required (op : OperationSpec) : Z := OperationSpec.workspace_bytes op.

(** [std::find(v.begin(), v.end(), x) != v.end()]. *)
Definition found {A} `{EqDecision A} (x : A) (l : list A) : bool := bool_decide (x ∈ l).

Definition operation_supported (t : TargetDefinition) (op : OperationClass) : bool :=
  found op (TargetDefinition.supported_ops t).

Definition lifecycle_offline (l : TargetLifecycle) : bool :=
  match l with
  | TargetLifecycle.OFFLINE | TargetLifecycle.FAILED | TargetLifecycle.RETIRED => true
  | _ => false
  end.

Definition operation_key (c : OperationClass) : string := "operation:" +:+ to_string c.

(** The program checks of [hard_filter]. *)
Definition program_reasons (op : OperationSpec) (program : option Program)
    : list EligibilityReasonDetail :=
  match OperationSpec.program op with
  | None => []
  | Some pid =>
      push_if
        (match program with
         | None => true
         | Some p => (Program.id p !=? pid) ||
                     negb (bool_decide (Program.lifecycle p = ProgramLifecycle.READY))
         end)
        {| reason := EligibilityReason.PROGRAM_INCOMPATIBLE;
           detail := "program not READY or not registered" |} ++
      match program with
      | None => []
      | Some p =>
          push_if (negb (bool_decide (Program.op_class p = OperationSpec.op_class op)))
            {| reason := EligibilityReason.PROGRAM_INCOMPATIBLE;
               detail := "program operation class mismatch" |} ++
          push_if (negb (found (DataShape.data_type (OperationSpec.shape op)) (Program.data_types p)))
            {| reason := EligibilityReason.PROGRAM_INCOMPATIBLE;
               detail := "program data type mismatch" |}
      end
  end.

(** The checks of [hard_filter] once every required input is present. *)
Definition hard_filter_present (target : TargetDefinition) (runtime : TargetRuntime)
    (op : OperationSpec) (data : DataEvidence) (caps : CapabilitySet) (policy : Policy)
    (program : option Program) (current_worker_boot : option WorkerBootId)
    (current_target_generation : option NearMemoryTargetGeneration)
    : list EligibilityReasonDetail :=
  let lifecycle := TargetRuntime.lifecycle runtime in
  let shape := OperationSpec.shape op in
  push_if (lifecycle_offline lifecycle)
    {| reason := EligibilityReason.TARGET_OFFLINE;
       detail := "target lifecycle " +:+ to_string lifecycle |} ++
  push_if (bool_decide (lifecycle = TargetLifecycle.DEGRADED))
    {| reason := EligibilityReason.TARGET_DEGRADED; detail := "target degraded" |} ++
  push_if (negb (TargetRuntime.reachable runtime))
    {| reason := EligibilityReason.TARGET_UNREACHABLE; detail := "target reported unreachable" |} ++
  push_if (negb (TargetRuntime.dynamic_current runtime) ||
           bool_decide (lifecycle = TargetLifecycle.REVALIDATION_REQUIRED))
    {| reason := EligibilityReason.TARGET_REVALIDATION_REQUIRED;
       detail := "dynamic target evidence requires revalidation" |} ++
  push_if (negb (operation_supported target (OperationSpec.op_class op)))
    {| reason := EligibilityReason.OPERATION_UNSUPPORTED;
       detail := "operation class not supported by target" |} ++
  match state_of caps (operation_key (OperationSpec.op_class op)) with
  | CapabilityState.UNKNOWN =>
      [{| reason := EligibilityReason.OPERATION_UNKNOWN;
          detail := "operation capability UNKNOWN (fails closed)" |}]
  | CapabilityState.REVALIDATION_REQUIRED =>
      [{| reason := EligibilityReason.TARGET_REVALIDATION_REQUIRED;
          detail := "operation capability requires revalidation" |}]
  | _ => []
  end ++
  push_if (negb (found (DataShape.data_type shape) (TargetDefinition.supported_data_types target)))
    {| reason := EligibilityReason.DATATYPE_UNSUPPORTED; detail := "data type not supported" |} ++
  push_if (negb (found (DataShape.layout shape) (TargetDefinition.supported_layouts target)))
    {| reason := EligibilityReason.LAYOUT_UNSUPPORTED; detail := "layout not supported" |} ++
  push_if ((TargetDefinition.alignment_constraint target !=? 0) &&
           (DataShape.alignment shape mod TargetDefinition.alignment_constraint target !=? 0))
    {| reason := EligibilityReason.ALIGNMENT_UNSUPPORTED;
       detail := "data alignment violates target constraint" |} ++
  push_if (negb (DataEvidence.present data))
    {| reason := EligibilityReason.DATA_UNREACHABLE; detail := "data not present in domain" |} ++
  push_if (negb (DataEvidence.current data))
    {| reason := EligibilityReason.DATA_STALE; detail := "data not current" |} ++
  push_if (DataEvidence.dataset_generation data !=? OperationSpec.dataset_generation op)
    {| reason := EligibilityReason.DATA_WRONG_GENERATION;
       detail := "data generation does not match operation" |} ++
  push_if (negb (DataEvidence.reachable data))
    {| reason := EligibilityReason.DATA_UNREACHABLE; detail := "data not reachable from target" |} ++
  push_if (TargetDefinition.workspace_bytes target <? op_workspace_required op)
    {| reason := EligibilityReason.INSUFFICIENT_WORKSPACE;
       detail := "workspace requirement exceeds target budget" |} ++
  push_if (TargetDefinition.concurrency_capacity target <=? TargetRuntime.concurrency_in_use runtime)
    {| reason := EligibilityReason.CONCURRENCY_EXHAUSTED;
       detail := "target concurrency capacity exhausted" |} ++
  program_reasons op program ++
  push_if (match current_target_generation with
           | Some g => TargetDefinition.generation target !=? g | None => false end)
    {| reason := EligibilityReason.WRONG_TARGET_GENERATION;
       detail := "target generation is stale" |} ++
  push_if (match current_worker_boot with
           | Some b => TargetRuntime.owner_boot runtime !=? b | None => false end)
    {| reason := EligibilityReason.WRONG_WORKER_BOOT;
       detail := "target owned by a different worker boot" |} ++
  push_if (negb (CapabilitySet.dynamic_current caps))
    {| reason := EligibilityReason.EVIDENCE_STALE; detail := "capability evidence stale" |} ++
  push_if (f64_lt (PerfEstimate.confidence (TargetRuntime.performance runtime))
                  (Policy.required_confidence policy))
    {| reason := EligibilityReason.INSUFFICIENT_CONFIDENCE;
       detail := "performance confidence below policy threshold" |}.

Definition hard_filter (i : HardFilterInput) : list EligibilityReasonDetail :=
  match HardFilterInput.target i, HardFilterInput.runtime i, HardFilterInput.op i,
        HardFilterInput.data i, HardFilterInput.policy i, HardFilterInput.caps i with
  | Some target, Some runtime, Some op, Some data, Some policy, Some caps =>
      hard_filter_present target runtime op data caps policy (HardFilterInput.program i)
        (HardFilterInput.current_worker_boot i) (HardFilterInput.current_target_generation i)
  | _, _, _, _, _, _ =>
      [{| reason := EligibilityReason.TARGET_OFFLINE;
          detail := "missing required evidence (null input)" |}]
  end.

(** ** Ranking *)

Module RankedCandidate.
Record RankedCandidate : Type := mk {
  target : NearMemoryTargetId; generation : NearMemoryTargetGeneration;
  decision : Decision; movement_avoided_bytes : Z; total_cost_ns : Z;
  estimated_latency_ns : Z; confidence : Z; factors : list string
}.
End RankedCandidate.
Abbreviation RankedCandidate := RankedCandidate.RankedCandidate.

Import RankedCandidate.

(** The comparator passed to [std::sort]. *)
Definition rank_lt (a b : RankedCandidate) : bool :=
  if total_cost_ns a !=? total_cost_ns b then total_cost_ns a <? total_cost_ns b
  else if movement_avoided_bytes a !=? movement_avoided_bytes b then
    movement_avoided_bytes b <? movement_avoided_bytes a
  else if estimated_latency_ns a !=? estimated_latency_ns b then
    estimated_latency_ns a <? estimated_latency_ns b
  else if f64_ne (confidence a) (confidence b) then f64_gt (confidence a) (confidence b)
  else target a <? target b.

(** "[b] is not before [a]": the order a sorted result satisfies pairwise. *)
Definition rank_le (a b : RankedCandidate) : Prop := rank_lt b a = false.
#[global] Instance rank_le_dec : RelDecision rank_le.
Proof. intros a b. unfold rank_le. apply _. Defined.

(** [std::sort] with that comparator.  The standard only fixes the result up
    to the comparator; [rank_unique] below shows that it determines it. *)
Definition rank_candidates (candidates : list RankedCandidate) : list RankedCandidate :=
  merge_sort rank_le candidates.

(** ** Eligibility, as a specification *)

Definition program_compatible (op : OperationSpec) (program : option Program) : Prop :=
  match OperationSpec.program op with
  | None => True
  | Some pid => ∃ p, program = Some p ∧ Program.id p = pid ∧
      Program.lifecycle p = ProgramLifecycle.READY ∧
      Program.op_class p = OperationSpec.op_class op ∧
      DataShape.data_type (OperationSpec.shape op) ∈ Program.data_types p
  end.

Record eligible (target : TargetDefinition) (runtime : TargetRuntime) (op : OperationSpec)
    (data : DataEvidence) (caps : CapabilitySet) (policy : Policy) (program : option Program)
    (boot : option WorkerBootId) (gen : option NearMemoryTargetGeneration) : Prop := {
  el_alive : lifecycle_offline (TargetRuntime.lifecycle runtime) = false;
  el_not_degraded : TargetRuntime.lifecycle runtime ≠ TargetLifecycle.DEGRADED;
  el_reachable : TargetRuntime.reachable runtime = true;
  el_current : TargetRuntime.dynamic_current runtime = true;
  el_validated : TargetRuntime.lifecycle runtime ≠ TargetLifecycle.REVALIDATION_REQUIRED;
  el_op : OperationSpec.op_class op ∈ TargetDefinition.supported_ops target;
  el_cap_known : state_of caps (operation_key (OperationSpec.op_class op)) ≠ CapabilityState.UNKNOWN;
  el_cap_valid : state_of caps (operation_key (OperationSpec.op_class op)) ≠
                 CapabilityState.REVALIDATION_REQUIRED;
  el_type : DataShape.data_type (OperationSpec.shape op) ∈ TargetDefinition.supported_data_types target;
  el_layout : DataShape.layout (OperationSpec.shape op) ∈ TargetDefinition.supported_layouts target;
  el_align : TargetDefinition.alignment_constraint target = 0 ∨
             DataShape.alignment (OperationSpec.shape op) mod
               TargetDefinition.alignment_constraint target = 0;
  el_present : DataEvidence.present data = true;
  el_data_current : DataEvidence.current data = true;
  el_data_gen : DataEvidence.dataset_generation data = OperationSpec.dataset_generation op;
  el_data_reachable : DataEvidence.reachable data = true;
  el_workspace : OperationSpec.workspace_bytes op <= TargetDefinition.workspace_bytes target;
  el_concurrency : TargetRuntime.concurrency_in_use runtime <
                   TargetDefinition.concurrency_capacity target;
  el_program : program_compatible op program;
  el_gen : ∀ g, gen = Some g → TargetDefinition.generation target = g;
  el_boot : ∀ b, boot = Some b → TargetRuntime.owner_boot runtime = b;
  el_evidence : CapabilitySet.dynamic_current caps = true;
  el_confidence : f64_lt (PerfEstimate.confidence (TargetRuntime.performance runtime))
                         (Policy.required_confidence policy) = false
}.

Lemma program_reasons_nil op program :
  program_reasons op program = [] ↔ program_compatible op program.
Proof.
  unfold program_reasons, program_compatible, found.
  destruct (OperationSpec.program op) as [pid|]; [|done].
  destruct program as [p|].
  - rewrite !app_nil_iff, !push_if_nil, orb_false_iff, neqb_false, !negb_false_iff,
      !bool_decide_eq_true.
    split; [intros; destruct_and!; by exists p|by intros (? & [= <-] & ?); tauto].
  - split; [done|]. by intros (p & [=] & _).
Qed.

Lemma option_gen_false (g : option Z) x :
  match g with Some y => x !=? y | None => false end = false ↔ ∀ y, g = Some y → x = y.
Proof.
  destruct g; rewrite ?neqb_false; split; [by intros -> ? [= ->]|auto|done|done].
Qed.

Lemma cap_state_nil {A} (s : CapabilityState) (a b : A) :
  match s with CapabilityState.UNKNOWN => [a] | CapabilityState.REVALIDATION_REQUIRED => [b]
  | _ => [] end = [] ↔ s ≠ CapabilityState.UNKNOWN ∧ s ≠ CapabilityState.REVALIDATION_REQUIRED.
Proof. destruct s; split; try done; intros [??]; done. Qed.

Lemma align_false a b :
  ((b !=? 0) && (a mod b !=? 0)) = false ↔ b = 0 ∨ a mod b = 0.
Proof. rewrite andb_false_iff, !neqb_false. done. Qed.

Lemma hard_filter_present_nil target runtime op data caps policy program boot gen :
  hard_filter_present target runtime op data caps policy program boot gen = [] ↔
  eligible target runtime op data caps policy program boot gen.
Proof.
  unfold hard_filter_present, operation_supported, found, op_workspace_required. cbv zeta.
  rewrite !app_nil_iff, !push_if_nil, program_reasons_nil, !option_gen_false, cap_state_nil,
    align_false, orb_false_iff, neqb_false, !negb_false_iff, !bool_decide_eq_true,
    !bool_decide_eq_false, Z.ltb_ge, Z.leb_gt.
  split.
  - intros. destruct_and!. by constructor.
  - intros []. split_and!; done.
Qed.

Definition required_inputs (i : HardFilterInput) t rt op d c p : Prop :=
  HardFilterInput.target i = Some t ∧ HardFilterInput.runtime i = Some rt ∧
  HardFilterInput.op i = Some op ∧ HardFilterInput.data i = Some d ∧
  HardFilterInput.caps i = Some c ∧ HardFilterInput.policy i = Some p.

Lemma hard_filter_nil i :
  hard_filter i = [] ↔
  ∃ t rt op d c p, required_inputs i t rt op d c p ∧
    eligible t rt op d c p (HardFilterInput.program i)
      (HardFilterInput.current_worker_boot i) (HardFilterInput.current_target_generation i).
Proof.
  unfold hard_filter, required_inputs. split.
  - intros H. repeat (case_match; [|done]).
    apply hard_filter_present_nil in H. by eexists _, _, _, _, _, _.
  - intros (t & rt & op & d & c & p & (-> & -> & -> & -> & -> & ->) & H).
    by apply hard_filter_present_nil.
Qed.

(** ** The ranking order *)

(** The comparator's key: five integers compared lexicographically. *)
Definition rank_key (c : RankedCandidate) : Z * Z * Z * Z * Z :=
  (total_cost_ns c, - movement_avoided_bytes c, estimated_latency_ns c,
   - f64_key (confidence c), target c).

Definition key_lt (x y : Z * Z * Z * Z * Z) : Prop :=
  let '(a1, b1, c1, d1, e1) := x in let '(a2, b2, c2, d2, e2) := y in
  a1 < a2 ∨ (a1 = a2 ∧ (b1 < b2 ∨ (b1 = b2 ∧ (c1 < c2 ∨ (c1 = c2 ∧
  (d1 < d2 ∨ (d1 = d2 ∧ e1 < e2))))))).

Definition confident (c : RankedCandidate) : Prop := f64_is_nan (confidence c) = false.

Lemma rank_lt_key a b :
  confident a → confident b → rank_lt a b = true ↔ key_lt (rank_key a) (rank_key b).
Proof.
  intros Ha Hb. unfold rank_lt, rank_key, key_lt.
  unfold f64_gt. rewrite f64_ne_key, f64_lt_key by done.
  repeat match goal with
  | |- context [?x !=? ?y] => destruct (Z.eqb_spec x y); simpl
  | |- context [?x <? ?y] => destruct (Z.ltb_spec x y)
  end; split; intros; try done; try lia.
Qed.

Lemma rank_lt_asymm a b : rank_lt a b = true → rank_lt b a = false.
Proof.
  unfold rank_lt, f64_gt, f64_ne, f64_lt.
  repeat match goal with
  | |- context [?x !=? ?y] => destruct (Z.eqb_spec x y); simpl
  | |- context [?x =? ?y] => destruct (Z.eqb_spec x y); simpl
  | |- context [?x <? ?y] => destruct (Z.ltb_spec x y); simpl
  | |- context [f64_is_nan ?x] => destruct (f64_is_nan x); simpl
  end; try done; lia.
Qed.

#[global] Instance rank_le_total : Total rank_le.
Proof.
  intros a b. unfold rank_le. destruct (rank_lt b a) eqn:H; [right|by left].
  by apply rank_lt_asymm.
Qed.

Definition key_le5 (a b : RankedCandidate) : Prop := ¬ key_lt (rank_key b) (rank_key a).
#[global] Instance key_le5_trans : Transitive key_le5.
Proof. intros a b c. unfold key_le5, key_lt, rank_key. lia. Qed.

Lemma rank_le_key a b : confident a → confident b → rank_le a b ↔ key_le5 a b.
Proof.
  intros Ha Hb. unfold rank_le, key_le5. rewrite <- rank_lt_key by done.
  by rewrite not_true_iff_false.
Qed.

Lemma Sorted_rank_key l : Forall confident l → Sorted rank_le l → Sorted key_le5 l.
Proof.
  intros Hl. induction 1 as [|a l Hs IH Hd]; constructor; inversion Hl; subst; auto.
  destruct Hd as [|b l' Hab]; constructor. apply rank_le_key; [done| |done].
  by inversion H2; subst.
Qed.

Lemma NoDup_target_eq (l : list RankedCandidate) a b :
  NoDup (target <$> l) → a ∈ l → b ∈ l → target a = target b → a = b.
Proof.
  intros Hnd [i Hi]%list_elem_of_lookup [j Hj]%list_elem_of_lookup Heq.
  assert (i = j) as ->; [|congruence].
  eapply (NoDup_lookup _ _ _ _ Hnd); rewrite list_lookup_fmap; [by rewrite Hi|].
  rewrite Hj. simpl. congruence.
Qed.

Lemma rank_candidates_perm l : rank_candidates l ≡ₚ l.
Proof. apply merge_sort_Permutation. Qed.

Lemma rank_candidates_sorted l : Sorted rank_le (rank_candidates l).
Proof. apply Sorted_merge_sort. apply _. Qed.

(** Whatever algorithm sorts, the outcome is the same list. *)
Lemma rank_unique l l' :
  NoDup (target <$> l) → Forall confident l → l' ≡ₚ l → Sorted rank_le l' →
  l' = rank_candidates l.
Proof.
  intros Hnd Hc Hp Hs.
  assert (Hp' : l' ≡ₚ rank_candidates l) by by rewrite rank_candidates_perm.
  apply (Sorted_unique_strong key_le5); [| | |done].
  - intros a b Ha Hb. rewrite Hp in Ha. rewrite rank_candidates_perm in Hb.
    intros Hab Hba. apply (NoDup_target_eq l); [done..|].
    unfold key_le5, key_lt, rank_key in *. lia.
  - apply Sorted_rank_key; [by rewrite Hp|done].
  - apply Sorted_rank_key; [by rewrite rank_candidates_perm|apply rank_candidates_sorted].
Qed.

(** The first candidate of the ranking costs no more than any other. *)
Lemma rank_head_min l best rest c :
  Forall confident l → rank_candidates l = best :: rest → c ∈ l →
  total_cost_ns best <= total_cost_ns c.
Proof.
  intros Hc Hr Hin.
  assert (Hs : StronglySorted key_le5 (best :: rest)).
  { apply Sorted_StronglySorted; [apply _|]. rewrite <- Hr.
    apply Sorted_rank_key; [by rewrite rank_candidates_perm|apply rank_candidates_sorted]. }
  rewrite <- rank_candidates_perm, Hr in Hin.
  apply StronglySorted_inv in Hs as [_ Hall]. apply elem_of_cons in Hin as [->|Hin]; [lia|].
  rewrite Forall_forall in Hall. specialize (Hall c (proj1 (list_elem_of_In _ _) Hin)).
  unfold key_le5, key_lt, rank_key in Hall. lia.
Qed.

(** ** A concrete eligible input *)

Definition sample_target : TargetDefinition :=
  {| TargetDefinition.id := 7; TargetDefinition.generation := 1;
     TargetDefinition.provider := ProviderKind.SYNTHETIC;
     TargetDefinition.kind := TargetKind.MEMORY_SIDE_PROCESSOR;
     TargetDefinition.name := "syn-reduce"; TargetDefinition.description := "";
     TargetDefinition.failure_domain := 0; TargetDefinition.memory_domains := [];
     TargetDefinition.supported_ops := [OperationClass.SUM; OperationClass.MIN];
     TargetDefinition.supported_data_types := [DataType.U8];
     TargetDefinition.supported_layouts := [Layout.CONTIGUOUS];
     TargetDefinition.max_input_bytes := 8589934592; TargetDefinition.alignment_constraint := 1;
     TargetDefinition.concurrency_capacity := 2; TargetDefinition.queue_depth := 1;
     TargetDefinition.workspace_bytes := 1048576;
     TargetDefinition.access_semantics := AccessSemantics.DIRECT;
     TargetDefinition.requires_staging := false; TargetDefinition.synthetic := true;
     TargetDefinition.supports_verification := false;
     TargetDefinition.supports_cancellation := false; TargetDefinition.supports_drain := false;
     TargetDefinition.authority_owner := "worker" |}.

Definition sample_runtime (confidence : Z) : TargetRuntime :=
  {| TargetRuntime.lifecycle := TargetLifecycle.READY; TargetRuntime.id := 7;
     TargetRuntime.owner_boot := 9; TargetRuntime.evidence_id := 0;
     TargetRuntime.evidence_generation := 0; TargetRuntime.reachable := true;
     TargetRuntime.concurrency_in_use := 0; TargetRuntime.workspace_in_use := 0;
     TargetRuntime.current_queue_depth := 0;
     TargetRuntime.performance :=
       {| PerfEstimate.latency_ns := 12000000; PerfEstimate.throughput_bps := 107374182400;
          PerfEstimate.setup_ns := 0; PerfEstimate.confidence := confidence;
          PerfEstimate.measured := false |};
     TargetRuntime.dynamic_current := true; TargetRuntime.queued := 0 |}.

Definition sample_op : OperationSpec :=
  {| OperationSpec.id := 11; OperationSpec.generation := 1;
     OperationSpec.op_class := OperationClass.SUM; OperationSpec.dataset := 21;
     OperationSpec.dataset_generation := 1; OperationSpec.region := 31;
     OperationSpec.region_generation := 1;
     OperationSpec.shape := {| DataShape.element_count := 8589934592;
       DataShape.data_type := DataType.U8; DataShape.layout := Layout.CONTIGUOUS;
       DataShape.alignment := 1 |};
     OperationSpec.input_bytes := 8589934592; OperationSpec.output_bytes := 8;
     OperationSpec.workspace_bytes := 0; OperationSpec.output_data_type := DataType.U64;
     OperationSpec.determinism_required := true; OperationSpec.max_tolerated_latency_ns := 0;
     OperationSpec.required_throughput_bps := 0;
     OperationSpec.integrity := IntegrityRequirement.CHECKED;
     OperationSpec.retry_class := RetryClass.REPLAY_SAFE; OperationSpec.policy := 1;
     OperationSpec.policy_generation := 1; OperationSpec.program := None;
     OperationSpec.program_generation := None; OperationSpec.description := "" |}.

Definition sample_evidence : DataEvidence :=
  {| DataEvidence.region := 31; DataEvidence.region_generation := 1;
     DataEvidence.dataset_generation := 1; DataEvidence.memory_domain := 41;
     DataEvidence.memory_domain_generation := 1; DataEvidence.present := true;
     DataEvidence.current := true; DataEvidence.reachable := true;
     DataEvidence.integrity := IntegrityState.UNKNOWN; DataEvidence.mutable_ := false;
     DataEvidence.dynamic_current := true; DataEvidence.evidence_id := 0;
     DataEvidence.evidence_generation := 0; DataEvidence.publisher := 9;
     DataEvidence.location_note := "" |}.

Definition sample_caps (s : CapabilityState) : CapabilitySet :=
  {| CapabilitySet.target := 7; CapabilitySet.target_generation := 1;
     CapabilitySet.generation := 1;
     CapabilitySet.entries := {[ "operation:SUM" :=
       {| CapabilityEntry.id := 51; CapabilityEntry.generation := 1; CapabilityEntry.target := 7;
          CapabilityEntry.key := "operation:SUM"; CapabilityEntry.state := s;
          CapabilityEntry.required_for_execution := true; CapabilityEntry.detail := "" |} ]};
     CapabilitySet.evidence_id := 61; CapabilitySet.evidence_generation := 1;
     CapabilitySet.publisher := 9; CapabilitySet.dynamic_current := true |}.

Definition sample_policy (required : Z) : Policy :=
  {| Policy.id := 1; Policy.generation := 1; Policy.name := "default";
     Policy.outcome := PolicyOutcome.UNCONSTRAINED; Policy.permitted_fallbacks := [];
     Policy.required_confidence := required; Policy.near_memory_bias := f64_zero;
     Policy.reject_on_stale := true; Policy.max_near_memory_input_bytes := 0;
     Policy.require_verification := false |}.

Definition sample_input (s : CapabilityState) (confidence required : Z) : HardFilterInput :=
  {| HardFilterInput.target := Some sample_target;
     HardFilterInput.runtime := Some (sample_runtime confidence);
     HardFilterInput.op := Some sample_op; HardFilterInput.data := Some sample_evidence;
     HardFilterInput.caps := Some (sample_caps s); HardFilterInput.program := None;
     HardFilterInput.policy := Some (sample_policy required);
     HardFilterInput.current_worker_boot := Some 9;
     HardFilterInput.current_target_generation := Some 1 |}.

Definition sample_candidate (t cost conf : Z) : RankedCandidate :=
  {| target := t; generation := 1; decision := Decision.NEAR_MEMORY_SELECTED;
     movement_avoided_bytes := 0; total_cost_ns := cost; estimated_latency_ns := 0;
     confidence := conf; factors := [] |}.

(** ** Properties *)

(** [hard_filter] finds no reason exactly when every required input is present
    and the target is eligible: alive, reachable and current, the operation class,
    data type, layout and alignment supported, its capability neither unknown nor
    awaiting revalidation, the data present, current, reachable and of the
    operation's generation, workspace and concurrency available, the program
    compatible, generation and boot current, and the confidence not below the
    policy's threshold. *)
Theorem hard_filter_exact i :
  hard_filter i = [] ↔
  ∃ t rt op d c p, required_inputs i t rt op d c p ∧
    eligible t rt op d c p (HardFilterInput.program i)
      (HardFilterInput.current_worker_boot i) (HardFilterInput.current_target_generation i).
Proof. apply hard_filter_nil. Qed.

(** The ranking is deterministic: for candidates of distinct targets whose
    confidence is a number, any permutation of the input gives the same ranking,
    any sorting algorithm the comparator allows gives that ranking, and its first
    candidate has the least total cost. *)
Theorem ranking_deterministic l l' :
  NoDup (target <$> l) → Forall confident l → l' ≡ₚ l →
  rank_candidates l' = rank_candidates l ∧
  (Sorted rank_le l' → l' = rank_candidates l) ∧
  (∀ best rest c, rank_candidates l = best :: rest → c ∈ l →
     total_cost_ns best <= total_cost_ns c).
Proof.
  intros Hnd Hc Hp. split_and!.
  - apply rank_unique; [done..| |apply rank_candidates_sorted].
    by rewrite rank_candidates_perm.
  - by apply rank_unique.
  - intros. by eapply rank_head_min.
Qed.

Lemma ranking_deterministic_witness :
  rank_candidates [sample_candidate 2 5 f64_half; sample_candidate 1 5 f64_0_95] =
  rank_candidates [sample_candidate 1 5 f64_0_95; sample_candidate 2 5 f64_half].
Proof.
  apply (ranking_deterministic
           [sample_candidate 1 5 f64_0_95; sample_candidate 2 5 f64_half]
           [sample_candidate 2 5 f64_half; sample_candidate 1 5 f64_0_95]).
  - apply (bool_decide_eq_true_1 _). vm_compute. reflexivity.
  - repeat constructor.
  - apply Permutation_swap.
Defined.

(** A capability published as UNSUPPORTED does not make the target ineligible:
    the filter rejects only UNKNOWN and REVALIDATION_REQUIRED, so an operation the
    worker declares unsupported passes when the class is in the advertised list. *)
Theorem unsupported_capability_is_eligible :
  state_of (sample_caps CapabilityState.UNSUPPORTED) (operation_key (OperationSpec.op_class sample_op)) =
    CapabilityState.UNSUPPORTED ∧
  hard_filter (sample_input CapabilityState.UNSUPPORTED f64_0_95 f64_half) = [].
Proof. split; vm_compute; reflexivity. Qed.

(** A confidence that is not a number defeats both uses of it: it is never below
    the policy's threshold, and the ranking comparator is then not a strict weak
    order (each of the two numbers ties with NaN, yet they do not tie with each
    other), so that it no longer determines the ranking: two different orders of
    the same candidates are both sorted by it. *)
Theorem nan_confidence_defeats_policy :
  hard_filter (sample_input CapabilityState.SUPPORTED f64_qnan f64_0_95) = [] ∧
  (∀ required, f64_lt f64_qnan required = false) ∧
  let a := sample_candidate 1 5 f64_half in
  let n := sample_candidate 2 5 f64_qnan in
  let b := sample_candidate 3 5 f64_0_95 in
  (rank_lt a n = false ∧ rank_lt n a = false ∧ rank_lt n b = false ∧ rank_lt b n = false ∧
   rank_lt b a = true) ∧
  Sorted rank_le [a; n; b] ∧ Sorted rank_le [b; a; n].
Proof.
  split; [vm_compute; reflexivity|]. split; [done|]. intros a n b.
  split; [split_and!; vm_compute; reflexivity|].
  split; repeat constructor; vm_compute; reflexivity.
Qed.
