(* ===== verification/Protocol.v ===== *)
(** * The framed protocol ([protocol.hpp])

    The fixed 24-byte frame header and the payload of every message: its
    record, [encode_*] (the bytes appended to the writer), [decode_*], the
    values it may hold ([wf_*]), and two lemmas each: a well-formed message is
    read back ([*_reads]), and whatever bytes arrive, an accepted message is
    well formed ([*_bounded]). *)

From S2P Require Import Prelude Enums Ids Model Codec.

Definition kProtocolMagic : Z := 0x4D4F434E.
Definition kProtocolVersion : Z := 1.
Definition kMaxFramePayload : Z := 64 * 1024 * 1024.
Definition kFrameHeaderBytes : nat := 24.

(** ** Proof automation for the message codecs *)

(** The writers stay folded under [simpl]. *)
#[global] Opaque write_u8 write_u16 write_u32 write_u64 write_f64 write_bool write_string
  write_blob write_enum16 write_list read_u64.

Lemma reads_wire_enum {E} `{CEnum E} (e : E) :
  wire_enum e → reads read_enum16 (write_enum16 e) e.
Proof. intros []. by apply reads_enum16. Qed.

Lemma reads_enum_list {E} `{CEnum E} (l : list E) cap :
  Forall wire_enum l → Z.of_nat (length l) <= cap →
  reads (read_capped (Z.of_nat (length l)) cap read_enum16) (write_list write_enum16 l) l.
Proof.
  intros Hl Hc. apply reads_capped; [|done].
  eapply Forall_impl; [|done]. intros. by apply reads_wire_enum.
Qed.

Lemma reads_bind_ret {A B} (a : A) (k : A → Reader B) bs c :
  reads (k a) bs c → reads (rbind (rret a) k) bs c.
Proof. done. Qed.

Lemma bounded_enum_list {E} `{CEnumLaws E} n cap :
  0 <= cap →
  bounded (read_capped n cap (read_enum16 (E:=E)))
    (fun l => Forall wire_enum l ∧ Z.of_nat (length l) <= cap).
Proof. apply bounded_capped. apply bounded_enum16. Qed.

Lemma bounded_optional (b : bool) :
  bounded (if b then read_u64 else rret 0) (fun v => in_u64 v ∧ (b = false → v = 0)).
Proof.
  destruct b; [|apply bounded_ret; split; [ranges|done]].
  eapply bounded_impl; [apply bounded_u64|]. done.
Qed.

#[export] Hint Resolve reads_wire_enum reads_enum_list : nmc_codec.
#[export] Hint Extern 1 (in_u64 (Z.of_nat _)) => (unfold in_u64; lia) : nmc_codec.
#[export] Hint Extern 1 (Z.of_nat _ <= _) => lia : nmc_codec.
#[export] Hint Extern 1 (bounded read_enum16 _) => apply bounded_enum16 : nmc_bounds.
#[export] Hint Extern 1 (bounded (read_capped _ _ read_enum16) _) =>
  apply bounded_enum_list; lia : nmc_bounds.
#[export] Hint Resolve bounded_optional : nmc_bounds.
#[export] Hint Extern 1 (0 <= _) => lia : nmc_bounds.

Ltac solve_reads :=
  repeat first
    [ apply reads_bind_ret
    | reads_step; [solve [eauto with nmc_codec]|]
    | apply reads_ret ].

(** Destruct the message and the optional-field flags, then read the fields in
    order. *)
Ltac solve_roundtrip m :=
  destruct m; simpl; intros; destruct_and?;
  repeat match goal with
  | |- context [if ?b then _ else _] => is_var b; destruct b; simpl
  end;
  repeat match goal with
  | H : _ = _ → _ = _ |- _ => specialize (H eq_refl); subst
  end;
  solve_reads.

Ltac solve_bounded :=
  repeat first
    [ eapply bounded_bind; [solve [eauto with nmc_bounds]|intros ??; cbv beta in *; destruct_and?]
    | apply bounded_ret; simpl; split_and?; solve [auto] ].

(** ** The frame header *)

Record FrameHeader := {
  magic : Z; version : Z; type : FrameType; payload_len : Z;
  correlation : Z; checksum : Z
}.

Definition encode_header (h : FrameHeader) : list Z :=
  write_u32 (magic h) ++ write_u16 (version h) ++ write_enum16 (type h) ++
  write_u32 (payload_len h) ++ write_u64 (correlation h) ++ write_u32 (checksum h).

Definition decode_header : Reader FrameHeader :=
  let! magic' := read_u32 in
  let! version' := read_u16 in
  let! type' := read_enum16 in
  if negb (is_valid_frame_type type') then rfail else
  let! payload_len' := read_u32 in
  let! correlation' := read_u64 in
  let! checksum' := read_u32 in
  rret {| magic := magic'; version := version'; type := type'; payload_len := payload_len';
          correlation := correlation'; checksum := checksum' |}.

Definition wf_header (h : FrameHeader) : Prop :=
  in_u32 (magic h) ∧ in_u16 (version h) ∧ valid_enum (type h) ∧ in_u32 (payload_len h) ∧
  in_u64 (correlation h) ∧ in_u32 (checksum h).

Lemma is_valid_frame_type_spec t : is_valid_frame_type t = true ↔ valid_enum t.
Proof.
  unfold is_valid_frame_type, contains, valid_enum. rewrite existsb_exists.
  setoid_rewrite <- list_elem_of_In. split.
  - by intros (x & Hx & ->%bool_decide_eq_true_1).
  - intros Ht. exists t. by rewrite bool_decide_eq_true.
Qed.

Lemma header_reads h : wf_header h → reads decode_header (encode_header h) h.
Proof.
  destruct h. unfold wf_header, encode_header, decode_header. simpl. intros. destruct_and!.
  assert (wire_enum type0) by (split; [by apply enum_of_int_valid|by apply valid_enum_u16]).
  do 3 (reads_step; [solve [eauto with nmc_codec]|]).
  rewrite (proj2 (is_valid_frame_type_spec _)) by done. simpl. solve_reads.
Qed.

Lemma header_bounded : bounded decode_header wf_header.
Proof.
  unfold decode_header, wf_header.
  do 3 (eapply bounded_bind; [solve [eauto with nmc_bounds]|intros ??; cbv beta in *; destruct_and?]).
  destruct (is_valid_frame_type a1) eqn:Hv; simpl; [|apply bounded_fail].
  apply is_valid_frame_type_spec in Hv. solve_bounded.
Qed.

Lemma encode_header_bytes h : is_bytes (encode_header h).
Proof. unfold encode_header. auto 10 with nmc_codec. Qed.

Lemma encode_header_length h : length (encode_header h) = kFrameHeaderBytes.
Proof. by vm_compute. Qed.

(** ** Worker messages *)

Record CapabilityEntryWire := { key : string; state : CapabilityState }.
Definition encode_entry (e : CapabilityEntryWire) : list Z :=
  write_string (key e) ++ write_enum16 (state e).
Definition decode_entry : Reader CapabilityEntryWire :=
  let! k := read_string in
  let! s := read_enum16 in
  rret {| key := k; state := s |}.
Definition wf_entry (e : CapabilityEntryWire) : Prop :=
  string_ok (key e) ∧ wire_enum (state e).
Lemma entry_reads e : wf_entry e → reads decode_entry (encode_entry e) e.
Proof. unfold wf_entry, encode_entry, decode_entry. solve_roundtrip e. Qed.
Lemma entry_bounded : bounded decode_entry wf_entry.
Proof. unfold decode_entry, wf_entry. solve_bounded. Qed.

Lemma entries_reads l cap :
  Forall wf_entry l → Z.of_nat (length l) <= cap →
  reads (read_capped (Z.of_nat (length l)) cap decode_entry) (write_list encode_entry l) l.
Proof.
  intros Hl Hc. apply reads_capped; [|done].
  eapply Forall_impl; [|done]. intros. by apply entry_reads.
Qed.
Lemma entries_bounded n cap :
  0 <= cap →
  bounded (read_capped n cap decode_entry)
    (fun l => Forall wf_entry l ∧ Z.of_nat (length l) <= cap).
Proof. apply bounded_capped. apply entry_bounded. Qed.
#[export] Hint Resolve entries_reads : nmc_codec.
#[export] Hint Resolve entries_bounded : nmc_bounds.

Module HelloMsg.
Record HelloMsg : Type := mk {
  worker : WorkerId; worker_boot : WorkerBootId; name : string
}.
Definition dflt : HelloMsg :=
  {| worker := 0; worker_boot := 0; name := "" |}.
Definition encode_hello (m : HelloMsg) : list Z :=
  write_u64 (worker m) ++ write_u64 (worker_boot m) ++ write_string (name m).
Definition decode_hello : Reader HelloMsg :=
  let! worker' := read_u64 in
  let! worker_boot' := read_u64 in
  let! name' := read_string in
  rret {| worker := worker'; worker_boot := worker_boot'; name := name' |}.
Definition wf_hello (m : HelloMsg) : Prop :=
  in_u64 (worker m) ∧ in_u64 (worker_boot m) ∧ string_ok (name m).
Lemma hello_reads m : wf_hello m → reads decode_hello (encode_hello m) m.
Proof. unfold wf_hello, encode_hello, decode_hello. solve_roundtrip m. Qed.
Lemma hello_bounded : bounded decode_hello wf_hello.
Proof. unfold decode_hello, wf_hello. solve_bounded. Qed.
End HelloMsg.
Abbreviation HelloMsg := HelloMsg.HelloMsg.

Module RegisterTargetMsg.
Record RegisterTargetMsg : Type := mk {
  target : NearMemoryTargetId; generation : NearMemoryTargetGeneration;
  provider : ProviderKind; kind : TargetKind; synthetic : bool; name : string;
  ops : list OperationClass; data_types : list DataType; layouts : list Layout;
  max_input_bytes : Z; alignment : Z; concurrency : Z; workspace : Z;
  owner_boot : WorkerBootId
}.
Definition dflt : RegisterTargetMsg :=
  {| target := 0; generation := 0; provider := ProviderKind.UNKNOWN;
     kind := TargetKind.UNKNOWN; synthetic := false; name := ""; ops := [];
     data_types := []; layouts := []; max_input_bytes := 0; alignment := 1;
     concurrency := 1; workspace := 0; owner_boot := 0 |}.
Definition encode_register_target (m : RegisterTargetMsg) : list Z :=
  write_u64 (target m) ++ write_u64 (generation m) ++ write_enum16 (provider m) ++
  write_enum16 (kind m) ++ write_bool (synthetic m) ++ write_string (name m) ++
  write_u64 (Z.of_nat (length (ops m))) ++ write_list write_enum16 (ops m) ++
  write_u64 (Z.of_nat (length (data_types m))) ++
  write_list write_enum16 (data_types m) ++
  write_u64 (Z.of_nat (length (layouts m))) ++ write_list write_enum16 (layouts m) ++
  write_u64 (max_input_bytes m) ++ write_u64 (alignment m) ++
  write_u32 (concurrency m) ++ write_u64 (workspace m) ++ write_u64 (owner_boot m).
Definition decode_register_target : Reader RegisterTargetMsg :=
  let! target' := read_u64 in
  let! generation' := read_u64 in
  let! provider' := read_enum16 in
  let! kind' := read_enum16 in
  let! synthetic' := read_bool in
  let! name' := read_string in
  let! nops := read_u64 in
  let! ops' := read_capped nops 64 read_enum16 in
  let! ndata_types := read_u64 in
  let! data_types' := read_capped ndata_types 64 read_enum16 in
  let! nlayouts := read_u64 in
  let! layouts' := read_capped nlayouts 64 read_enum16 in
  let! max_input_bytes' := read_u64 in
  let! alignment' := read_u64 in
  let! concurrency' := read_u32 in
  let! workspace' := read_u64 in
  let! owner_boot' := read_u64 in
  rret {| target := target'; generation := generation'; provider := provider';
           kind := kind'; synthetic := synthetic'; name := name'; ops := ops';
           data_types := data_types'; layouts := layouts';
           max_input_bytes := max_input_bytes'; alignment := alignment';
           concurrency := concurrency'; workspace := workspace';
           owner_boot := owner_boot' |}.
Definition wf_register_target (m : RegisterTargetMsg) : Prop :=
  in_u64 (target m) ∧ in_u64 (generation m) ∧ wire_enum (provider m) ∧
  wire_enum (kind m) ∧ string_ok (name m) ∧ Forall wire_enum (ops m) ∧
  Z.of_nat (length (ops m)) <= 64 ∧ Forall wire_enum (data_types m) ∧
  Z.of_nat (length (data_types m)) <= 64 ∧ Forall wire_enum (layouts m) ∧
  Z.of_nat (length (layouts m)) <= 64 ∧ in_u64 (max_input_bytes m) ∧
  in_u64 (alignment m) ∧ in_u32 (concurrency m) ∧ in_u64 (workspace m) ∧
  in_u64 (owner_boot m).
Lemma register_target_reads m : wf_register_target m → reads decode_register_target (encode_register_target m) m.
Proof. unfold wf_register_target, encode_register_target, decode_register_target. solve_roundtrip m. Qed.
Lemma register_target_bounded : bounded decode_register_target wf_register_target.
Proof. unfold decode_register_target, wf_register_target. solve_bounded. Qed.
End RegisterTargetMsg.
Abbreviation RegisterTargetMsg := RegisterTargetMsg.RegisterTargetMsg.

Module CapabilityMsg.
Record CapabilityMsg : Type := mk {
  target : NearMemoryTargetId; generation : CapabilityGeneration;
  entries : list CapabilityEntryWire; evidence_generation : EvidenceGeneration;
  publisher : WorkerBootId
}.
Definition dflt : CapabilityMsg :=
  {| target := 0; generation := 0; entries := []; evidence_generation := 0;
     publisher := 0 |}.
Definition encode_capability (m : CapabilityMsg) : list Z :=
  write_u64 (target m) ++ write_u64 (generation m) ++
  write_u64 (Z.of_nat (length (entries m))) ++ write_list encode_entry (entries m) ++
  write_u64 (evidence_generation m) ++ write_u64 (publisher m).
Definition decode_capability : Reader CapabilityMsg :=
  let! target' := read_u64 in
  let! generation' := read_u64 in
  let! n := read_u64 in
  let! entries' := read_capped n 1024 decode_entry in
  let! evidence_generation' := read_u64 in
  let! publisher' := read_u64 in
  rret {| target := target'; generation := generation'; entries := entries';
           evidence_generation := evidence_generation'; publisher := publisher' |}.
Definition wf_capability (m : CapabilityMsg) : Prop :=
  in_u64 (target m) ∧ in_u64 (generation m) ∧ Forall wf_entry (entries m) ∧
  Z.of_nat (length (entries m)) <= 1024 ∧ in_u64 (evidence_generation m) ∧
  in_u64 (publisher m).
Lemma capability_reads m : wf_capability m → reads decode_capability (encode_capability m) m.
Proof. unfold wf_capability, encode_capability, decode_capability. solve_roundtrip m. Qed.
Lemma capability_bounded : bounded decode_capability wf_capability.
Proof. unfold decode_capability, wf_capability. solve_bounded. Qed.
End CapabilityMsg.
Abbreviation CapabilityMsg := CapabilityMsg.CapabilityMsg.

Module DataEvidenceMsg.
Record DataEvidenceMsg : Type := mk {
  region : DataRegionId; region_generation : DataRegionGeneration; dataset : DatasetId;
  dataset_generation : DatasetGeneration; memory_domain : MemoryDomainId;
  memory_domain_generation : MemoryDomainGeneration; present : bool; current : bool;
  reachable : bool; publisher : WorkerBootId
}.
Definition dflt : DataEvidenceMsg :=
  {| region := 0; region_generation := 0; dataset := 0; dataset_generation := 0;
     memory_domain := 0; memory_domain_generation := 0; present := false;
     current := false; reachable := false; publisher := 0 |}.
Definition encode_data_evidence (m : DataEvidenceMsg) : list Z :=
  write_u64 (region m) ++ write_u64 (region_generation m) ++ write_u64 (dataset m) ++
  write_u64 (dataset_generation m) ++ write_u64 (memory_domain m) ++
  write_u64 (memory_domain_generation m) ++ write_bool (present m) ++
  write_bool (current m) ++ write_bool (reachable m) ++ write_u64 (publisher m).
Definition decode_data_evidence : Reader DataEvidenceMsg :=
  let! region' := read_u64 in
  let! region_generation' := read_u64 in
  let! dataset' := read_u64 in
  let! dataset_generation' := read_u64 in
  let! memory_domain' := read_u64 in
  let! memory_domain_generation' := read_u64 in
  let! present' := read_bool in
  let! current' := read_bool in
  let! reachable' := read_bool in
  let! publisher' := read_u64 in
  rret {| region := region'; region_generation := region_generation';
           dataset := dataset'; dataset_generation := dataset_generation';
           memory_domain := memory_domain';
           memory_domain_generation := memory_domain_generation'; present := present';
           current := current'; reachable := reachable'; publisher := publisher' |}.
Definition wf_data_evidence (m : DataEvidenceMsg) : Prop :=
  in_u64 (region m) ∧ in_u64 (region_generation m) ∧ in_u64 (dataset m) ∧
  in_u64 (dataset_generation m) ∧ in_u64 (memory_domain m) ∧
  in_u64 (memory_domain_generation m) ∧ in_u64 (publisher m).
Lemma data_evidence_reads m : wf_data_evidence m → reads decode_data_evidence (encode_data_evidence m) m.
Proof. unfold wf_data_evidence, encode_data_evidence, decode_data_evidence. solve_roundtrip m. Qed.
Lemma data_evidence_bounded : bounded decode_data_evidence wf_data_evidence.
Proof. unfold decode_data_evidence, wf_data_evidence. solve_bounded. Qed.
End DataEvidenceMsg.
Abbreviation DataEvidenceMsg := DataEvidenceMsg.DataEvidenceMsg.

Module HeartbeatMsg.
Record HeartbeatMsg : Type := mk {
  target : NearMemoryTargetId; lifecycle : TargetLifecycle; reachable : bool;
  queue_depth : Z; latency_ns : Z; throughput_bps : Z; confidence : Z
}.
Definition dflt : HeartbeatMsg :=
  {| target := 0; lifecycle := TargetLifecycle.READY; reachable := true;
     queue_depth := 0; latency_ns := 0; throughput_bps := 0; confidence := 0 |}.
Definition encode_heartbeat (m : HeartbeatMsg) : list Z :=
  write_u64 (target m) ++ write_enum16 (lifecycle m) ++ write_bool (reachable m) ++
  write_u64 (queue_depth m) ++ write_u64 (latency_ns m) ++
  write_u64 (throughput_bps m) ++ write_f64 (confidence m).
Definition decode_heartbeat : Reader HeartbeatMsg :=
  let! target' := read_u64 in
  let! lifecycle' := read_enum16 in
  let! reachable' := read_bool in
  let! queue_depth' := read_u64 in
  let! latency_ns' := read_u64 in
  let! throughput_bps' := read_u64 in
  let! confidence' := read_f64 in
  rret {| target := target'; lifecycle := lifecycle'; reachable := reachable';
           queue_depth := queue_depth'; latency_ns := latency_ns';
           throughput_bps := throughput_bps'; confidence := confidence' |}.
Definition wf_heartbeat (m : HeartbeatMsg) : Prop :=
  in_u64 (target m) ∧ wire_enum (lifecycle m) ∧ in_u64 (queue_depth m) ∧
  in_u64 (latency_ns m) ∧ in_u64 (throughput_bps m) ∧ in_u64 (confidence m).
Lemma heartbeat_reads m : wf_heartbeat m → reads decode_heartbeat (encode_heartbeat m) m.
Proof. unfold wf_heartbeat, encode_heartbeat, decode_heartbeat. solve_roundtrip m. Qed.
Lemma heartbeat_bounded : bounded decode_heartbeat wf_heartbeat.
Proof. unfold decode_heartbeat, wf_heartbeat. solve_bounded. Qed.
End HeartbeatMsg.
Abbreviation HeartbeatMsg := HeartbeatMsg.HeartbeatMsg.

Module DispatchMsg.
Record DispatchMsg : Type := mk {
  plan : ExecutionPlanId; plan_gen : ExecutionPlanGeneration; dispatch : DispatchId;
  attempt : AttemptId; target : NearMemoryTargetId;
  target_gen : NearMemoryTargetGeneration; worker_boot : WorkerBootId;
  epoch : CoordinatorEpoch; dataset_gen : DatasetGeneration;
  region_gen : DataRegionGeneration; operation_gen : OperationGeneration;
  has_program : bool; program_gen : ProgramGeneration; op_class : OperationClass;
  data_type : DataType; retry_class : RetryClass; idempotent : bool;
  require_verification : bool; payload : list Z
}.
Definition dflt : DispatchMsg :=
  {| plan := 0; plan_gen := 0; dispatch := 0; attempt := 0; target := 0;
     target_gen := 0; worker_boot := 0; epoch := 0; dataset_gen := 0; region_gen := 0;
     operation_gen := 0; has_program := false; program_gen := 0;
     op_class := OperationClass.SUM; data_type := DataType.U8;
     retry_class := RetryClass.NON_RETRYABLE; idempotent := false;
     require_verification := false; payload := [] |}.
Definition encode_dispatch (m : DispatchMsg) : list Z :=
  write_u64 (plan m) ++ write_u64 (plan_gen m) ++ write_u64 (dispatch m) ++
  write_u64 (attempt m) ++ write_u64 (target m) ++ write_u64 (target_gen m) ++
  write_u64 (worker_boot m) ++ write_u64 (epoch m) ++ write_u64 (dataset_gen m) ++
  write_u64 (region_gen m) ++ write_u64 (operation_gen m) ++
  write_bool (has_program m) ++
  (if has_program m then write_u64 (program_gen m) else []) ++
  write_enum16 (op_class m) ++ write_enum16 (data_type m) ++
  write_enum16 (retry_class m) ++ write_bool (idempotent m) ++
  write_bool (require_verification m) ++ write_blob (payload m).
Definition decode_dispatch : Reader DispatchMsg :=
  let! plan' := read_u64 in
  let! plan_gen' := read_u64 in
  let! dispatch' := read_u64 in
  let! attempt' := read_u64 in
  let! target' := read_u64 in
  let! target_gen' := read_u64 in
  let! worker_boot' := read_u64 in
  let! epoch' := read_u64 in
  let! dataset_gen' := read_u64 in
  let! region_gen' := read_u64 in
  let! operation_gen' := read_u64 in
  let! has_program' := read_bool in
  let! program_gen' := if has_program' then read_u64 else rret 0 in
  let! op_class' := read_enum16 in
  let! data_type' := read_enum16 in
  let! retry_class' := read_enum16 in
  let! idempotent' := read_bool in
  let! require_verification' := read_bool in
  let! payload' := read_blob in
  rret {| plan := plan'; plan_gen := plan_gen'; dispatch := dispatch';
           attempt := attempt'; target := target'; target_gen := target_gen';
           worker_boot := worker_boot'; epoch := epoch'; dataset_gen := dataset_gen';
           region_gen := region_gen'; operation_gen := operation_gen';
           has_program := has_program'; program_gen := program_gen';
           op_class := op_class'; data_type := data_type'; retry_class := retry_class';
           idempotent := idempotent'; require_verification := require_verification';
           payload := payload' |}.
Definition wf_dispatch (m : DispatchMsg) : Prop :=
  in_u64 (plan m) ∧ in_u64 (plan_gen m) ∧ in_u64 (dispatch m) ∧ in_u64 (attempt m) ∧
  in_u64 (target m) ∧ in_u64 (target_gen m) ∧ in_u64 (worker_boot m) ∧
  in_u64 (epoch m) ∧ in_u64 (dataset_gen m) ∧ in_u64 (region_gen m) ∧
  in_u64 (operation_gen m) ∧ in_u64 (program_gen m) ∧
  (has_program m = false → program_gen m = 0) ∧ wire_enum (op_class m) ∧
  wire_enum (data_type m) ∧ wire_enum (retry_class m) ∧
  (is_bytes (payload m) ∧ blob_ok (payload m)).
Lemma dispatch_reads m : wf_dispatch m → reads decode_dispatch (encode_dispatch m) m.
Proof. unfold wf_dispatch, encode_dispatch, decode_dispatch. solve_roundtrip m. Qed.
Lemma dispatch_bounded : bounded decode_dispatch wf_dispatch.
Proof. unfold decode_dispatch, wf_dispatch. solve_bounded. Qed.
End DispatchMsg.
Abbreviation DispatchMsg := DispatchMsg.DispatchMsg.

Module DispatchAckMsg.
Record DispatchAckMsg : Type := mk {
  dispatch : DispatchId; accepted : bool; note : string
}.
Definition dflt : DispatchAckMsg :=
  {| dispatch := 0; accepted := false; note := "" |}.
Definition encode_dispatch_ack (m : DispatchAckMsg) : list Z :=
  write_u64 (dispatch m) ++ write_bool (accepted m) ++ write_string (note m).
Definition decode_dispatch_ack : Reader DispatchAckMsg :=
  let! dispatch' := read_u64 in
  let! accepted' := read_bool in
  let! note' := read_string in
  rret {| dispatch := dispatch'; accepted := accepted'; note := note' |}.
Definition wf_dispatch_ack (m : DispatchAckMsg) : Prop :=
  in_u64 (dispatch m) ∧ string_ok (note m).
Lemma dispatch_ack_reads m : wf_dispatch_ack m → reads decode_dispatch_ack (encode_dispatch_ack m) m.
Proof. unfold wf_dispatch_ack, encode_dispatch_ack, decode_dispatch_ack. solve_roundtrip m. Qed.
Lemma dispatch_ack_bounded : bounded decode_dispatch_ack wf_dispatch_ack.
Proof. unfold decode_dispatch_ack, wf_dispatch_ack. solve_bounded. Qed.
End DispatchAckMsg.
Abbreviation DispatchAckMsg := DispatchAckMsg.DispatchAckMsg.

Module ResultMsg.
Record ResultMsg : Type := mk {
  plan : ExecutionPlanId; plan_gen : ExecutionPlanGeneration; dispatch : DispatchId;
  attempt : AttemptId; target : NearMemoryTargetId;
  target_gen : NearMemoryTargetGeneration; worker_boot : WorkerBootId;
  epoch : CoordinatorEpoch; dataset_gen : DatasetGeneration;
  region_gen : DataRegionGeneration; operation_gen : OperationGeneration;
  result_gen : ResultGeneration; output : list Z; output_digest : string;
  unknown : bool; note : string
}.
Definition dflt : ResultMsg :=
  {| plan := 0; plan_gen := 0; dispatch := 0; attempt := 0; target := 0;
     target_gen := 0; worker_boot := 0; epoch := 0; dataset_gen := 0; region_gen := 0;
     operation_gen := 0; result_gen := 0; output := []; output_digest := "";
     unknown := false; note := "" |}.
Definition encode_result (m : ResultMsg) : list Z :=
  write_u64 (plan m) ++ write_u64 (plan_gen m) ++ write_u64 (dispatch m) ++
  write_u64 (attempt m) ++ write_u64 (target m) ++ write_u64 (target_gen m) ++
  write_u64 (worker_boot m) ++ write_u64 (epoch m) ++ write_u64 (dataset_gen m) ++
  write_u64 (region_gen m) ++ write_u64 (operation_gen m) ++
  write_u64 (result_gen m) ++ write_blob (output m) ++
  write_string (output_digest m) ++ write_bool (unknown m) ++ write_string (note m).
Definition decode_result : Reader ResultMsg :=
  let! plan' := read_u64 in
  let! plan_gen' := read_u64 in
  let! dispatch' := read_u64 in
  let! attempt' := read_u64 in
  let! target' := read_u64 in
  let! target_gen' := read_u64 in
  let! worker_boot' := read_u64 in
  let! epoch' := read_u64 in
  let! dataset_gen' := read_u64 in
  let! region_gen' := read_u64 in
  let! operation_gen' := read_u64 in
  let! result_gen' := read_u64 in
  let! output' := read_blob in
  let! output_digest' := read_string in
  let! unknown' := read_bool in
  let! note' := read_string in
  rret {| plan := plan'; plan_gen := plan_gen'; dispatch := dispatch';
           attempt := attempt'; target := target'; target_gen := target_gen';
           worker_boot := worker_boot'; epoch := epoch'; dataset_gen := dataset_gen';
           region_gen := region_gen'; operation_gen := operation_gen';
           result_gen := result_gen'; output := output';
           output_digest := output_digest'; unknown := unknown'; note := note' |}.
Definition wf_result (m : ResultMsg) : Prop :=
  in_u64 (plan m) ∧ in_u64 (plan_gen m) ∧ in_u64 (dispatch m) ∧ in_u64 (attempt m) ∧
  in_u64 (target m) ∧ in_u64 (target_gen m) ∧ in_u64 (worker_boot m) ∧
  in_u64 (epoch m) ∧ in_u64 (dataset_gen m) ∧ in_u64 (region_gen m) ∧
  in_u64 (operation_gen m) ∧ in_u64 (result_gen m) ∧
  (is_bytes (output m) ∧ blob_ok (output m)) ∧ string_ok (output_digest m) ∧
  string_ok (note m).
Lemma result_reads m : wf_result m → reads decode_result (encode_result m) m.
Proof. unfold wf_result, encode_result, decode_result. solve_roundtrip m. Qed.
Lemma result_bounded : bounded decode_result wf_result.
Proof. unfold decode_result, wf_result. solve_bounded. Qed.
End ResultMsg.
Abbreviation ResultMsg := ResultMsg.ResultMsg.

Module CommitAckMsg.
Record CommitAckMsg : Type := mk {
  plan : ExecutionPlanId; dispatch : DispatchId; committed : bool; note : string
}.
Definition dflt : CommitAckMsg :=
  {| plan := 0; dispatch := 0; committed := false; note := "" |}.
Definition encode_commit_ack (m : CommitAckMsg) : list Z :=
  write_u64 (plan m) ++ write_u64 (dispatch m) ++ write_bool (committed m) ++
  write_string (note m).
Definition decode_commit_ack : Reader CommitAckMsg :=
  let! plan' := read_u64 in
  let! dispatch' := read_u64 in
  let! committed' := read_bool in
  let! note' := read_string in
  rret {| plan := plan'; dispatch := dispatch'; committed := committed'; note := note' |}.
Definition wf_commit_ack (m : CommitAckMsg) : Prop :=
  in_u64 (plan m) ∧ in_u64 (dispatch m) ∧ string_ok (note m).
Lemma commit_ack_reads m : wf_commit_ack m → reads decode_commit_ack (encode_commit_ack m) m.
Proof. unfold wf_commit_ack, encode_commit_ack, decode_commit_ack. solve_roundtrip m. Qed.
Lemma commit_ack_bounded : bounded decode_commit_ack wf_commit_ack.
Proof. unfold decode_commit_ack, wf_commit_ack. solve_bounded. Qed.
End CommitAckMsg.
Abbreviation CommitAckMsg := CommitAckMsg.CommitAckMsg.

Module ErrorMsg.
Record ErrorMsg : Type := mk {
  code : string; message : string
}.
Definition dflt : ErrorMsg :=
  {| code := ""; message := "" |}.
Definition encode_error (m : ErrorMsg) : list Z :=
  write_string (code m) ++ write_string (message m).
Definition decode_error : Reader ErrorMsg :=
  let! code' := read_string in
  let! message' := read_string in
  rret {| code := code'; message := message' |}.
Definition wf_error (m : ErrorMsg) : Prop :=
  string_ok (code m) ∧ string_ok (message m).
Lemma error_reads m : wf_error m → reads decode_error (encode_error m) m.
Proof. unfold wf_error, encode_error, decode_error. solve_roundtrip m. Qed.
Lemma error_bounded : bounded decode_error wf_error.
Proof. unfold decode_error, wf_error. solve_bounded. Qed.
End ErrorMsg.
Abbreviation ErrorMsg := ErrorMsg.ErrorMsg.

Module ShutdownMsg.
Record ShutdownMsg : Type := mk {
  reason : string
}.
Definition dflt : ShutdownMsg :=
  {| reason := "" |}.
Definition encode_shutdown (m : ShutdownMsg) : list Z :=
  write_string (reason m).
Definition decode_shutdown : Reader ShutdownMsg :=
  let! reason' := read_string in
  rret {| reason := reason' |}.
Definition wf_shutdown (m : ShutdownMsg) : Prop :=
  string_ok (reason m).
Lemma shutdown_reads m : wf_shutdown m → reads decode_shutdown (encode_shutdown m) m.
Proof. unfold wf_shutdown, encode_shutdown, decode_shutdown. solve_roundtrip m. Qed.
Lemma shutdown_bounded : bounded decode_shutdown wf_shutdown.
Proof. unfold decode_shutdown, wf_shutdown. solve_bounded. Qed.
End ShutdownMsg.
Abbreviation ShutdownMsg := ShutdownMsg.ShutdownMsg.

Module RevalidateMsg.
Record RevalidateMsg : Type := mk {
  target : NearMemoryTargetId
}.
Definition dflt : RevalidateMsg :=
  {| target := 0 |}.
Definition encode_revalidate (m : RevalidateMsg) : list Z :=
  write_u64 (target m).
Definition decode_revalidate : Reader RevalidateMsg :=
  let! target' := read_u64 in
  rret {| target := target' |}.
Definition wf_revalidate (m : RevalidateMsg) : Prop :=
  in_u64 (target m).
Lemma revalidate_reads m : wf_revalidate m → reads decode_revalidate (encode_revalidate m) m.
Proof. unfold wf_revalidate, encode_revalidate, decode_revalidate. solve_roundtrip m. Qed.
Lemma revalidate_bounded : bounded decode_revalidate wf_revalidate.
Proof. unfold decode_revalidate, wf_revalidate. solve_bounded. Qed.
End RevalidateMsg.
Abbreviation RevalidateMsg := RevalidateMsg.RevalidateMsg.

Module ClientPlanMsg.
Record ClientPlanMsg : Type := mk {
  op : OperationId
}.
Definition dflt : ClientPlanMsg :=
  {| op := 0 |}.
Definition encode_client_plan (m : ClientPlanMsg) : list Z :=
  write_u64 (op m).
Definition decode_client_plan : Reader ClientPlanMsg :=
  let! op' := read_u64 in
  rret {| op := op' |}.
Definition wf_client_plan (m : ClientPlanMsg) : Prop :=
  in_u64 (op m).
Lemma client_plan_reads m : wf_client_plan m → reads decode_client_plan (encode_client_plan m) m.
Proof. unfold wf_client_plan, encode_client_plan, decode_client_plan. solve_roundtrip m. Qed.
Lemma client_plan_bounded : bounded decode_client_plan wf_client_plan.
Proof. unfold decode_client_plan, wf_client_plan. solve_bounded. Qed.
End ClientPlanMsg.
Abbreviation ClientPlanMsg := ClientPlanMsg.ClientPlanMsg.

Module ClientDispatchMsg.
Record ClientDispatchMsg : Type := mk {
  plan : ExecutionPlanId
}.
Definition dflt : ClientDispatchMsg :=
  {| plan := 0 |}.
Definition encode_client_dispatch (m : ClientDispatchMsg) : list Z :=
  write_u64 (plan m).
Definition decode_client_dispatch : Reader ClientDispatchMsg :=
  let! plan' := read_u64 in
  rret {| plan := plan' |}.
Definition wf_client_dispatch (m : ClientDispatchMsg) : Prop :=
  in_u64 (plan m).
Lemma client_dispatch_reads m : wf_client_dispatch m → reads decode_client_dispatch (encode_client_dispatch m) m.
Proof. unfold wf_client_dispatch, encode_client_dispatch, decode_client_dispatch. solve_roundtrip m. Qed.
Lemma client_dispatch_bounded : bounded decode_client_dispatch wf_client_dispatch.
Proof. unfold decode_client_dispatch, wf_client_dispatch. solve_bounded. Qed.
End ClientDispatchMsg.
Abbreviation ClientDispatchMsg := ClientDispatchMsg.ClientDispatchMsg.

Module ClientGetResultMsg.
Record ClientGetResultMsg : Type := mk {
  plan : ExecutionPlanId
}.
Definition dflt : ClientGetResultMsg :=
  {| plan := 0 |}.
Definition encode_client_get_result (m : ClientGetResultMsg) : list Z :=
  write_u64 (plan m).
Definition decode_client_get_result : Reader ClientGetResultMsg :=
  let! plan' := read_u64 in
  rret {| plan := plan' |}.
Definition wf_client_get_result (m : ClientGetResultMsg) : Prop :=
  in_u64 (plan m).
Lemma client_get_result_reads m : wf_client_get_result m → reads decode_client_get_result (encode_client_get_result m) m.
Proof. unfold wf_client_get_result, encode_client_get_result, decode_client_get_result. solve_roundtrip m. Qed.
Lemma client_get_result_bounded : bounded decode_client_get_result wf_client_get_result.
Proof. unfold decode_client_get_result, wf_client_get_result. solve_bounded. Qed.
End ClientGetResultMsg.
Abbreviation ClientGetResultMsg := ClientGetResultMsg.ClientGetResultMsg.

Module ClientReplyMsg.
Record ClientReplyMsg : Type := mk {
  ok : bool; plan : ExecutionPlanId; decision : Decision; created : bool;
  committed : bool; ambiguous : bool; verification : VerifyState; output_bytes : Z;
  output_digest : string; note : string
}.
Definition dflt : ClientReplyMsg :=
  {| ok := false; plan := 0; decision := Decision.REJECT; created := false;
     committed := false; ambiguous := false; verification := VerifyState.UNVERIFIED;
     output_bytes := 0; output_digest := ""; note := "" |}.
Definition encode_client_reply (m : ClientReplyMsg) : list Z :=
  write_bool (ok m) ++ write_u64 (plan m) ++ write_enum16 (decision m) ++
  write_bool (created m) ++ write_bool (committed m) ++ write_bool (ambiguous m) ++
  write_enum16 (verification m) ++ write_u64 (output_bytes m) ++
  write_string (output_digest m) ++ write_string (note m).
Definition decode_client_reply : Reader ClientReplyMsg :=
  let! ok' := read_bool in
  let! plan' := read_u64 in
  let! decision' := read_enum16 in
  let! created' := read_bool in
  let! committed' := read_bool in
  let! ambiguous' := read_bool in
  let! verification' := read_enum16 in
  let! output_bytes' := read_u64 in
  let! output_digest' := read_string in
  let! note' := read_string in
  rret {| ok := ok'; plan := plan'; decision := decision'; created := created';
           committed := committed'; ambiguous := ambiguous';
           verification := verification'; output_bytes := output_bytes';
           output_digest := output_digest'; note := note' |}.
Definition wf_client_reply (m : ClientReplyMsg) : Prop :=
  in_u64 (plan m) ∧ wire_enum (decision m) ∧ wire_enum (verification m) ∧
  in_u64 (output_bytes m) ∧ string_ok (output_digest m) ∧ string_ok (note m).
Lemma client_reply_reads m : wf_client_reply m → reads decode_client_reply (encode_client_reply m) m.
Proof. unfold wf_client_reply, encode_client_reply, decode_client_reply. solve_roundtrip m. Qed.
Lemma client_reply_bounded : bounded decode_client_reply wf_client_reply.
Proof. unfold decode_client_reply, wf_client_reply. solve_bounded. Qed.
End ClientReplyMsg.
Abbreviation ClientReplyMsg := ClientReplyMsg.ClientReplyMsg.

(** ** Operations on the wire *)

Module OperationFields.
Import OperationSpec.

(** The optional program: a flag, then the id and the generation (1 when the
    specification has none). *)
Definition encode_program (op : OperationSpec) : list Z :=
  match program op with
  | Some p => write_bool true ++ write_u64 p ++ write_u64 (default 1 (program_generation op))
  | None => write_bool false
  end.
Definition encode_operation_fields (op : OperationSpec) : list Z :=
  write_u64 (id op) ++ write_u64 (generation op) ++ write_enum16 (op_class op) ++
  write_u64 (dataset op) ++ write_u64 (dataset_generation op) ++
  write_u64 (region op) ++ write_u64 (region_generation op) ++
  write_u64 (DataShape.element_count (shape op)) ++
  write_enum16 (DataShape.data_type (shape op)) ++
  write_enum16 (DataShape.layout (shape op)) ++ write_u64 (DataShape.alignment (shape op)) ++
  write_u64 (input_bytes op) ++ write_u64 (output_bytes op) ++ write_u64 (workspace_bytes op) ++
  write_enum16 (output_data_type op) ++ write_bool (determinism_required op) ++
  write_u64 (max_tolerated_latency_ns op) ++ write_u64 (required_throughput_bps op) ++
  write_enum16 (integrity op) ++ write_enum16 (retry_class op) ++
  write_u64 (policy op) ++ write_u64 (policy_generation op) ++
  encode_program op ++ write_string (description op).

Definition decode_program : Reader (option Z * option Z) :=
  let! hp := read_bool in
  if hp then
    let! p := read_u64 in
    let! g := read_u64 in
    rret (Some p, Some g)
  else rret (None, None).
Definition decode_operation_fields : Reader OperationSpec :=
  let! id' := read_u64 in
  let! generation' := read_u64 in
  let! op_class' := read_enum16 in
  let! dataset' := read_u64 in
  let! dataset_generation' := read_u64 in
  let! region' := read_u64 in
  let! region_generation' := read_u64 in
  let! element_count' := read_u64 in
  let! data_type' := read_enum16 in
  let! layout' := read_enum16 in
  let! alignment' := read_u64 in
  let! input_bytes' := read_u64 in
  let! output_bytes' := read_u64 in
  let! workspace_bytes' := read_u64 in
  let! output_data_type' := read_enum16 in
  let! determinism_required' := read_bool in
  let! max_tolerated_latency_ns' := read_u64 in
  let! required_throughput_bps' := read_u64 in
  let! integrity' := read_enum16 in
  let! retry_class' := read_enum16 in
  let! policy' := read_u64 in
  let! policy_generation' := read_u64 in
  let! prog := decode_program in
  let! description' := read_string in
  rret {| id := id'; generation := generation'; op_class := op_class'; dataset := dataset';
          dataset_generation := dataset_generation'; region := region';
          region_generation := region_generation';
          shape := {| DataShape.element_count := element_count';
                      DataShape.data_type := data_type'; DataShape.layout := layout';
                      DataShape.alignment := alignment' |};
          input_bytes := input_bytes'; output_bytes := output_bytes';
          workspace_bytes := workspace_bytes'; output_data_type := output_data_type';
          determinism_required := determinism_required';
          max_tolerated_latency_ns := max_tolerated_latency_ns';
          required_throughput_bps := required_throughput_bps'; integrity := integrity';
          retry_class := retry_class'; policy := policy';
          policy_generation := policy_generation'; program := fst prog;
          program_generation := snd prog; description := description' |}.

(** A program generation travels exactly when a program does. *)
Definition wf_program (pg : option Z * option Z) : Prop :=
  match pg with
  | (Some p, Some g) => in_u64 p ∧ in_u64 g
  | (None, None) => True
  | _ => False
  end.
Definition wf_operation_fields (op : OperationSpec) : Prop :=
  in_u64 (id op) ∧ in_u64 (generation op) ∧ wire_enum (op_class op) ∧
  in_u64 (dataset op) ∧ in_u64 (dataset_generation op) ∧ in_u64 (region op) ∧
  in_u64 (region_generation op) ∧ in_u64 (DataShape.element_count (shape op)) ∧
  wire_enum (DataShape.data_type (shape op)) ∧ wire_enum (DataShape.layout (shape op)) ∧
  in_u64 (DataShape.alignment (shape op)) ∧ in_u64 (input_bytes op) ∧
  in_u64 (output_bytes op) ∧ in_u64 (workspace_bytes op) ∧
  wire_enum (output_data_type op) ∧ in_u64 (max_tolerated_latency_ns op) ∧
  in_u64 (required_throughput_bps op) ∧ wire_enum (integrity op) ∧
  wire_enum (retry_class op) ∧ in_u64 (policy op) ∧ in_u64 (policy_generation op) ∧
  wf_program (program op, program_generation op) ∧ string_ok (description op).

Lemma program_reads op :
  wf_program (program op, program_generation op) →
  reads decode_program (encode_program op) (program op, program_generation op).
Proof.
  unfold encode_program, decode_program. intros Hwf.
  destruct (program op), (program_generation op); simpl in *; try done;
    (eapply reads_bind || eapply reads_bind_last); [apply reads_bool| |apply reads_bool|];
    simpl; destruct_and?; solve_reads.
Qed.
Lemma program_bounded : bounded decode_program wf_program.
Proof.
  unfold decode_program. eapply bounded_bind; [apply bounded_bool|].
  intros [] _; solve_bounded.
Qed.
#[export] Hint Resolve program_reads : nmc_codec.
#[export] Hint Resolve program_bounded : nmc_bounds.

Lemma operation_fields_reads op :
  wf_operation_fields op → reads decode_operation_fields (encode_operation_fields op) op.
Proof.
  unfold wf_operation_fields, encode_operation_fields, decode_operation_fields.
  intros. destruct_and!. destruct op as [??????? [] ??????????????]; simpl in *. solve_reads.
Qed.
Lemma operation_fields_bounded : bounded decode_operation_fields wf_operation_fields.
Proof.
  unfold decode_operation_fields, wf_operation_fields.
  repeat (eapply bounded_bind; [solve [eauto with nmc_bounds]|intros ??; cbv beta in *]).
  apply bounded_ret. destruct a21. simpl. split_and?; auto.
Qed.
End OperationFields.
Export OperationFields.

Module ClientRegisterOperationMsg.
Record ClientRegisterOperationMsg : Type := mk { op : OperationSpec }.
Definition encode_client_register_op (m : ClientRegisterOperationMsg) : list Z :=
  encode_operation_fields (op m).
Definition decode_client_register_op : Reader ClientRegisterOperationMsg :=
  let! op' := decode_operation_fields in
  rret {| op := op' |}.
Definition wf_client_register_op (m : ClientRegisterOperationMsg) : Prop :=
  wf_operation_fields (op m).
Lemma client_register_op_reads m :
  wf_client_register_op m → reads decode_client_register_op (encode_client_register_op m) m.
Proof.
  destruct m. intros. eapply reads_bind_last; [by apply operation_fields_reads|apply reads_ret].
Qed.
Lemma client_register_op_bounded : bounded decode_client_register_op wf_client_register_op.
Proof.
  eapply bounded_bind; [apply operation_fields_bounded|]. intros. by apply bounded_ret.
Qed.
End ClientRegisterOperationMsg.
Abbreviation ClientRegisterOperationMsg := ClientRegisterOperationMsg.ClientRegisterOperationMsg.

(** ** The wire interface

    What a message type offers to the framing layer: an encoder, a decoder, the
    values it may hold, and the two laws the layer above relies on. *)

Class WireMessage (M : Type) := {
  wire_encode : M → list Z;
  wire_decode : Reader M;
  wire_wf : M → Prop;
  wire_reads m : wire_wf m → reads wire_decode (wire_encode m) m;
  wire_bounded : bounded wire_decode wire_wf
}.

#[global] Instance HelloMsg_wire : WireMessage HelloMsg :=
  {| wire_encode := HelloMsg.encode_hello; wire_decode := HelloMsg.decode_hello;
     wire_wf := HelloMsg.wf_hello; wire_reads := HelloMsg.hello_reads;
     wire_bounded := HelloMsg.hello_bounded |}.
#[global] Instance RegisterTargetMsg_wire : WireMessage RegisterTargetMsg :=
  {| wire_encode := RegisterTargetMsg.encode_register_target; wire_decode := RegisterTargetMsg.decode_register_target;
     wire_wf := RegisterTargetMsg.wf_register_target; wire_reads := RegisterTargetMsg.register_target_reads;
     wire_bounded := RegisterTargetMsg.register_target_bounded |}.
#[global] Instance CapabilityMsg_wire : WireMessage CapabilityMsg :=
  {| wire_encode := CapabilityMsg.encode_capability; wire_decode := CapabilityMsg.decode_capability;
     wire_wf := CapabilityMsg.wf_capability; wire_reads := CapabilityMsg.capability_reads;
     wire_bounded := CapabilityMsg.capability_bounded |}.
#[global] Instance DataEvidenceMsg_wire : WireMessage DataEvidenceMsg :=
  {| wire_encode := DataEvidenceMsg.encode_data_evidence; wire_decode := DataEvidenceMsg.decode_data_evidence;
     wire_wf := DataEvidenceMsg.wf_data_evidence; wire_reads := DataEvidenceMsg.data_evidence_reads;
     wire_bounded := DataEvidenceMsg.data_evidence_bounded |}.
#[global] Instance HeartbeatMsg_wire : WireMessage HeartbeatMsg :=
  {| wire_encode := HeartbeatMsg.encode_heartbeat; wire_decode := HeartbeatMsg.decode_heartbeat;
     wire_wf := HeartbeatMsg.wf_heartbeat; wire_reads := HeartbeatMsg.heartbeat_reads;
     wire_bounded := HeartbeatMsg.heartbeat_bounded |}.
#[global] Instance DispatchMsg_wire : WireMessage DispatchMsg :=
  {| wire_encode := DispatchMsg.encode_dispatch; wire_decode := DispatchMsg.decode_dispatch;
     wire_wf := DispatchMsg.wf_dispatch; wire_reads := DispatchMsg.dispatch_reads;
     wire_bounded := DispatchMsg.dispatch_bounded |}.
#[global] Instance DispatchAckMsg_wire : WireMessage DispatchAckMsg :=
  {| wire_encode := DispatchAckMsg.encode_dispatch_ack; wire_decode := DispatchAckMsg.decode_dispatch_ack;
     wire_wf := DispatchAckMsg.wf_dispatch_ack; wire_reads := DispatchAckMsg.dispatch_ack_reads;
     wire_bounded := DispatchAckMsg.dispatch_ack_bounded |}.
#[global] Instance ResultMsg_wire : WireMessage ResultMsg :=
  {| wire_encode := ResultMsg.encode_result; wire_decode := ResultMsg.decode_result;
     wire_wf := ResultMsg.wf_result; wire_reads := ResultMsg.result_reads;
     wire_bounded := ResultMsg.result_bounded |}.
#[global] Instance CommitAckMsg_wire : WireMessage CommitAckMsg :=
  {| wire_encode := CommitAckMsg.encode_commit_ack; wire_decode := CommitAckMsg.decode_commit_ack;
     wire_wf := CommitAckMsg.wf_commit_ack; wire_reads := CommitAckMsg.commit_ack_reads;
     wire_bounded := CommitAckMsg.commit_ack_bounded |}.
#[global] Instance ErrorMsg_wire : WireMessage ErrorMsg :=
  {| wire_encode := ErrorMsg.encode_error; wire_decode := ErrorMsg.decode_error;
     wire_wf := ErrorMsg.wf_error; wire_reads := ErrorMsg.error_reads;
     wire_bounded := ErrorMsg.error_bounded |}.
#[global] Instance ShutdownMsg_wire : WireMessage ShutdownMsg :=
  {| wire_encode := ShutdownMsg.encode_shutdown; wire_decode := ShutdownMsg.decode_shutdown;
     wire_wf := ShutdownMsg.wf_shutdown; wire_reads := ShutdownMsg.shutdown_reads;
     wire_bounded := ShutdownMsg.shutdown_bounded |}.
#[global] Instance RevalidateMsg_wire : WireMessage RevalidateMsg :=
  {| wire_encode := RevalidateMsg.encode_revalidate; wire_decode := RevalidateMsg.decode_revalidate;
     wire_wf := RevalidateMsg.wf_revalidate; wire_reads := RevalidateMsg.revalidate_reads;
     wire_bounded := RevalidateMsg.revalidate_bounded |}.
#[global] Instance ClientRegisterOperationMsg_wire : WireMessage ClientRegisterOperationMsg :=
  {| wire_encode := ClientRegisterOperationMsg.encode_client_register_op; wire_decode := ClientRegisterOperationMsg.decode_client_register_op;
     wire_wf := ClientRegisterOperationMsg.wf_client_register_op; wire_reads := ClientRegisterOperationMsg.client_register_op_reads;
     wire_bounded := ClientRegisterOperationMsg.client_register_op_bounded |}.
#[global] Instance ClientPlanMsg_wire : WireMessage ClientPlanMsg :=
  {| wire_encode := ClientPlanMsg.encode_client_plan; wire_decode := ClientPlanMsg.decode_client_plan;
     wire_wf := ClientPlanMsg.wf_client_plan; wire_reads := ClientPlanMsg.client_plan_reads;
     wire_bounded := ClientPlanMsg.client_plan_bounded |}.
#[global] Instance ClientDispatchMsg_wire : WireMessage ClientDispatchMsg :=
  {| wire_encode := ClientDispatchMsg.encode_client_dispatch; wire_decode := ClientDispatchMsg.decode_client_dispatch;
     wire_wf := ClientDispatchMsg.wf_client_dispatch; wire_reads := ClientDispatchMsg.client_dispatch_reads;
     wire_bounded := ClientDispatchMsg.client_dispatch_bounded |}.
#[global] Instance ClientGetResultMsg_wire : WireMessage ClientGetResultMsg :=
  {| wire_encode := ClientGetResultMsg.encode_client_get_result; wire_decode := ClientGetResultMsg.decode_client_get_result;
     wire_wf := ClientGetResultMsg.wf_client_get_result; wire_reads := ClientGetResultMsg.client_get_result_reads;
     wire_bounded := ClientGetResultMsg.client_get_result_bounded |}.
#[global] Instance ClientReplyMsg_wire : WireMessage ClientReplyMsg :=
  {| wire_encode := ClientReplyMsg.encode_client_reply; wire_decode := ClientReplyMsg.decode_client_reply;
     wire_wf := ClientReplyMsg.wf_client_reply; wire_reads := ClientReplyMsg.client_reply_reads;
     wire_bounded := ClientReplyMsg.client_reply_bounded |}.

(** ** Payloads: one message per frame type

    [PING] and [PONG] carry nothing. *)

Inductive Payload :=
  | P_HELLO (m : HelloMsg)
  | P_REGISTER_TARGET (m : RegisterTargetMsg)
  | P_CAPABILITY (m : CapabilityMsg)
  | P_DATA_EVIDENCE (m : DataEvidenceMsg)
  | P_HEARTBEAT (m : HeartbeatMsg)
  | P_DISPATCH (m : DispatchMsg)
  | P_DISPATCH_ACK (m : DispatchAckMsg)
  | P_RESULT (m : ResultMsg)
  | P_COMMIT_ACK (m : CommitAckMsg)
  | P_ERROR (m : ErrorMsg)
  | P_SHUTDOWN (m : ShutdownMsg)
  | P_REVALIDATE (m : RevalidateMsg)
  | P_CLIENT_REGISTER_OPERATION (m : ClientRegisterOperationMsg)
  | P_CLIENT_PLAN (m : ClientPlanMsg)
  | P_CLIENT_DISPATCH (m : ClientDispatchMsg)
  | P_CLIENT_GET_RESULT (m : ClientGetResultMsg)
  | P_CLIENT_REPLY (m : ClientReplyMsg)
  | P_PING
  | P_PONG.

Definition payload_type (p : Payload) : FrameType :=
  match p with
  | P_HELLO _ => FrameType.HELLO
  | P_REGISTER_TARGET _ => FrameType.REGISTER_TARGET
  | P_CAPABILITY _ => FrameType.CAPABILITY
  | P_DATA_EVIDENCE _ => FrameType.DATA_EVIDENCE
  | P_HEARTBEAT _ => FrameType.HEARTBEAT
  | P_DISPATCH _ => FrameType.DISPATCH
  | P_DISPATCH_ACK _ => FrameType.DISPATCH_ACK
  | P_RESULT _ => FrameType.RESULT
  | P_COMMIT_ACK _ => FrameType.COMMIT_ACK
  | P_ERROR _ => FrameType.ERROR
  | P_SHUTDOWN _ => FrameType.SHUTDOWN
  | P_REVALIDATE _ => FrameType.REVALIDATE
  | P_CLIENT_REGISTER_OPERATION _ => FrameType.CLIENT_REGISTER_OPERATION
  | P_CLIENT_PLAN _ => FrameType.CLIENT_PLAN
  | P_CLIENT_DISPATCH _ => FrameType.CLIENT_DISPATCH
  | P_CLIENT_GET_RESULT _ => FrameType.CLIENT_GET_RESULT
  | P_CLIENT_REPLY _ => FrameType.CLIENT_REPLY
  | P_PING => FrameType.PING
  | P_PONG => FrameType.PONG
  end.

Definition encode_payload (p : Payload) : list Z :=
  match p with
  | P_HELLO m => wire_encode m
  | P_REGISTER_TARGET m => wire_encode m
  | P_CAPABILITY m => wire_encode m
  | P_DATA_EVIDENCE m => wire_encode m
  | P_HEARTBEAT m => wire_encode m
  | P_DISPATCH m => wire_encode m
  | P_DISPATCH_ACK m => wire_encode m
  | P_RESULT m => wire_encode m
  | P_COMMIT_ACK m => wire_encode m
  | P_ERROR m => wire_encode m
  | P_SHUTDOWN m => wire_encode m
  | P_REVALIDATE m => wire_encode m
  | P_CLIENT_REGISTER_OPERATION m => wire_encode m
  | P_CLIENT_PLAN m => wire_encode m
  | P_CLIENT_DISPATCH m => wire_encode m
  | P_CLIENT_GET_RESULT m => wire_encode m
  | P_CLIENT_REPLY m => wire_encode m
  | P_PING | P_PONG => []
  end.

Definition decode_as {M} `{WireMessage M} (wrap : M → Payload) : Reader Payload :=
  let! m := wire_decode in rret (wrap m).

Definition decode_payload (t : FrameType) : Reader Payload :=
  match t with
  | FrameType.HELLO => decode_as P_HELLO
  | FrameType.REGISTER_TARGET => decode_as P_REGISTER_TARGET
  | FrameType.CAPABILITY => decode_as P_CAPABILITY
  | FrameType.DATA_EVIDENCE => decode_as P_DATA_EVIDENCE
  | FrameType.HEARTBEAT => decode_as P_HEARTBEAT
  | FrameType.DISPATCH => decode_as P_DISPATCH
  | FrameType.DISPATCH_ACK => decode_as P_DISPATCH_ACK
  | FrameType.RESULT => decode_as P_RESULT
  | FrameType.COMMIT_ACK => decode_as P_COMMIT_ACK
  | FrameType.ERROR => decode_as P_ERROR
  | FrameType.SHUTDOWN => decode_as P_SHUTDOWN
  | FrameType.REVALIDATE => decode_as P_REVALIDATE
  | FrameType.CLIENT_REGISTER_OPERATION => decode_as P_CLIENT_REGISTER_OPERATION
  | FrameType.CLIENT_PLAN => decode_as P_CLIENT_PLAN
  | FrameType.CLIENT_DISPATCH => decode_as P_CLIENT_DISPATCH
  | FrameType.CLIENT_GET_RESULT => decode_as P_CLIENT_GET_RESULT
  | FrameType.CLIENT_REPLY => decode_as P_CLIENT_REPLY
  | FrameType.PING => rret P_PING
  | FrameType.PONG => rret P_PONG
  | FrameType.raw _ => rfail
  end.

Definition wf_payload (p : Payload) : Prop :=
  match p with
  | P_HELLO m => wire_wf m
  | P_REGISTER_TARGET m => wire_wf m
  | P_CAPABILITY m => wire_wf m
  | P_DATA_EVIDENCE m => wire_wf m
  | P_HEARTBEAT m => wire_wf m
  | P_DISPATCH m => wire_wf m
  | P_DISPATCH_ACK m => wire_wf m
  | P_RESULT m => wire_wf m
  | P_COMMIT_ACK m => wire_wf m
  | P_ERROR m => wire_wf m
  | P_SHUTDOWN m => wire_wf m
  | P_REVALIDATE m => wire_wf m
  | P_CLIENT_REGISTER_OPERATION m => wire_wf m
  | P_CLIENT_PLAN m => wire_wf m
  | P_CLIENT_DISPATCH m => wire_wf m
  | P_CLIENT_GET_RESULT m => wire_wf m
  | P_CLIENT_REPLY m => wire_wf m
  | P_PING | P_PONG => True
  end.

Lemma decode_as_reads {M} `{WireMessage M} (wrap : M → Payload) m :
  wire_wf m → reads (decode_as wrap) (wire_encode m) (wrap m).
Proof. intros. eapply reads_bind_last; [by apply wire_reads|apply reads_ret]. Qed.

Lemma decode_as_bounded {M} `{WireMessage M} (wrap : M → Payload) (Q : Payload → Prop) :
  (∀ m, wire_wf m → Q (wrap m)) → bounded (decode_as wrap) Q.
Proof. intros HQ. eapply bounded_bind; [apply wire_bounded|]. intros. by apply bounded_ret, HQ. Qed.

Lemma payload_reads p :
  wf_payload p → reads (decode_payload (payload_type p)) (encode_payload p) p.
Proof.
  destruct p; cbn [wf_payload payload_type decode_payload encode_payload]; intros;
    first [by apply decode_as_reads | apply reads_ret].
Qed.

Lemma payload_bounded t :
  bounded (decode_payload t) (fun p => payload_type p = t ∧ wf_payload p).
Proof.
  destruct t; cbn [decode_payload];
    first [apply decode_as_bounded; intros; by split | by apply bounded_ret | apply bounded_fail].
Qed.

Lemma payload_type_valid p : valid_enum (payload_type p).
Proof. apply is_valid_frame_type_spec. by destruct p. Qed.

(** ** Properties of the message codecs *)

(** Every payload, of every frame type, whose fields are in range
    (strings and blobs within [kMaxCodecBlobBytes], lists within the decoder's
    cap, enumerators representable in 16 bits) is decoded back from its
    encoding, wherever it stands in a buffer, and the cursor ends exactly
    behind it. *)
Lemma payload_round_trip p pre rest :
  wf_payload p →
  decode_payload (payload_type p)
    {| data_ := pre ++ encode_payload p ++ rest; pos_ := length pre |} =
  Some (p, {| data_ := pre ++ encode_payload p ++ rest;
              pos_ := (length pre + length (encode_payload p))%nat |}).
Proof. intros Hp. apply (payload_reads p Hp). Qed.

Definition sample_reply : ClientReplyMsg :=
  {| ClientReplyMsg.ok := true; ClientReplyMsg.plan := 7;
     ClientReplyMsg.decision := Decision.NEAR_MEMORY_SELECTED;
     ClientReplyMsg.created := true; ClientReplyMsg.committed := true;
     ClientReplyMsg.ambiguous := false;
     ClientReplyMsg.verification := VerifyState.VERIFIED;
     ClientReplyMsg.output_bytes := 8; ClientReplyMsg.output_digest := "00";
     ClientReplyMsg.note := "ok" |}.

Lemma payload_round_trip_witness :
  decode_payload FrameType.CLIENT_REPLY
    {| data_ := [1; 2] ++ encode_payload (P_CLIENT_REPLY sample_reply) ++ [3];
       pos_ := 2 |} =
  Some (P_CLIENT_REPLY sample_reply,
        {| data_ := [1; 2] ++ encode_payload (P_CLIENT_REPLY sample_reply) ++ [3];
           pos_ := 46 |}).
Proof.
  apply (payload_round_trip (P_CLIENT_REPLY sample_reply) [1; 2] [3]).
  simpl. unfold ClientReplyMsg.wf_client_reply, wire_enum, canonical, string_ok,
    in_u64, in_u16, kMaxCodecBlobBytes. simpl. split_and!; first [done | lia].
Defined.

(** Whatever bytes arrive, a decoder that accepts read only inside
    the buffer, did not move backwards, left the buffer as it was, and answers a
    message of the requested frame type whose every field is in range. *)
Theorem payload_decoding_safe t r p r' :
  in_bounds r → decode_payload t r = Some (p, r') →
  data_ r' = data_ r ∧ (pos_ r ≤ pos_ r' ≤ size_ r)%nat ∧
  payload_type p = t ∧ wf_payload p.
Proof. apply payload_bounded. Qed.

Lemma payload_decoding_safe_witness :
  wf_payload (P_SHUTDOWN {| ShutdownMsg.reason := "A" |}).
Proof.
  apply (payload_decoding_safe FrameType.SHUTDOWN
    {| data_ := [1; 0; 0; 0; 0; 0; 0; 0; 65]; pos_ := 0 |}
    (P_SHUTDOWN {| ShutdownMsg.reason := "A" |})
    {| data_ := [1; 0; 0; 0; 0; 0; 0; 0; 65]; pos_ := 9 |}).
  - split; [|simpl; lia]. repeat constructor; lia.
  - vm_compute. reflexivity.
Defined.

(** Claim C38: the round trip is exact: a payload is read back from its own
    encoding only if it is well formed.  In particular a target that lists more
    than 64 operations, data types or layouts, or a capability message with
    more than 1024 entries, is never read back as sent: the encoder writes
    every entry while the decoder stops at its cap. *)
Theorem payload_round_trip_iff p :
  is_bytes (encode_payload p) →
  (∃ r', decode_payload (payload_type p) {| data_ := encode_payload p; pos_ := 0 |} =
         Some (p, r')) ↔ wf_payload p.
Proof.
  intros Hb. split.
  - intros [r' Heq]. apply payload_bounded in Heq; [by destruct_and?|].
    split; [done|]. simpl. lia.
  - intros Hp. eexists. by apply reads_whole, payload_reads.
Qed.

Definition crowded_target : RegisterTargetMsg :=
  {| RegisterTargetMsg.target := 1; RegisterTargetMsg.generation := 1;
     RegisterTargetMsg.provider := ProviderKind.UNKNOWN;
     RegisterTargetMsg.kind := TargetKind.UNKNOWN; RegisterTargetMsg.synthetic := false;
     RegisterTargetMsg.name := "crowded";
     RegisterTargetMsg.ops := replicate 65 OperationClass.SUM;
     RegisterTargetMsg.data_types := []; RegisterTargetMsg.layouts := [];
     RegisterTargetMsg.max_input_bytes := 0; RegisterTargetMsg.alignment := 1;
     RegisterTargetMsg.concurrency := 1; RegisterTargetMsg.workspace := 0;
     RegisterTargetMsg.owner_boot := 1 |}.

Lemma payload_round_trip_iff_witness :
  ~ ∃ r', decode_payload FrameType.REGISTER_TARGET
            {| data_ := encode_payload (P_REGISTER_TARGET crowded_target); pos_ := 0 |} =
          Some (P_REGISTER_TARGET crowded_target, r').
Proof.
  intros Hrt. apply (payload_round_trip_iff (P_REGISTER_TARGET crowded_target)) in Hrt.
  - unfold wf_payload, wire_wf, RegisterTargetMsg_wire, RegisterTargetMsg.wf_register_target in Hrt.
    destruct_and!. revert select (Z.of_nat (length (RegisterTargetMsg.ops _)) <= 64).
    vm_compute. intros Hle. by apply Hle.
  - apply (bool_decide_eq_true_1 _). vm_compute. reflexivity.
Defined.

(** A frame header is exactly [kFrameHeaderBytes] (24) bytes long,
    is read back from its encoding when its fields are in range and its type is
    an enumerator, and any header the decoder accepts is such a header. *)
Lemma header_round_trip h :
  length (encode_header h) = kFrameHeaderBytes ∧
  (decode_header {| data_ := encode_header h; pos_ := 0 |} =
   Some (h, {| data_ := encode_header h; pos_ := kFrameHeaderBytes |}) ↔ wf_header h).
Proof.
  split; [apply encode_header_length|]. split.
  - intros Heq. apply header_bounded in Heq; [by destruct_and?|].
    split; [apply encode_header_bytes|]. simpl. lia.
  - intros Hh. rewrite <- (encode_header_length h). by apply reads_whole, header_reads.
Qed.

