(* ===== verification/Backend.v ===== *)
(** * Execution backends ([backend.hpp], [backend.cpp])

    The synthetic near-memory engine and the host-local engine, over a buffer
    of bytes.  The span of a request is the list of bytes it views; a null span
    is an empty one.  The wall-clock time the host-local engine measures is an
    argument. *)

From S2P Require Import Prelude Enums Ids Checksum Codec.

Module BackendRequest.
Record BackendRequest : Type := mk {
  op_class : OperationClass; data_type : DataType; input : list Z; input_bytes : Z
}.
End BackendRequest.
Abbreviation BackendRequest := BackendRequest.BackendRequest.

Module BackendResult.
Record BackendResult : Type := mk {
  ok : bool; output : list Z; digest : Z; execution_ns : Z; note : string
}.
Definition dflt : BackendResult :=
  {| ok := false; output := []; digest := 0; execution_ns := 0; note := "" |}.
Definition refuse (why : string) : BackendResult :=
  {| ok := false; output := []; digest := 0; execution_ns := 0; note := why |}.
End BackendResult.
Abbreviation BackendResult := BackendResult.BackendResult.

Import BackendRequest BackendResult.

Definition byte_min (p : list Z) : Z := fold_left Z.min p 0xFF.
Definition byte_max (p : list Z) : Z := fold_left Z.max p 0.
Definition byte_sum (p : list Z) : Z := fold_left (fun s b => u64 (s + b)) p 0.
(** The FILTER loop: [if (p[i] >= 128) ++cnt]. *)
Definition byte_filter (p : list Z) : Z :=
  fold_left (fun c b => if 128 <=? b then u64 (c + 1) else c) p 0.

(** [output[i] = (s >> (i * 8)) & 0xFF] for the eight output bytes. *)
Definition le_output (s : Z) : list Z :=
  (fun i : nat => Z.land (Z.shiftr s (Z.of_nat i * 8)) 0xFF) <$> seq 0 8.

Definition synthetic_execute (req : BackendRequest) : BackendResult :=
  let p := input req in
  let n := input_bytes req in
  reject_if n !=? Z.of_nat (length p) with refuse "input size mismatch" in
  let finish out :=
    {| ok := true; output := out; digest := content_digest out; execution_ns := 0;
       note := if n =? 0 then "empty input" else "synthetic result" |} in
  match op_class req with
  | OperationClass.SUM | OperationClass.REDUCE => finish (le_output (byte_sum p))
  | OperationClass.COUNT => finish (le_output n)
  | OperationClass.MIN => finish [byte_min p]
  | OperationClass.MAX => finish [byte_max p]
  | OperationClass.CHECKSUM => finish (le_output (byte_sum p))
  | OperationClass.HASH => finish (le_output (content_digest p))
  | OperationClass.FILTER => finish (le_output (byte_filter p))
  | OperationClass.ELEMENTWISE | OperationClass.TRANSFORM => finish p
  | _ => refuse "operation not supported by synthetic engine"
  end.

Definition host_local_execute (elapsed_ns : Z) (req : BackendRequest) : BackendResult :=
  let p := input req in
  let n := input_bytes req in
  reject_if n !=? Z.of_nat (length p) with refuse "input size mismatch" in
  let finish out :=
    {| ok := true; output := out; digest := content_digest out;
       execution_ns := elapsed_ns; note := "real host-local result" |} in
  match op_class req with
  | OperationClass.SUM | OperationClass.REDUCE => finish (le_output (byte_sum p))
  | OperationClass.COUNT => finish (le_output n)
  | OperationClass.MIN => finish [byte_min p]
  | OperationClass.MAX => finish [byte_max p]
  | OperationClass.FILTER => finish (le_output (byte_filter p))
  | _ => refuse "operation not supported by host-local engine"
  end.

(** ** Lemmas *)

Lemma le_output_bytes s : le_output s = le_bytes 8 s.
Proof.
  unfold le_output. simpl. rewrite !(Z.land_ones _ 8), !Z.shiftr_div_pow2 by lia.
  rewrite !Z.div_div by lia. by rewrite Z.div_1_r.
Qed.

Lemma le_output_value s : in_u64 s → le_value (le_output s) = s.
Proof. intros Hs. rewrite le_output_bytes, le_value_bytes. by apply Z.mod_small. Qed.

Lemma le_output_length s : length (le_output s) = 8%nat.
Proof. done. Qed.
#[local] Opaque le_output.

Lemma fold_min p a : fold_left Z.min p a = foldr Z.min a p.
Proof. revert a. induction p as [|b p IH]; intros a; simpl; [done|]. rewrite IH. clear IH.
  induction p; simpl; lia. Qed.
Lemma fold_max p a : fold_left Z.max p a = foldr Z.max a p.
Proof. revert a. induction p as [|b p IH]; intros a; simpl; [done|]. rewrite IH. clear IH.
  induction p; simpl; lia. Qed.

Definition sum_list_Z (l : list Z) : Z := foldr Z.add 0 l.

Lemma byte_sum_wraps p a :
  in_u64 a → fold_left (fun s b => u64 (s + b)) p a = u64 (a + sum_list_Z p).
Proof.
  revert a. induction p as [|b p IH]; intros a Ha; simpl.
  - by rewrite Z.add_0_r, u64_small.
  - rewrite IH by apply u64_range. unfold u64. rewrite Zplus_mod_idemp_l. f_equal. lia.
Qed.

Lemma byte_filter_wraps p a :
  in_u64 a →
  fold_left (fun c b => if 128 <=? b then u64 (c + 1) else c) p a =
  u64 (a + Z.of_nat (length (filter (fun b => 128 <= b) p))).
Proof.
  revert a. induction p as [|b p IH]; intros a Ha; simpl.
  - by rewrite Z.add_0_r, u64_small.
  - rewrite filter_cons. destruct (Z.leb_spec 128 b); case_decide; try lia.
    + rewrite IH by apply u64_range. unfold u64. rewrite Zplus_mod_idemp_l. f_equal. simpl. lia.
    + by apply IH.
Qed.

Lemma sum_list_bound p :
  is_bytes p → 0 <= sum_list_Z p <= 255 * Z.of_nat (length p).
Proof. induction 1 as [|b p Hb Hp IH]; simpl; [done|]. ranges. Qed.

Lemma byte_min_spec p :
  is_bytes p → Forall (Z.le (byte_min p)) p ∧ (p ≠ [] → byte_min p ∈ p).
Proof.
  unfold byte_min. rewrite fold_min. induction 1 as [|b p Hb Hp [IH1 IH2]]; simpl; [done|].
  assert (foldr Z.min 255 p <= 255) by (clear; induction p; simpl; lia).
  split.
  - constructor; [lia|]. eapply Forall_impl; [|done]. simpl. lia.
  - intros _. destruct (Z.min_spec b (foldr Z.min 255 p)) as [[_ ->]|[Hle ->]]; [left|].
    destruct p; [|right; by apply IH2]. simpl in *. unfold in_u8 in Hb.
    replace 255 with b by lia. left.
Qed.

Lemma byte_max_spec p :
  is_bytes p → Forall (Z.ge (byte_max p)) p ∧ (p ≠ [] → byte_max p ∈ p).
Proof.
  unfold byte_max. rewrite fold_max. induction 1 as [|b p Hb Hp [IH1 IH2]]; simpl; [done|].
  split.
  - constructor; [lia|]. eapply Forall_impl; [|done]. simpl. lia.
  - intros _. destruct (Z.max_spec b (foldr Z.max 0 p)) as [[Hle ->]|[_ ->]]; [|left].
    destruct p; [|right; by apply IH2]. simpl in *. unfold in_u8 in Hb. lia.
Qed.

(** ** Properties *)

(** What each operation class computes over a buffer, as a relation on the
    output bytes. *)
Definition computes (op : OperationClass) (p out : list Z) : Prop :=
  match op with
  | OperationClass.SUM | OperationClass.REDUCE | OperationClass.CHECKSUM =>
      length out = 8%nat ∧ le_value out = sum_list_Z p
  | OperationClass.COUNT => length out = 8%nat ∧ le_value out = Z.of_nat (length p)
  | OperationClass.MIN => ∃ v, out = [v] ∧ Forall (Z.le v) p ∧ (p ≠ [] → v ∈ p)
  | OperationClass.MAX => ∃ v, out = [v] ∧ Forall (Z.ge v) p ∧ (p ≠ [] → v ∈ p)
  | OperationClass.HASH => length out = 8%nat ∧ le_value out = content_digest p
  | OperationClass.FILTER =>
      length out = 8%nat ∧ le_value out = Z.of_nat (length (filter (fun b => 128 <= b) p))
  | OperationClass.ELEMENTWISE | OperationClass.TRANSFORM => out = p
  | _ => False
  end.

(** Claim C37: over any buffer of fewer than 2^56 bytes whose declared size is
    its actual size, the synthetic engine accepts exactly the operation classes
    it implements, its output is the specified value (sum, count, an attained
    minimum or maximum, number of bytes >= 128, digest, copy) with no 64-bit
    wrap-around, and the reported digest is that of the output; a declared size
    that differs from the buffer's, larger or smaller, or an unsupported class is
    refused with no output (the header lets a smaller one pass). *)
Theorem synthetic_execute_correct op dt p n :
  is_bytes p → Z.of_nat (length p) < 2 ^ 56 →
  let r := synthetic_execute
    {| op_class := op; data_type := dt; input := p; input_bytes := n |} in
  (ok r = true → n = Z.of_nat (length p) ∧ computes op p (output r) ∧
                 digest r = content_digest (output r)) ∧
  (ok r = false → output r = []) ∧
  (n = Z.of_nat (length p) → (∃ out, computes op p out) → ok r = true).
Proof.
  intros Hp Hlen. unfold synthetic_execute. simpl.
  destruct (n !=? Z.of_nat (length p)) eqn:Hn; simpl.
  { split_and!; try done. intros ->. by rewrite Z.eqb_refl in Hn. }
  apply neqb_false in Hn as ->.
  pose proof (sum_list_bound p Hp) as Hsum.
  pose proof (length_filter (fun b => 128 <= b) p) as Hfl.
  pose proof (content_digest_range p Hp) as Hdig.
  pose proof (byte_min_spec p Hp). pose proof (byte_max_spec p Hp).
  assert (Hbs : byte_sum p = sum_list_Z p).
  { unfold byte_sum. rewrite byte_sum_wraps, u64_small by ranges. done. }
  assert (Hbf : byte_filter p = Z.of_nat (length (filter (fun b => 128 <= b) p))).
  { unfold byte_filter. rewrite byte_filter_wraps, u64_small by ranges. done. }
  destruct op; simpl; (split; [|split]); intros Hok; try done; try (by intros [? []]);
    (split; [done|split; [|done]]);
    first [ done
          | split; [apply le_output_length|];
            rewrite le_output_value; rewrite ?Hbs, ?Hbf; (done || ranges)
          | by eexists ].
Qed.

Lemma synthetic_execute_correct_witness :
  ok (synthetic_execute {| op_class := OperationClass.SUM; data_type := DataType.U8;
                           input := [1; 2; 255]; input_bytes := 3 |}) = true ∧
  ok (synthetic_execute {| op_class := OperationClass.MAX; data_type := DataType.U8;
                           input := []; input_bytes := 1 |}) = false.
Proof.
  split.
  - apply (synthetic_execute_correct OperationClass.SUM DataType.U8 [1; 2; 255] 3);
      [repeat constructor; lia|simpl; lia|done|].
    exists (le_output 258). by vm_compute.
  - vm_compute. reflexivity.
Defined.

(** The host-local engine implements a part of the synthetic one: on
    every request it accepts, the synthetic engine accepts too and produces the
    same bytes and the same digest; the only well-sized requests it refuses and
    the synthetic engine serves are CHECKSUM, HASH, ELEMENTWISE and
    TRANSFORM. *)
Theorem host_local_refines_synthetic ns req :
  let h := host_local_execute ns req in
  let s := synthetic_execute req in
  (ok h = true → ok s = true ∧ output h = output s ∧ digest h = digest s) ∧
  (ok s = true → ok h = false →
   op_class req ∈ [OperationClass.CHECKSUM; OperationClass.HASH;
                   OperationClass.ELEMENTWISE; OperationClass.TRANSFORM]).
Proof.
  unfold host_local_execute, synthetic_execute.
  destruct (input_bytes req !=? Z.of_nat (length (input req))); [done|].
  destruct (op_class req); simpl; split; intros; try done; set_solver.
Qed.

Lemma host_local_refines_synthetic_witness :
  output (host_local_execute 17 {| op_class := OperationClass.MIN; data_type := DataType.U8;
                                   input := [9; 4; 7]; input_bytes := 3 |}) =
  output (synthetic_execute {| op_class := OperationClass.MIN; data_type := DataType.U8;
                               input := [9; 4; 7]; input_bytes := 3 |}).
Proof.
  apply (host_local_refines_synthetic 17 {| op_class := OperationClass.MIN;
    data_type := DataType.U8; input := [9; 4; 7]; input_bytes := 3 |}).
  vm_compute. reflexivity.
Defined.
