(* ===== verification/Cuda.v ===== *)
(** * The CUDA reduction ([cuda_backend.hpp], [cuda_backend.cu])

    The conventional reduction on a GPU: a grid-stride kernel whose threads add
    their partial sums to one accumulator with [atomicAdd], and the host code
    around it.  The answers of the CUDA runtime are an argument.  The order in
    which the atomic additions take effect is a schedule, a list of the threads
    of the grid; nothing else the threads do is visible to each other.  Device
    allocations and releases are recorded in a trace. *)

From S2P Require Import Prelude Enums Ids Checksum Codec Backend.

(** ** 32-bit signed integers *)

(** A conversion to [int]: the low 32 bits as two's complement. *)
Definition i32 (z : Z) : Z := let r := u32 z in if r <? 2147483648 then r else r - 4294967296.

Lemma i32_small z : - 2147483648 <= z < 2147483648 → i32 z = z.
Proof.
  intros Hz. unfold i32, u32. destruct (decide (0 <= z)).
  - rewrite Z.mod_small by lia. by rewrite (proj2 (Z.ltb_lt _ _)) by lia.
  - rewrite <- (Z.mod_add z 1), Z.mul_1_l, Z.mod_small by lia.
    rewrite (proj2 (Z.ltb_ge _ _)) by lia. lia.
Qed.

(** Between 2^31 and 2^32 the conversion is negative. *)
Lemma i32_wraps z : 2147483648 <= z < 4294967296 → i32 z = z - 4294967296.
Proof.
  intros Hz. unfold i32, u32. rewrite Z.mod_small by lia.
  by rewrite (proj2 (Z.ltb_ge _ _)) by lia.
Qed.

(** ** The kernel *)

(** One thread: its partial sum, a read outside the buffer, or still looping. *)
Inductive ThreadRun := Partial (s : Z) | OutOfBounds | Looping.

(** [for (int i = ...; i < n; i += gridDim.x * blockDim.x) s += in[i];] *)
Fixpoint thread_loop (fuel : nat) (mem : list Z) (n stride i s : Z) : ThreadRun :=
  match fuel with
  | O => Looping
  | S fuel =>
      if i <? n then
        match (if i <? 0 then None else mem !! Z.to_nat i) with
        | None => OutOfBounds
        | Some b => thread_loop fuel mem n stride (i32 (u32 i + stride)) (u64 (s + b))
        end
      else Partial s
  end.

(** [blockDim.x] is 256; a thread is its block and its index in the block. *)
Definition threads : Z := 256.
Definition thread_index (bt : nat * nat) : Z :=
  i32 (u32 (u32 (Z.of_nat bt.1 * threads) + Z.of_nat bt.2)).
Definition grid (blocks : Z) : list (nat * nat) :=
  b ← seq 0 (Z.to_nat blocks); t ← seq 0 (Z.to_nat threads); [(b, t)].

Definition run_thread (fuel : nat) (mem : list Z) (n blocks : Z) (bt : nat * nat) : ThreadRun :=
  thread_loop fuel mem n (u32 (blocks * threads)) (thread_index bt) 0.

(** [reduce_sum_kernel] under a schedule: every thread's [atomicAdd] in turn.
    [None]: a thread read outside the buffer or did not finish. *)
Definition reduce_sum_kernel (fuel : nat) (schedule : list (nat * nat)) (mem : list Z)
    (n blocks out : Z) : option Z :=
  foldl (fun acc bt =>
    match acc, run_thread fuel mem n blocks bt with
    | Some acc, Partial s => Some (u64 (acc + s))
    | _, _ => None
    end) (Some out) schedule.

(** ** The host code *)

(** [cudaGetDeviceCount]: [None] when the call fails. *)
Definition cuda_device_count (answer : option Z) : Z := default 0 answer.

(** What the runtime answers to the calls of one [cuda_reduce_u8]. *)
Record CudaAnswers := {
  ca_devices : option Z;
  ca_malloc_in : bool; ca_malloc_out : bool; ca_memset : bool; ca_copy_in : bool;
  ca_launch : bool;   (* whether the grid is started *)
  ca_sync : bool; ca_copy_out : bool
}.

Inductive Buffer := D_in | D_out.
Inductive DeviceEvent := Malloc (b : Buffer) | Free (b : Buffer).

(** [static_cast<int>(input.size())] and the number of blocks. *)
Definition cuda_size (input : list Z) : Z := i32 (Z.of_nat (length input)).
Definition cuda_blocks (n : Z) : Z := Z.quot (i32 (i32 (n + threads) - 1)) threads.

(** [cuda_reduce_u8]: the returned vector and the device trace.  [None]: the
    kernel faults, or is still running. *)
Definition cuda_reduce_u8 (fuel : nat) (a : CudaAnswers) (schedule : list (nat * nat))
    (input : list Z) : option (list Z * list DeviceEvent) :=
  if bool_decide (input = []) || (cuda_device_count (ca_devices a) =? 0) then Some ([], []) else
  let n := cuda_size input in
  if negb (ca_malloc_in a) then Some ([], []) else
  if negb (ca_malloc_out a) then Some ([], [Malloc D_in; Free D_in]) else
  let both := [Malloc D_in; Malloc D_out] in
  let release := both ++ [Free D_in; Free D_out] in
  if negb (ca_memset a) then Some ([], release) else
  if negb (ca_copy_in a) then Some ([], release) else
  let mem := take (Z.to_nat n) input in
  let? result := (if ca_launch a then reduce_sum_kernel fuel schedule mem n (cuda_blocks n) 0
                  else Some 0) otherwise None in
  if negb (ca_sync a) then Some ([], release) else
  if negb (ca_copy_out a) then Some ([], release) else
  Some (le_output result, release).

(** The test data, the reference sum and the reassembled answer of
    [cuda_conventional_proof]. *)
Definition proof_data : list Z :=
  (fun i => u8 (Z.land (u64 (u64 (Z.of_nat i * 31) + 7)) 0xFF)) <$> seq 0 (Z.to_nat 65536).
(** [got |= out[i] << (i * 8)] over the first eight bytes. *)
Definition reassemble (out : list Z) : Z :=
  foldl (fun got ib => Z.lor got (u64 (Z.shiftl ib.2 (Z.of_nat ib.1 * 8)))) 0
    (zip (seq 0 8) out).

Definition cuda_conventional_proof (fuel : nat) (devices : option Z) (a : CudaAnswers)
    (schedule : list (nat * nat)) : option bool :=
  if cuda_device_count devices =? 0 then Some false else
  let reference := byte_sum proof_data in
  let? r := cuda_reduce_u8 fuel a schedule proof_data otherwise None in
  if negb (length r.1 =? 8)%nat then Some false else
  Some (reassemble r.1 =? reference).

(** There is a device and every call whose answer is looked at succeeds; the
    answer to the launch is not looked at. *)
Definition checked_succeed (a : CudaAnswers) : bool :=
  negb (cuda_device_count (ca_devices a) =? 0) && ca_malloc_in a && ca_malloc_out a &&
  ca_memset a && ca_copy_in a && ca_sync a && ca_copy_out a.

Definition cuda_fine : CudaAnswers :=
  {| ca_devices := Some 1; ca_malloc_in := true; ca_malloc_out := true; ca_memset := true;
     ca_copy_in := true; ca_launch := true; ca_sync := true; ca_copy_out := true |}.

Example cuda_small :
  cuda_reduce_u8 2 cuda_fine (rev (grid 2)) (replicate 300 255) =
  Some (le_output (300 * 255), [Malloc D_in; Malloc D_out; Free D_in; Free D_out]).
Proof. vm_compute. reflexivity. Qed.

(** ** Lemmas *)

Lemma grid_indices blocks :
  (fun bt : nat * nat => bt.1 * 256 + bt.2)%nat <$> grid blocks = seq 0 (Z.to_nat blocks * 256).
Proof.
  unfold grid, threads. generalize (Z.to_nat blocks) as k. intros k.
  assert (Hrow : ∀ m w s, (fun bt : nat * nat => bt.1 * 256 + bt.2)%nat <$>
    (t ← seq s w; [(m, t)]) = seq (m * 256 + s) w).
  { intros m w. induction w as [|w IH]; intros s; simpl; [done|]. f_equal. rewrite IH. f_equal. lia. }
  induction k as [|k IH]; [done|].
  rewrite seq_S, bind_app, fmap_app, IH, bind_singleton.
  replace (S k * 256)%nat with (k * 256 + Z.to_nat 256)%nat by lia. rewrite seq_app. f_equal.
  rewrite Hrow. f_equal. lia.
Qed.

(** A thread of a grid of [blocks] blocks has a non-negative index below the
    number of threads. *)
Lemma grid_index blocks bt :
  0 <= blocks → blocks * 256 <= 2147483648 → bt ∈ grid blocks →
  thread_index bt = Z.of_nat (bt.1 * 256 + bt.2) ∧ thread_index bt < blocks * 256.
Proof.
  intros H0 Hb Hin. assert (Hi : (bt.1 * 256 + bt.2)%nat ∈ seq 0 (Z.to_nat blocks * 256)).
  { rewrite <- grid_indices. by apply (list_elem_of_fmap_2 (fun bt : nat * nat => bt.1 * 256 + bt.2)%nat). }
  apply elem_of_seq in Hi. unfold thread_index, threads.
  rewrite (u32_small (Z.of_nat bt.1 * 256)), u32_small by ranges. rewrite i32_small by lia. lia.
Qed.

(** The blocks cover the buffer, with less than one block to spare. *)
Lemma cuda_blocks_cover n :
  0 < n <= 2147483391 → n <= cuda_blocks n * 256 < n + 256 ∧ 0 < cuda_blocks n.
Proof.
  intros Hn. unfold cuda_blocks, threads.
  rewrite (i32_small (n + 256)), (i32_small (n + 256 - 1)) by lia.
  rewrite Z.quot_div_nonneg by lia.
  pose proof (Z.div_mod (n + 256 - 1) 256 ltac:(lia)).
  pose proof (Z.mod_pos_bound (n + 256 - 1) 256 ltac:(lia)). lia.
Qed.

(** A thread's value: its byte, or nothing past the end. *)
Definition byte_at (mem : list Z) (j : nat) : Z := default 0 (mem !! j).

Lemma sum_list_Z_app l1 l2 : sum_list_Z (l1 ++ l2) = sum_list_Z l1 + sum_list_Z l2.
Proof. induction l1; simpl; lia. Qed.
#[global] Instance sum_list_Z_perm : Proper ((≡ₚ) ==> eq) sum_list_Z.
Proof. induction 1; simpl; lia. Qed.

Lemma sum_byte_at mem m :
  (length mem ≤ m)%nat → sum_list_Z (byte_at mem <$> seq 0 m) = sum_list_Z mem.
Proof.
  revert m. induction mem as [|b mem IH]; intros m Hm.
  - assert (Hz : ∀ s, sum_list_Z (byte_at [] <$> seq s m) = 0); [|apply Hz].
    clear. induction m as [|m IHm]; intros s; [done|]. simpl. by rewrite IHm.
  - destruct m as [|m]; [simpl in Hm; lia|]. simpl. f_equal. rewrite <- (IH m) by (simpl in Hm; lia).
    rewrite <- fmap_S_seq, <- list_fmap_compose. done.
Qed.

(** Up to 2^30 bytes the second index of every thread is past the end, so the
    loop runs at most once. *)
Lemma run_thread_once mem n blocks fuel bt :
  n = Z.of_nat (length mem) → 0 < n <= 1073741824 → blocks = cuda_blocks n → is_bytes mem →
  (2 ≤ fuel)%nat → bt ∈ grid blocks →
  run_thread fuel mem n blocks bt = Partial (byte_at mem (bt.1 * 256 + bt.2)).
Proof.
  intros Hlen Hn -> Hm Hf Hbt. destruct (cuda_blocks_cover n) as [Hc Hp]; [lia|].
  destruct (grid_index (cuda_blocks n) bt ltac:(lia) ltac:(lia) Hbt) as [Hi Hlt].
  unfold run_thread. rewrite Hi in *. set (j := (bt.1 * 256 + bt.2)%nat) in *.
  destruct fuel as [|[|fuel]]; [lia..|]. cbn [thread_loop]. unfold byte_at.
  destruct (Z.ltb_spec (Z.of_nat j) n) as [Hj|Hj].
  - rewrite (proj2 (Z.ltb_ge _ 0)), Nat2Z.id by lia.
    destruct (mem !! j) as [b|] eqn:Hb; [|apply lookup_ge_None in Hb; lia].
    assert (in_u8 b) by (by eapply (Forall_lookup_1 in_u8)).
    unfold threads. rewrite !(u32_small (_ * 256)), u32_small by ranges.
    rewrite i32_small, (proj2 (Z.ltb_ge _ n)) by lia. by rewrite u64_small by ranges.
  - destruct (mem !! j) as [b|] eqn:Hb; [|done]. apply lookup_lt_Some in Hb. lia.
Qed.

Lemma reduce_sum_kernel_adds mem n blocks fuel schedule acc :
  n = Z.of_nat (length mem) → 0 < n <= 1073741824 → blocks = cuda_blocks n → is_bytes mem →
  (2 ≤ fuel)%nat → Forall (.∈ grid blocks) schedule → in_u64 acc →
  reduce_sum_kernel fuel schedule mem n blocks acc =
  Some (u64 (acc + sum_list_Z (byte_at mem <$> ((fun bt : nat * nat => bt.1 * 256 + bt.2)%nat <$> schedule)))).
Proof.
  intros Hlen Hn Hb Hm Hf Hs. unfold reduce_sum_kernel. revert acc.
  induction Hs as [|bt schedule Hbt Hs IH]; intros acc Ha; simpl.
  - by rewrite Z.add_0_r, u64_small.
  - rewrite run_thread_once by done. rewrite IH by apply u64_range.
    f_equal. unfold u64. rewrite Zplus_mod_idemp_l. f_equal. symmetry. apply Z.add_assoc.
Qed.

(** Any order of the atomic additions of the grid gives the sum of the buffer. *)
Lemma reduce_sum_kernel_exact mem n fuel schedule :
  n = Z.of_nat (length mem) → 0 < n <= 1073741824 → is_bytes mem → (2 ≤ fuel)%nat →
  schedule ≡ₚ grid (cuda_blocks n) →
  reduce_sum_kernel fuel schedule mem n (cuda_blocks n) 0 = Some (sum_list_Z mem).
Proof.
  intros Hlen Hn Hm Hf Hs. destruct (cuda_blocks_cover n) as [Hc Hp]; [lia|].
  rewrite reduce_sum_kernel_adds; try done.
  - rewrite Hs, grid_indices, sum_byte_at by lia. pose proof (sum_list_bound mem Hm).
    by rewrite u64_small by ranges.
  - apply Forall_forall. intros bt Hbt. rewrite <- Hs. by apply list_elem_of_In.
Qed.

(** Or-ing a byte in above the bits already set adds it. *)
Lemma lor_shift got b k :
  0 <= k → 0 <= got < 2 ^ k → Z.lor got (Z.shiftl b k) = got + b * 2 ^ k.
Proof.
  intros Hk Hg. assert (Hl : Z.land got (Z.shiftl b k) = 0).
  { apply Z.bits_inj'. intros i Hi. rewrite Z.land_spec, Z.bits_0, Z.shiftl_spec by done.
    destruct (Z.ltb_spec i k) as [Hlt|Hge]; [rewrite (Z.testbit_neg_r b) by lia; by rewrite andb_false_r|].
    destruct (decide (got = 0)) as [->|]; [by rewrite Z.bits_0|].
    rewrite Z.bits_above_log2; [done|lia|]. apply Z.log2_lt_pow2; [lia|].
    eapply Z.lt_le_trans; [apply Hg|]. by apply Z.pow_le_mono_r. }
  rewrite <- (Z.lxor_lor _ _ Hl), <- (Z.add_nocarry_lxor _ _ Hl). by rewrite Z.shiftl_mul_pow2.
Qed.

Lemma reassemble_from i bs got :
  is_bytes bs → (i + length bs ≤ 8)%nat → 0 <= got < 256 ^ Z.of_nat i →
  foldl (fun got ib => Z.lor got (u64 (Z.shiftl ib.2 (Z.of_nat ib.1 * 8)))) got
    (zip (seq i (length bs)) bs) = got + le_value bs * 256 ^ Z.of_nat i.
Proof.
  intros Hb. revert i got. induction Hb as [|b bs Hb Hbs IH]; intros i got Hi Hg; simpl in *; [lia|].
  assert (Hp : 2 ^ (Z.of_nat i * 8) = 256 ^ Z.of_nat i) by by rewrite Z.mul_comm, Z.pow_mul_r by lia.
  assert (Hs : 256 ^ Z.of_nat (S i) = 256 * 256 ^ Z.of_nat i) by by rewrite Nat2Z.inj_succ, Z.pow_succ_r by lia.
  assert (H8 : 256 ^ Z.of_nat (S i) <= 256 ^ 8) by (apply Z.pow_le_mono_r; lia).
  change (256 ^ 8) with 18446744073709551616 in H8.
  rewrite u64_small by (rewrite Z.shiftl_mul_pow2, Hp by lia; unfold in_u8, in_u64 in *; nia).
  rewrite lor_shift by (rewrite ?Hp; lia). rewrite Hp, IH, Hs; [lia|lia|].
  unfold in_u8 in Hb. nia.
Qed.

Lemma reassemble_le_output s : in_u64 s → reassemble (le_output s) = s.
Proof.
  intros Hs. rewrite le_output_bytes. unfold reassemble.
  pose proof (reassemble_from 0 (le_bytes 8 s) 0) as H. rewrite le_bytes_length in H.
  rewrite H; [|apply le_bytes_range|lia|lia].
  rewrite le_value_bytes. rewrite Z.mod_small by done. lia.
Qed.

Lemma byte_sum_exact p :
  is_bytes p → Z.of_nat (length p) < 2 ^ 56 → byte_sum p = sum_list_Z p.
Proof.
  intros Hp Hn. pose proof (sum_list_bound p Hp). unfold byte_sum.
  by rewrite byte_sum_wraps, u64_small by ranges.
Qed.

(** ** Device memory *)

Definition buffer_eqb (a b : Buffer) : bool :=
  match a, b with D_in, D_in | D_out, D_out => true | _, _ => false end.

(** Every allocation is released exactly once, after it was made, and nothing
    else is released. *)
Fixpoint balanced (live : list Buffer) (trace : list DeviceEvent) : bool :=
  match trace with
  | [] => match live with [] => true | _ => false end
  | Malloc b :: trace => negb (existsb (buffer_eqb b) live) && balanced (b :: live) trace
  | Free b :: trace =>
      existsb (buffer_eqb b) live &&
      balanced (List.filter (fun c => negb (buffer_eqb b c)) live) trace
  end.

Lemma cuda_trace_balanced fuel a schedule input out trace :
  cuda_reduce_u8 fuel a schedule input = Some (out, trace) → balanced [] trace = true.
Proof. unfold cuda_reduce_u8. intros H. repeat case_match; by simplify_eq. Qed.

(** The call on a non-empty buffer. *)
Lemma cuda_reduce_sum fuel a schedule input :
  is_bytes input → 0 < Z.of_nat (length input) <= 2 ^ 30 → (2 ≤ fuel)%nat →
  schedule ≡ₚ grid (cuda_blocks (Z.of_nat (length input))) →
  ∃ trace, cuda_reduce_u8 fuel a schedule input =
    Some (if checked_succeed a then le_output (if ca_launch a then sum_list_Z input else 0) else [], trace).
Proof.
  intros Hi Hlen Hf Hs.
  assert (Hn : cuda_size input = Z.of_nat (length input)) by (unfold cuda_size; rewrite i32_small; lia).
  unfold cuda_reduce_u8, checked_succeed. rewrite bool_decide_false by (intros ->; simpl in *; lia).
  rewrite Hn, Nat2Z.id, firstn_all, reduce_sum_kernel_exact by (done || lia).
  destruct (cuda_device_count _ =? 0), (ca_malloc_in a), (ca_malloc_out a), (ca_memset a),
    (ca_copy_in a), (ca_launch a), (ca_sync a), (ca_copy_out a); simpl; by eexists.
Qed.

(** ** Properties *)

(** Claim C22: the CUDA reduction computes what the other engines compute.  For
    any non-empty buffer of up to 2^30 bytes, whatever order the grid's atomic
    additions take effect in, the call returns, and on every path each device
    buffer that was allocated is released exactly once.  When every runtime call
    succeeds the answer is byte for byte the SUM output of the synthetic and of
    the host-local engine.  The answer is empty exactly when the buffer is, or
    there is no device, or one of the calls the code checks fails: the
    allocations, the clearing, the copies and the synchronisation.  The launch is
    not checked: when it alone fails the answer is eight zero bytes, where the
    header promises an empty one. *)
Theorem cuda_reduce_exact fuel a schedule input dt ns :
  is_bytes input → Z.of_nat (length input) <= 2 ^ 30 → (2 ≤ fuel)%nat →
  schedule ≡ₚ grid (cuda_blocks (Z.of_nat (length input))) →
  let req := {| BackendRequest.op_class := OperationClass.SUM; BackendRequest.data_type := dt;
                BackendRequest.input := input;
                BackendRequest.input_bytes := Z.of_nat (length input) |} in
  ∃ out trace,
    cuda_reduce_u8 fuel a schedule input = Some (out, trace) ∧ balanced [] trace = true ∧
    (out = [] ↔ input = [] ∨ checked_succeed a = false) ∧
    (out ≠ [] → ca_launch a = true →
     out = BackendResult.output (synthetic_execute req) ∧
     out = BackendResult.output (host_local_execute ns req)) ∧
    (out ≠ [] → ca_launch a = false → out = replicate 8 0).
Proof.
  intros Hi Hlen Hf Hs req. destruct (decide (input = [])) as [->|Hne].
  { exists [], []. split_and!; try done. split; [by left|done]. }
  assert (0 < Z.of_nat (length input)) by (destruct input; simpl; [done|lia]).
  destruct (cuda_reduce_sum fuel a schedule input) as [trace Hr]; [done|lia|done|done|].
  eexists _, trace. split; [exact Hr|]. split; [by eapply cuda_trace_balanced|].
  destruct (checked_succeed a).
  2: { split_and!; try done. split; [by right|done]. }
  split_and!.
  - split; [|by intros [?|?]]. intros E%(f_equal length). by rewrite le_output_length in E.
  - intros _ ->. unfold synthetic_execute, host_local_execute, req. simpl. rewrite Z.eqb_refl. simpl.
    by rewrite byte_sum_exact by (done || lia).
  - by intros _ ->.
Qed.

Lemma cuda_reduce_exact_witness :
  ∃ out trace, cuda_reduce_u8 2 cuda_fine (rev (grid 1)) [1; 2; 255] = Some (out, trace) ∧
    balanced [] trace = true ∧ out = [2; 1; 0; 0; 0; 0; 0; 0].
Proof.
  destruct (cuda_reduce_exact 2 cuda_fine (rev (grid 1)) [1; 2; 255] DataType.U8 9)
    as (out & trace & Hr & Hb & Hnil & Hok & _).
  - repeat constructor; lia.
  - vm_compute. congruence.
  - lia.
  - change (cuda_blocks (Z.of_nat (length [1; 2; 255]))) with 1. symmetry. apply Permutation_rev.
  - exists out, trace. split; [exact Hr|]. split; [exact Hb|].
    assert (Hne : out ≠ []) by (intros [E|E]%Hnil; discriminate E).
    rewrite (proj1 (Hok Hne eq_refl)). vm_compute. reflexivity.
Defined.

(** The last byte of a buffer of more than 2^30 bytes: its thread steps to a
    negative index. *)
Lemma run_thread_overflows mem n fuel bt :
  n = Z.of_nat (length mem) → 1073741824 < n <= 2147483391 → (2 ≤ fuel)%nat →
  thread_index bt = n - 1 → run_thread fuel mem n (cuda_blocks n) bt = OutOfBounds.
Proof.
  intros Hlen Hn Hf Hi. destruct (cuda_blocks_cover n) as [Hc Hp]; [lia|].
  unfold run_thread. rewrite Hi. destruct fuel as [|[|fuel]]; [lia..|]. cbn [thread_loop].
  rewrite (proj2 (Z.ltb_lt (n - 1) n)), (proj2 (Z.ltb_ge (n - 1) 0)) by lia.
  destruct (mem !! Z.to_nat (n - 1)) as [b|] eqn:Hb; [|done].
  unfold threads. rewrite (u32_small (_ * 256)), u32_small, i32_wraps by ranges.
  rewrite (proj2 (Z.ltb_lt _ n)), (proj2 (Z.ltb_lt _ 0)) by lia. done.
Qed.

Lemma last_thread_in_grid n :
  0 < n <= 2147483391 → ∃ bt, bt ∈ grid (cuda_blocks n) ∧ thread_index bt = n - 1.
Proof.
  intros Hn. destruct (cuda_blocks_cover n) as [Hc Hp]; [lia|].
  assert (Hin : Z.to_nat (n - 1) ∈ seq 0 (Z.to_nat (cuda_blocks n) * 256)) by (apply elem_of_seq; lia).
  rewrite <- grid_indices in Hin. apply list_elem_of_fmap in Hin as (bt & Hbt & Hin).
  exists bt. split; [done|]. destruct (grid_index (cuda_blocks n) bt) as [-> _]; [lia..|done|lia].
Qed.

(** Claim C23: the kernel's loops end, inside the buffer, exactly up to 2^30
    bytes.  For a buffer of up to 2^31 - 257 bytes, every thread of the launched
    grid finishes its loop after at most one element without reading outside the
    buffer if and only if the buffer has at most 2^30 bytes; beyond that the
    32-bit index of a thread wraps to a negative value and is read. *)
Theorem cuda_kernel_safe_iff fuel mem :
  is_bytes mem → 0 < Z.of_nat (length mem) <= 2147483391 → (2 ≤ fuel)%nat →
  let n := Z.of_nat (length mem) in
  Forall (fun bt => ∃ s, run_thread fuel mem n (cuda_blocks n) bt = Partial s) (grid (cuda_blocks n)) ↔
  n <= 2 ^ 30.
Proof.
  intros Hm Hn Hf n. rewrite Forall_forall. split.
  - intros H. destruct (Z.le_gt_cases n (2 ^ 30)) as [|Hgt]; [done|].
    destruct (last_thread_in_grid n) as (bt & Hin & Hi); [done|].
    apply list_elem_of_In, H in Hin as [s Hs].
    rewrite run_thread_overflows in Hs; (done || lia).
  - intros Hle bt Hin. exists (byte_at mem (bt.1 * 256 + bt.2)).
    apply run_thread_once; (done || lia || by apply list_elem_of_In).
Qed.

Lemma cuda_kernel_safe_iff_witness :
  Forall (fun bt => ∃ s, run_thread 2 [7; 9] 2 (cuda_blocks 2) bt = Partial s) (grid (cuda_blocks 2)).
Proof.
  apply (cuda_kernel_safe_iff 2 [7; 9]).
  - repeat constructor; lia.
  - simpl. lia.
  - lia.
  - simpl. lia.
Defined.

(** When the grid is started, [cuda_conventional_proof] answers whether every
    other runtime call succeeded. *)
Lemma cuda_conventional_proof_iff fuel devices a schedule :
  (2 ≤ fuel)%nat → schedule ≡ₚ grid 256 → ca_launch a = true →
  cuda_conventional_proof fuel devices a schedule =
  Some (negb (cuda_device_count devices =? 0) && checked_succeed a).
Proof.
  intros Hf Hs Hl. unfold cuda_conventional_proof.
  destruct (cuda_device_count devices =? 0); [done|]. simpl.
  assert (Hlen : length proof_data = Z.to_nat 65536) by (unfold proof_data; by rewrite length_fmap, length_seq).
  assert (Hb : is_bytes proof_data)
    by (unfold proof_data, is_bytes; apply Forall_fmap, Forall_true; intros; apply u8_range).
  revert Hlen Hb. generalize proof_data. intros data Hlen Hb.
  pose proof (sum_list_bound data Hb). rewrite byte_sum_exact by (done || lia).
  destruct (cuda_reduce_sum fuel a schedule data) as [trace ->]; try done; [lia| |].
  { rewrite Hlen. by change (cuda_blocks (Z.of_nat (Z.to_nat 65536))) with 256. }
  rewrite Hl. simpl. destruct (checked_succeed a); [|done]. rewrite le_output_length. simpl.
  by rewrite reassemble_le_output, Z.eqb_refl by ranges.
Qed.
