(* ===== verification/Discovery.v ===== *)
(** * System discovery ([system_discovery.hpp], [system_discovery.cpp])

    [discover_system] asks the operating system for processor, memory and
    adapter facts.  What the operating system answers is the argument
    [SystemAnswers]; a variable-length answer of
    [GetLogicalProcessorInformationEx] is given by what is seen at each offset of
    the filled buffer, and the loops over it take fuel. *)

From S2P Require Import Prelude.

(** ** Data *)

Module CpuInfo.
Record CpuInfo : Type := mk {
  name : string; logical_processors : Z; physical_cores : Z; numa_nodes : Z;
  l2_cache_bytes : Z; l3_cache_bytes : Z
}.
End CpuInfo.
Abbreviation CpuInfo := CpuInfo.CpuInfo.

Module MemoryInfo.
Record MemoryInfo : Type := mk { total_bytes : Z; available_bytes : Z }.
End MemoryInfo.
Abbreviation MemoryInfo := MemoryInfo.MemoryInfo.

Module GpuInfo.
Record GpuInfo : Type := mk {
  name : string; present : bool; dedicated_memory_bytes : Z; cuda_capable : bool
}.
End GpuInfo.
Abbreviation GpuInfo := GpuInfo.GpuInfo.

Module NearMemoryHardwareInfo.
Record NearMemoryHardwareInfo : Type := mk {
  physical_pim : bool; physical_cxl_adjacent_compute : bool;
  physical_memory_side_processor : bool; physical_storage_side_compute : bool;
  physical_dpu_compute : bool; synthetic_targets_available : bool
}.
End NearMemoryHardwareInfo.
Abbreviation NearMemoryHardwareInfo := NearMemoryHardwareInfo.NearMemoryHardwareInfo.

Module SystemDiscovery.
Record SystemDiscovery : Type := mk {
  cpu : CpuInfo; memory : MemoryInfo; gpus : list GpuInfo;
  near_memory : NearMemoryHardwareInfo; summary : string
}.
End SystemDiscovery.
Abbreviation SystemDiscovery := SystemDiscovery.SystemDiscovery.

(** ** What the operating system answers *)

Inductive Relationship := RelationProcessorCore | RelationCache | RelationOther.
#[global] Instance Relationship_eq_dec : EqDecision Relationship.
Proof. solve_decision. Defined.

(** What a record of the answer shows: its kind, its size, its [Cache.CacheSize]. *)
Record LogicalInfo := { li_relationship : Relationship; li_size : Z; li_cache_size : Z }.

(** One pair of calls of [GetLogicalProcessorInformationEx]: the length the
    first call asks for, and, when the second succeeds, the length it reports
    and what is seen at each offset. *)
Record LogicalAnswer := { la_length : Z; la_filled : option (Z * (Z → LogicalInfo)) }.

(** [EnumAdapters1] and, on an adapter, [GetDesc1]: the UTF-8 form of the
    description with its terminator (empty when the conversion fails) and the
    dedicated memory. *)
Inductive AdapterAnswer :=
| Adapter (desc : option (list Z * Z)) | NotFound | EnumFailed.

Record SystemAnswers := {
  sa_processors : Z;
  sa_cores : LogicalAnswer; sa_caches : LogicalAnswer;
  sa_highest_numa : option Z;
  sa_memory : option (Z * Z);
  sa_adapters : option (list AdapterAnswer)   (* [None]: no factory *)
}.

(** ** Operations *)

Definition highest_numa_node (a : SystemAnswers) : Z :=
  match sa_highest_numa a with Some highest => u32 (u32 highest + 1) | None => 1 end.

(** [for (DWORD off = 0; off < len;) { body; off += p->Size; }]; [None] when the
    fuel is used up. *)
Fixpoint walk {A} (fuel : nat) (len : Z) (view : Z → LogicalInfo) (body : LogicalInfo → A → A)
    (off : Z) (acc : A) : option A :=
  match fuel with
  | O => None
  | S fuel =>
      if off <? len
      then walk fuel len view body (u32 (off + li_size (view off))) (body (view off) acc)
      else Some acc
  end.

(** The body of [get_cache_bytes]. *)
Definition cache_step (rel : Relationship) (p : LogicalInfo) (bytes : Z) : Z :=
  if bool_decide (li_relationship p = rel) && (bytes <? li_cache_size p)
  then li_cache_size p else bytes.
Definition get_cache_bytes (fuel : nat) (rel : Relationship) (a : LogicalAnswer) : option Z :=
  if la_length a =? 0 then Some 0 else
  match la_filled a with
  | None => Some 0
  | Some (len, view) => walk fuel len view (cache_step rel) 0 0
  end.

(** The count of processor cores; 0 is the value the structure starts with. *)
Definition core_step (p : LogicalInfo) (count : Z) : Z :=
  if bool_decide (li_relationship p = RelationProcessorCore) then u32 (count + 1) else count.
Definition physical_cores (fuel : nat) (a : LogicalAnswer) : option Z :=
  if 0 <? la_length a then
    match la_filled a with
    | None => Some 0
    | Some (len, view) => walk fuel len view core_step 0 0
    end
  else Some 0.

(** [tmp.resize(tmp.find('\0'))]: without a terminator the resize throws. *)
Fixpoint up_to_nul (l : list Z) : option (list Z) :=
  match l with
  | [] => None
  | b :: l => if b =? 0 then Some [] else (b ::.) <$> up_to_nul l
  end.
Definition adapter_name (utf8 : list Z) : option string :=
  match utf8 with [] => Some "" | _ => string_of_bytes <$> up_to_nul utf8 end.

(** The enumeration of adapters; [None] when it throws or is not over yet. *)
Fixpoint enum_adapters (answers : list AdapterAnswer) (gpus : list GpuInfo) : option (list GpuInfo) :=
  match answers with
  | [] => None
  | NotFound :: _ | EnumFailed :: _ => Some gpus
  | Adapter None :: answers => enum_adapters answers gpus
  | Adapter (Some (utf8, dedicated)) :: answers =>
      let? name := adapter_name utf8 otherwise None in
      enum_adapters answers
        (gpus ++ [{| GpuInfo.name := name; GpuInfo.present := true;
                     GpuInfo.dedicated_memory_bytes := dedicated;
                     GpuInfo.cuda_capable := false |}])
  end.

(** [s.find(sub) != npos]. *)
Definition contains_text (sub s : string) : bool :=
  match String.index 0 sub s with Some _ => true | None => false end.

Definition no_near_memory : NearMemoryHardwareInfo :=
  {| NearMemoryHardwareInfo.physical_pim := false;
     NearMemoryHardwareInfo.physical_cxl_adjacent_compute := false;
     NearMemoryHardwareInfo.physical_memory_side_processor := false;
     NearMemoryHardwareInfo.physical_storage_side_compute := false;
     NearMemoryHardwareInfo.physical_dpu_compute := false;
     NearMemoryHardwareInfo.synthetic_targets_available := true |}.

Definition discovery_summary (cpu : CpuInfo) (memory : MemoryInfo) (gpus : list GpuInfo) : string :=
  "CPU=" +:+ to_string_u64 (CpuInfo.logical_processors cpu) +:+ " threads, " +:+
  to_string_u64 (CpuInfo.physical_cores cpu) +:+ " cores, " +:+
  to_string_u64 (CpuInfo.numa_nodes cpu) +:+ " NUMA node(s); memory=" +:+
  to_string_u64 (MemoryInfo.total_bytes memory / (1024 * 1024)) +:+ " MiB; gpus=" +:+
  to_string_u64 (Z.of_nat (length gpus)) +:+
  (match gpus with
   | [g] => if contains_text "RTX" (GpuInfo.name g) then "; RTX CUDA-capable GPU detected" else ""
   | _ => ""
   end) +:+
  "; physical near-memory compute hardware: UNSUPPORTED (none present)".

Definition discover_system (fuel : nat) (a : SystemAnswers) : option SystemDiscovery :=
  let? cores := physical_cores fuel (sa_cores a) otherwise None in
  let? caches := get_cache_bytes fuel RelationCache (sa_caches a) otherwise None in
  let cpu := {| CpuInfo.name := ""; CpuInfo.logical_processors := sa_processors a;
                CpuInfo.physical_cores := cores; CpuInfo.numa_nodes := highest_numa_node a;
                CpuInfo.l2_cache_bytes := caches; CpuInfo.l3_cache_bytes := 0 |} in
  let memory := match sa_memory a with
                | Some (total, avail) =>
                    {| MemoryInfo.total_bytes := total; MemoryInfo.available_bytes := avail |}
                | None => {| MemoryInfo.total_bytes := 0; MemoryInfo.available_bytes := 0 |}
                end in
  let? gpus := (match sa_adapters a with
                | Some answers => enum_adapters answers []
                | None => Some []
                end) otherwise None in
  Some {| SystemDiscovery.cpu := cpu; SystemDiscovery.memory := memory;
          SystemDiscovery.gpus := gpus; SystemDiscovery.near_memory := no_near_memory;
          SystemDiscovery.summary := discovery_summary cpu memory gpus |}.

(** ** The loops over variable-size records *)

(** The records a buffer holds from an offset up to its length, each at the end
    of the one before. *)
Fixpoint laid_out (view : Z → LogicalInfo) (off : Z) (records : list LogicalInfo) (len : Z) : Prop :=
  match records with
  | [] => off = len
  | r :: records => view off = r ∧ 0 < li_size r ∧ laid_out view (off + li_size r) records len
  end.

Lemma laid_out_le view off records len : laid_out view off records len → off <= len.
Proof.
  revert off. induction records as [|r records IH]; intros off; simpl; [lia|].
  intros (_ & Hs & Hl). apply IH in Hl. lia.
Qed.

(** On such a buffer the loop visits every record once, in order, and ends. *)
Lemma walk_visits {A} fuel len view (body : LogicalInfo → A → A) off acc records :
  laid_out view off records len → 0 <= off → len < 4294967296 → (length records < fuel)%nat →
  walk fuel len view body off acc = Some (foldl (fun acc r => body r acc) acc records).
Proof.
  revert fuel off acc. induction records as [|r records IH]; intros fuel off acc; simpl.
  - intros -> Hoff Hlen Hf. destruct fuel; [lia|]. simpl. by rewrite Z.ltb_irrefl.
  - intros (<- & Hs & Hl) Hoff Hlen Hf. pose proof (laid_out_le _ _ _ _ Hl).
    destruct fuel; [lia|]. simpl. rewrite (proj2 (Z.ltb_lt off len)) by lia.
    rewrite u32_small by ranges. apply IH; (done || lia).
Qed.

(** A record of size zero is visited for ever. *)
Lemma walk_stalls {A} fuel len view (body : LogicalInfo → A → A) off acc :
  0 <= off < len → len < 4294967296 → li_size (view off) = 0 →
  walk fuel len view body off acc = None.
Proof.
  intros Ho Hl Hz. revert acc. induction fuel as [|fuel IH]; intros acc; [done|]. simpl.
  rewrite (proj2 (Z.ltb_lt off len)), Hz, Z.add_0_r, u32_small by ranges. apply IH.
Qed.

Lemma core_count records acc :
  0 <= acc → acc + Z.of_nat (length records) < 4294967296 →
  foldl (fun acc r => core_step r acc) acc records =
  acc + Z.of_nat (length (filter (fun r => li_relationship r = RelationProcessorCore) records)).
Proof.
  revert acc. induction records as [|r records IH]; intros acc H0 Hl; simpl in *; [lia|].
  rewrite filter_cons. unfold core_step at 2. case_decide as Hr.
  - rewrite bool_decide_true by done. rewrite u32_small, IH by ranges. simpl. lia.
  - rewrite bool_decide_false by done. apply IH; lia.
Qed.

Lemma cache_max rel records acc :
  foldl (fun acc r => cache_step rel r acc) acc records =
  foldr Z.max acc (li_cache_size <$> filter (fun r => li_relationship r = rel) records).
Proof.
  revert acc. induction records as [|r records IH]; intros acc; [done|]. cbn [foldl].
  rewrite IH, filter_cons. unfold cache_step. case_decide as Hr; [|by rewrite bool_decide_false].
  rewrite bool_decide_true, fmap_cons by done. cbn [foldr andb].
  generalize (li_cache_size <$> filter (fun r => li_relationship r = rel) records) as l. intros l.
  replace (if acc <? li_cache_size r then li_cache_size r else acc)
    with (Z.max (li_cache_size r) acc) by (destruct (Z.ltb_spec acc (li_cache_size r)); lia).
  induction l as [|x l IHl]; cbn [foldr]; lia.
Qed.

Lemma up_to_nul_terminated nm rest :
  Forall (fun b => b ≠ 0) nm → up_to_nul (nm ++ 0 :: rest) = Some nm.
Proof.
  induction 1 as [|b nm Hb Hnm IH]; simpl; [done|].
  by rewrite (proj2 (Z.eqb_neq b 0)), IH.
Qed.

(** An adapter's description as the system gives it: a name, its terminator,
    whatever follows, and the dedicated memory. *)
Definition adapter_answer (d : option (list Z * list Z * Z)) : AdapterAnswer :=
  Adapter ((fun x => (x.1.1 ++ 0 :: x.1.2, x.2)) <$> d).
Definition gpu_of (x : list Z * list Z * Z) : GpuInfo :=
  {| GpuInfo.name := string_of_bytes x.1.1; GpuInfo.present := true;
     GpuInfo.dedicated_memory_bytes := x.2; GpuInfo.cuda_capable := false |}.
Definition named (d : option (list Z * list Z * Z)) : Prop :=
  match d with Some x => Forall (fun b => b ≠ 0) x.1.1 | None => True end.

Lemma enum_adapters_all descs tail gpus :
  Forall named descs →
  enum_adapters ((adapter_answer <$> descs) ++ NotFound :: tail) gpus =
  Some (gpus ++ (gpu_of <$> omap id descs)).
Proof.
  intros Hd. revert gpus. induction Hd as [|[[[nm rest] mem]|] descs Hn Hd IH]; intros gpus; simpl in *.
  - by rewrite app_nil_r.
  - assert (Ha : adapter_name (nm ++ 0 :: rest) = Some (string_of_bytes nm)).
    { pose proof (up_to_nul_terminated nm rest Hn) as Hu. unfold adapter_name.
      destruct (nm ++ 0 :: rest); [done|]. by rewrite Hu. }
    by rewrite Ha, IH, <- app_assoc.
  - apply IH.
Qed.

(** The answer describes the given records. *)
Definition describes (a : LogicalAnswer) (records : list LogicalInfo) : Prop :=
  ∃ len view, la_filled a = Some (len, view) ∧ laid_out view 0 records len ∧
    0 < la_length a ∧ len < 4294967296.

Lemma describes_count a records :
  describes a records → Z.of_nat (length records) < 4294967296.
Proof.
  intros (len & view & _ & Hl & _ & Hlen).
  assert (∀ off, laid_out view off records len → off + Z.of_nat (length records) <= len) as H.
  { clear. induction records as [|r records IH]; intros off; simpl; [lia|].
    intros (_ & Hs & Hl). apply IH in Hl. lia. }
  specialize (H _ Hl). lia.
Qed.

Lemma physical_cores_exact fuel a records :
  describes a records → (length records < fuel)%nat →
  physical_cores fuel a =
  Some (Z.of_nat (length (filter (fun r => li_relationship r = RelationProcessorCore) records))).
Proof.
  intros Hd Hf. pose proof (describes_count _ _ Hd). destruct Hd as (len & view & Hfill & Hl & Hp & Hlen).
  unfold physical_cores. rewrite (proj2 (Z.ltb_lt 0 _)), Hfill by done.
  rewrite (walk_visits _ _ _ _ _ _ _ Hl) by (done || lia). by rewrite core_count by lia.
Qed.

Lemma get_cache_bytes_exact fuel rel a records :
  describes a records → (length records < fuel)%nat →
  get_cache_bytes fuel rel a =
  Some (foldr Z.max 0 (li_cache_size <$> filter (fun r => li_relationship r = rel) records)).
Proof.
  intros (len & view & Hfill & Hl & Hp & Hlen) Hf.
  unfold get_cache_bytes. rewrite (proj2 (Z.eqb_neq _ 0)), Hfill by lia.
  rewrite (walk_visits _ _ _ _ _ _ _ Hl) by (done || lia). by rewrite cache_max.
Qed.

(** With a record of size zero at the start of an answer, discovery does not
    return, whatever the fuel. *)
Lemma discover_system_stalls fuel a len view :
  la_filled (sa_cores a) = Some (len, view) → 0 < la_length (sa_cores a) →
  0 < len < 4294967296 → li_size (view 0) = 0 → discover_system fuel a = None.
Proof.
  intros Hf Hp Hl Hz. unfold discover_system, physical_cores.
  rewrite (proj2 (Z.ltb_lt 0 _)), Hf by done. by rewrite walk_stalls by (done || lia).
Qed.

(** ** Property *)

(** Discovery ends and reports what it was told.  When the answers of
    the operating system are well laid out (every record has a positive size and
    the records fill the buffer, every adapter name is terminated, the
    enumeration ends), [discover_system] returns; the number of cores is the
    number of core records, the cache size it reports as level 2 is the largest
    cache of any level, the adapters are those described, in order, under their
    full names, and no physical near-memory hardware is ever claimed. *)
Theorem discover_system_exact fuel a cores caches descs tail :
  describes (sa_cores a) cores → describes (sa_caches a) caches →
  (length cores < fuel)%nat → (length caches < fuel)%nat →
  sa_adapters a = Some ((adapter_answer <$> descs) ++ NotFound :: tail) → Forall named descs →
  ∃ d, discover_system fuel a = Some d ∧
    CpuInfo.physical_cores (SystemDiscovery.cpu d) =
      Z.of_nat (length (filter (fun r => li_relationship r = RelationProcessorCore) cores)) ∧
    CpuInfo.l2_cache_bytes (SystemDiscovery.cpu d) =
      foldr Z.max 0 (li_cache_size <$> filter (fun r => li_relationship r = RelationCache) caches) ∧
    CpuInfo.l3_cache_bytes (SystemDiscovery.cpu d) = 0 ∧
    SystemDiscovery.gpus d = gpu_of <$> omap id descs ∧
    SystemDiscovery.near_memory d = no_near_memory.
Proof.
  intros Hc Hk Hfc Hfk Ha Hd. unfold discover_system.
  rewrite (physical_cores_exact _ _ _ Hc Hfc), (get_cache_bytes_exact _ _ _ _ Hk Hfk), Ha.
  rewrite enum_adapters_all by done. eexists. split; [reflexivity|]. done.
Qed.

(** Two cores and a cache of 8 MiB next to one of 1 MiB; one adapter. *)
Definition sample_cores : Z → LogicalInfo := fun _ =>
  {| li_relationship := RelationProcessorCore; li_size := 48; li_cache_size := 0 |}.
Definition sample_caches (off : Z) : LogicalInfo :=
  {| li_relationship := RelationCache; li_size := 56;
     li_cache_size := if off =? 0 then 1048576 else 8388608 |}.
Definition sample_system : SystemAnswers :=
  {| sa_processors := 4;
     sa_cores := {| la_length := 96; la_filled := Some (96, sample_cores) |};
     sa_caches := {| la_length := 112; la_filled := Some (112, sample_caches) |};
     sa_highest_numa := Some 0; sa_memory := Some (17179869184, 8589934592);
     sa_adapters := Some [Adapter (Some ([82; 84; 88; 0; 7], 1024)); NotFound] |}.

Lemma discover_system_exact_witness :
  ∃ d, discover_system 3 sample_system = Some d ∧
    CpuInfo.physical_cores (SystemDiscovery.cpu d) = 2 ∧
    CpuInfo.l2_cache_bytes (SystemDiscovery.cpu d) = 8388608 ∧
    GpuInfo.name <$> SystemDiscovery.gpus d = ["RTX"] ∧
    SystemDiscovery.summary d =
      "CPU=4 threads, 2 cores, 1 NUMA node(s); memory=16384 MiB; gpus=1; RTX CUDA-capable GPU" +:+
      " detected; physical near-memory compute hardware: UNSUPPORTED (none present)".
Proof.
  destruct (discover_system_exact 3 sample_system [sample_cores 0; sample_cores 48]
    [sample_caches 0; sample_caches 56] [Some ([82; 84; 88], [7], 1024)] [])
    as (d & Hd & H1 & H2 & _ & H4 & _).
  - exists 96, sample_cores. vm_compute. repeat split.
  - exists 112, sample_caches. vm_compute. repeat split.
  - simpl. lia.
  - simpl. lia.
  - reflexivity.
  - repeat constructor; lia.
  - exists d. split; [exact Hd|]. rewrite H1, H2, H4.
    split; [reflexivity|]. split; [reflexivity|]. split; [reflexivity|].
    vm_compute in Hd. injection Hd as <-. vm_compute. reflexivity.
Defined.
