(* ===== verification/State.v ===== *)
(** * The coordinator's state ([coordinator.hpp])

    [RuntimeState] with its seventeen fields, the reservation and session
    records, and one [set_*] per field the operations assign. *)

From S2P Require Import Prelude Enums Ids Model.

Module ReservationState.
Record ReservationState : Type := mk { reserved_slots : Z; reserved_workspace : Z }.
Definition dflt : ReservationState := {| reserved_slots := 0; reserved_workspace := 0 |}.
End ReservationState.
Abbreviation ReservationState := ReservationState.ReservationState.

Module WorkerSession.
Record WorkerSession : Type := mk {
  worker : WorkerId; boot : WorkerBootId; name : string; connected : bool
}.
(** [ws.connected = false]. *)
Definition disconnect (w : WorkerSession) : WorkerSession :=
  {| worker := worker w; boot := boot w; name := name w; connected := false |}.
End WorkerSession.
Abbreviation WorkerSession := WorkerSession.WorkerSession.

Module RuntimeState.
Record RuntimeState : Type := mk {
  coordinator_id : CoordinatorId;
  epoch : CoordinatorEpoch;
  memory_domains : gmap MemoryDomainId MemoryDomainDescriptor;
  datasets : gmap DatasetId DatasetDescriptor;
  regions : gmap DataRegionId DataRegionDescriptor;
  data_evidence : gmap DataRegionId DataEvidence;
  targets : gmap NearMemoryTargetId TargetDefinition;
  target_runtime : gmap NearMemoryTargetId TargetRuntime;
  capabilities : gmap NearMemoryTargetId CapabilitySet;
  operations : gmap OperationId OperationSpec;
  programs : gmap KernelOrProgramId Program;
  policies : gmap PolicyId Policy;
  plans : gmap ExecutionPlanId ExecutionPlan;
  active_plans : gmap OperationId ExecutionPlanId;
  results : gmap ResultId ExecutionResult;
  reservations : gmap NearMemoryTargetId ReservationState;
  workers : gmap WorkerId WorkerSession
}.

Definition set_coordinator_id (v : CoordinatorId) (s : RuntimeState) : RuntimeState :=
  {| coordinator_id := v; epoch := epoch s; memory_domains := memory_domains s; datasets
     := datasets s; regions := regions s; data_evidence := data_evidence s; targets :=
     targets s; target_runtime := target_runtime s; capabilities := capabilities s;
     operations := operations s; programs := programs s; policies := policies s; plans
     := plans s; active_plans := active_plans s; results := results s; reservations :=
     reservations s; workers := workers s |}.
Definition set_epoch (v : CoordinatorEpoch) (s : RuntimeState) : RuntimeState :=
  {| coordinator_id := coordinator_id s; epoch := v; memory_domains := memory_domains s;
     datasets := datasets s; regions := regions s; data_evidence := data_evidence s;
     targets := targets s; target_runtime := target_runtime s; capabilities :=
     capabilities s; operations := operations s; programs := programs s; policies :=
     policies s; plans := plans s; active_plans := active_plans s; results := results s;
     reservations := reservations s; workers := workers s |}.
Definition set_memory_domains (v : gmap MemoryDomainId MemoryDomainDescriptor) (s : RuntimeState) : RuntimeState :=
  {| coordinator_id := coordinator_id s; epoch := epoch s; memory_domains := v; datasets
     := datasets s; regions := regions s; data_evidence := data_evidence s; targets :=
     targets s; target_runtime := target_runtime s; capabilities := capabilities s;
     operations := operations s; programs := programs s; policies := policies s; plans
     := plans s; active_plans := active_plans s; results := results s; reservations :=
     reservations s; workers := workers s |}.
Definition set_datasets (v : gmap DatasetId DatasetDescriptor) (s : RuntimeState) : RuntimeState :=
  {| coordinator_id := coordinator_id s; epoch := epoch s; memory_domains :=
     memory_domains s; datasets := v; regions := regions s; data_evidence :=
     data_evidence s; targets := targets s; target_runtime := target_runtime s;
     capabilities := capabilities s; operations := operations s; programs := programs s;
     policies := policies s; plans := plans s; active_plans := active_plans s; results
     := results s; reservations := reservations s; workers := workers s |}.
Definition set_regions (v : gmap DataRegionId DataRegionDescriptor) (s : RuntimeState) : RuntimeState :=
  {| coordinator_id := coordinator_id s; epoch := epoch s; memory_domains :=
     memory_domains s; datasets := datasets s; regions := v; data_evidence :=
     data_evidence s; targets := targets s; target_runtime := target_runtime s;
     capabilities := capabilities s; operations := operations s; programs := programs s;
     policies := policies s; plans := plans s; active_plans := active_plans s; results
     := results s; reservations := reservations s; workers := workers s |}.
Definition set_data_evidence (v : gmap DataRegionId DataEvidence) (s : RuntimeState) : RuntimeState :=
  {| coordinator_id := coordinator_id s; epoch := epoch s; memory_domains :=
     memory_domains s; datasets := datasets s; regions := regions s; data_evidence := v;
     targets := targets s; target_runtime := target_runtime s; capabilities :=
     capabilities s; operations := operations s; programs := programs s; policies :=
     policies s; plans := plans s; active_plans := active_plans s; results := results s;
     reservations := reservations s; workers := workers s |}.
Definition set_targets (v : gmap NearMemoryTargetId TargetDefinition) (s : RuntimeState) : RuntimeState :=
  {| coordinator_id := coordinator_id s; epoch := epoch s; memory_domains :=
     memory_domains s; datasets := datasets s; regions := regions s; data_evidence :=
     data_evidence s; targets := v; target_runtime := target_runtime s; capabilities :=
     capabilities s; operations := operations s; programs := programs s; policies :=
     policies s; plans := plans s; active_plans := active_plans s; results := results s;
     reservations := reservations s; workers := workers s |}.
Definition set_target_runtime (v : gmap NearMemoryTargetId TargetRuntime) (s : RuntimeState) : RuntimeState :=
  {| coordinator_id := coordinator_id s; epoch := epoch s; memory_domains :=
     memory_domains s; datasets := datasets s; regions := regions s; data_evidence :=
     data_evidence s; targets := targets s; target_runtime := v; capabilities :=
     capabilities s; operations := operations s; programs := programs s; policies :=
     policies s; plans := plans s; active_plans := active_plans s; results := results s;
     reservations := reservations s; workers := workers s |}.
Definition set_capabilities (v : gmap NearMemoryTargetId CapabilitySet) (s : RuntimeState) : RuntimeState :=
  {| coordinator_id := coordinator_id s; epoch := epoch s; memory_domains :=
     memory_domains s; datasets := datasets s; regions := regions s; data_evidence :=
     data_evidence s; targets := targets s; target_runtime := target_runtime s;
     capabilities := v; operations := operations s; programs := programs s; policies :=
     policies s; plans := plans s; active_plans := active_plans s; results := results s;
     reservations := reservations s; workers := workers s |}.
Definition set_operations (v : gmap OperationId OperationSpec) (s : RuntimeState) : RuntimeState :=
  {| coordinator_id := coordinator_id s; epoch := epoch s; memory_domains :=
     memory_domains s; datasets := datasets s; regions := regions s; data_evidence :=
     data_evidence s; targets := targets s; target_runtime := target_runtime s;
     capabilities := capabilities s; operations := v; programs := programs s; policies
     := policies s; plans := plans s; active_plans := active_plans s; results := results
     s; reservations := reservations s; workers := workers s |}.
Definition set_programs (v : gmap KernelOrProgramId Program) (s : RuntimeState) : RuntimeState :=
  {| coordinator_id := coordinator_id s; epoch := epoch s; memory_domains :=
     memory_domains s; datasets := datasets s; regions := regions s; data_evidence :=
     data_evidence s; targets := targets s; target_runtime := target_runtime s;
     capabilities := capabilities s; operations := operations s; programs := v; policies
     := policies s; plans := plans s; active_plans := active_plans s; results := results
     s; reservations := reservations s; workers := workers s |}.
Definition set_policies (v : gmap PolicyId Policy) (s : RuntimeState) : RuntimeState :=
  {| coordinator_id := coordinator_id s; epoch := epoch s; memory_domains :=
     memory_domains s; datasets := datasets s; regions := regions s; data_evidence :=
     data_evidence s; targets := targets s; target_runtime := target_runtime s;
     capabilities := capabilities s; operations := operations s; programs := programs s;
     policies := v; plans := plans s; active_plans := active_plans s; results := results
     s; reservations := reservations s; workers := workers s |}.
Definition set_plans (v : gmap ExecutionPlanId ExecutionPlan) (s : RuntimeState) : RuntimeState :=
  {| coordinator_id := coordinator_id s; epoch := epoch s; memory_domains :=
     memory_domains s; datasets := datasets s; regions := regions s; data_evidence :=
     data_evidence s; targets := targets s; target_runtime := target_runtime s;
     capabilities := capabilities s; operations := operations s; programs := programs s;
     policies := policies s; plans := v; active_plans := active_plans s; results :=
     results s; reservations := reservations s; workers := workers s |}.
Definition set_active_plans (v : gmap OperationId ExecutionPlanId) (s : RuntimeState) : RuntimeState :=
  {| coordinator_id := coordinator_id s; epoch := epoch s; memory_domains :=
     memory_domains s; datasets := datasets s; regions := regions s; data_evidence :=
     data_evidence s; targets := targets s; target_runtime := target_runtime s;
     capabilities := capabilities s; operations := operations s; programs := programs s;
     policies := policies s; plans := plans s; active_plans := v; results := results s;
     reservations := reservations s; workers := workers s |}.
Definition set_results (v : gmap ResultId ExecutionResult) (s : RuntimeState) : RuntimeState :=
  {| coordinator_id := coordinator_id s; epoch := epoch s; memory_domains :=
     memory_domains s; datasets := datasets s; regions := regions s; data_evidence :=
     data_evidence s; targets := targets s; target_runtime := target_runtime s;
     capabilities := capabilities s; operations := operations s; programs := programs s;
     policies := policies s; plans := plans s; active_plans := active_plans s; results
     := v; reservations := reservations s; workers := workers s |}.
Definition set_reservations (v : gmap NearMemoryTargetId ReservationState) (s : RuntimeState) : RuntimeState :=
  {| coordinator_id := coordinator_id s; epoch := epoch s; memory_domains :=
     memory_domains s; datasets := datasets s; regions := regions s; data_evidence :=
     data_evidence s; targets := targets s; target_runtime := target_runtime s;
     capabilities := capabilities s; operations := operations s; programs := programs s;
     policies := policies s; plans := plans s; active_plans := active_plans s; results
     := results s; reservations := v; workers := workers s |}.
Definition set_workers (v : gmap WorkerId WorkerSession) (s : RuntimeState) : RuntimeState :=
  {| coordinator_id := coordinator_id s; epoch := epoch s; memory_domains :=
     memory_domains s; datasets := datasets s; regions := regions s; data_evidence :=
     data_evidence s; targets := targets s; target_runtime := target_runtime s;
     capabilities := capabilities s; operations := operations s; programs := programs s;
     policies := policies s; plans := plans s; active_plans := active_plans s; results
     := results s; reservations := reservations s; workers := v |}.
End RuntimeState.
Abbreviation RuntimeState := RuntimeState.RuntimeState.
Export RuntimeState.

