(* ===== verification/Coordinator.v ===== *)
(** * The coordinator ([coordinator.hpp], [coordinator.cpp])

    Every method takes the state and returns its [Result] and the new state,
    with the guards in the source's order.  A method runs under one lock, so a
    method is one atomic step.  [Id::make()] draws are explicit arguments.
    [map.find] is a lookup; [map\[k\]] inserts the default value when the key is
    absent ([at_or_insert]) wherever the key may be absent. *)

From S2P Require Import Prelude Enums Ids Double Checksum Model Authority.
From S2P Require Import Economics Planning Protocol State.

(** [map\[k\]]: the value, and the map after the possible insertion. *)
Definition at_or_insert {V} (d : V) (k : Z) (m : gmap Z V) : V * gmap Z V :=
  match m !! k with
  | Some v => (v, m)
  | None => (d, <[k := d]> m)
  end.

(** ** Constants and the sample payload *)

Definition kDefaultConventionalBandwidthBps : Z := 40000000000.
Definition kDefaultConventionalLatencyNs : Z := 50000.
Definition kMaxSamplePayload : Z := 16 * 1024.
Definition kMaxPersistCount : Z := 4096.
Definition kMaxPersistHistory : Z := 256.

Definition lcg_step (state : Z) : Z :=
  u64 (u64 (state * 6364136223846793005) + 1442695040888963407).
Fixpoint sample_bytes (n : nat) (state : Z) : list Z :=
  match n with
  | O => []
  | S n => let state := lcg_step state in
           Z.land (Z.shiftr state 33) 0xFF :: sample_bytes n state
  end.
Definition build_sample_payload (op : OperationSpec) : list Z :=
  let n := Z.min (OperationSpec.input_bytes op) kMaxSamplePayload in
  sample_bytes (Z.to_nat n) (Z.lxor (OperationSpec.id op) 0x9E3779B97F4A7C15).

(** ** Lifecycle tests *)

(** COMMITTED, FAILED, CANCELLED, SUPERSEDED or FENCED. *)
Definition is_settled (l : ExecutionLifecycle) : bool :=
  match l with
  | ExecutionLifecycle.COMMITTED | ExecutionLifecycle.FAILED | ExecutionLifecycle.CANCELLED
  | ExecutionLifecycle.SUPERSEDED | ExecutionLifecycle.FENCED => true
  | _ => false
  end.
(** DISPATCHED, RUNNING or VERIFYING. *)
Definition is_in_flight (l : ExecutionLifecycle) : bool :=
  match l with
  | ExecutionLifecycle.DISPATCHED | ExecutionLifecycle.RUNNING
  | ExecutionLifecycle.VERIFYING => true
  | _ => false
  end.
(** RETIRED or FAILED. *)
Definition is_terminal_target (l : TargetLifecycle) : bool :=
  match l with
  | TargetLifecycle.RETIRED | TargetLifecycle.FAILED => true
  | _ => false
  end.

(** ** Construction *)

Definition builtin_policy : Policy :=
  {| Policy.id := 1; Policy.generation := 1; Policy.name := "default";
     Policy.outcome := PolicyOutcome.UNCONSTRAINED; Policy.permitted_fallbacks := [];
     Policy.required_confidence := f64_zero; Policy.near_memory_bias := f64_zero;
     Policy.reject_on_stale := true; Policy.max_near_memory_input_bytes := 0;
     Policy.require_verification := false |}.

Definition new_coordinator (id : CoordinatorId) : RuntimeState :=
  {| coordinator_id := id; epoch := 1; memory_domains := ∅; datasets := ∅; regions := ∅;
     data_evidence := ∅; targets := ∅; target_runtime := ∅; capabilities := ∅;
     operations := ∅; programs := ∅; policies := {[ 1 := builtin_policy ]}; plans := ∅;
     active_plans := ∅; results := ∅; reservations := ∅; workers := ∅ |}.

Definition attach_coordinator (id : CoordinatorId) (s : RuntimeState)
    : Result unit * RuntimeState :=
  (Ok tt, set_coordinator_id id s).

(** ** Registration *)

Definition register_memory_domain (md : MemoryDomainDescriptor) (s : RuntimeState)
    : Result unit * RuntimeState :=
  let id := MemoryDomainDescriptor.id md in
  reject_if is_null id || is_null (MemoryDomainDescriptor.generation md)
    with (fail "E_ID_NULL" "null memory-domain identity", s) in
  reject_if bool_decide (is_Some (memory_domains s !! id))
    with (fail "E_DUP" "duplicate memory domain id", s) in
  (Ok tt, set_memory_domains (<[id := md]> (memory_domains s)) s).

Definition register_dataset (ds : DatasetDescriptor) (s : RuntimeState)
    : Result unit * RuntimeState :=
  let id := DatasetDescriptor.id ds in
  reject_if is_null id || is_null (DatasetDescriptor.generation ds)
    with (fail "E_ID_NULL" "null dataset identity", s) in
  reject_if bool_decide (is_Some (datasets s !! id))
    with (fail "E_DUP" "duplicate dataset id", s) in
  (Ok tt, set_datasets (<[id := ds]> (datasets s)) s).

Definition register_region (rg : DataRegionDescriptor) (s : RuntimeState)
    : Result unit * RuntimeState :=
  let id := DataRegionDescriptor.id rg in
  reject_if is_null id || is_null (DataRegionDescriptor.generation rg)
    with (fail "E_ID_NULL" "null region identity", s) in
  reject_if bool_decide (is_Some (regions s !! id))
    with (fail "E_DUP" "duplicate region id", s) in
  (Ok tt, set_regions (<[id := rg]> (regions s)) s).

Definition register_program (pg : Program) (s : RuntimeState) : Result unit * RuntimeState :=
  let id := Program.id pg in
  reject_if is_null id || is_null (Program.generation pg)
    with (fail "E_ID_NULL" "null program identity", s) in
  reject_if bool_decide (is_Some (programs s !! id))
    with (fail "E_DUP" "duplicate program id", s) in
  (Ok tt, set_programs (<[id := pg]> (programs s)) s).

Definition register_policy (pl : Policy) (s : RuntimeState) : Result unit * RuntimeState :=
  let id := Policy.id pl in
  reject_if is_null id || is_null (Policy.generation pl)
    with (fail "E_ID_NULL" "null policy identity", s) in
  reject_if id =? 1 with (fail "E_RESERVED" "policy id 1 is the built-in default", s) in
  reject_if bool_decide (is_Some (policies s !! id))
    with (fail "E_DUP" "duplicate policy id", s) in
  (Ok tt, set_policies (<[id := pl]> (policies s)) s).

Definition create_operation (op : OperationSpec) (s : RuntimeState)
    : Result unit * RuntimeState :=
  let id := OperationSpec.id op in
  reject_if is_null id || is_null (OperationSpec.generation op)
    with (fail "E_ID_NULL" "null operation identity", s) in
  reject_if bool_decide (is_Some (operations s !! id))
    with (fail "E_DUP" "duplicate operation id", s) in
  (Ok tt, set_operations (<[id := op]> (operations s)) s).

(** ** Publication by a worker *)

Definition bind_worker_session (w : WorkerId) (boot : WorkerBootId) (name : string)
    (s : RuntimeState) : Result unit * RuntimeState :=
  let ws := {| WorkerSession.worker := w; WorkerSession.boot := boot;
               WorkerSession.name := name; WorkerSession.connected := true |} in
  (Ok tt, set_workers (<[w := ws]> (workers s)) s).

Section RegisterTarget.
Import RegisterTargetMsg.

Definition definition_of (msg : RegisterTargetMsg) : TargetDefinition :=
  let d := TargetDefinition.dflt in
  {| TargetDefinition.id := target msg;
     TargetDefinition.generation := generation msg;
     TargetDefinition.provider := provider msg;
     TargetDefinition.kind := kind msg;
     TargetDefinition.name := name msg;
     TargetDefinition.description := TargetDefinition.description d;
     TargetDefinition.failure_domain := TargetDefinition.failure_domain d;
     TargetDefinition.memory_domains := TargetDefinition.memory_domains d;
     TargetDefinition.supported_ops := ops msg;
     TargetDefinition.supported_data_types := data_types msg;
     TargetDefinition.supported_layouts := layouts msg;
     TargetDefinition.max_input_bytes := max_input_bytes msg;
     TargetDefinition.alignment_constraint := alignment msg;
     TargetDefinition.concurrency_capacity := concurrency msg;
     TargetDefinition.queue_depth := TargetDefinition.queue_depth d;
     TargetDefinition.workspace_bytes := workspace msg;
     TargetDefinition.access_semantics := TargetDefinition.access_semantics d;
     TargetDefinition.requires_staging := TargetDefinition.requires_staging d;
     TargetDefinition.synthetic := synthetic msg;
     TargetDefinition.supports_verification := TargetDefinition.supports_verification d;
     TargetDefinition.supports_cancellation := TargetDefinition.supports_cancellation d;
     TargetDefinition.supports_drain := TargetDefinition.supports_drain d;
     TargetDefinition.authority_owner := "worker" |}.

Definition runtime_of (msg : RegisterTargetMsg) : TargetRuntime :=
  let d := TargetRuntime.dflt in
  {| TargetRuntime.lifecycle := TargetLifecycle.REGISTERED;
     TargetRuntime.id := target msg;
     TargetRuntime.owner_boot := owner_boot msg;
     TargetRuntime.evidence_id := TargetRuntime.evidence_id d;
     TargetRuntime.evidence_generation := TargetRuntime.evidence_generation d;
     TargetRuntime.reachable := false;
     TargetRuntime.concurrency_in_use := TargetRuntime.concurrency_in_use d;
     TargetRuntime.workspace_in_use := TargetRuntime.workspace_in_use d;
     TargetRuntime.current_queue_depth := TargetRuntime.current_queue_depth d;
     TargetRuntime.performance := TargetRuntime.performance d;
     TargetRuntime.dynamic_current := false;
     TargetRuntime.queued := TargetRuntime.queued d |}.

Definition apply_register_target (msg : RegisterTargetMsg) (s : RuntimeState)
    : Result unit * RuntimeState :=
  reject_if is_null (target msg) || is_null (generation msg)
    with (fail "E_ID_NULL" "null target identity", s) in
  let s := set_targets (<[target msg := definition_of msg]> (targets s)) s in
  let s := set_target_runtime (<[target msg := runtime_of msg]> (target_runtime s)) s in
  (Ok tt, s).
End RegisterTarget.

Section Capability.
Import CapabilityMsg.

(** The [i]-th entry draws its [CapabilityId] as [draw (i + 1)]; [draw 0] is
    the evidence id. *)
Definition capability_entry (draw : nat → Z) (t : NearMemoryTargetId)
    (i : nat) (e : CapabilityEntryWire) : CapabilityEntry :=
  {| CapabilityEntry.id := draw (S i); CapabilityEntry.generation := 1;
     CapabilityEntry.target := t; CapabilityEntry.key := key e;
     CapabilityEntry.state := state e; CapabilityEntry.required_for_execution := true;
     CapabilityEntry.detail := "" |}.

(** The loop over [msg.entries]: a later entry with the same key overwrites. *)
Fixpoint capability_entries (draw : nat → Z) (t : NearMemoryTargetId) (i : nat)
    (l : list CapabilityEntryWire) (m : gmap string CapabilityEntry)
    : gmap string CapabilityEntry :=
  match l with
  | [] => m
  | e :: l => capability_entries draw t (S i) l (<[key e := capability_entry draw t i e]> m)
  end.

Definition capabilities_of (draw : nat → Z) (msg : CapabilityMsg) (tdef : TargetDefinition)
    : CapabilitySet :=
  {| CapabilitySet.target := target msg;
     CapabilitySet.target_generation := TargetDefinition.generation tdef;
     CapabilitySet.generation := generation msg;
     CapabilitySet.entries := capability_entries draw (target msg) 0 (entries msg) ∅;
     CapabilitySet.evidence_id := draw 0%nat;
     CapabilitySet.evidence_generation := evidence_generation msg;
     CapabilitySet.publisher := publisher msg;
     CapabilitySet.dynamic_current := true |}.

Definition apply_capability (draw : nat → Z) (msg : CapabilityMsg) (s : RuntimeState)
    : Result unit * RuntimeState :=
  reject_if is_null (target msg) with (fail "E_ID_NULL" "null target id", s) in
  let? tdef := targets s !! target msg
    otherwise (fail "E_TARGET_UNKNOWN" "target not registered", s) in
  (Ok tt, set_capabilities (<[target msg := capabilities_of draw msg tdef]> (capabilities s)) s).
End Capability.

Section Evidence.
Import DataEvidenceMsg.

Definition evidence_of (msg : DataEvidenceMsg) : DataEvidence :=
  let d := DataEvidence.dflt in
  {| DataEvidence.region := region msg;
     DataEvidence.region_generation := region_generation msg;
     DataEvidence.dataset_generation := dataset_generation msg;
     DataEvidence.memory_domain := memory_domain msg;
     DataEvidence.memory_domain_generation := memory_domain_generation msg;
     DataEvidence.present := present msg;
     DataEvidence.current := current msg;
     DataEvidence.reachable := reachable msg;
     DataEvidence.integrity := DataEvidence.integrity d;
     DataEvidence.mutable_ := DataEvidence.mutable_ d;
     DataEvidence.dynamic_current := true;
     DataEvidence.evidence_id := DataEvidence.evidence_id d;
     DataEvidence.evidence_generation := DataEvidence.evidence_generation d;
     DataEvidence.publisher := publisher msg;
     DataEvidence.location_note := DataEvidence.location_note d |}.

Definition apply_data_evidence (msg : DataEvidenceMsg) (s : RuntimeState)
    : Result unit * RuntimeState :=
  reject_if is_null (region msg) with (fail "E_ID_NULL" "null region id", s) in
  (Ok tt, set_data_evidence (<[region msg := evidence_of msg]> (data_evidence s)) s).
End Evidence.

Section Heartbeat.
Import HeartbeatMsg.

Definition observe (msg : HeartbeatMsg) (rt : TargetRuntime) : TargetRuntime :=
  {| TargetRuntime.lifecycle := lifecycle msg;
     TargetRuntime.id := TargetRuntime.id rt;
     TargetRuntime.owner_boot := TargetRuntime.owner_boot rt;
     TargetRuntime.evidence_id := TargetRuntime.evidence_id rt;
     TargetRuntime.evidence_generation := TargetRuntime.evidence_generation rt;
     TargetRuntime.reachable := reachable msg;
     TargetRuntime.concurrency_in_use := TargetRuntime.concurrency_in_use rt;
     TargetRuntime.workspace_in_use := TargetRuntime.workspace_in_use rt;
     TargetRuntime.current_queue_depth := queue_depth msg;
     TargetRuntime.performance :=
       {| PerfEstimate.latency_ns := latency_ns msg;
          PerfEstimate.throughput_bps := throughput_bps msg;
          PerfEstimate.setup_ns := PerfEstimate.setup_ns (TargetRuntime.performance rt);
          PerfEstimate.confidence := confidence msg;
          PerfEstimate.measured := false |};
     TargetRuntime.dynamic_current := true;
     TargetRuntime.queued := TargetRuntime.queued rt |}.

Definition apply_heartbeat (msg : HeartbeatMsg) (s : RuntimeState)
    : Result unit * RuntimeState :=
  let? rt := target_runtime s !! target msg
    otherwise (fail "E_TARGET_UNKNOWN" "target runtime not found", s) in
  reject_if is_terminal_target (TargetRuntime.lifecycle rt)
    with (fail "E_TARGET_TERMINAL" "target is terminal; heartbeat ignored", s) in
  (Ok tt, set_target_runtime (<[target msg := observe msg rt]> (target_runtime s)) s).
End Heartbeat.

(** ** The active-plan index *)

(** [rebuild_active_plans_locked]: plans in ascending id order, a later plan of
    the same operation overwriting an earlier one. *)
Definition rebuild_step (m : gmap OperationId ExecutionPlanId) (e : Z * ExecutionPlan)
    : gmap OperationId ExecutionPlanId :=
  let plan := e.2 in
  if is_settled (ExecutionPlan.lifecycle plan) then m
  else <[ExecutionPlan.operation plan := ExecutionPlan.id plan]> m.
Definition rebuild_active_plans (s : RuntimeState) : RuntimeState :=
  set_active_plans (fold_left rebuild_step (map_entries (plans s)) ∅) s.

(** [advance_epoch]: the new epoch invalidates all dynamic authority and fences
    the plans that are not committed. *)
Definition epoch_lifecycle (l : ExecutionLifecycle) : ExecutionLifecycle :=
  match l with
  | ExecutionLifecycle.COMMITTED => l
  | _ => if is_in_flight l then ExecutionLifecycle.OUTCOME_UNKNOWN
         else ExecutionLifecycle.SUPERSEDED
  end.
Definition advance_epoch (s : RuntimeState) : RuntimeState :=
  let s := set_epoch (u64 (epoch s + 1)) s in
  let s := set_target_runtime
             (TargetRuntime.invalidate TargetLifecycle.REVALIDATION_REQUIRED <$> target_runtime s) s in
  let s := set_capabilities (CapabilitySet.set_stale <$> capabilities s) s in
  let s := set_data_evidence (DataEvidence.set_stale <$> data_evidence s) s in
  let s := set_plans
             ((fun p => ExecutionPlan.set_lifecycle (epoch_lifecycle (ExecutionPlan.lifecycle p)) p)
              <$> plans s) s in
  rebuild_active_plans s.

(** ** Staleness of a plan against the current state *)

(** [if (it != end && test(it->second)) reasons.push_back(...)]. *)
Definition stale_if {A} (o : option A) (test : A → bool) (dim why : string) : list StaleReason :=
  push_if (match o with Some a => test a | None => false end)
    {| dimension := dim; stale_detail := why |}.

Section Staleness.
Import AuthoritySnapshot.

Definition staleness_locked (s : RuntimeState) (plan : ExecutionPlan) : list StaleReason :=
  let snap := PlanAuthority.snapshot (ExecutionPlan.authority plan) in
  let tdef := targets s !! ExecutionPlan.target plan in
  let trt := target_runtime s !! ExecutionPlan.target plan in
  let oit := operations s !! ExecutionPlan.operation plan in
  let cit := capabilities s !! ExecutionPlan.target plan in
  let eit := data_evidence s !! ExecutionPlan.region plan in
  let dit := datasets s !! ExecutionPlan.dataset plan in
  let rit := regions s !! ExecutionPlan.region plan in
  push_if (RuntimeState.epoch s !=? epoch snap)
    {| dimension := "epoch"; stale_detail := "coordinator epoch moved" |} ++
  stale_if trt (fun rt => TargetRuntime.owner_boot rt !=? worker_boot snap)
    "worker_boot" "target owned by a different worker boot" ++
  stale_if tdef (fun d => TargetDefinition.generation d !=? target_generation snap)
    "target_generation" "target generation moved" ++
  stale_if dit (fun d => DatasetDescriptor.generation d !=? dataset_generation snap)
    "dataset_generation" "dataset generation moved" ++
  stale_if rit (fun d => DataRegionDescriptor.generation d !=? region_generation snap)
    "region_generation" "region generation moved" ++
  stale_if oit (fun o => OperationSpec.generation o !=? operation_generation snap)
    "operation_generation" "operation generation moved" ++
  stale_if cit (fun c => CapabilitySet.generation c !=? capability_generation snap)
    "capability_generation" "capability generation moved" ++
  match program_generation snap, oit ≫= OperationSpec.program with
  | Some g, Some pid =>
      stale_if (programs s !! pid) (fun p => Program.generation p !=? g)
        "program_generation" "program generation moved"
  | _, _ => []
  end ++
  match oit with
  | Some o => stale_if (policies s !! OperationSpec.policy o)
                (fun p => Policy.generation p !=? policy_generation snap)
                "policy_generation" "policy generation moved"
  | None => []
  end ++
  stale_if cit (fun c => CapabilitySet.evidence_generation c !=? evidence_generation snap)
    "evidence_generation" "evidence generation moved" ++
  stale_if trt (fun rt => negb (TargetRuntime.dynamic_current rt))
    "target_dynamic" "target dynamic evidence requires revalidation" ++
  stale_if cit (fun c => negb (CapabilitySet.dynamic_current c))
    "capability_dynamic" "capability evidence requires revalidation" ++
  stale_if eit (fun e => negb (DataEvidence.dynamic_current e))
    "data_dynamic" "data evidence requires revalidation" ++
  stale_if eit (fun e => DataEvidence.dataset_generation e !=? dataset_generation snap)
    "dataset_generation" "data current/observed generation mismatch".
End Staleness.

(** ** Planning *)

Module PlanOutput.
Record PlanOutput : Type := mk {
  plan : ExecutionPlan; decision : Decision; rejected : list EligibilityReasonDetail;
  ranked : list RankedCandidate; explanation : list string; created : bool
}.
Definition dflt : PlanOutput :=
  {| plan := ExecutionPlan.dflt; decision := Decision.REJECT; rejected := [];
     ranked := []; explanation := []; created := false |}.
(** The output fields the candidate loop appends to. *)
Definition append (rej : list EligibilityReasonDetail) (ex : list string)
    (rk : list RankedCandidate) (o : PlanOutput) : PlanOutput :=
  {| plan := plan o; decision := decision o; rejected := rejected o ++ rej;
     ranked := ranked o ++ rk; explanation := explanation o ++ ex; created := created o |}.
End PlanOutput.
Abbreviation PlanOutput := PlanOutput.PlanOutput.

(** The economics and the candidate of one eligible target. *)
Definition build_candidate (op : OperationSpec) (tid : NearMemoryTargetId)
    (tdef : TargetDefinition) (perf : PerfEstimate) : RankedCandidate :=
  let tr := {| TransferEstimate.bytes_to_move := OperationSpec.input_bytes op;
               TransferEstimate.bandwidth_bps := kDefaultConventionalBandwidthBps;
               TransferEstimate.latency_ns := kDefaultConventionalLatencyNs;
               TransferEstimate.staging_cost_ns := 0;
               TransferEstimate.serialization_cost_ns := 0;
               TransferEstimate.registration_cost_ns := 0 |} in
  let conv := {| ComputeCostEstimate.execution_ns := OperationSpec.input_bytes op;
                 ComputeCostEstimate.setup_ns := 0; ComputeCostEstimate.queue_delay_ns := 0;
                 ComputeCostEstimate.result_return_bytes := OperationSpec.output_bytes op;
                 ComputeCostEstimate.confidence := f64_zero |} in
  let near := {| ComputeCostEstimate.execution_ns := PerfEstimate.latency_ns perf;
                 ComputeCostEstimate.setup_ns := PerfEstimate.setup_ns perf;
                 ComputeCostEstimate.queue_delay_ns := PerfEstimate.latency_ns perf;
                 ComputeCostEstimate.result_return_bytes := OperationSpec.output_bytes op;
                 ComputeCostEstimate.confidence := PerfEstimate.confidence perf |} in
  let econ := choose_path tr conv near in
  {| RankedCandidate.target := tid;
     RankedCandidate.generation := TargetDefinition.generation tdef;
     RankedCandidate.decision := Economics.decision econ;
     RankedCandidate.movement_avoided_bytes := Economics.movement_avoided_bytes econ;
     RankedCandidate.total_cost_ns := near_total_ns econ;
     RankedCandidate.estimated_latency_ns :=
       u64 (u64 (ComputeCostEstimate.execution_ns near + ComputeCostEstimate.setup_ns near)
            + ComputeCostEstimate.queue_delay_ns near);
     RankedCandidate.confidence := PerfEstimate.confidence perf;
     RankedCandidate.factors := Economics.explanation econ |}.

(** What [hard_filter] is given for the target [tid]. *)
Definition filter_input (s : RuntimeState) (op : OperationSpec) (policy : Policy)
    (tdef : TargetDefinition) (rt : TargetRuntime) (caps : CapabilitySet) : HardFilterInput :=
  {| HardFilterInput.target := Some tdef; HardFilterInput.runtime := Some rt;
     HardFilterInput.op := Some op;
     HardFilterInput.data := data_evidence s !! OperationSpec.region op;
     HardFilterInput.caps := Some caps;
     HardFilterInput.program := OperationSpec.program op ≫= fun pid => programs s !! pid;
     HardFilterInput.policy := Some policy;
     HardFilterInput.current_worker_boot := Some (TargetRuntime.owner_boot rt);
     HardFilterInput.current_target_generation := Some (TargetDefinition.generation tdef) |}.

(** One iteration of the loop over [st_.targets]. *)
Definition consider (s : RuntimeState) (op : OperationSpec) (policy : Policy)
    (out : PlanOutput) (e : NearMemoryTargetId * TargetDefinition) : PlanOutput :=
  let tid := e.1 in
  let tdef := e.2 in
  let? rt := target_runtime s !! tid otherwise out in
  let? caps := capabilities s !! tid otherwise out in
  match hard_filter (filter_input s op policy tdef rt caps) with
  | r :: rs =>
      PlanOutput.append (r :: rs)
        ["target " +:+ to_string_u64 tid +:+ " rejected: " +:+ to_string (reason r)] [] out
  | [] => PlanOutput.append [] [] [build_candidate op tid tdef (TargetRuntime.performance rt)] out
  end.

(** The plan bound to the current authority of the best candidate's target. *)
Definition build_plan (fresh : ExecutionPlanId) (s : RuntimeState) (op : OperationSpec)
    (tid : NearMemoryTargetId) : ExecutionPlan :=
  let trt := default TargetRuntime.dflt (target_runtime s !! tid) in
  let tdef := default TargetDefinition.dflt (targets s !! tid) in
  let cit := default CapabilitySet.dflt (capabilities s !! tid) in
  let snap :=
    {| AuthoritySnapshot.epoch := epoch s;
       AuthoritySnapshot.worker_boot := TargetRuntime.owner_boot trt;
       AuthoritySnapshot.target := tid;
       AuthoritySnapshot.target_generation := TargetDefinition.generation tdef;
       AuthoritySnapshot.memory_domain_generation :=
         match data_evidence s !! OperationSpec.region op with
         | Some d => DataEvidence.memory_domain_generation d
         | None => 1
         end;
       AuthoritySnapshot.dataset_generation := OperationSpec.dataset_generation op;
       AuthoritySnapshot.region_generation := OperationSpec.region_generation op;
       AuthoritySnapshot.operation_generation := OperationSpec.generation op;
       AuthoritySnapshot.program_generation := OperationSpec.program_generation op;
       AuthoritySnapshot.capability_generation := CapabilitySet.generation cit;
       AuthoritySnapshot.policy_generation := OperationSpec.policy_generation op;
       AuthoritySnapshot.evidence_generation := CapabilitySet.evidence_generation cit;
       AuthoritySnapshot.plan_generation := 1 |} in
  {| ExecutionPlan.id := fresh; ExecutionPlan.generation := 1;
     ExecutionPlan.authority :=
       {| PlanAuthority.snapshot := snap; PlanAuthority.plan := fresh;
          PlanAuthority.plan_generation := 1 |};
     ExecutionPlan.target := tid;
     ExecutionPlan.target_generation := TargetDefinition.generation tdef;
     ExecutionPlan.operation := OperationSpec.id op;
     ExecutionPlan.op_class := OperationSpec.op_class op;
     ExecutionPlan.dataset := OperationSpec.dataset op;
     ExecutionPlan.dataset_generation := OperationSpec.dataset_generation op;
     ExecutionPlan.region := OperationSpec.region op;
     ExecutionPlan.region_generation := OperationSpec.region_generation op;
     ExecutionPlan.lifecycle := ExecutionLifecycle.PLANNED;
     ExecutionPlan.reserved_slots := 0; ExecutionPlan.reserved_workspace := 0;
     ExecutionPlan.dispatch_id := None; ExecutionPlan.attempt_id := None;
     ExecutionPlan.retry_class := OperationSpec.retry_class op;
     ExecutionPlan.decision := Decision.NEAR_MEMORY_SELECTED; ExecutionPlan.notes := [] |}.

(** The candidate loop followed by the ranking. *)
Definition gather (s : RuntimeState) (op : OperationSpec) (policy : Policy) : PlanOutput :=
  let out := fold_left (consider s op policy) (map_entries (targets s)) PlanOutput.dflt in
  {| PlanOutput.plan := PlanOutput.plan out; PlanOutput.decision := PlanOutput.decision out;
     PlanOutput.rejected := PlanOutput.rejected out;
     PlanOutput.ranked := rank_candidates (PlanOutput.ranked out);
     PlanOutput.explanation := PlanOutput.explanation out;
     PlanOutput.created := PlanOutput.created out |}.

(** [out] with a decision and one more line of explanation, and the plan when
    one was created. *)
Definition conclude (out : PlanOutput) (plan : option ExecutionPlan) (d : Decision)
    (line : string) : PlanOutput :=
  {| PlanOutput.plan := default (PlanOutput.plan out) plan; PlanOutput.decision := d;
     PlanOutput.rejected := PlanOutput.rejected out;
     PlanOutput.ranked := PlanOutput.ranked out;
     PlanOutput.explanation := PlanOutput.explanation out ++ [line];
     PlanOutput.created := bool_decide (is_Some plan) |}.

Definition plan_locked (fresh : ExecutionPlanId) (op_id : OperationId) (s : RuntimeState)
    : Result PlanOutput * RuntimeState :=
  let? op := operations s !! op_id
    otherwise (fail "E_PLAN_OP" "operation not registered", s) in
  let? policy := policies s !! OperationSpec.policy op
    otherwise (fail "E_PLAN_POLICY" "operation references a missing policy", s) in
  reject_if bool_decide (is_Some (active_plans s !! OperationSpec.id op))
    with (fail "E_PLAN_ACTIVE" "an active plan already exists for this operation", s) in
  let out := gather s op policy in
  match PlanOutput.ranked out with
  | [] =>
      let d := if bool_decide (Policy.outcome policy = PolicyOutcome.NEAR_MEMORY_REQUIRED)
               then Decision.REJECT else Decision.MOVEMENT_REQUIRED in
      (Ok (conclude out None d ("no eligible near-memory target; " +:+ to_string d)), s)
  | best :: _ =>
      if bool_decide (RankedCandidate.decision best = Decision.NEAR_MEMORY_SELECTED) then
        let tid := RankedCandidate.target best in
        let plan := build_plan fresh s op tid in
        let tdef := default TargetDefinition.dflt (targets s !! tid) in
        let s := set_plans (<[fresh := plan]> (plans s)) s in
        let s := set_active_plans (<[OperationSpec.id op := fresh]> (active_plans s)) s in
        (Ok (conclude out (Some plan) Decision.NEAR_MEMORY_SELECTED
               ("selected target " +:+ to_string_u64 tid +:+ " (" +:+
                TargetDefinition.name tdef +:+ ")")), s)
      else
        let d := RankedCandidate.decision best in
        (Ok (conclude out None d
               ("best eligible candidate still not economically justified; " +:+ to_string d)), s)
  end.

(** ** Reservation *)

(** A target in one of these states admits no new reservation. *)
Definition admission_closed (l : TargetLifecycle) : bool :=
  match l with
  | TargetLifecycle.DRAINING | TargetLifecycle.DEGRADED
  | TargetLifecycle.REVALIDATION_REQUIRED => true
  | _ => false
  end.

Definition reserve (plan_id : ExecutionPlanId) (s : RuntimeState)
    : Result unit * RuntimeState :=
  let? plan := plans s !! plan_id
    otherwise (fail "E_PLAN_NOT_FOUND" "plan not found", s) in
  reject_if negb (bool_decide (ExecutionPlan.lifecycle plan = ExecutionLifecycle.PLANNED))
    with (fail "E_PLAN_STATE" "plan not in PLANNED state for reservation", s) in
  let t := ExecutionPlan.target plan in
  let? trt := target_runtime s !! t
    otherwise (fail "E_TARGET_UNKNOWN" "target runtime missing", s) in
  let (tdef, ts) := at_or_insert TargetDefinition.dflt t (targets s) in
  let s := set_targets ts s in
  let (rs, rss) := at_or_insert ReservationState.dflt t (reservations s) in
  let s := set_reservations rss s in
  let slots := ReservationState.reserved_slots rs in
  let ws := ReservationState.reserved_workspace rs in
  let budget := TargetDefinition.workspace_bytes tdef in
  reject_if TargetDefinition.concurrency_capacity tdef <=? slots
    with (fail "E_CONCURRENCY" "target concurrency capacity exhausted", s) in
  reject_if budget <? ws with (fail "E_WORKSPACE" "target workspace exhausted", s) in
  reject_if admission_closed (TargetRuntime.lifecycle trt)
    with (fail "E_DRAIN" "target not accepting new admission", s) in
  let op_ws := match operations s !! ExecutionPlan.operation plan with
               | Some op => OperationSpec.workspace_bytes op
               | None => 0
               end in
  reject_if budget <? u64 (ws + op_ws)
    with (fail "E_WORKSPACE" "target workspace budget exceeded", s) in
  let rs := {| ReservationState.reserved_slots := u64 (slots + 1);
               ReservationState.reserved_workspace := u64 (ws + op_ws) |} in
  let s := set_reservations (<[t := rs]> (reservations s)) s in
  let plan := ExecutionPlan.set_reserved 1 op_ws ExecutionLifecycle.RESERVED plan in
  (Ok tt, set_plans (<[plan_id := plan]> (plans s)) s).

(** The release at the end of [apply_result] and in [cancel_plan]. *)
Definition release_reservation (plan : ExecutionPlan) (s : RuntimeState) : RuntimeState :=
  let t := ExecutionPlan.target plan in
  let? rs := reservations s !! t otherwise s in
  let slots := ReservationState.reserved_slots rs in
  let ws := ReservationState.reserved_workspace rs in
  let held := ExecutionPlan.reserved_workspace plan in
  let rs := {| ReservationState.reserved_slots := if 0 <? slots then slots - 1 else slots;
               ReservationState.reserved_workspace := if held <=? ws then ws - held else ws |} in
  set_reservations (<[t := rs]> (reservations s)) s.

(** ** Dispatch *)

Module DispatchOutput.
Record DispatchOutput : Type := mk {
  ready : bool; message : DispatchMsg; worker : WorkerId
}.
End DispatchOutput.
Abbreviation DispatchOutput := DispatchOutput.DispatchOutput.

(** The first session, in worker-id order, bound to [boot]. *)
Fixpoint find_session (boot : WorkerBootId) (l : list (WorkerId * WorkerSession))
    : option WorkerId :=
  match l with
  | [] => None
  | (wid, ws) :: l => if WorkerSession.boot ws =? boot then Some wid else find_session boot l
  end.

Definition dispatch_message (s : RuntimeState) (plan : ExecutionPlan) (op : OperationSpec)
    (boot : WorkerBootId) (dispatch_id : DispatchId) (attempt_id : AttemptId) : DispatchMsg :=
  let rc := OperationSpec.retry_class op in
  let ir := OperationSpec.integrity op in
  {| DispatchMsg.plan := ExecutionPlan.id plan;
     DispatchMsg.plan_gen := ExecutionPlan.generation plan;
     DispatchMsg.dispatch := dispatch_id;
     DispatchMsg.attempt := attempt_id;
     DispatchMsg.target := ExecutionPlan.target plan;
     DispatchMsg.target_gen := ExecutionPlan.target_generation plan;
     DispatchMsg.worker_boot := boot;
     DispatchMsg.epoch := epoch s;
     DispatchMsg.dataset_gen := ExecutionPlan.dataset_generation plan;
     DispatchMsg.region_gen := ExecutionPlan.region_generation plan;
     DispatchMsg.operation_gen := OperationSpec.generation op;
     DispatchMsg.has_program := bool_decide (is_Some (OperationSpec.program op));
     DispatchMsg.program_gen :=
       match OperationSpec.program op with
       | Some _ => default 1 (OperationSpec.program_generation op)
       | None => 0
       end;
     DispatchMsg.op_class := OperationSpec.op_class op;
     DispatchMsg.data_type := DataShape.data_type (OperationSpec.shape op);
     DispatchMsg.retry_class := rc;
     DispatchMsg.idempotent :=
       bool_decide (rc = RetryClass.IDEMPOTENT) || bool_decide (rc = RetryClass.REPLAY_SAFE);
     DispatchMsg.require_verification :=
       bool_decide (ir = IntegrityRequirement.CHECKED) ||
       bool_decide (ir = IntegrityRequirement.STRICT);
     DispatchMsg.payload := build_sample_payload op |}.

Definition prepare_dispatch (plan_id : ExecutionPlanId) (dispatch_id : DispatchId)
    (attempt_id : AttemptId) (s : RuntimeState) : Result DispatchOutput * RuntimeState :=
  let? plan := plans s !! plan_id
    otherwise (fail "E_PLAN_NOT_FOUND" "plan not found", s) in
  reject_if negb (bool_decide (ExecutionPlan.lifecycle plan = ExecutionLifecycle.RESERVED))
    with (fail "E_PLAN_STATE" "plan must be RESERVED before dispatch", s) in
  match staleness_locked s plan with
  | (_ :: _) as stale =>
      let plan := ExecutionPlan.set_lifecycle ExecutionLifecycle.SUPERSEDED plan in
      (fail "E_STALE_PLAN" ("plan stale before dispatch: " +:+ join_dimensions stale),
       set_plans (<[plan_id := plan]> (plans s)) s)
  | [] =>
      let? op := operations s !! ExecutionPlan.operation plan
        otherwise (fail "E_PLAN_OP" "operation missing at dispatch", s) in
      let? trt := target_runtime s !! ExecutionPlan.target plan
        otherwise (fail "E_TARGET_UNKNOWN" "target runtime missing", s) in
      let boot := TargetRuntime.owner_boot trt in
      let? worker := find_session boot (map_entries (workers s))
        otherwise (fail "E_WORKER_UNKNOWN" "no worker session bound to target boot", s) in
      let out := {| DispatchOutput.ready := true;
                    DispatchOutput.message :=
                      dispatch_message s plan op boot dispatch_id attempt_id;
                    DispatchOutput.worker := worker |} in
      let plan := ExecutionPlan.set_dispatch dispatch_id attempt_id plan in
      (Ok out, set_plans (<[plan_id := plan]> (plans s)) s)
  end.

(** [!o.has_value() || o.value() != v]. *)
Definition differs (o : option Z) (v : Z) : bool :=
  match o with Some x => x !=? v | None => true end.

Definition confirm_dispatched (plan_id : ExecutionPlanId) (dispatch_id : DispatchId)
    (s : RuntimeState) : Result unit * RuntimeState :=
  let? plan := plans s !! plan_id
    otherwise (fail "E_PLAN_NOT_FOUND" "plan not found", s) in
  reject_if differs (ExecutionPlan.dispatch_id plan) dispatch_id
    with (fail "E_DISPATCH_MISMATCH" "dispatch id mismatch", s) in
  reject_if negb (bool_decide (ExecutionPlan.lifecycle plan = ExecutionLifecycle.RESERVED))
    with (fail "E_PLAN_STATE" "plan not in RESERVED state", s) in
  let plan := ExecutionPlan.set_lifecycle ExecutionLifecycle.DISPATCHED plan in
  (Ok tt, set_plans (<[plan_id := plan]> (plans s)) s).

(** ** Completion *)

Section Completion.
Import ResultMsg.

Definition completion_of (msg : ResultMsg) : CompletionAuthority :=
  {| CompletionAuthority.plan := plan msg;
     CompletionAuthority.plan_generation := plan_gen msg;
     CompletionAuthority.dispatch := dispatch msg;
     CompletionAuthority.attempt := attempt msg;
     CompletionAuthority.target := target msg;
     CompletionAuthority.target_generation := target_gen msg;
     CompletionAuthority.worker_boot := worker_boot msg;
     CompletionAuthority.epoch := epoch msg;
     CompletionAuthority.dataset_generation := dataset_gen msg;
     CompletionAuthority.region_generation := region_gen msg;
     CompletionAuthority.result_generation := result_gen msg;
     CompletionAuthority.operation_generation := operation_gen msg |}.

(** The result record, with the three outcome-dependent fields and the digest
    given. *)
Definition result_of_msg (fresh : ResultId) (msg : ResultMsg) (v : VerifyState)
    (digest : string) (committed ambiguous : bool) : ExecutionResult :=
  {| ExecutionResult.id := fresh;
     ExecutionResult.generation := result_gen msg;
     ExecutionResult.plan := plan msg;
     ExecutionResult.plan_generation := plan_gen msg;
     ExecutionResult.dispatch := dispatch msg;
     ExecutionResult.attempt := attempt msg;
     ExecutionResult.target := target msg;
     ExecutionResult.target_generation := target_gen msg;
     ExecutionResult.worker_boot := worker_boot msg;
     ExecutionResult.epoch := epoch msg;
     ExecutionResult.dataset_generation := dataset_gen msg;
     ExecutionResult.region_generation := region_gen msg;
     ExecutionResult.operation_generation := operation_gen msg;
     ExecutionResult.verification := v;
     ExecutionResult.output_digest := digest;
     ExecutionResult.output_bytes := Z.of_nat (length (output msg));
     ExecutionResult.committed := committed;
     ExecutionResult.ambiguous := ambiguous;
     ExecutionResult.note := note msg |}.

(** The mutation common to the three outcomes: the plan's lifecycle, the
    active-plan index and the stored result. *)
Definition record_outcome (p : ExecutionPlan) (l : ExecutionLifecycle) (res : ExecutionResult)
    (s : RuntimeState) : RuntimeState :=
  let s := set_plans (<[ExecutionResult.plan res := ExecutionPlan.set_lifecycle l p]> (plans s)) s in
  let s := set_active_plans (delete (ExecutionPlan.operation p) (active_plans s)) s in
  set_results (<[ExecutionResult.id res := res]> (results s)) s.

(** [to_hex(content_digest(output)) == output_digest]. *)
Definition intact (msg : ResultMsg) : bool :=
  String.eqb (to_hex (content_digest (output msg))) (output_digest msg).

(** The tail of [apply_result], once every check of authority has passed. *)
Definition settle_completion (fresh : ResultId) (msg : ResultMsg) (p : ExecutionPlan)
    (s : RuntimeState) : Result ExecutionResult * RuntimeState :=
  if unknown msg then
    let res := result_of_msg fresh msg VerifyState.UNKNOWN "" false true in
    (Ok res, record_outcome p ExecutionLifecycle.OUTCOME_UNKNOWN res s)
  else if negb (intact msg) then
    let res := result_of_msg fresh msg VerifyState.MISMATCH (output_digest msg) false false in
    (Ok res, record_outcome p ExecutionLifecycle.FAILED res s)
  else
    let res := result_of_msg fresh msg VerifyState.VERIFIED (output_digest msg) true false in
    (Ok res, release_reservation p (record_outcome p ExecutionLifecycle.COMMITTED res s)).

Definition apply_result (fresh : ResultId) (msg : ResultMsg) (s : RuntimeState)
    : Result ExecutionResult * RuntimeState :=
  let? p := plans s !! plan msg
    otherwise (fail "E_RESULT_PLAN" "result references unknown plan", s) in
  let l := ExecutionPlan.lifecycle p in
  reject_if bool_decide (l = ExecutionLifecycle.COMMITTED)
    with (fail "E_RESULT_DUP" "plan already committed (duplicate completion)", s) in
  reject_if bool_decide (l = ExecutionLifecycle.CANCELLED) ||
            bool_decide (l = ExecutionLifecycle.FENCED) ||
            bool_decide (l = ExecutionLifecycle.SUPERSEDED)
    with (fail "E_RESULT_STALE" "completion after cancellation/supersession", s) in
  reject_if negb (is_in_flight l)
    with (fail "E_RESULT_STATE" "completion in unexpected plan state", s) in
  reject_if epoch msg !=? RuntimeState.epoch s
    with (fail "E_RESULT_STALE" "completion carries a stale coordinator epoch", s) in
  reject_if match targets s !! target msg with
            | Some d => TargetDefinition.generation d !=? target_gen msg | None => false end
    with (fail "E_RESULT_STALE" "completion carries a stale target generation", s) in
  reject_if match target_runtime s !! target msg with
            | Some rt => TargetRuntime.owner_boot rt !=? worker_boot msg | None => false end
    with (fail "E_RESULT_STALE" "completion carries a stale worker boot", s) in
  match validate_completion_against_plan (completion_of msg) (ExecutionPlan.authority p) with
  | (_ :: _) as stale =>
      (fail "E_RESULT_STALE" ("stale completion authority: " +:+ join_dimensions stale), s)
  | [] =>
      reject_if differs (ExecutionPlan.dispatch_id p) (dispatch msg)
        with (fail "E_DISPATCH_MISMATCH" "dispatch id mismatch", s) in
      reject_if differs (ExecutionPlan.attempt_id p) (attempt msg)
        with (fail "E_ATTEMPT_MISMATCH" "attempt id mismatch", s) in
      settle_completion fresh msg p s
  end.
End Completion.

(** ** Lifecycle and failure handling *)

Definition begin_drain (t : NearMemoryTargetId) (s : RuntimeState)
    : Result unit * RuntimeState :=
  let? trt := target_runtime s !! t
    otherwise (fail "E_TARGET_UNKNOWN" "target runtime not found", s) in
  reject_if is_terminal_target (TargetRuntime.lifecycle trt)
    with (fail "E_TARGET_STATE" "target is terminal", s) in
  let trt := TargetRuntime.set_lifecycle TargetLifecycle.DRAINING trt in
  (Ok tt, set_target_runtime (<[t := trt]> (target_runtime s)) s).

Definition cancel_plan (plan_id : ExecutionPlanId) (s : RuntimeState)
    : Result unit * RuntimeState :=
  let? plan := plans s !! plan_id
    otherwise (fail "E_PLAN_NOT_FOUND" "plan not found", s) in
  reject_if is_settled (ExecutionPlan.lifecycle plan)
    with (fail "E_PLAN_STATE" "plan is terminal; cannot cancel", s) in
  let s := release_reservation plan s in
  let plan' := ExecutionPlan.set_lifecycle ExecutionLifecycle.CANCELLED plan in
  let s := set_plans (<[plan_id := plan']> (plans s)) s in
  (Ok tt, set_active_plans (delete (ExecutionPlan.operation plan) (active_plans s)) s).

(** The plan loop of [fence_worker]: an unsettled plan of the worker becomes
    OUTCOME_UNKNOWN when in flight and FENCED otherwise. *)
Definition fence_plan (boot : WorkerBootId) (p : ExecutionPlan) : ExecutionPlan :=
  let l := ExecutionPlan.lifecycle p in
  if (AuthoritySnapshot.worker_boot (PlanAuthority.snapshot (ExecutionPlan.authority p)) =? boot)
     && negb (is_settled l)
  then ExecutionPlan.set_lifecycle
         (if is_in_flight l then ExecutionLifecycle.OUTCOME_UNKNOWN
          else ExecutionLifecycle.FENCED) p
  else p.

(** The invalidation loops shared by [fence_worker] and
    [on_worker_disconnected]. *)
Definition invalidate_boot (boot : WorkerBootId) (s : RuntimeState) : RuntimeState :=
  let s := set_target_runtime
             ((fun rt => if TargetRuntime.owner_boot rt =? boot
                         then TargetRuntime.invalidate TargetLifecycle.REVALIDATION_REQUIRED rt
                         else rt) <$> target_runtime s) s in
  let s := set_capabilities
             ((fun cs => if CapabilitySet.publisher cs =? boot
                         then CapabilitySet.set_stale cs else cs) <$> capabilities s) s in
  let s := set_data_evidence
             ((fun ev => if DataEvidence.publisher ev =? boot
                         then DataEvidence.set_stale ev else ev) <$> data_evidence s) s in
  let s := set_plans (fence_plan boot <$> plans s) s in
  rebuild_active_plans s.

Definition fence_worker (boot : WorkerBootId) (s : RuntimeState) : Result unit * RuntimeState :=
  (Ok tt, invalidate_boot boot s).

Definition on_worker_disconnected (boot : WorkerBootId) (s : RuntimeState)
    : Result unit * RuntimeState :=
  let s := set_workers
             ((fun ws => if WorkerSession.boot ws =? boot
                         then WorkerSession.disconnect ws else ws) <$> workers s) s in
  (Ok tt, invalidate_boot boot s).

(** The plan loop of [retire_target]. *)
Definition retire_plan (t : NearMemoryTargetId) (p : ExecutionPlan) : ExecutionPlan :=
  if (ExecutionPlan.target p =? t) && negb (is_settled (ExecutionPlan.lifecycle p))
  then ExecutionPlan.set_lifecycle ExecutionLifecycle.FENCED p else p.

Definition retire_target (t : NearMemoryTargetId) (s : RuntimeState)
    : Result unit * RuntimeState :=
  let? trt := target_runtime s !! t
    otherwise (fail "E_TARGET_UNKNOWN" "target runtime not found", s) in
  let trt := TargetRuntime.invalidate TargetLifecycle.RETIRED trt in
  let s := set_target_runtime (<[t := trt]> (target_runtime s)) s in
  let s := set_plans (retire_plan t <$> plans s) s in
  (Ok tt, rebuild_active_plans s).

(** ** Queries *)

Definition has_target (t : NearMemoryTargetId) (s : RuntimeState) : bool :=
  bool_decide (is_Some (targets s !! t)).
Definition has_operation (o : OperationId) (s : RuntimeState) : bool :=
  bool_decide (is_Some (operations s !! o)).
Definition has_plan (p : ExecutionPlanId) (s : RuntimeState) : bool :=
  bool_decide (is_Some (plans s !! p)).
(** The first result of the plan, in result-id order. *)
Definition find_result (p : ExecutionPlanId) (s : RuntimeState) : option ExecutionResult :=
  snd <$> List.find (fun e => ExecutionResult.plan e.2 =? p) (map_entries (results s)).
Definition has_result (p : ExecutionPlanId) (s : RuntimeState) : bool :=
  bool_decide (is_Some (find_result p s)).
Definition result_of (p : ExecutionPlanId) (s : RuntimeState) : ExecutionResult :=
  default ExecutionResult.dflt (find_result p s).
Definition lifecycle_of (p : ExecutionPlanId) (s : RuntimeState) : ExecutionLifecycle :=
  match plans s !! p with
  | None => ExecutionLifecycle.PLANNED
  | Some plan => ExecutionPlan.lifecycle plan
  end.
Definition target_generation (t : NearMemoryTargetId) (s : RuntimeState)
    : NearMemoryTargetGeneration :=
  match targets s !! t with
  | None => 0
  | Some d => TargetDefinition.generation d
  end.

Definition newline : string := String (Ascii.ascii_of_nat 10) EmptyString.

(** One target line of [inspect_text]. *)
Definition inspect_target (s : RuntimeState) (e : NearMemoryTargetId * TargetDefinition)
    : string :=
  let def := e.2 in
  let rt := default TargetRuntime.dflt (target_runtime s !! e.1) in
  let cls := if TargetDefinition.synthetic def then "SYNTHETIC"
             else if TargetRuntime.dynamic_current rt && TargetRuntime.reachable rt then "REAL"
             else if bool_decide (TargetDefinition.kind def = TargetKind.HOST_CPU_LOCAL)
             then "REAL" else "UNKNOWN" in
  "  target " +:+ to_string_u64 e.1 +:+ " gen=" +:+
  to_string_u64 (TargetDefinition.generation def) +:+ " kind=" +:+
  to_string (TargetDefinition.kind def) +:+ " provider=" +:+
  to_string (TargetDefinition.provider def) +:+ " class=" +:+ cls +:+ " lifecycle=" +:+
  to_string (TargetRuntime.lifecycle rt) +:+ " reachable=" +:+
  (if TargetRuntime.reachable rt then "yes" else "no") +:+ newline.

Definition map_size {V} (m : gmap Z V) : string := to_string_u64 (Z.of_nat (size m)).

Definition inspect_text (s : RuntimeState) : string :=
  "coordinator=" +:+ to_string_u64 (coordinator_id s) +:+ " epoch=" +:+
  to_string_u64 (epoch s) +:+ newline +:+
  "memory_domains=" +:+ map_size (memory_domains s) +:+
  " datasets=" +:+ map_size (datasets s) +:+ " regions=" +:+ map_size (regions s) +:+
  " targets=" +:+ map_size (targets s) +:+ " operations=" +:+ map_size (operations s) +:+
  " plans=" +:+ map_size (plans s) +:+ " results=" +:+ map_size (results s) +:+ newline +:+
  foldr (fun e rest => inspect_target s e +:+ rest) "" (map_entries (targets s)).
