(* ===== verification/Behaviour.v ===== *)
(** * What the planning, dispatch and completion methods do

    For [staleness_locked], [reserve], [prepare_dispatch] and [apply_result]:
    the exact condition under which the method succeeds, as a record of facts
    about the state, and what it does then.  The state machine, the invariants
    and the end-to-end results use these characterisations instead of the
    method bodies. *)

From S2P Require Import Prelude Enums Ids Checksum Model Authority Planning Protocol State.
From S2P Require Import Coordinator.

Abbreviation snapshot_of p := (PlanAuthority.snapshot (ExecutionPlan.authority p)).

(** ** Staleness *)

(** The facts [staleness_locked] checks: everything the state knows agrees
    with the plan's pinned snapshot, and its dynamic evidence is current. *)
Record plan_current (s : RuntimeState) (p : ExecutionPlan) : Prop := {
  pc_epoch : epoch s = AuthoritySnapshot.epoch (snapshot_of p);
  pc_runtime rt : target_runtime s !! ExecutionPlan.target p = Some rt →
    TargetRuntime.owner_boot rt = AuthoritySnapshot.worker_boot (snapshot_of p) ∧
    TargetRuntime.dynamic_current rt = true;
  pc_target d : targets s !! ExecutionPlan.target p = Some d →
    TargetDefinition.generation d = AuthoritySnapshot.target_generation (snapshot_of p);
  pc_dataset d : datasets s !! ExecutionPlan.dataset p = Some d →
    DatasetDescriptor.generation d = AuthoritySnapshot.dataset_generation (snapshot_of p);
  pc_region r : regions s !! ExecutionPlan.region p = Some r →
    DataRegionDescriptor.generation r = AuthoritySnapshot.region_generation (snapshot_of p);
  pc_operation o : operations s !! ExecutionPlan.operation p = Some o →
    OperationSpec.generation o = AuthoritySnapshot.operation_generation (snapshot_of p);
  pc_capability c : capabilities s !! ExecutionPlan.target p = Some c →
    CapabilitySet.generation c = AuthoritySnapshot.capability_generation (snapshot_of p) ∧
    CapabilitySet.evidence_generation c = AuthoritySnapshot.evidence_generation (snapshot_of p) ∧
    CapabilitySet.dynamic_current c = true;
  pc_program g o pid pg :
    AuthoritySnapshot.program_generation (snapshot_of p) = Some g →
    operations s !! ExecutionPlan.operation p = Some o →
    OperationSpec.program o = Some pid → programs s !! pid = Some pg →
    Program.generation pg = g;
  pc_policy o pl : operations s !! ExecutionPlan.operation p = Some o →
    policies s !! OperationSpec.policy o = Some pl →
    Policy.generation pl = AuthoritySnapshot.policy_generation (snapshot_of p);
  pc_evidence e : data_evidence s !! ExecutionPlan.region p = Some e →
    DataEvidence.dynamic_current e = true ∧
    DataEvidence.dataset_generation e = AuthoritySnapshot.dataset_generation (snapshot_of p)
}.

Lemma stale_if_nil {A} (o : option A) test dim why :
  stale_if o test dim why = [] ↔ ∀ a, o = Some a → test a = false.
Proof. unfold stale_if. by rewrite push_if_nil, option_test_false. Qed.

Lemma stale_program_nil s (g : option Z) (o : option OperationSpec) dim why :
  match g, o ≫= OperationSpec.program with
  | Some g, Some pid => stale_if (programs s !! pid) (fun p => Program.generation p !=? g) dim why
  | _, _ => []
  end = [] ↔
  ∀ g' o' pid pg, g = Some g' → o = Some o' → OperationSpec.program o' = Some pid →
    programs s !! pid = Some pg → Program.generation pg = g'.
Proof.
  destruct g as [g|], o as [o|]; simpl; try naive_solver.
  destruct (OperationSpec.program o) as [pid|] eqn:Hpid; simpl; [|naive_solver].
  rewrite stale_if_nil. setoid_rewrite neqb_false. naive_solver.
Qed.

Lemma stale_policy_nil s (o : option OperationSpec) g dim why :
  match o with
  | Some o => stale_if (policies s !! OperationSpec.policy o)
                (fun p => Policy.generation p !=? g) dim why
  | None => []
  end = [] ↔
  ∀ o' pl, o = Some o' → policies s !! OperationSpec.policy o' = Some pl →
    Policy.generation pl = g.
Proof.
  destruct o as [o|]; [|naive_solver].
  rewrite stale_if_nil. setoid_rewrite neqb_false. naive_solver.
Qed.

Lemma staleness_nil s p : staleness_locked s p = [] ↔ plan_current s p.
Proof.
  unfold staleness_locked. cbv zeta.
  rewrite !app_nil_iff, push_if_nil, stale_program_nil, stale_policy_nil, !stale_if_nil.
  setoid_rewrite neqb_false. setoid_rewrite negb_false_iff.
  split; [intros; destruct_and!; constructor; naive_solver|].
  intros []. split_and!; naive_solver.
Qed.

(** ** Completion *)

(** The facts [apply_result] checks before it changes anything. *)
Record accepts (s : RuntimeState) (msg : ResultMsg) (p : ExecutionPlan) : Prop := {
  ac_plan : plans s !! ResultMsg.plan msg = Some p;
  ac_flight : is_in_flight (ExecutionPlan.lifecycle p) = true;
  ac_epoch : ResultMsg.epoch msg = epoch s;
  ac_target d : targets s !! ResultMsg.target msg = Some d →
    TargetDefinition.generation d = ResultMsg.target_gen msg;
  ac_boot rt : target_runtime s !! ResultMsg.target msg = Some rt →
    TargetRuntime.owner_boot rt = ResultMsg.worker_boot msg;
  ac_authority : completion_matches (completion_of msg) (ExecutionPlan.authority p);
  ac_dispatch : ExecutionPlan.dispatch_id p = Some (ResultMsg.dispatch msg);
  ac_attempt : ExecutionPlan.attempt_id p = Some (ResultMsg.attempt msg)
}.

Lemma differs_false o v : differs o v = false ↔ o = Some v.
Proof. destruct o; simpl; [rewrite neqb_false|]; naive_solver. Qed.

Lemma in_flight_not_closed l :
  is_in_flight l = true →
  bool_decide (l = ExecutionLifecycle.COMMITTED) = false ∧
  bool_decide (l = ExecutionLifecycle.CANCELLED) || bool_decide (l = ExecutionLifecycle.FENCED)
    || bool_decide (l = ExecutionLifecycle.SUPERSEDED) = false.
Proof. by destruct l. Qed.

Lemma apply_result_accepted fresh msg s p :
  accepts s msg p → apply_result fresh msg s = settle_completion fresh msg p s.
Proof.
  intros [Hp Hfl He Ht Hb Ha Hd Hat]. unfold apply_result. rewrite Hp.
  destruct (in_flight_not_closed _ Hfl) as [-> ->]. rewrite Hfl. simpl.
  rewrite (proj2 (neqb_false _ _) He).
  rewrite (proj2 (option_test_false _ _)) by (intros; by apply neqb_false, Ht).
  rewrite (proj2 (option_test_false _ _)) by (intros; by apply neqb_false, Hb).
  rewrite (proj2 (validate_completion_nil _ _) Ha).
  by rewrite (proj2 (differs_false _ _) Hd), (proj2 (differs_false _ _) Hat).
Qed.

(** Every completion is accepted in full or rejected with the state
    untouched. *)
Lemma apply_result_cases fresh msg s :
  (∃ p, accepts s msg p ∧ apply_result fresh msg s = settle_completion fresh msg p s) ∨
  (∃ e, apply_result fresh msg s = (Err e, s)).
Proof.
  cut ((∃ p, accepts s msg p) ∨ (∃ e, apply_result fresh msg s = (Err e, s))).
  { intros [[p Hac]|?]; [|by right]. left. exists p. by rewrite (apply_result_accepted _ _ _ p). }
  unfold apply_result, fail.
  destruct (plans s !! ResultMsg.plan msg) as [p|] eqn:Hp; [|eauto]. cbv zeta.
  destruct (bool_decide _); [eauto|]. destruct (_ || _ || _); [eauto|].
  destruct (is_in_flight _) eqn:Hfl; simpl; [|eauto].
  destruct (ResultMsg.epoch msg !=? epoch s) eqn:He; [eauto|].
  destruct (match targets s !! _ with Some _ => _ | None => _ end) eqn:Ht; [eauto|].
  destruct (match target_runtime s !! _ with Some _ => _ | None => _ end) eqn:Hb; [eauto|].
  destruct (validate_completion_against_plan _ _) eqn:Ha; [|eauto].
  destruct (differs (ExecutionPlan.dispatch_id p) _) eqn:Hd; [eauto|].
  destruct (differs (ExecutionPlan.attempt_id p) _) eqn:Hat; [eauto|].
  left. exists p. rewrite option_test_false in Ht. rewrite option_test_false in Hb.
  rewrite neqb_false in He.
  rewrite differs_false in Hd, Hat. rewrite validate_completion_nil in Ha.
  setoid_rewrite neqb_false in Ht. setoid_rewrite neqb_false in Hb. by constructor.
Qed.

(** ** Reservation *)

(** The facts [reserve] checks. *)
Record admits (s : RuntimeState) (k : ExecutionPlanId) (p : ExecutionPlan)
    (rt : TargetRuntime) (d : TargetDefinition) (rs : ReservationState) (ws : Z) : Prop := {
  ad_plan : plans s !! k = Some p;
  ad_planned : ExecutionPlan.lifecycle p = ExecutionLifecycle.PLANNED;
  ad_runtime : target_runtime s !! ExecutionPlan.target p = Some rt;
  ad_target : d = default TargetDefinition.dflt (targets s !! ExecutionPlan.target p);
  ad_held : rs = default ReservationState.dflt (reservations s !! ExecutionPlan.target p);
  ad_ws : ws = match operations s !! ExecutionPlan.operation p with
               | Some op => OperationSpec.workspace_bytes op
               | None => 0
               end;
  ad_slots : ReservationState.reserved_slots rs < TargetDefinition.concurrency_capacity d;
  ad_budget : ReservationState.reserved_workspace rs <= TargetDefinition.workspace_bytes d;
  ad_open : admission_closed (TargetRuntime.lifecycle rt) = false;
  ad_fits : u64 (ReservationState.reserved_workspace rs + ws) <= TargetDefinition.workspace_bytes d
}.

(** The state after [targets\[t\]] and [reservations\[t\]] were evaluated. *)
Definition touched (t : NearMemoryTargetId) (s : RuntimeState) : RuntimeState :=
  let s := set_targets (at_or_insert TargetDefinition.dflt t (targets s)).2 s in
  set_reservations (at_or_insert ReservationState.dflt t (reservations s)).2 s.

Definition reserved_state (k : ExecutionPlanId) (p : ExecutionPlan) (rs : ReservationState)
    (ws : Z) (s : RuntimeState) : RuntimeState :=
  let t := ExecutionPlan.target p in
  let s := touched t s in
  let s := set_reservations
    (<[t := {| ReservationState.reserved_slots := u64 (ReservationState.reserved_slots rs + 1);
               ReservationState.reserved_workspace :=
                 u64 (ReservationState.reserved_workspace rs + ws) |}]> (reservations s)) s in
  set_plans (<[k := ExecutionPlan.set_reserved 1 ws ExecutionLifecycle.RESERVED p]> (plans s)) s.

Lemma at_or_insert_fst {V} (d : V) k m : (at_or_insert d k m).1 = default d (m !! k).
Proof. unfold at_or_insert. by destruct (m !! k). Qed.

Lemma reserve_granted k s p rt d rs ws :
  admits s k p rt d rs ws → reserve k s = (Ok tt, reserved_state k p rs ws s).
Proof.
  intros [Hp Hl Hrt -> -> -> Hs Hb Ho Hf]. unfold reserve, reserved_state, touched.
  rewrite Hp, Hl, Hrt. simpl.
  rewrite (surjective_pairing (at_or_insert TargetDefinition.dflt _ _)).
  rewrite (surjective_pairing (at_or_insert ReservationState.dflt _ _)). simpl.
  rewrite !at_or_insert_fst, Ho.
  by rewrite (proj2 (Z.leb_gt _ _)), !(proj2 (Z.ltb_ge _ _)) by done.
Qed.

(** A reservation is granted in full, or refused with nothing but the default
    entries of the target possibly added. *)
Lemma reserve_cases k s :
  (∃ p rt d rs ws, admits s k p rt d rs ws ∧ reserve k s = (Ok tt, reserved_state k p rs ws s)) ∨
  (∃ e, reserve k s = (Err e, s)) ∨
  (∃ e p, plans s !! k = Some p ∧ is_Some (target_runtime s !! ExecutionPlan.target p) ∧
     reserve k s = (Err e, touched (ExecutionPlan.target p) s)).
Proof.
  unfold reserve, fail, touched, reserved_state.
  destruct (plans s !! k) as [p|] eqn:Hp; [|eauto].
  case_bool_decide as Hl; [|eauto]. simpl.
  destruct (target_runtime s !! ExecutionPlan.target p) as [rt|] eqn:Hrt; [|eauto].
  rewrite (surjective_pairing (at_or_insert TargetDefinition.dflt _ _)).
  rewrite (surjective_pairing (at_or_insert ReservationState.dflt _ _)). simpl.
  rewrite !at_or_insert_fst.
  set (d := default TargetDefinition.dflt _). set (rs := default ReservationState.dflt _).
  destruct (Z.leb_spec (TargetDefinition.concurrency_capacity d)
                       (ReservationState.reserved_slots rs)); [eauto 10|].
  destruct (Z.ltb_spec (TargetDefinition.workspace_bytes d)
                       (ReservationState.reserved_workspace rs)); [eauto 10|].
  destruct (admission_closed _) eqn:Hopen; [eauto 10|].
  set (ws := match operations s !! _ with Some _ => _ | None => _ end).
  destruct (Z.ltb_spec (TargetDefinition.workspace_bytes d)
    (u64 (ReservationState.reserved_workspace rs + ws))); [eauto 10|].
  left. exists p, rt, d, rs, ws. split; [|reflexivity]. by constructor.
Qed.

(** ** Dispatch *)

Record dispatchable (s : RuntimeState) (k : ExecutionPlanId) (p : ExecutionPlan)
    (op : OperationSpec) (rt : TargetRuntime) (w : WorkerId) : Prop := {
  dp_plan : plans s !! k = Some p;
  dp_reserved : ExecutionPlan.lifecycle p = ExecutionLifecycle.RESERVED;
  dp_current : plan_current s p;
  dp_op : operations s !! ExecutionPlan.operation p = Some op;
  dp_runtime : target_runtime s !! ExecutionPlan.target p = Some rt;
  dp_session : find_session (TargetRuntime.owner_boot rt) (map_entries (workers s)) = Some w
}.

Lemma prepare_dispatch_ok k d a s p op rt w :
  dispatchable s k p op rt w →
  prepare_dispatch k d a s =
    (Ok {| DispatchOutput.ready := true;
           DispatchOutput.message := dispatch_message s p op (TargetRuntime.owner_boot rt) d a;
           DispatchOutput.worker := w |},
     set_plans (<[k := ExecutionPlan.set_dispatch d a p]> (plans s)) s).
Proof.
  intros [Hp Hl Hc Hop Hrt Hw]. unfold prepare_dispatch. rewrite Hp, Hl. simpl.
  by rewrite (proj2 (staleness_nil s p) Hc), Hop, Hrt, Hw.
Qed.

(** A dispatch is prepared with the plan current, or refused: with the state
    untouched, or, for a stale plan, with the plan superseded. *)
Lemma prepare_dispatch_cases k d a s :
  (∃ p op rt w, dispatchable s k p op rt w ∧
     prepare_dispatch k d a s =
       (Ok {| DispatchOutput.ready := true;
              DispatchOutput.message :=
                dispatch_message s p op (TargetRuntime.owner_boot rt) d a;
              DispatchOutput.worker := w |},
        set_plans (<[k := ExecutionPlan.set_dispatch d a p]> (plans s)) s)) ∨
  (∃ e, prepare_dispatch k d a s = (Err e, s)) ∨
  (∃ e p, plans s !! k = Some p ∧ ExecutionPlan.lifecycle p = ExecutionLifecycle.RESERVED ∧
     ~ plan_current s p ∧ code e = "E_STALE_PLAN" ∧
     prepare_dispatch k d a s =
       (Err e, set_plans (<[k := ExecutionPlan.set_lifecycle ExecutionLifecycle.SUPERSEDED p]>
                            (plans s)) s)).
Proof.
  unfold prepare_dispatch, fail.
  destruct (plans s !! k) as [p|] eqn:Hp; [|eauto].
  case_bool_decide as Hl; [|eauto]. simpl.
  destruct (staleness_locked s p) as [|r l] eqn:Hst.
  - apply staleness_nil in Hst.
    destruct (operations s !! _) as [op|] eqn:Hop; [|eauto].
    destruct (target_runtime s !! _) as [rt|] eqn:Hrt; [|eauto].
    destruct (find_session _ _) as [w|] eqn:Hw; [|eauto].
    left. exists p, op, rt, w. split; [by constructor|done].
  - right; right. eexists _, p. split_and!; [done|done| | |reflexivity]; [|done].
    rewrite <- staleness_nil. by rewrite Hst.
Qed.
