(* ===== verification/Machine.v ===== *)
(** * The coordinator as a state machine

    The public methods of [Coordinator] as commands, executions as sequences of
    commands, and the effect each command has on the plans and the stored
    results.  Every invariant about plans is proved from [exec_effect], the
    case analysis over the commands being done once. *)

From S2P Require Import Prelude Enums Ids Model Authority Planning Protocol State Coordinator.
From S2P Require Import Behaviour.

(** ** Commands and executions *)

Inductive Command : Type :=
| AttachCoordinator (id : CoordinatorId)
| RegisterMemoryDomain (md : MemoryDomainDescriptor)
| RegisterDataset (ds : DatasetDescriptor)
| RegisterRegion (rg : DataRegionDescriptor)
| RegisterProgram (pg : Program)
| RegisterPolicy (pl : Policy)
| CreateOperation (op : OperationSpec)
| BindWorkerSession (w : WorkerId) (boot : WorkerBootId) (name : string)
| ApplyRegisterTarget (msg : RegisterTargetMsg)
| ApplyCapability (draw : nat → Z) (msg : CapabilityMsg)
| ApplyDataEvidence (msg : DataEvidenceMsg)
| ApplyHeartbeat (msg : HeartbeatMsg)
| PlanOperation (fresh : ExecutionPlanId) (op : OperationId)
| Reserve (p : ExecutionPlanId)
| PrepareDispatch (p : ExecutionPlanId) (d : DispatchId) (a : AttemptId)
| ConfirmDispatched (p : ExecutionPlanId) (d : DispatchId)
| ApplyResult (fresh : ResultId) (msg : ResultMsg)
| BeginDrain (t : NearMemoryTargetId)
| CancelPlan (p : ExecutionPlanId)
| FenceWorker (boot : WorkerBootId)
| OnWorkerDisconnected (boot : WorkerBootId)
| RetireTarget (t : NearMemoryTargetId)
| AdvanceEpoch.

(** The error a method answered, if any. *)
Definition err_of {A} (r : Result A) : option Error :=
  match r with Ok _ => None | Err e => Some e end.
Definition outcome {A} (x : Result A * RuntimeState) : option Error * RuntimeState :=
  (err_of x.1, x.2).

Definition exec (c : Command) (s : RuntimeState) : option Error * RuntimeState :=
  match c with
  | AttachCoordinator id => outcome (attach_coordinator id s)
  | RegisterMemoryDomain md => outcome (register_memory_domain md s)
  | RegisterDataset ds => outcome (register_dataset ds s)
  | RegisterRegion rg => outcome (register_region rg s)
  | RegisterProgram pg => outcome (register_program pg s)
  | RegisterPolicy pl => outcome (register_policy pl s)
  | CreateOperation op => outcome (create_operation op s)
  | BindWorkerSession w b n => outcome (bind_worker_session w b n s)
  | ApplyRegisterTarget msg => outcome (apply_register_target msg s)
  | ApplyCapability draw msg => outcome (apply_capability draw msg s)
  | ApplyDataEvidence msg => outcome (apply_data_evidence msg s)
  | ApplyHeartbeat msg => outcome (apply_heartbeat msg s)
  | PlanOperation fresh op => outcome (plan_locked fresh op s)
  | Reserve p => outcome (reserve p s)
  | PrepareDispatch p d a => outcome (prepare_dispatch p d a s)
  | ConfirmDispatched p d => outcome (confirm_dispatched p d s)
  | ApplyResult fresh msg => outcome (apply_result fresh msg s)
  | BeginDrain t => outcome (begin_drain t s)
  | CancelPlan p => outcome (cancel_plan p s)
  | FenceWorker b => outcome (fence_worker b s)
  | OnWorkerDisconnected b => outcome (on_worker_disconnected b s)
  | RetireTarget t => outcome (retire_target t s)
  | AdvanceEpoch => (None, advance_epoch s)
  end.

(** [Id::make()] answers an identifier that is not null and not in use. *)
Definition draws_fresh (c : Command) (s : RuntimeState) : Prop :=
  match c with
  | PlanOperation fresh _ => fresh ≠ 0 ∧ plans s !! fresh = None
  | ApplyResult fresh _ => fresh ≠ 0 ∧ results s !! fresh = None
  | _ => True
  end.

Inductive step (s : RuntimeState) : Command → RuntimeState → Prop :=
| step_exec c : draws_fresh c s → step s c (exec c s).2.

Inductive execution (s : RuntimeState) : list Command → RuntimeState → Prop :=
| execution_nil : execution s [] s
| execution_snoc cs c s1 s2 :
    execution s cs s1 → step s1 c s2 → execution s (cs ++ [c]) s2.

Definition reachable (s : RuntimeState) : Prop :=
  ∃ id cs, execution (new_coordinator id) cs s.

(** ** How a plan may change *)

(** The edges of the lifecycle graph. *)
Inductive lifecycle_step : ExecutionLifecycle → ExecutionLifecycle → Prop :=
| ls_same l : lifecycle_step l l
| ls_reserve : lifecycle_step ExecutionLifecycle.PLANNED ExecutionLifecycle.RESERVED
| ls_stale : lifecycle_step ExecutionLifecycle.RESERVED ExecutionLifecycle.SUPERSEDED
| ls_dispatch : lifecycle_step ExecutionLifecycle.RESERVED ExecutionLifecycle.DISPATCHED
| ls_commit l : is_in_flight l = true → lifecycle_step l ExecutionLifecycle.COMMITTED
| ls_mismatch l : is_in_flight l = true → lifecycle_step l ExecutionLifecycle.FAILED
| ls_ambiguous l : is_in_flight l = true → lifecycle_step l ExecutionLifecycle.OUTCOME_UNKNOWN
| ls_cancel l : is_settled l = false → lifecycle_step l ExecutionLifecycle.CANCELLED
| ls_fence l : is_settled l = false → lifecycle_step l ExecutionLifecycle.FENCED
| ls_epoch l : l ≠ ExecutionLifecycle.COMMITTED → is_in_flight l = false →
    lifecycle_step l ExecutionLifecycle.SUPERSEDED.
#[export] Hint Constructors lifecycle_step : nmc.

(** Everything a plan was created with and never changes. *)
Definition plan_identity (p : ExecutionPlan) :=
  (ExecutionPlan.id p, ExecutionPlan.generation p, ExecutionPlan.authority p,
   ExecutionPlan.target p, ExecutionPlan.target_generation p, ExecutionPlan.operation p,
   ExecutionPlan.op_class p, ExecutionPlan.dataset p, ExecutionPlan.dataset_generation p,
   ExecutionPlan.region p, ExecutionPlan.region_generation p, ExecutionPlan.retry_class p,
   ExecutionPlan.decision p).

Definition plan_step (p p' : ExecutionPlan) : Prop :=
  plan_identity p' = plan_identity p ∧
  lifecycle_step (ExecutionPlan.lifecycle p) (ExecutionPlan.lifecycle p').

(** What a completion does to its plan, with the result it stores. *)
Inductive settles : ExecutionLifecycle → ExecutionResult → Prop :=
| settles_commit res :
    ExecutionResult.verification res = VerifyState.VERIFIED →
    ExecutionResult.committed res = true → ExecutionResult.ambiguous res = false →
    settles ExecutionLifecycle.COMMITTED res
| settles_mismatch res :
    ExecutionResult.verification res = VerifyState.MISMATCH →
    ExecutionResult.committed res = false → ExecutionResult.ambiguous res = false →
    settles ExecutionLifecycle.FAILED res
| settles_ambiguous res :
    ExecutionResult.verification res = VerifyState.UNKNOWN →
    ExecutionResult.committed res = false → ExecutionResult.ambiguous res = true →
    settles ExecutionLifecycle.OUTCOME_UNKNOWN res.
#[export] Hint Constructors settles : nmc.

(** The plan's own fields repeat what its authority pins. *)
Definition pinned (p : ExecutionPlan) : Prop :=
  PlanAuthority.plan (ExecutionPlan.authority p) = ExecutionPlan.id p ∧
  PlanAuthority.plan_generation (ExecutionPlan.authority p) = ExecutionPlan.generation p ∧
  AuthoritySnapshot.target (snapshot_of p) = ExecutionPlan.target p ∧
  AuthoritySnapshot.target_generation (snapshot_of p) = ExecutionPlan.target_generation p ∧
  AuthoritySnapshot.dataset_generation (snapshot_of p) = ExecutionPlan.dataset_generation p ∧
  AuthoritySnapshot.region_generation (snapshot_of p) = ExecutionPlan.region_generation p.

(** A plan just created for an operation. *)
Definition new_plan (k : ExecutionPlanId) (p : ExecutionPlan) : Prop :=
  ExecutionPlan.id p = k ∧ ExecutionPlan.lifecycle p = ExecutionLifecycle.PLANNED ∧ pinned p.

(** No longer waiting for a completion: neither PLANNED, RESERVED nor in
    flight. *)
Definition is_resolved (l : ExecutionLifecycle) : bool :=
  match l with
  | ExecutionLifecycle.PLANNED | ExecutionLifecycle.RESERVED => false
  | _ => negb (is_in_flight l)
  end.

(** The effect of a command on plans and results. *)
Inductive effect (s s' : RuntimeState) : Prop :=
| eff_frame :
    plans s' = plans s → results s' = results s → effect s s'
| eff_new k p :
    k ≠ 0 → plans s !! k = None → new_plan k p →
    plans s' = <[k := p]> (plans s) → results s' = results s → effect s s'
| eff_one k p p' :
    plans s !! k = Some p → plan_step p p' →
    ExecutionPlan.lifecycle p' ≠ ExecutionLifecycle.COMMITTED ∨
      ExecutionPlan.lifecycle p = ExecutionLifecycle.COMMITTED →
    plans s' = <[k := p']> (plans s) → results s' = results s → effect s s'
| eff_all f :
    (∀ p, plan_step p (f p) ∧
          (ExecutionPlan.lifecycle (f p) = ExecutionPlan.lifecycle p ∨
           is_resolved (ExecutionPlan.lifecycle (f p)) = true ∧
           ExecutionPlan.lifecycle (f p) ≠ ExecutionLifecycle.COMMITTED)) →
    plans s' = f <$> plans s → results s' = results s → effect s s'
| eff_result k p l res rid :
    plans s !! k = Some p → is_in_flight (ExecutionPlan.lifecycle p) = true →
    rid ≠ 0 → results s !! rid = None →
    ExecutionResult.id res = rid → ExecutionResult.plan res = k → settles l res →
    plans s' = <[k := ExecutionPlan.set_lifecycle l p]> (plans s) →
    results s' = <[rid := res]> (results s) → effect s s'.

(** ** Each command has its effect *)

Lemma plan_step_lifecycle p l :
  lifecycle_step (ExecutionPlan.lifecycle p) l → plan_step p (ExecutionPlan.set_lifecycle l p).
Proof. by split. Qed.
Lemma plan_step_refl p : plan_step p p.
Proof. split; [done|constructor]. Qed.
#[export] Hint Resolve plan_step_lifecycle plan_step_refl : nmc.

Lemma epoch_lifecycle_step l : lifecycle_step l (epoch_lifecycle l).
Proof. destruct l; simpl; by auto with nmc. Qed.

Lemma fence_plan_step b p : plan_step p (fence_plan b p).
Proof.
  unfold fence_plan. destruct (_ && _) eqn:Hc; [|apply plan_step_refl].
  apply andb_prop in Hc as [_ Hs%negb_true_iff].
  destruct (is_in_flight (ExecutionPlan.lifecycle p)) eqn:?; auto with nmc.
Qed.

Lemma retire_plan_step t p : plan_step p (retire_plan t p).
Proof.
  unfold retire_plan. destruct (_ && _) eqn:Hc; [|apply plan_step_refl].
  apply andb_prop in Hc as [_ Hs%negb_true_iff]. auto with nmc.
Qed.

Lemma release_reservation_frame p s :
  plans (release_reservation p s) = plans s ∧ results (release_reservation p s) = results s ∧
  active_plans (release_reservation p s) = active_plans s.
Proof. unfold release_reservation. by case_match. Qed.

Ltac frame_effect := apply eff_frame; reflexivity.
Ltac one_effect k p := eapply (eff_one _ _ k p); [done| | |reflexivity|reflexivity].

Lemma plan_locked_effect fresh op s :
  fresh ≠ 0 → plans s !! fresh = None → effect s (plan_locked fresh op s).2.
Proof.
  intros H0 Hf. unfold plan_locked. case_all; try frame_effect.
  eapply (eff_new _ _ fresh); [done|done| |reflexivity|reflexivity]. by split_and!.
Qed.

Lemma reserve_effect k s : effect s (reserve k s).2.
Proof.
  destruct (reserve_cases k s) as [(p & rt & d & rs & ws & Had & ->)|[[e ->]|(e & p & _ & _ & ->)]];
    [|frame_effect..].
  destruct Had as [Hp Hl]. one_effect k p; [|by left].
  split; [done|]. simpl. rewrite Hl. constructor.
Qed.

Lemma prepare_dispatch_effect k d a s : effect s (prepare_dispatch k d a s).2.
Proof.
  destruct (prepare_dispatch_cases k d a s)
    as [(p & op & rt & w & [Hp Hl] & ->)|[[e ->]|(e & p & Hp & Hl & _ & _ & ->)]].
  - one_effect k p; [by split; [|constructor]|left; simpl; congruence].
  - frame_effect.
  - one_effect k p; [|by left]. apply plan_step_lifecycle. rewrite Hl. constructor.
Qed.

Lemma confirm_dispatched_effect p d s : effect s (confirm_dispatched p d s).2.
Proof.
  unfold confirm_dispatched. destruct (plans s !! p) as [pl|] eqn:Hp; [|frame_effect].
  case_match; [frame_effect|]. case_bool_decide as Hl; [|frame_effect].
  one_effect p pl; [|by left].
  apply plan_step_lifecycle. rewrite Hl. constructor.
Qed.

Lemma cancel_plan_effect p s : effect s (cancel_plan p s).2.
Proof.
  unfold cancel_plan. destruct (plans s !! p) as [pl|] eqn:Hp; [|frame_effect].
  case_match; [frame_effect|]. destruct (release_reservation_frame pl s) as (Hpl & Hr & _).
  eapply (eff_one _ _ p pl); [done| | |simpl; by rewrite Hpl|done]; [|by left].
  auto with nmc.
Qed.

Lemma apply_result_effect fresh msg s :
  fresh ≠ 0 → results s !! fresh = None → effect s (apply_result fresh msg s).2.
Proof.
  intros H0 Hf.
  destruct (apply_result_cases fresh msg s) as [(p & [Hp Hfl] & ->)|[e ->]]; [|frame_effect].
  unfold settle_completion. repeat case_match; simpl.
  all: try match goal with
    |- context [release_reservation ?q ?t] =>
       destruct (release_reservation_frame q t) as (Hpl & Hr & _) end.
  all: eapply (eff_result _ _ (ResultMsg.plan msg) p _ _ fresh);
         [done|done|done|done| | | |rewrite ?Hpl; reflexivity|rewrite ?Hr; reflexivity];
         by try constructor.
Qed.

Lemma exec_effect c s : draws_fresh c s → effect s (exec c s).2.
Proof.
  destruct c; simpl; intros Hfresh.
  all: try (unfold attach_coordinator, register_memory_domain, register_dataset,
    register_region, register_program, register_policy, create_operation,
    bind_worker_session, apply_register_target, apply_capability, apply_data_evidence,
    apply_heartbeat, begin_drain; case_all; frame_effect).
  - destruct Hfresh. by apply plan_locked_effect.
  - apply reserve_effect.
  - apply prepare_dispatch_effect.
  - apply confirm_dispatched_effect.
  - destruct Hfresh. by apply apply_result_effect.
  - apply cancel_plan_effect.
  - eapply (eff_all _ _ (fence_plan boot)); [|reflexivity..]. intros p.
    split; [apply fence_plan_step|]. unfold fence_plan. case_match; [|by left].
    right. simpl. by case_match.
  - eapply (eff_all _ _ (fence_plan boot)); [|reflexivity..]. intros p.
    split; [apply fence_plan_step|]. unfold fence_plan. case_match; [|by left].
    right. simpl. by case_match.
  - unfold retire_target. case_match; [|frame_effect].
    eapply (eff_all _ _ (retire_plan t)); [|reflexivity..]. intros p.
    split; [apply retire_plan_step|]. unfold retire_plan. case_match; [by right|by left].
  - eapply (eff_all _ _ (fun p => ExecutionPlan.set_lifecycle _ p)); [|reflexivity..].
    intros p. split; [apply plan_step_lifecycle, epoch_lifecycle_step|].
    simpl. destruct (ExecutionPlan.lifecycle p); first [by left|by right].
Qed.

(** ** Running a list of commands *)

#[global] Instance draws_fresh_dec c s : base.Decision (draws_fresh c s).
Proof. destruct c; simpl; apply _. Defined.

Fixpoint run (cs : list Command) (s : RuntimeState) : option RuntimeState :=
  match cs with
  | [] => Some s
  | c :: cs => if bool_decide (draws_fresh c s) then run cs (exec c s).2 else None
  end.

Lemma execution_cons s c s1 cs s2 :
  step s c s1 → execution s1 cs s2 → execution s (c :: cs) s2.
Proof.
  intros Hst. induction 1 as [|cs c' s2 s3 Hex IH Hst'].
  - apply (execution_snoc s [] c s s1); [constructor|done].
  - by apply (execution_snoc s (c :: cs) c' s2 s3).
Qed.

Lemma run_execution cs s s' : run cs s = Some s' → execution s cs s'.
Proof.
  revert s. induction cs as [|c cs IH]; simpl; intros s Hrun.
  - simplify_eq. constructor.
  - case_bool_decide as Hf; [|done]. eapply execution_cons; [by constructor|]. by apply IH.
Qed.

Lemma execution_app s cs1 s1 cs2 s2 :
  execution s cs1 s1 → execution s1 cs2 s2 → execution s (cs1 ++ cs2) s2.
Proof.
  intros H1. induction 1 as [|cs c s2 s3 Hex IH Hst].
  - by rewrite app_nil_r.
  - rewrite app_assoc. by eapply execution_snoc.
Qed.

Lemma reachable_extend s cs s' : reachable s → execution s cs s' → reachable s'.
Proof. intros (id & cs0 & H0) Hex. exists id, (cs0 ++ cs). by eapply execution_app. Qed.

Lemma reachable_step s c s' : reachable s → step s c s' → reachable s'.
Proof.
  intros Hr Hst. apply (reachable_extend s [c]); [done|].
  apply (execution_snoc s [] c s); [constructor|done].
Qed.

(** ** Executions under a usage discipline

    [guarded G]: every command satisfied [G] when it was issued. *)

Inductive guarded (G : RuntimeState → Command → Prop) : RuntimeState → Prop :=
| guarded_new id : guarded G (new_coordinator id)
| guarded_step s c s' : guarded G s → G s c → step s c s' → guarded G s'.

Lemma guarded_reachable G s : guarded G s → reachable s.
Proof.
  induction 1 as [id|s c s' _ IH _ Hst]; [exists id, []; constructor|].
  by eapply reachable_step.
Qed.

(** Running a list of commands while checking the discipline. *)
Fixpoint run_guarded (ok : RuntimeState → Command → bool) (cs : list Command)
    (s : RuntimeState) : option RuntimeState :=
  match cs with
  | [] => Some s
  | c :: cs =>
      if ok s c && bool_decide (draws_fresh c s) then run_guarded ok cs (exec c s).2 else None
  end.

Lemma run_guarded_sound G ok cs s s' :
  (∀ s c, ok s c = true → G s c) → guarded G s → run_guarded ok cs s = Some s' → guarded G s'.
Proof.
  intros HG. revert s. induction cs as [|c cs IH]; simpl; intros s Hs Hrun; [by simplify_eq|].
  destruct (ok s c) eqn:Hok; [|done]. case_bool_decide; [|done]. simpl in Hrun.
  eapply IH, Hrun. eapply guarded_step; [done|by apply HG|by constructor].
Qed.
