(* ===== verification/Worker.v ===== *)
(** * The worker and the demonstration scenario ([nmc_worker.cpp],
      [nmc_cli.cpp])

    The messages a worker announces itself with, its answer to a DISPATCH
    frame, and [setup_demo], the scenario of the command-line tool, as a list of
    coordinator commands.  The identifiers the programs draw with [Id::make()]
    are arguments. *)

From S2P Require Import Prelude Enums Ids Double Checksum Codec Model Protocol Backend State.
From S2P Require Import Coordinator Machine.

(** ** The worker *)

(** The command line of a worker. *)
Record WorkerConfig := {
  cfg_worker : WorkerId; cfg_boot : WorkerBootId; cfg_name : string;
  cfg_target : NearMemoryTargetId; cfg_target_name : string; cfg_synthetic : bool;
  cfg_concurrency : Z; cfg_region : Z; cfg_dataset : Z; cfg_domain : Z;
  cfg_latency : Z; cfg_throughput : Z
}.

Definition worker_ops : list OperationClass :=
  [OperationClass.SUM; OperationClass.MIN; OperationClass.COUNT; OperationClass.MAX;
   OperationClass.FILTER; OperationClass.CHECKSUM; OperationClass.HASH].

Definition worker_hello (c : WorkerConfig) : HelloMsg :=
  {| HelloMsg.worker := cfg_worker c; HelloMsg.worker_boot := cfg_boot c;
     HelloMsg.name := cfg_name c |}.

Definition worker_register (c : WorkerConfig) : RegisterTargetMsg :=
  {| RegisterTargetMsg.target := cfg_target c; RegisterTargetMsg.generation := 1;
     RegisterTargetMsg.provider :=
       if cfg_synthetic c then ProviderKind.SYNTHETIC else ProviderKind.REAL;
     RegisterTargetMsg.kind :=
       if cfg_synthetic c then TargetKind.SYNTHETIC else TargetKind.HOST_CPU_LOCAL;
     RegisterTargetMsg.synthetic := cfg_synthetic c;
     RegisterTargetMsg.name := cfg_target_name c;
     RegisterTargetMsg.ops := worker_ops;
     RegisterTargetMsg.data_types := [DataType.U8];
     RegisterTargetMsg.layouts := [Layout.CONTIGUOUS];
     RegisterTargetMsg.max_input_bytes := 8 * 2 ^ 30;
     RegisterTargetMsg.alignment := 1; RegisterTargetMsg.concurrency := cfg_concurrency c;
     RegisterTargetMsg.workspace := 2 ^ 20; RegisterTargetMsg.owner_boot := cfg_boot c |}.

Definition supported (key : string) : CapabilityEntryWire :=
  {| key := key; state := CapabilityState.SUPPORTED |}.

Definition worker_capability (c : WorkerConfig) : CapabilityMsg :=
  {| CapabilityMsg.target := cfg_target c; CapabilityMsg.generation := 1;
     CapabilityMsg.entries :=
       supported <$> ["operation:SUM"; "operation:MIN"; "operation:MAX"; "operation:COUNT";
                      "operation:FILTER"; "operation:CHECKSUM"; "operation:HASH"];
     CapabilityMsg.evidence_generation := 1; CapabilityMsg.publisher := cfg_boot c |}.

Definition worker_evidence (c : WorkerConfig) : DataEvidenceMsg :=
  {| DataEvidenceMsg.region := cfg_region c; DataEvidenceMsg.region_generation := 1;
     DataEvidenceMsg.dataset := cfg_dataset c; DataEvidenceMsg.dataset_generation := 1;
     DataEvidenceMsg.memory_domain := cfg_domain c;
     DataEvidenceMsg.memory_domain_generation := 1; DataEvidenceMsg.present := true;
     DataEvidenceMsg.current := true; DataEvidenceMsg.reachable := true;
     DataEvidenceMsg.publisher := cfg_boot c |}.

Definition worker_heartbeat (c : WorkerConfig) : HeartbeatMsg :=
  {| HeartbeatMsg.target := cfg_target c; HeartbeatMsg.lifecycle := TargetLifecycle.READY;
     HeartbeatMsg.reachable := true; HeartbeatMsg.queue_depth := 0;
     HeartbeatMsg.latency_ns := cfg_latency c; HeartbeatMsg.throughput_bps := cfg_throughput c;
     HeartbeatMsg.confidence := f64_0_95 |}.

(** The frames a worker sends after connecting, in order. *)
Definition worker_announce (c : WorkerConfig) : list Payload :=
  [P_HELLO (worker_hello c); P_REGISTER_TARGET (worker_register c);
   P_CAPABILITY (worker_capability c); P_DATA_EVIDENCE (worker_evidence c);
   P_HEARTBEAT (worker_heartbeat c)].

(** The DISPATCH case: execute on the carried payload and answer with the
    authority the dispatch carried. *)
Definition worker_execute (synthetic : bool) (elapsed_ns : Z) (dm : DispatchMsg)
    : BackendResult :=
  let req := {| BackendRequest.op_class := DispatchMsg.op_class dm;
                BackendRequest.data_type := DispatchMsg.data_type dm;
                BackendRequest.input := DispatchMsg.payload dm;
                BackendRequest.input_bytes := Z.of_nat (length (DispatchMsg.payload dm)) |} in
  if synthetic then synthetic_execute req else host_local_execute elapsed_ns req.

Definition worker_result (dm : DispatchMsg) (r : BackendResult) : ResultMsg :=
  {| ResultMsg.plan := DispatchMsg.plan dm; ResultMsg.plan_gen := DispatchMsg.plan_gen dm;
     ResultMsg.dispatch := DispatchMsg.dispatch dm; ResultMsg.attempt := DispatchMsg.attempt dm;
     ResultMsg.target := DispatchMsg.target dm; ResultMsg.target_gen := DispatchMsg.target_gen dm;
     ResultMsg.worker_boot := DispatchMsg.worker_boot dm; ResultMsg.epoch := DispatchMsg.epoch dm;
     ResultMsg.dataset_gen := DispatchMsg.dataset_gen dm;
     ResultMsg.region_gen := DispatchMsg.region_gen dm;
     ResultMsg.operation_gen := DispatchMsg.operation_gen dm;
     ResultMsg.result_gen := 1; ResultMsg.output := BackendResult.output r;
     ResultMsg.output_digest := to_hex (BackendResult.digest r);
     ResultMsg.unknown := negb (BackendResult.ok r); ResultMsg.note := BackendResult.note r |}.

Definition worker_on_dispatch (synthetic hold_result : bool) (elapsed_ns : Z) (dm : DispatchMsg)
    : option ResultMsg :=
  let r := worker_execute synthetic elapsed_ns dm in
  if hold_result then None else Some (worker_result dm r).

(** ** The demonstration scenario *)

(** The identifiers [setup_demo] draws. *)
Record DemoIds := {
  demo_boot : WorkerBootId; demo_worker : WorkerId; demo_md : MemoryDomainId;
  demo_dataset : DatasetId; demo_region : DataRegionId; demo_target : NearMemoryTargetId;
  demo_op : OperationId; demo_draw : nat → Z
}.

(** The sum over [bytes] bytes of the scenario's region. *)
Definition sum_operation (i : DemoIds) (id : OperationId) (bytes : Z) (policy : PolicyId)
    : OperationSpec :=
  {| OperationSpec.id := id; OperationSpec.generation := 1;
     OperationSpec.op_class := OperationClass.SUM; OperationSpec.dataset := demo_dataset i;
     OperationSpec.dataset_generation := 1; OperationSpec.region := demo_region i;
     OperationSpec.region_generation := 1;
     OperationSpec.shape :=
       {| DataShape.element_count := bytes; DataShape.data_type := DataType.U8;
          DataShape.layout := Layout.CONTIGUOUS; DataShape.alignment := 1 |};
     OperationSpec.input_bytes := bytes; OperationSpec.output_bytes := 8;
     OperationSpec.workspace_bytes := 0; OperationSpec.output_data_type := DataType.U64;
     OperationSpec.determinism_required := true; OperationSpec.max_tolerated_latency_ns := 0;
     OperationSpec.required_throughput_bps := 0;
     OperationSpec.integrity := IntegrityRequirement.CHECKED;
     OperationSpec.retry_class := RetryClass.REPLAY_SAFE; OperationSpec.policy := policy;
     OperationSpec.policy_generation := 1; OperationSpec.program := None;
     OperationSpec.program_generation := None; OperationSpec.description := "" |}.

Definition demo_operation (i : DemoIds) : OperationSpec :=
  sum_operation i (demo_op i) (8 * 2 ^ 30) 1.

Definition demo_domain (i : DemoIds) : MemoryDomainDescriptor :=
  {| MemoryDomainDescriptor.id := demo_md i; MemoryDomainDescriptor.generation := 1;
     MemoryDomainDescriptor.name := "md0"; MemoryDomainDescriptor.durable := true |}.
Definition demo_dataset_of (i : DemoIds) : DatasetDescriptor :=
  {| DatasetDescriptor.id := demo_dataset i; DatasetDescriptor.generation := 1;
     DatasetDescriptor.name := "demo-ds"; DatasetDescriptor.producer := "cli";
     DatasetDescriptor.durable := true |}.
Definition demo_region_of (i : DemoIds) : DataRegionDescriptor :=
  {| DataRegionDescriptor.id := demo_region i; DataRegionDescriptor.generation := 1;
     DataRegionDescriptor.dataset := demo_dataset i;
     DataRegionDescriptor.dataset_generation := 1;
     DataRegionDescriptor.memory_domain := demo_md i;
     DataRegionDescriptor.window := {| ByteWindow.offset := 0; ByteWindow.length := 64 |};
     DataRegionDescriptor.shape :=
       {| DataShape.element_count := 4096; DataShape.data_type := DataType.U8;
          DataShape.layout := Layout.CONTIGUOUS; DataShape.alignment := 1 |};
     DataRegionDescriptor.integrity := IntegrityState.INTACT;
     DataRegionDescriptor.durable := true |}.
Definition demo_register (i : DemoIds) : RegisterTargetMsg :=
  {| RegisterTargetMsg.target := demo_target i;
     RegisterTargetMsg.generation := 1; RegisterTargetMsg.provider := ProviderKind.SYNTHETIC;
     RegisterTargetMsg.kind := TargetKind.MEMORY_SIDE_PROCESSOR;
     RegisterTargetMsg.synthetic := true; RegisterTargetMsg.name := "syn-reduce";
     RegisterTargetMsg.ops := [OperationClass.SUM; OperationClass.MIN; OperationClass.COUNT];
     RegisterTargetMsg.data_types := [DataType.U8];
     RegisterTargetMsg.layouts := [Layout.CONTIGUOUS];
     RegisterTargetMsg.max_input_bytes := 8 * 2 ^ 30; RegisterTargetMsg.alignment := 1;
     RegisterTargetMsg.concurrency := 2; RegisterTargetMsg.workspace := 2 ^ 20;
     RegisterTargetMsg.owner_boot := demo_boot i |}.
Definition demo_capability (i : DemoIds) : CapabilityMsg :=
  {| CapabilityMsg.target := demo_target i; CapabilityMsg.generation := 1;
     CapabilityMsg.entries :=
       supported <$> ["operation:SUM"; "operation:MIN"; "operation:COUNT"];
     CapabilityMsg.evidence_generation := 1; CapabilityMsg.publisher := demo_boot i |}.
Definition demo_evidence (i : DemoIds) : DataEvidenceMsg :=
  {| DataEvidenceMsg.region := demo_region i;
     DataEvidenceMsg.region_generation := 1; DataEvidenceMsg.dataset := demo_dataset i;
     DataEvidenceMsg.dataset_generation := 1; DataEvidenceMsg.memory_domain := demo_md i;
     DataEvidenceMsg.memory_domain_generation := 1; DataEvidenceMsg.present := true;
     DataEvidenceMsg.current := true; DataEvidenceMsg.reachable := true;
     DataEvidenceMsg.publisher := demo_boot i |}.
Definition demo_heartbeat (i : DemoIds) : HeartbeatMsg :=
  {| HeartbeatMsg.target := demo_target i;
     HeartbeatMsg.lifecycle := TargetLifecycle.READY; HeartbeatMsg.reachable := true;
     HeartbeatMsg.queue_depth := 0; HeartbeatMsg.latency_ns := 12000000;
     HeartbeatMsg.throughput_bps := 100 * 2 ^ 30; HeartbeatMsg.confidence := f64_0_95 |}.

Definition setup_demo (i : DemoIds) : list Command :=
  [BindWorkerSession (demo_worker i) (demo_boot i) "demo-worker";
   RegisterMemoryDomain (demo_domain i); RegisterDataset (demo_dataset_of i);
   RegisterRegion (demo_region_of i); ApplyRegisterTarget (demo_register i);
   ApplyCapability (demo_draw i) (demo_capability i); ApplyDataEvidence (demo_evidence i);
   ApplyHeartbeat (demo_heartbeat i); CreateOperation (demo_operation i)].

(** Concrete identifiers. *)
Definition demo_ids : DemoIds :=
  {| demo_boot := 11; demo_worker := 12; demo_md := 13; demo_dataset := 14;
     demo_region := 15; demo_target := 16; demo_op := 17;
     demo_draw := fun n => 100 + Z.of_nat n |}.

Example setup_demo_runs :
  option_map inspect_text (run (setup_demo demo_ids) (new_coordinator 1)) =
  Some ("coordinator=1 epoch=1" +:+ newline +:+
        "memory_domains=1 datasets=1 regions=1 targets=1 operations=1 plans=0 results=0" +:+
        newline +:+
        "  target 16 gen=1 kind=MEMORY_SIDE_PROCESSOR provider=SYNTHETIC class=SYNTHETIC" +:+
        " lifecycle=READY reachable=yes" +:+ newline).
Proof. vm_compute. reflexivity. Qed.

(** A small variant for evaluation: the same target, with a 64-byte operation
    of 4 bytes of workspace on a target that answers at once. *)
Definition small_operation (id : OperationId) : OperationSpec :=
  {| OperationSpec.id := id; OperationSpec.generation := 1;
     OperationSpec.op_class := OperationClass.SUM; OperationSpec.dataset := 14;
     OperationSpec.dataset_generation := 1; OperationSpec.region := 15;
     OperationSpec.region_generation := 1; OperationSpec.shape := DataShape.dflt;
     OperationSpec.input_bytes := 64; OperationSpec.output_bytes := 8;
     OperationSpec.workspace_bytes := 4; OperationSpec.output_data_type := DataType.U64;
     OperationSpec.determinism_required := true; OperationSpec.max_tolerated_latency_ns := 0;
     OperationSpec.required_throughput_bps := 0;
     OperationSpec.integrity := IntegrityRequirement.CHECKED;
     OperationSpec.retry_class := RetryClass.REPLAY_SAFE; OperationSpec.policy := 1;
     OperationSpec.policy_generation := 1; OperationSpec.program := None;
     OperationSpec.program_generation := None; OperationSpec.description := "" |}.
Definition small_heartbeat : HeartbeatMsg :=
  {| HeartbeatMsg.target := 16; HeartbeatMsg.lifecycle := TargetLifecycle.READY;
     HeartbeatMsg.reachable := true; HeartbeatMsg.queue_depth := 0;
     HeartbeatMsg.latency_ns := 20; HeartbeatMsg.throughput_bps := 0;
     HeartbeatMsg.confidence := f64_0_95 |}.
Definition small_demo : list Command :=
  take 7 (setup_demo demo_ids) ++
  [ApplyHeartbeat small_heartbeat; CreateOperation (small_operation 17);
   CreateOperation (small_operation 18)].

(** The small scenario run up to the given commands. *)
Definition demo_state (cs : list Command) : RuntimeState :=
  default (new_coordinator 1) (run (small_demo ++ cs) (new_coordinator 1)).

(** The scenario up to a dispatched plan 21, with dispatch 31 and attempt 41. *)
Definition demo_planned : list Command := [PlanOperation 21 17].
Definition demo_reserved : list Command := demo_planned ++ [Reserve 21].
Definition demo_dispatched : list Command :=
  demo_reserved ++ [PrepareDispatch 21 31 41; ConfirmDispatched 21 31].

(** An honest completion of that plan, with the given output and digest. *)
Definition demo_completion (out : list Z) (digest : string) (unknown : bool) : ResultMsg :=
  {| ResultMsg.plan := 21; ResultMsg.plan_gen := 1; ResultMsg.dispatch := 31;
     ResultMsg.attempt := 41; ResultMsg.target := 16; ResultMsg.target_gen := 1;
     ResultMsg.worker_boot := 11; ResultMsg.epoch := 1; ResultMsg.dataset_gen := 1;
     ResultMsg.region_gen := 1; ResultMsg.operation_gen := 1; ResultMsg.result_gen := 1;
     ResultMsg.output := out; ResultMsg.output_digest := digest; ResultMsg.unknown := unknown;
     ResultMsg.note := "" |}.
Definition demo_output : list Z := [1; 0; 0; 0; 0; 0; 0; 0].
Definition demo_honest : ResultMsg :=
  demo_completion demo_output (to_hex (content_digest demo_output)) false.
Definition demo_committed : list Command := demo_dispatched ++ [ApplyResult 51 demo_honest].

Lemma demo_reachable cs :
  bool_decide (is_Some (run (small_demo ++ cs) (new_coordinator 1))) = true →
  reachable (demo_state cs).
Proof.
  intros [s Hs]%bool_decide_eq_true_1. unfold demo_state. rewrite Hs. simpl.
  exists 1, (small_demo ++ cs). by apply run_execution.
Qed.

(** The plan stored under a key, to evaluate its fields. *)
Definition plan_at (k : ExecutionPlanId) (s : RuntimeState) : ExecutionPlan :=
  default ExecutionPlan.dflt (plans s !! k).

Lemma plan_at_some k s : has_plan k s = true → plans s !! k = Some (plan_at k s).
Proof. unfold has_plan, plan_at. by intros [p ->]%bool_decide_eq_true_1. Qed.

Example demo_commits : lifecycle_of 21 (demo_state demo_committed) = ExecutionLifecycle.COMMITTED.
Proof. vm_compute. reflexivity. Qed.
