(* ===== verification/Planner.v ===== *)
(** * The planner

    What [plan_locked] guarantees about the plan it creates: the target was
    eligible, no eligible target costs less, near-memory execution was judged
    no more expensive than moving the data, and the plan is pinned to the
    authority of that moment. *)

From S2P Require Import Prelude Enums Ids Double Model Authority Economics Planning Protocol.
From S2P Require Import State Coordinator Behaviour Machine Worker.

(** ** The candidates *)

(** The targets the loop of [plan_locked] finds eligible. *)
Definition candidate_target (s : RuntimeState) (op : OperationSpec) (policy : Policy)
    (tid : NearMemoryTargetId) (tdef : TargetDefinition) (rt : TargetRuntime)
    (caps : CapabilitySet) : Prop :=
  targets s !! tid = Some tdef ∧ target_runtime s !! tid = Some rt ∧
  capabilities s !! tid = Some caps ∧
  hard_filter (filter_input s op policy tdef rt caps) = [].

Definition candidate_of (s : RuntimeState) (op : OperationSpec) (policy : Policy)
    (e : NearMemoryTargetId * TargetDefinition) : option RankedCandidate :=
  match target_runtime s !! e.1, capabilities s !! e.1 with
  | Some rt, Some caps =>
      match hard_filter (filter_input s op policy e.2 rt caps) with
      | [] => Some (build_candidate op e.1 e.2 (TargetRuntime.performance rt))
      | _ => None
      end
  | _, _ => None
  end.

Lemma consider_ranked s op policy out e :
  PlanOutput.ranked (consider s op policy out e) =
  PlanOutput.ranked out ++ option_list (candidate_of s op policy e).
Proof.
  unfold consider, candidate_of.
  destruct (target_runtime s !! e.1); [|by rewrite app_nil_r].
  destruct (capabilities s !! e.1); [|by rewrite app_nil_r].
  by destruct (hard_filter _).
Qed.

Lemma fold_consider_ranked s op policy l out :
  PlanOutput.ranked (fold_left (consider s op policy) l out) =
  PlanOutput.ranked out ++ omap (candidate_of s op policy) l.
Proof.
  revert out. induction l as [|e l IH]; intros out; simpl; [by rewrite app_nil_r|].
  rewrite IH, consider_ranked, <- app_assoc. by destruct (candidate_of s op policy e).
Qed.

Lemma gather_ranked s op policy :
  PlanOutput.ranked (gather s op policy) =
  rank_candidates (omap (candidate_of s op policy) (map_entries (targets s))).
Proof. unfold gather. simpl. by rewrite fold_consider_ranked. Qed.

Lemma elem_of_candidates s op policy c :
  c ∈ omap (candidate_of s op policy) (map_entries (targets s)) ↔
  ∃ tid tdef rt caps, candidate_target s op policy tid tdef rt caps ∧
    c = build_candidate op tid tdef (TargetRuntime.performance rt).
Proof.
  rewrite list_elem_of_omap. unfold candidate_target, candidate_of. split.
  - intros ([tid tdef] & Hin%elem_of_map_entries & Hc). simpl in Hc.
    destruct (target_runtime s !! tid) as [rt|] eqn:?; [|done].
    destruct (capabilities s !! tid) as [caps|] eqn:?; [|done].
    destruct (hard_filter _) eqn:?; [|done]. simplify_eq. by eexists _, _, _, _.
  - intros (tid & tdef & rt & caps & (Ht & Hrt & Hc & Hf) & ->).
    exists (tid, tdef). rewrite elem_of_map_entries. split; [done|]. simpl.
    by rewrite Hrt, Hc, Hf.
Qed.

Lemma candidate_target_eligible s op policy tid tdef rt caps :
  candidate_target s op policy tid tdef rt caps →
  ∃ data, data_evidence s !! OperationSpec.region op = Some data ∧
    eligible tdef rt op data caps policy
      (OperationSpec.program op ≫= fun pid => programs s !! pid)
      (Some (TargetRuntime.owner_boot rt)) (Some (TargetDefinition.generation tdef)).
Proof.
  intros (_ & _ & _ & Hf).
  apply hard_filter_nil in Hf as (t & r & o & d & c & p & (Ht & Hr & Ho & Hd & Hc & Hp) & Hel).
  simpl in *. simplify_eq. eauto.
Qed.

(** No runtime of the state reports a NaN confidence. *)
Definition confident_runtimes (s : RuntimeState) : Prop :=
  ∀ tid rt, target_runtime s !! tid = Some rt →
    f64_is_nan (PerfEstimate.confidence (TargetRuntime.performance rt)) = false.

Lemma candidates_confident s op policy :
  confident_runtimes s →
  Forall confident (omap (candidate_of s op policy) (map_entries (targets s))).
Proof.
  intros Hc. apply Forall_forall. intros c Hin%list_elem_of_In.
  apply elem_of_candidates in Hin as (tid & tdef & rt & caps & (_ & Hrt & _) & ->).
  by apply (Hc tid).
Qed.

(** ** The created plan *)

Lemma plan_locked_created fresh op_id s out s' :
  plan_locked fresh op_id s = (Ok out, s') → PlanOutput.created out = true →
  ∃ op policy best rest,
    operations s !! op_id = Some op ∧ policies s !! OperationSpec.policy op = Some policy ∧
    active_plans s !! OperationSpec.id op = None ∧
    rank_candidates (omap (candidate_of s op policy) (map_entries (targets s))) = best :: rest ∧
    RankedCandidate.decision best = Decision.NEAR_MEMORY_SELECTED ∧
    PlanOutput.plan out = build_plan fresh s op (RankedCandidate.target best) ∧
    s' = set_active_plans (<[OperationSpec.id op := fresh]> (active_plans s))
           (set_plans (<[fresh := PlanOutput.plan out]> (plans s)) s).
Proof.
  unfold plan_locked. intros Heq Hcr.
  destruct (operations s !! op_id) as [op|] eqn:Hop; [|done].
  destruct (policies s !! OperationSpec.policy op) as [policy|] eqn:Hpol; [|done].
  case_bool_decide as Hact; [done|].
  pose proof (gather_ranked s op policy) as Hrk.
  destruct (PlanOutput.ranked (gather s op policy)) as [|best rest] eqn:Hg; [by simplify_eq|].
  case_bool_decide as Hd; simplify_eq/=.
  exists op, policy, best, rest. apply eq_None_not_Some in Hact. by split_and!.
Qed.

Lemma plan_locked_not_created fresh op_id s out s' :
  plan_locked fresh op_id s = (Ok out, s') → PlanOutput.created out = false →
  s' = s ∧ PlanOutput.decision out ≠ Decision.NEAR_MEMORY_SELECTED.
Proof.
  unfold plan_locked. intros Heq Hcr.
  destruct (operations s !! op_id) as [op|]; [|done].
  destruct (policies s !! OperationSpec.policy op) as [policy|]; [|done].
  destruct (bool_decide _); [done|].
  destruct (PlanOutput.ranked (gather s op policy)); [|case_bool_decide]; simplify_eq/=;
    split; try done. by case_bool_decide.
Qed.

(** Claim C7: planning is sound and optimal.  When a plan is created, its target
    is registered, passed every hard constraint and was judged no more expensive
    than moving the data, and the operation had no active plan and now has this
    one, in state PLANNED.  When moreover no target reports a NaN confidence, the
    plan's target costs no more than any other eligible target (a NaN, which a
    heartbeat can carry, leaves the ranking without an order).  When no plan is
    created the state is unchanged and the decision is not near-memory. *)
Theorem planning_sound_and_optimal fresh op_id s out s' :
  plan_locked fresh op_id s = (Ok out, s') →
  if PlanOutput.created out then
    ∃ op policy tdef rt caps data,
      let p := PlanOutput.plan out in
      let cost := fun t d r =>
        RankedCandidate.total_cost_ns (build_candidate op t d (TargetRuntime.performance r)) in
      operations s !! op_id = Some op ∧ policies s !! OperationSpec.policy op = Some policy ∧
      candidate_target s op policy (ExecutionPlan.target p) tdef rt caps ∧
      data_evidence s !! OperationSpec.region op = Some data ∧
      eligible tdef rt op data caps policy
        (OperationSpec.program op ≫= fun pid => programs s !! pid)
        (Some (TargetRuntime.owner_boot rt)) (Some (TargetDefinition.generation tdef)) ∧
      RankedCandidate.decision
        (build_candidate op (ExecutionPlan.target p) tdef (TargetRuntime.performance rt)) =
        Decision.NEAR_MEMORY_SELECTED ∧
      (confident_runtimes s → ∀ t d r c, candidate_target s op policy t d r c →
         cost (ExecutionPlan.target p) tdef rt <= cost t d r) ∧
      p = build_plan fresh s op (ExecutionPlan.target p) ∧
      active_plans s !! OperationSpec.id op = None ∧
      s' = set_active_plans (<[OperationSpec.id op := fresh]> (active_plans s))
             (set_plans (<[fresh := p]> (plans s)) s)
  else s' = s ∧ PlanOutput.decision out ≠ Decision.NEAR_MEMORY_SELECTED.
Proof.
  intros Heq. destruct (PlanOutput.created out) eqn:Hcr;
    [|by eapply plan_locked_not_created].
  destruct (plan_locked_created _ _ _ _ _ Heq Hcr)
    as (op & policy & best & rest & Hop & Hpol & Hact & Hrk & Hd & Hp & Hs').
  assert (Hbest : best ∈ omap (candidate_of s op policy) (map_entries (targets s))).
  { rewrite <- rank_candidates_perm, Hrk. left. }
  apply elem_of_candidates in Hbest as (tid & tdef & rt & caps & Hct & ->).
  destruct (candidate_target_eligible _ _ _ _ _ _ _ Hct) as (data & Hdata & Hel).
  assert (Htid : ExecutionPlan.target (PlanOutput.plan out) = tid) by by rewrite Hp.
  exists op, policy, tdef, rt, caps, data. cbv zeta. rewrite Htid.
  split_and!; try done. intros Hconf t d r c Hc.
  eapply (rank_head_min _ _ rest); [by apply candidates_confident|exact Hrk|].
  apply elem_of_candidates. by eexists _, _, _, _.
Qed.

(** ** Freshly created plans are current *)

(** The declared generations of an operation agree with what is registered,
    and the observed data evidence has not been invalidated. *)
Definition declared_current (s : RuntimeState) (op : OperationSpec) : Prop :=
  (∀ d, datasets s !! OperationSpec.dataset op = Some d →
     DatasetDescriptor.generation d = OperationSpec.dataset_generation op) ∧
  (∀ r, regions s !! OperationSpec.region op = Some r →
     DataRegionDescriptor.generation r = OperationSpec.region_generation op) ∧
  (∀ g pid pg, OperationSpec.program_generation op = Some g →
     OperationSpec.program op = Some pid → programs s !! pid = Some pg →
     Program.generation pg = g) ∧
  (∀ pl, policies s !! OperationSpec.policy op = Some pl →
     Policy.generation pl = OperationSpec.policy_generation op) ∧
  (∀ e, data_evidence s !! OperationSpec.region op = Some e →
     DataEvidence.dynamic_current e = true).

(** A plan just created is current, that is dispatchable as far as
    staleness goes, exactly when the generations its operation declares are the
    registered ones and its data evidence was not invalidated; target, worker,
    capability and epoch are pinned to the present by construction. *)
Theorem new_plan_current_iff fresh op_id s out s' op :
  plan_locked fresh op_id s = (Ok out, s') → PlanOutput.created out = true →
  operations s !! op_id = Some op → OperationSpec.id op = op_id →
  plan_current s' (PlanOutput.plan out) ↔ declared_current s op.
Proof.
  intros Heq Hcr Hop Hid.
  destruct (plan_locked_created _ _ _ _ _ Heq Hcr)
    as (op' & policy & best & rest & Hop' & Hpol & Hact & Hrk & Hd & Hp & ->). simplify_eq.
  assert (Hbest : best ∈ omap (candidate_of s op policy) (map_entries (targets s))).
  { rewrite <- rank_candidates_perm, Hrk. left. }
  apply elem_of_candidates in Hbest as (tid & tdef & rt & caps & Hct & ->).
  destruct (candidate_target_eligible _ _ _ _ _ _ _ Hct) as (data & Hdata & Hel).
  destruct Hct as (Ht & Hrt & Hc & _). rewrite Hp. split.
  - intros [_ _ _ Hds Hrg _ _ Hpg Hpo Hev]. simpl in *.
    split_and!; [exact Hds|exact Hrg| | |].
    + intros g pid pg ? ? ?. by eapply Hpg.
    + intros pl ?. by eapply Hpo.
    + intros e ?. by apply Hev.
  - intros (Hds & Hrg & Hpg & Hpo & Hev).
    constructor; simpl; rewrite ?Ht, ?Hrt, ?Hc, ?Hop; simpl; intros; simplify_eq; eauto.
    + split; [done|]. by apply (el_current _ _ _ _ _ _ _ _ _ Hel).
    + split_and!; [done..|]. by apply (el_evidence _ _ _ _ _ _ _ _ _ Hel).
    + split; [by apply Hev|]. by apply (el_data_gen _ _ _ _ _ _ _ _ _ Hel).
Qed.

(** ** Concrete plans *)

Lemma confident_runtimes_check s :
  forallb (fun e : Z * TargetRuntime =>
    negb (f64_is_nan (PerfEstimate.confidence (TargetRuntime.performance e.2))))
    (map_entries (target_runtime s)) = true → confident_runtimes s.
Proof.
  intros Hall tid rt Hrt%elem_of_map_entries%list_elem_of_In.
  rewrite forallb_forall in Hall. by apply negb_true_iff, (Hall (tid, rt)).
Qed.

(** Whether planning the operation creates a plan. *)
Definition creates (fresh op_id : Z) (s : RuntimeState) : bool :=
  match plan_locked fresh op_id s with
  | (Ok out, _) => PlanOutput.created out
  | (Err _, _) => false
  end.

Lemma planning_sound_and_optimal_witness :
  match plan_locked 21 17 (demo_state []) with
  | (Ok out, _) => ∃ op policy tdef rt caps,
      candidate_target (demo_state []) op policy (ExecutionPlan.target (PlanOutput.plan out))
        tdef rt caps ∧
      ∀ t d r c, candidate_target (demo_state []) op policy t d r c →
        RankedCandidate.total_cost_ns (build_candidate op
          (ExecutionPlan.target (PlanOutput.plan out)) tdef (TargetRuntime.performance rt)) <=
        RankedCandidate.total_cost_ns (build_candidate op t d (TargetRuntime.performance r))
  | (Err _, _) => False
  end.
Proof.
  assert (Hc : confident_runtimes (demo_state []))
    by (apply confident_runtimes_check; vm_compute; reflexivity).
  assert (Hv : creates 21 17 (demo_state []) = true) by (vm_compute; reflexivity).
  pose proof (planning_sound_and_optimal 21 17 (demo_state [])) as Hpl.
  revert Hc Hv Hpl. generalize (demo_state []). intros s Hc. unfold creates.
  destruct (plan_locked 21 17 s) as [[out|e] s']; [|done]. intros Hv Hpl.
  specialize (Hpl out s' eq_refl). rewrite Hv in Hpl.
  destruct Hpl as (op & policy & tdef & rt & caps & data & _ & _ & Hct & _ & _ & _ & Hmin & _).
  exists op, policy, tdef, rt, caps. split; [exact Hct|exact (Hmin Hc)].
Defined.

Lemma new_plan_current_iff_witness :
  match plan_locked 21 17 (demo_state []) with
  | (Ok out, s') => plan_current s' (PlanOutput.plan out) ↔
                    declared_current (demo_state []) (small_operation 17)
  | (Err _, _) => False
  end.
Proof.
  assert (Hv : creates 21 17 (demo_state []) = true) by (vm_compute; reflexivity).
  assert (Hop17 : operations (demo_state []) !! 17 = Some (small_operation 17))
    by (vm_compute; reflexivity).
  pose proof (new_plan_current_iff 21 17 (demo_state [])) as Hpl.
  revert Hv Hpl Hop17. generalize (demo_state []). intros s. unfold creates.
  destruct (plan_locked 21 17 s) as [[out|e] s']; [|done]. intros Hv Hpl Hop17.
  by apply (Hpl out s' (small_operation 17) eq_refl Hv Hop17).
Defined.
