(* ===== verification/Safety.v ===== *)
(** * Safety of the coordinator: identities, lifecycles, exactly-once commit

    Invariants of every reachable state, by induction on executions, and the
    consequences that make completions exactly-once: results are never lost,
    a committed plan stays committed with the same result, a plan that was
    resolved without commit (cancelled, fenced, superseded, failed or ambiguous)
    never commits. *)

From S2P Require Import Prelude Enums Ids Model Authority Planning Protocol State Coordinator.
From S2P Require Import Behaviour Machine Worker.

(** ** Lifecycles *)

(** The lifecycles the coordinator ever gives a plan. *)
Definition entered (l : ExecutionLifecycle) : Prop :=
  match l with
  | ExecutionLifecycle.RUNNING | ExecutionLifecycle.VERIFYING
  | ExecutionLifecycle.COMPLETED | ExecutionLifecycle.raw _ => False
  | _ => True
  end.

Lemma resolved_step l l' :
  lifecycle_step l l' → is_resolved l = true →
  is_resolved l' = true ∧
  (l' = ExecutionLifecycle.COMMITTED ↔ l = ExecutionLifecycle.COMMITTED).
Proof. destruct 1; try done; destruct l; try done; by split. Qed.

Lemma entered_step l l' : lifecycle_step l l' → entered l → entered l'.
Proof. by destruct 1. Qed.

(** ** What one step does to a given plan or result *)

Lemma effect_plan_forward s s' k p :
  effect s s' → plans s !! k = Some p → ∃ p', plans s' !! k = Some p' ∧ plan_step p p'.
Proof.
  intros Heff Hk.
  destruct Heff as [->|k' p' _ Hno _ ->|k' q q' Hq Hst _ ->|f Hf ->|k' q l res rid Hq Hfl _ _ _ _ Hs ->].
  - exists p. auto with nmc.
  - exists p. rewrite lookup_insert_ne by congruence. auto with nmc.
  - destruct (decide (k = k')) as [->|].
    + exists q'. rewrite lookup_insert_eq. by simplify_eq.
    + exists p. rewrite lookup_insert_ne by congruence. auto with nmc.
  - exists (f p). rewrite lookup_fmap, Hk. split; [done|apply Hf].
  - destruct (decide (k = k')) as [->|].
    + simplify_eq. eexists. rewrite lookup_insert_eq. split; [done|].
      destruct Hs; auto with nmc.
    + exists p. rewrite lookup_insert_ne by congruence. auto with nmc.
Qed.

Lemma effect_plan_backward s s' k p' :
  effect s s' → plans s' !! k = Some p' →
  (∃ p, plans s !! k = Some p ∧ plan_step p p') ∨
  (plans s !! k = None ∧ k ≠ 0 ∧ new_plan k p').
Proof.
  intros Heff Hk'. destruct (plans s !! k) as [p|] eqn:Hk.
  - left. exists p. split; [done|].
    by destruct (effect_plan_forward _ _ _ _ Heff Hk) as (q & ? & ?); simplify_eq.
  - right. split; [done|].
    destruct Heff as [Hpl|k0 q ? Hno ? Hpl|k0 q q' Hq ? ? Hpl|f ? Hpl|k0 q l res rid Hq ? ? ? ? ? ? Hpl];
      rewrite Hpl in Hk'.
    + congruence.
    + destruct (decide (k = k0)) as [->|];
        [rewrite lookup_insert_eq in Hk'; by simplify_eq|
         rewrite lookup_insert_ne in Hk' by congruence; congruence].
    + destruct (decide (k = k0)) as [->|]; [congruence|].
      rewrite lookup_insert_ne in Hk' by congruence. congruence.
    + rewrite lookup_fmap, Hk in Hk'. done.
    + destruct (decide (k = k0)) as [->|]; [congruence|].
      rewrite lookup_insert_ne in Hk' by congruence. congruence.
Qed.

Lemma effect_results_grow s s' : effect s s' → results s ⊆ results s'.
Proof.
  destruct 1 as [? ->|? ? ? ? ? ? ->|? ? ? ? ? ? ? ->|? ? ? ->|? ? ? ? ? ? ? ? ? ? ? ? ? ->];
    try done. by apply insert_subseteq.
Qed.

(** ** The invariant *)

Record ledger_ok (s : RuntimeState) : Prop := {
  lo_plan k p : plans s !! k = Some p →
    k ≠ 0 ∧ ExecutionPlan.id p = k ∧ pinned p ∧ entered (ExecutionPlan.lifecycle p);
  lo_result rid r : results s !! rid = Some r →
    rid ≠ 0 ∧ ExecutionResult.id r = rid ∧
    (∃ p, plans s !! ExecutionResult.plan r = Some p ∧
          is_resolved (ExecutionPlan.lifecycle p) = true) ∧
    (ExecutionResult.committed r = true ↔
     ExecutionResult.verification r = VerifyState.VERIFIED) ∧
    (ExecutionResult.committed r = true → ExecutionResult.ambiguous r = false);
  lo_unique rid1 rid2 r1 r2 :
    results s !! rid1 = Some r1 → results s !! rid2 = Some r2 →
    ExecutionResult.plan r1 = ExecutionResult.plan r2 → rid1 = rid2;
  lo_commit k p : plans s !! k = Some p →
    ExecutionPlan.lifecycle p = ExecutionLifecycle.COMMITTED ↔
    ∃ rid r, results s !! rid = Some r ∧ ExecutionResult.plan r = k ∧
             ExecutionResult.committed r = true
}.

Lemma plan_step_pinned p p' : plan_step p p' → pinned p → pinned p'.
Proof. intros [Hid _] Hp. injection Hid as. unfold pinned in *. by repeat f_equal; congruence. Qed.

Lemma plan_step_id p p' : plan_step p p' → ExecutionPlan.id p' = ExecutionPlan.id p.
Proof. by intros [[= ] _]. Qed.

Lemma ledger_ok_new id : ledger_ok (new_coordinator id).
Proof. split; simpl; intros *; rewrite ?lookup_empty; done. Qed.

(** The plan part of the invariant, whatever the effect. *)
Lemma ledger_plan_step s s' k p' :
  effect s s' → ledger_ok s → plans s' !! k = Some p' →
  k ≠ 0 ∧ ExecutionPlan.id p' = k ∧ pinned p' ∧ entered (ExecutionPlan.lifecycle p').
Proof.
  intros Heff Hok Hk. destruct (effect_plan_backward _ _ _ _ Heff Hk)
    as [(p & Hp & Hst)|(_ & H0 & Hid & Hl & Hpin)].
  - destruct (lo_plan _ Hok _ _ Hp) as (? & ? & ? & ?).
    split_and!; [done|by rewrite (plan_step_id p)|by eapply plan_step_pinned|].
    eapply entered_step; [apply Hst|done].
  - rewrite Hl. by split_and!.
Qed.

(** A stored result keeps its resolved plan. *)
Lemma result_plan_step s s' r p :
  effect s s' → plans s !! ExecutionResult.plan r = Some p →
  is_resolved (ExecutionPlan.lifecycle p) = true →
  ∃ p', plans s' !! ExecutionResult.plan r = Some p' ∧
        is_resolved (ExecutionPlan.lifecycle p') = true.
Proof.
  intros Heff Hp Hr. destruct (effect_plan_forward _ _ _ _ Heff Hp) as (p' & Hp' & _ & Hl).
  exists p'. split; [done|]. by eapply resolved_step.
Qed.

(** The effects that store no result: COMMITTED is neither entered nor left. *)
Lemma effect_quiet_commit s s' :
  effect s s' → results s' = results s → ledger_ok s → 
  ∀ k p', plans s' !! k = Some p' → ∃ l,
    (ExecutionPlan.lifecycle p' = ExecutionLifecycle.COMMITTED ↔ l = ExecutionLifecycle.COMMITTED) ∧
    match plans s !! k with
    | Some p => l = ExecutionPlan.lifecycle p
    | None => l = ExecutionLifecycle.PLANNED
    end.
Proof.
  intros Heff Hres Hok k p' Hk'.
  destruct (effect_plan_backward _ _ _ _ Heff Hk') as [(p & Hk & Hst)|(Hno & _ & _ & Hl & _)].
  2: { rewrite Hno. eexists. split; [|done]. by rewrite Hl. }
  rewrite Hk. eexists. split; [|done]. split.
  2: { intros Hc. destruct Hst as [_ Hst]. rewrite Hc in Hst. by inversion Hst. }
  intros Hc. destruct Heff as [Hpl|k0 q ? Hno ? Hpl|k0 q q' Hq ? Hor Hpl|f Hf Hpl
                              |k0 q l res rid Hq ? ? Hrid ? ? ? Hpl Hres'];
    rewrite Hpl in Hk'.
  - by simplify_eq.
  - rewrite lookup_insert_ne in Hk' by congruence. by simplify_eq.
  - destruct (decide (k = k0)) as [->|];
      [rewrite lookup_insert_eq in Hk'; simplify_eq; by destruct Hor|
       rewrite lookup_insert_ne in Hk' by congruence; by simplify_eq].
  - rewrite lookup_fmap, Hk in Hk'. simplify_eq/=. destruct (Hf p) as [_ [<-|[_ ?]]]; done.
  - rewrite Hres in Hres'. rewrite Hres', lookup_insert_eq in Hrid. done.
Qed.

Lemma ledger_quiet s s' :
  effect s s' → results s' = results s → ledger_ok s → ledger_ok s'.
Proof.
  intros Heff Hres Hok. split.
  - intros. by eapply ledger_plan_step.
  - rewrite Hres. intros rid r Hr.
    destruct (lo_result _ Hok _ _ Hr) as (? & ? & (p & Hp & Hre) & ? & ?).
    split_and!; try done. by eapply result_plan_step.
  - rewrite Hres. apply Hok.
  - rewrite Hres. intros k p' Hk'.
    destruct (effect_quiet_commit _ _ Heff Hres Hok k p' Hk') as (l & -> & Hl).
    destruct (plans s !! k) as [p|] eqn:Hk; subst l; [by apply (lo_commit _ Hok)|].
    split; [done|]. intros (rid & r & Hr & <- & _).
    destruct (lo_result _ Hok _ _ Hr) as (_ & _ & (q & Hq & _) & _). congruence.
Qed.

Lemma settles_committed l res :
  settles l res →
  is_resolved l = true ∧
  (ExecutionResult.committed res = true ↔ l = ExecutionLifecycle.COMMITTED) ∧
  (ExecutionResult.committed res = true ↔ ExecutionResult.verification res = VerifyState.VERIFIED) ∧
  (ExecutionResult.committed res = true → ExecutionResult.ambiguous res = false).
Proof. destruct 1 as [? H1 H2 H3|? H1 H2 H3|? H1 H2 H3]; rewrite H1, H2, H3; by split_and!. Qed.

Lemma in_flight_unresolved l : is_in_flight l = true → is_resolved l = false.
Proof. by destruct l. Qed.

Lemma ledger_result s s' k p l res rid :
  effect s s' → ledger_ok s →
  plans s !! k = Some p → is_in_flight (ExecutionPlan.lifecycle p) = true →
  rid ≠ 0 → results s !! rid = None → ExecutionResult.id res = rid →
  ExecutionResult.plan res = k → settles l res →
  plans s' = <[k := ExecutionPlan.set_lifecycle l p]> (plans s) →
  results s' = <[rid := res]> (results s) → ledger_ok s'.
Proof.
  intros Heff Hok Hp Hfl H0 Hno Hid Hplan Hs Hpl Hres.
  destruct (settles_committed _ _ Hs) as (Hre & Hco & Hve & Ham).
  (* No earlier result belongs to the plan. *)
  assert (Hfirst : ∀ rid' r', results s !! rid' = Some r' → ExecutionResult.plan r' ≠ k).
  { intros rid' r' Hr' <-. destruct (lo_result _ Hok _ _ Hr') as (_ & _ & (q & Hq & Hrq) & _).
    simplify_eq. by rewrite in_flight_unresolved in Hrq. }
  split.
  - intros. by eapply ledger_plan_step.
  - rewrite Hres. intros rid' r [[<- <-]|[? Hr]]%lookup_insert_Some.
    + split_and!; try done. rewrite Hpl, Hplan. eexists. by rewrite lookup_insert_eq.
    + destruct (lo_result _ Hok _ _ Hr) as (? & ? & (q & Hq & Hrq) & ? & ?).
      split_and!; try done. by eapply result_plan_step.
  - rewrite Hres. intros rid1 rid2 r1 r2 [[<- <-]|[? Hr1]]%lookup_insert_Some
      [[<- <-]|[? Hr2]]%lookup_insert_Some Heq; [done| | |].
    + by destruct (Hfirst _ _ Hr2); rewrite <- Heq.
    + by destruct (Hfirst _ _ Hr1); rewrite Heq.
    + by eapply (lo_unique _ Hok).
  - rewrite Hpl, Hres. intros k' p' [[<- <-]|[Hne Hk']]%lookup_insert_Some; simpl.
    + split.
      * intros ->. exists rid, res. rewrite lookup_insert_eq. split_and!; [done..|by apply Hco].
      * intros (rid' & r & [[<- <-]|[_ Hr]]%lookup_insert_Some & Hrk & Hc); [by apply Hco|].
        by destruct (Hfirst _ _ Hr).
    + rewrite (lo_commit _ Hok k' p' Hk'). split; intros (rid' & r & Hr & Hrk & Hc).
      * exists rid', r. rewrite lookup_insert_ne by congruence. done.
      * exists rid', r. apply lookup_insert_Some in Hr as [[<- <-]|[_ Hr]]; [congruence|done].
Qed.

Lemma ledger_preserved s c s' : step s c s' → ledger_ok s → ledger_ok s'.
Proof.
  intros [c' Hfresh] Hok. pose proof (exec_effect c' s Hfresh) as Heff.
  destruct Heff as [| | | |k p l res rid]; try (by eapply ledger_quiet, Hok; [by econstructor|]).
  eapply (ledger_result s _ k p l res rid); try done. by econstructor.
Qed.

Lemma execution_invariant (I : RuntimeState → Prop) :
  (∀ s c s', step s c s' → I s → I s') →
  ∀ s cs s', execution s cs s' → I s → I s'.
Proof. intros Hstep s cs s'. induction 1; eauto. Qed.

Lemma reachable_invariant (I : RuntimeState → Prop) :
  (∀ id, I (new_coordinator id)) → (∀ s c s', step s c s' → I s → I s') →
  ∀ s, reachable s → I s.
Proof. intros Hinit Hstep s (id & cs & Hex). eapply execution_invariant; eauto. Qed.

Lemma reachable_ledger s : reachable s → ledger_ok s.
Proof. apply reachable_invariant; [apply ledger_ok_new|]. intros. by eapply ledger_preserved. Qed.

(** ** Consequences along executions *)

Lemma execution_plan s cs s' k p :
  execution s cs s' → plans s !! k = Some p →
  ∃ p', plans s' !! k = Some p' ∧ plan_identity p' = plan_identity p ∧
    (is_resolved (ExecutionPlan.lifecycle p) = true →
     is_resolved (ExecutionPlan.lifecycle p') = true ∧
     (ExecutionPlan.lifecycle p' = ExecutionLifecycle.COMMITTED ↔
      ExecutionPlan.lifecycle p = ExecutionLifecycle.COMMITTED)).
Proof.
  intros Hex Hp. induction Hex as [|cs c s1 s2 Hex (p1 & Hp1 & Hid1 & Hr1) Hst]; [by eauto|].
  destruct Hst as [c Hf].
  destruct (effect_plan_forward _ _ _ _ (exec_effect c s1 Hf) Hp1) as (p2 & Hp2 & Hid2 & Hl2).
  exists p2. split_and!; [done|by rewrite Hid2|]. intros Hres.
  destruct (Hr1 Hres) as [Hr Hc]. destruct (resolved_step _ _ Hl2 Hr) as [? ?].
  split; [done|]. by etrans.
Qed.

Lemma execution_results s cs s' : execution s cs s' → results s ⊆ results s'.
Proof.
  induction 1 as [|cs c s1 s2 Hex IH [c' Hf]]; [done|].
  etrans; [exact IH|]. by apply effect_results_grow, exec_effect.
Qed.

(** A completion for a resolved plan is refused. *)
Lemma resolved_refuses s k p fresh msg :
  plans s !! k = Some p → is_resolved (ExecutionPlan.lifecycle p) = true →
  ResultMsg.plan msg = k → ∃ e, apply_result fresh msg s = (Err e, s).
Proof.
  intros Hp Hres <-. destruct (apply_result_cases fresh msg s) as [(q & [Hq Hfl] & _)|?]; [|done].
  simplify_eq. by rewrite in_flight_unresolved in Hres.
Qed.

(** The command takes its authority away from the plan. *)
Definition revokes (c : Command) (k : ExecutionPlanId) (p : ExecutionPlan) (s : RuntimeState)
    : Prop :=
  match c with
  | FenceWorker b | OnWorkerDisconnected b => AuthoritySnapshot.worker_boot (snapshot_of p) = b
  | RetireTarget t => ExecutionPlan.target p = t ∧ is_Some (target_runtime s !! t)
  | CancelPlan k' => k' = k
  | AdvanceEpoch => True
  | _ => False
  end.

Lemma unsettled_resolved l :
  is_settled l = true → is_resolved l = true.
Proof. by destruct l. Qed.

Lemma revoke_resolves c s k p :
  revokes c k p s → plans s !! k = Some p →
  ExecutionPlan.lifecycle p ≠ ExecutionLifecycle.COMMITTED →
  ∃ p', plans (exec c s).2 !! k = Some p' ∧ is_resolved (ExecutionPlan.lifecycle p') = true ∧
        ExecutionPlan.lifecycle p' ≠ ExecutionLifecycle.COMMITTED.
Proof.
  intros Hrev Hp Hnc. destruct c; try done; simpl in Hrev |- *.
  - (* CancelPlan *) subst p0. unfold cancel_plan. rewrite Hp.
    destruct (is_settled _) eqn:Hs; simpl.
    + exists p. split_and!; [done|by apply unsettled_resolved|done].
    + eexists. by rewrite lookup_insert_eq.
  - (* FenceWorker *) exists (fence_plan boot p). rewrite lookup_fmap, Hp. split; [done|].
    unfold fence_plan. rewrite Hrev, Z.eqb_refl.
    destruct (ExecutionPlan.lifecycle p) eqn:Hl; simpl; rewrite ?Hl; by split_and!.
  - (* OnWorkerDisconnected *) exists (fence_plan boot p). rewrite lookup_fmap, Hp. split; [done|].
    unfold fence_plan. rewrite Hrev, Z.eqb_refl.
    destruct (ExecutionPlan.lifecycle p) eqn:Hl; simpl; rewrite ?Hl; by split_and!.
  - (* RetireTarget *) destruct Hrev as [Ht [rt Hrt]]. unfold retire_target. rewrite Hrt.
    exists (retire_plan t p). simpl. rewrite lookup_fmap, Hp. split; [done|]. unfold retire_plan.
    rewrite Ht, Z.eqb_refl. destruct (ExecutionPlan.lifecycle p) eqn:Hl; simpl; rewrite ?Hl; by split_and!.
  - (* AdvanceEpoch *) eexists. rewrite lookup_fmap, Hp. split; [done|]. simpl.
    by destruct (ExecutionPlan.lifecycle p).
Qed.

(** Each plan at most one result; committed plans are those with a committed,
    verified result; results only for resolved plans. *)
Definition exactly_once (s : RuntimeState) : Prop :=
  (∀ rid1 rid2 r1 r2, results s !! rid1 = Some r1 → results s !! rid2 = Some r2 →
     ExecutionResult.plan r1 = ExecutionResult.plan r2 → rid1 = rid2 ∧ r1 = r2) ∧
  (∀ k p, plans s !! k = Some p →
     ExecutionPlan.lifecycle p = ExecutionLifecycle.COMMITTED ↔
     ∃ rid r, results s !! rid = Some r ∧ ExecutionResult.plan r = k ∧
       ExecutionResult.committed r = true ∧
       ExecutionResult.verification r = VerifyState.VERIFIED ∧
       ExecutionResult.ambiguous r = false) ∧
  (∀ rid r, results s !! rid = Some r →
     ∃ p, plans s !! ExecutionResult.plan r = Some p ∧
          is_resolved (ExecutionPlan.lifecycle p) = true).

Lemma ledger_exactly_once s : ledger_ok s → exactly_once s.
Proof.
  intros Hok. split_and!.
  - intros rid1 rid2 r1 r2 H1 H2 Heq. assert (rid1 = rid2) as -> by by eapply (lo_unique _ Hok).
    by simplify_eq.
  - intros k p Hp. rewrite (lo_commit _ Hok k p Hp). split.
    + intros (rid & r & Hr & Hk & Hc). exists rid, r.
      destruct (lo_result _ Hok _ _ Hr) as (_ & _ & _ & Hv & Ha). split_and!; auto. by apply Hv.
    + intros (rid & r & ? & ? & ? & _). by eauto.
  - intros rid r Hr. by destruct (lo_result _ Hok _ _ Hr) as (_ & _ & ? & _).
Qed.

(** ** Properties *)

(** Claim C1: exactly-once commit.  In every reachable state each plan has at
    most one stored result; a plan is COMMITTED exactly when a committed result
    of it is stored, and such a result is verified and unambiguous; a stored
    result belongs to a plan that no longer awaits a completion. *)
Theorem exactly_once_commit s : reachable s → exactly_once s.
Proof. intros Hok%reachable_ledger. by apply ledger_exactly_once. Qed.

Lemma exactly_once_commit_witness :
  ∃ rid r, results (demo_state demo_committed) !! rid = Some r ∧ ExecutionResult.plan r = 21 ∧
    ExecutionResult.committed r = true ∧
    ExecutionResult.verification r = VerifyState.VERIFIED ∧ ExecutionResult.ambiguous r = false.
Proof.
  destruct (exactly_once_commit (demo_state demo_committed)) as (_ & Hc & _).
  - apply demo_reachable. vm_compute. reflexivity.
  - apply (Hc 21 (plan_at 21 (demo_state demo_committed))).
    + apply plan_at_some. vm_compute. reflexivity.
    + vm_compute. reflexivity.
Defined.

(** A committed plan is final.  Whatever commands follow, it stays
    COMMITTED with the identity and authority it was created with, and no
    stored result is ever changed or dropped. *)
Theorem committed_is_final s cs s' k p :
  execution s cs s' → plans s !! k = Some p →
  ExecutionPlan.lifecycle p = ExecutionLifecycle.COMMITTED →
  results s ⊆ results s' ∧
  ∃ p', plans s' !! k = Some p' ∧ plan_identity p' = plan_identity p ∧
        ExecutionPlan.lifecycle p' = ExecutionLifecycle.COMMITTED.
Proof.
  intros Hex Hp Hc. split; [by eapply execution_results|].
  destruct (execution_plan _ _ _ _ _ Hex Hp) as (p' & Hp' & Hid & Hr).
  exists p'. split_and!; [done..|]. apply Hr; [by rewrite Hc|done].
Qed.

Lemma committed_is_final_witness :
  ∃ p', plans (advance_epoch (demo_state demo_committed)) !! 21 = Some p' ∧
        ExecutionPlan.lifecycle p' = ExecutionLifecycle.COMMITTED.
Proof.
  destruct (committed_is_final (demo_state demo_committed) [AdvanceEpoch]
    (advance_epoch (demo_state demo_committed)) 21 (plan_at 21 (demo_state demo_committed)))
    as (_ & p' & Hp' & _ & Hl).
  - apply (execution_snoc _ [] AdvanceEpoch (demo_state demo_committed)); constructor. exact I.
  - apply plan_at_some. vm_compute. reflexivity.
  - vm_compute. reflexivity.
  - exists p'. split; [exact Hp'|exact Hl].
Defined.

(** Claim C5: revoked authority is never exercised.  Once the worker a plan is
    pinned to is fenced or disconnects, its target is retired, the plan is
    cancelled or the epoch advances, a plan that was not yet committed never
    commits, in any continuation, and every completion sent for it is refused
    with the state untouched. *)
Theorem revoked_plans_never_commit s c k p cs s' :
  revokes c k p s → plans s !! k = Some p →
  ExecutionPlan.lifecycle p ≠ ExecutionLifecycle.COMMITTED →
  execution (exec c s).2 cs s' →
  (∃ p', plans s' !! k = Some p' ∧
         ExecutionPlan.lifecycle p' ≠ ExecutionLifecycle.COMMITTED) ∧
  (∀ fresh msg, ResultMsg.plan msg = k → ∃ e, apply_result fresh msg s' = (Err e, s')).
Proof.
  intros Hrev Hp Hnc Hex.
  destruct (revoke_resolves _ _ _ _ Hrev Hp Hnc) as (p1 & Hp1 & Hr1 & Hn1).
  destruct (execution_plan _ _ _ _ _ Hex Hp1) as (p2 & Hp2 & _ & Hr2).
  destruct (Hr2 Hr1) as [Hres Hc]. split.
  - exists p2. split; [done|]. by rewrite Hc.
  - intros fresh msg Hk. by eapply resolved_refuses.
Qed.

Lemma revoked_plans_never_commit_witness :
  ∃ e, apply_result 51 demo_honest (exec (FenceWorker 11) (demo_state demo_dispatched)).2 =
       (Err e, (exec (FenceWorker 11) (demo_state demo_dispatched)).2).
Proof.
  destruct (revoked_plans_never_commit (demo_state demo_dispatched) (FenceWorker 11) 21
    (plan_at 21 (demo_state demo_dispatched)) []
    (exec (FenceWorker 11) (demo_state demo_dispatched)).2) as [_ Href].
  - vm_compute. reflexivity.
  - apply plan_at_some. vm_compute. reflexivity.
  - vm_compute. congruence.
  - constructor.
  - apply Href. vm_compute. reflexivity.
Defined.

(** Claim C25: plans follow the lifecycle graph.  From a reachable state no
    command removes a plan or touches the identity and authority it was created
    with, every change of its lifecycle is an edge of [lifecycle_step], a plan
    that appears is a PLANNED one whose fields repeat its pinned authority, and
    RUNNING, VERIFYING and COMPLETED are never entered. *)
Theorem plans_follow_lifecycle_graph s c s' :
  reachable s → step s c s' →
  (∀ k p, plans s !! k = Some p → ∃ p', plans s' !! k = Some p' ∧ plan_step p p') ∧
  (∀ k p', plans s' !! k = Some p' → plans s !! k = None → k ≠ 0 ∧ new_plan k p') ∧
  (∀ k p', plans s' !! k = Some p' → pinned p' ∧ entered (ExecutionPlan.lifecycle p')).
Proof.
  intros Hr Hst. pose proof (reachable_ledger _ (reachable_step _ _ _ Hr Hst)) as Hok.
  destruct Hst as [c Hf]. pose proof (exec_effect c s Hf) as Heff. split_and!.
  - intros. by eapply effect_plan_forward.
  - intros k p' Hk Hno.
    destruct (effect_plan_backward _ _ _ _ Heff Hk) as [(p & ? & _)|(_ & ? & ?)]; [congruence|done].
  - intros k p' Hk. by destruct (lo_plan _ Hok _ _ Hk) as (_ & _ & ? & ?).
Qed.

Lemma plans_follow_lifecycle_graph_witness :
  let s := (exec (Reserve 21) (demo_state demo_planned)).2 in
  pinned (plan_at 21 s) ∧ entered (ExecutionPlan.lifecycle (plan_at 21 s)).
Proof.
  apply (plans_follow_lifecycle_graph (demo_state demo_planned) (Reserve 21)
    (exec (Reserve 21) (demo_state demo_planned)).2) with (k := 21).
  - apply demo_reachable. vm_compute. reflexivity.
  - constructor. exact I.
  - apply plan_at_some. vm_compute. reflexivity.
Defined.
