(* ===== verification/Completion.v ===== *)
(** * Dispatch and completion, end to end

    What [prepare_dispatch] and [apply_result] do on every branch, that a
    rejected command leaves the state as it was, and that a dispatch answered by
    an honest worker ([Worker.v]) on one of the engines ([Backend.v])
    commits. *)

From S2P Require Import Prelude Enums Ids Checksum Model Authority Planning Protocol Backend State.
From S2P Require Import Coordinator Behaviour Machine Worker Safety.

(** ** Completion *)

(** The lifecycle and the result record an accepted completion leads to. *)
Definition completion_outcome (fresh : ResultId) (msg : ResultMsg)
    : ExecutionLifecycle * ExecutionResult :=
  if ResultMsg.unknown msg then
    (ExecutionLifecycle.OUTCOME_UNKNOWN, result_of_msg fresh msg VerifyState.UNKNOWN "" false true)
  else if bool_decide (to_hex (content_digest (ResultMsg.output msg)) = ResultMsg.output_digest msg)
  then (ExecutionLifecycle.COMMITTED,
        result_of_msg fresh msg VerifyState.VERIFIED (ResultMsg.output_digest msg) true false)
  else (ExecutionLifecycle.FAILED,
        result_of_msg fresh msg VerifyState.MISMATCH (ResultMsg.output_digest msg) false false).

Lemma intact_spec msg :
  intact msg = bool_decide (to_hex (content_digest (ResultMsg.output msg)) =
                            ResultMsg.output_digest msg).
Proof. unfold intact. case_bool_decide; [by apply String.eqb_eq|by apply String.eqb_neq]. Qed.

Lemma settle_completion_spec fresh msg p s :
  let '(l, res) := completion_outcome fresh msg in
  let '(r, s') := settle_completion fresh msg p s in
  r = Ok res ∧ results s' = <[fresh := res]> (results s) ∧
  plans s' = <[ResultMsg.plan msg := ExecutionPlan.set_lifecycle l p]> (plans s) ∧
  active_plans s' = delete (ExecutionPlan.operation p) (active_plans s) ∧
  reservations s' = reservations (if bool_decide (l = ExecutionLifecycle.COMMITTED)
                                  then release_reservation p s else s).
Proof.
  unfold settle_completion, completion_outcome. rewrite intact_spec.
  destruct (ResultMsg.unknown msg); [done|]. case_bool_decide; simpl; [|done].
  unfold release_reservation, record_outcome. simpl. by case_match.
Qed.

(** Claim C10: a completion is all or nothing.  Either [apply_result] answers an
    error, leaves the state untouched, and some check of [accepts] fails; or
    every check holds (plan in flight, current epoch, target generation and
    worker boot, the eight pinned dimensions, the dispatch and attempt ids) and
    it stores exactly one result, settles the plan, frees the operation and,
    only on commit, the reservation.  It commits exactly when the outcome is
    not ambiguous and the digest of the output is the one reported. *)
Theorem apply_result_all_or_nothing fresh msg s :
  let '(r, s') := apply_result fresh msg s in
  match r with
  | Err _ => s' = s ∧ ∀ p, ~ accepts s msg p
  | Ok res => ∃ p, accepts s msg p ∧
      let l := (completion_outcome fresh msg).1 in
      res = (completion_outcome fresh msg).2 ∧
      results s' = <[fresh := res]> (results s) ∧
      plans s' = <[ResultMsg.plan msg := ExecutionPlan.set_lifecycle l p]> (plans s) ∧
      active_plans s' = delete (ExecutionPlan.operation p) (active_plans s) ∧
      reservations s' = reservations (if bool_decide (l = ExecutionLifecycle.COMMITTED)
                                      then release_reservation p s else s) ∧
      (ExecutionResult.committed res = true ↔
       ResultMsg.unknown msg = false ∧
       to_hex (content_digest (ResultMsg.output msg)) = ResultMsg.output_digest msg)
  end.
Proof.
  destruct (apply_result_cases fresh msg s) as [(p & Hac & ->)|[e Heq]].
  - pose proof (settle_completion_spec fresh msg p s) as Hs.
    destruct (completion_outcome fresh msg) as [l res] eqn:Ho.
    destruct (settle_completion fresh msg p s) as [r s'].
    destruct Hs as (-> & ? & ? & ? & ?). exists p. simpl. split_and!; try done.
    unfold completion_outcome in Ho.
    destruct (ResultMsg.unknown msg); [by simplify_eq/=; split; [|intros []]|].
    destruct (bool_decide_reflect (to_hex (content_digest (ResultMsg.output msg)) =
      ResultMsg.output_digest msg)); simplify_eq/=; by split; [|intros []].
  - rewrite Heq. split; [done|]. intros p Hac.
    rewrite (apply_result_accepted fresh msg s p Hac) in Heq.
    pose proof (settle_completion_spec fresh msg p s) as Hs. rewrite Heq in Hs.
    destruct (completion_outcome fresh msg). by destruct Hs.
Qed.

(** The target named by a completion is not compared with the plan's
    target: a completion that repeats the pinned generations but names another,
    unregistered target commits, and the stored provenance names that target. *)
Theorem completion_for_other_target_commits :
  let s := demo_state demo_dispatched in
  let msg := {| ResultMsg.plan := 21; ResultMsg.plan_gen := 1; ResultMsg.dispatch := 31;
                ResultMsg.attempt := 41; ResultMsg.target := 99; ResultMsg.target_gen := 1;
                ResultMsg.worker_boot := 11; ResultMsg.epoch := 1; ResultMsg.dataset_gen := 1;
                ResultMsg.region_gen := 1; ResultMsg.operation_gen := 1;
                ResultMsg.result_gen := 1; ResultMsg.output := demo_output;
                ResultMsg.output_digest := to_hex (content_digest demo_output);
                ResultMsg.unknown := false; ResultMsg.note := "" |} in
  ExecutionPlan.target (plan_at 21 s) = 16 ∧
  match apply_result 51 msg s with
  | (Ok res, s') => ExecutionResult.committed res = true ∧ ExecutionResult.target res = 99 ∧
                    lifecycle_of 21 s' = ExecutionLifecycle.COMMITTED
  | (Err _, _) => False
  end.
Proof. vm_compute. by split_and!. Qed.

(** ** Dispatch *)

(** The message repeats the identity and the authority the plan pins. *)
Definition carries_authority (m : DispatchMsg) (p : ExecutionPlan) : Prop :=
  DispatchMsg.target m = ExecutionPlan.target p ∧
  DispatchMsg.plan m = PlanAuthority.plan (ExecutionPlan.authority p) ∧
  DispatchMsg.plan_gen m = PlanAuthority.plan_generation (ExecutionPlan.authority p) ∧
  DispatchMsg.target_gen m = AuthoritySnapshot.target_generation (snapshot_of p) ∧
  DispatchMsg.worker_boot m = AuthoritySnapshot.worker_boot (snapshot_of p) ∧
  DispatchMsg.epoch m = AuthoritySnapshot.epoch (snapshot_of p) ∧
  DispatchMsg.dataset_gen m = AuthoritySnapshot.dataset_generation (snapshot_of p) ∧
  DispatchMsg.region_gen m = AuthoritySnapshot.region_generation (snapshot_of p) ∧
  DispatchMsg.operation_gen m = AuthoritySnapshot.operation_generation (snapshot_of p).

Lemma dispatch_message_pinned s k p op rt w d a :
  ledger_ok s → dispatchable s k p op rt w →
  carries_authority (dispatch_message s p op (TargetRuntime.owner_boot rt) d a) p.
Proof.
  intros Hok [Hp Hl Hc Hop Hrt _].
  destruct (lo_plan _ Hok _ _ Hp) as (_ & _ & (? & ? & ? & ? & ? & ?) & _).
  split_and!; simpl; try done.
  - by apply (pc_runtime _ _ Hc).
  - apply (pc_epoch _ _ Hc).
  - by apply (pc_operation _ _ Hc).
Qed.

(** A dispatch is handed out exactly for a RESERVED plan that is
    current in every dimension the coordinator knows, whose operation and
    target runtime exist and whose owning worker has a session.  The message
    then carries the plan's own identity and pinned authority and the current
    epoch; a RESERVED plan that is stale is superseded instead. *)
Theorem prepare_dispatch_exact k d a s :
  reachable s →
  match prepare_dispatch k d a s with
  | (Ok out, s') => ∃ p op rt w, dispatchable s k p op rt w ∧
      let m := DispatchOutput.message out in
      DispatchOutput.worker out = w ∧ DispatchMsg.dispatch m = d ∧ DispatchMsg.attempt m = a ∧
      carries_authority m p ∧
      s' = set_plans (<[k := ExecutionPlan.set_dispatch d a p]> (plans s)) s
  | (Err e, s') =>
      (∀ p op rt w, ~ dispatchable s k p op rt w) ∧
      (s' = s ∨ ∃ p, plans s !! k = Some p ∧ ~ plan_current s p ∧ code e = "E_STALE_PLAN" ∧
         s' = set_plans (<[k := ExecutionPlan.set_lifecycle ExecutionLifecycle.SUPERSEDED p]>
                           (plans s)) s)
  end.
Proof.
  intros Hok%reachable_ledger.
  destruct (prepare_dispatch_cases k d a s)
    as [(p & op & rt & w & Hd & ->)|[[e Heq]|(e & p & Hp & Hl & Hst & Hcode & Heq)]].
  - exists p, op, rt, w. split; [done|]. split_and!; [done..| |done].
    by eapply dispatch_message_pinned.
  - rewrite Heq. split; [|by left]. intros ???? Hd.
    by rewrite (prepare_dispatch_ok _ _ _ _ _ _ _ _ Hd) in Heq.
  - rewrite Heq. split; [|right; by exists p]. intros ???? [Hp' _ Hc].
    by simplify_eq.
Qed.

Lemma prepare_dispatch_exact_witness :
  match prepare_dispatch 21 31 41 (demo_state demo_reserved) with
  | (Ok out, _) => ∃ p, carries_authority (DispatchOutput.message out) p ∧
                        plans (demo_state demo_reserved) !! 21 = Some p
  | (Err _, _) => False
  end.
Proof.
  assert (Hr : reachable (demo_state demo_reserved))
    by (apply demo_reachable; vm_compute; reflexivity).
  assert (Hv : has_value (prepare_dispatch 21 31 41 (demo_state demo_reserved)).1 = true)
    by (vm_compute; reflexivity).
  pose proof (prepare_dispatch_exact 21 31 41 (demo_state demo_reserved) Hr) as Hex.
  revert Hv Hex. generalize (demo_state demo_reserved). intros s.
  destruct (prepare_dispatch 21 31 41 s) as [[out|e] s']; [|done].
  intros _ (p & op & rt & w & [Hp] & _ & _ & _ & Hm & _). by exists p.
Defined.

(** ** An honest worker's answer commits *)

(** Which operation classes an engine serves. *)
Definition engine_serves (synthetic : bool) (c : OperationClass) : bool :=
  match c with
  | OperationClass.SUM | OperationClass.REDUCE | OperationClass.COUNT | OperationClass.MIN
  | OperationClass.MAX | OperationClass.FILTER => true
  | OperationClass.CHECKSUM | OperationClass.HASH | OperationClass.ELEMENTWISE
  | OperationClass.TRANSFORM => synthetic
  | _ => false
  end.

(** A dispatched payload has its declared size, so an engine refuses only a
    class it does not serve; the digest is that of the output. *)
Lemma worker_execute_spec synthetic ns dm :
  let r := worker_execute synthetic ns dm in
  BackendResult.ok r = engine_serves synthetic (DispatchMsg.op_class dm) ∧
  (BackendResult.ok r = true →
   BackendResult.digest r = content_digest (BackendResult.output r)).
Proof.
  unfold worker_execute, synthetic_execute, host_local_execute.
  destruct synthetic; simpl; rewrite Z.eqb_refl; simpl; by destruct (DispatchMsg.op_class dm).
Qed.

(** The state after a dispatch was prepared and confirmed. *)
Definition dispatched_state (k d a : Z) (p : ExecutionPlan) (s : RuntimeState) : RuntimeState :=
  set_plans (<[k := ExecutionPlan.set_lifecycle ExecutionLifecycle.DISPATCHED
                     (ExecutionPlan.set_dispatch d a p)]> (plans s)) s.

Lemma confirm_after_prepare k d a s p :
  ExecutionPlan.lifecycle p = ExecutionLifecycle.RESERVED →
  confirm_dispatched k d (set_plans (<[k := ExecutionPlan.set_dispatch d a p]> (plans s)) s) =
  (Ok tt, dispatched_state k d a p s).
Proof.
  intros Hl. unfold confirm_dispatched, dispatched_state. simpl.
  rewrite lookup_insert_eq. simpl. rewrite Z.eqb_refl, Hl. simpl.
  by rewrite insert_insert_eq.
Qed.

Lemma honest_answer_accepted s k d a p op rt w r :
  ledger_ok s → dispatchable s k p op rt w →
  accepts (dispatched_state k d a p s)
    (worker_result (dispatch_message s p op (TargetRuntime.owner_boot rt) d a) r)
    (ExecutionPlan.set_lifecycle ExecutionLifecycle.DISPATCHED (ExecutionPlan.set_dispatch d a p)).
Proof.
  intros Hok Hd.
  destruct (dispatch_message_pinned s k p op rt w d a Hok Hd)
    as (Ht & Hpl & Hpg & Htg & Hb & He & Hdg & Hrg & Hog).
  destruct Hd as [Hp Hl Hc Hop Hrt _].
  destruct (lo_plan _ Hok _ _ Hp) as (_ & Hid & _ & _).
  constructor; try done; simpl.
  - by rewrite Hid, lookup_insert_eq.
  - intros td Htd. rewrite (pc_target _ _ Hc td Htd). by rewrite <- Htg.
  - intros rt' Hrt'. by simplify_eq.
Qed.

(** What becomes of a prepared dispatch that an honest worker answers. *)
Lemma honest_outcome s k d a out s1 synthetic ns fresh :
  ledger_ok s → prepare_dispatch k d a s = (Ok out, s1) →
  let dm := DispatchOutput.message out in
  let rm := worker_result dm (worker_execute synthetic ns dm) in
  let serves := engine_serves synthetic (DispatchMsg.op_class dm) in
  ∃ p op rt w, dispatchable s k p op rt w ∧
    dm = dispatch_message s p op (TargetRuntime.owner_boot rt) d a ∧
    confirm_dispatched k d s1 = (Ok tt, dispatched_state k d a p s) ∧
    ∃ res s3, apply_result fresh rm (dispatched_state k d a p s) = (Ok res, s3) ∧
      ExecutionResult.committed res = serves ∧ ExecutionResult.plan res = k ∧
      lifecycle_of k s3 =
        if serves then ExecutionLifecycle.COMMITTED else ExecutionLifecycle.OUTCOME_UNKNOWN.
Proof.
  intros Hok Hprep.
  destruct (prepare_dispatch_cases k d a s)
    as [(p & op & rt & w & Hd & Heq)|[[e Heq]|(e & p & _ & _ & _ & _ & Heq)]];
    rewrite Heq in Hprep; simplify_eq/=.
  exists p, op, rt, w. split_and!; [done..|by apply confirm_after_prepare, Hd|].
  set (dm := dispatch_message s p op (TargetRuntime.owner_boot rt) d a) in *.
  destruct (worker_execute_spec synthetic ns dm) as [Hsv Hdg].
  set (r := worker_execute synthetic ns dm) in *.
  pose proof (honest_answer_accepted s k d a p op rt w r Hok Hd) as Hac. fold dm in Hac.
  pose proof (settle_completion_spec fresh (worker_result dm r)
    (ExecutionPlan.set_lifecycle ExecutionLifecycle.DISPATCHED (ExecutionPlan.set_dispatch d a p))
    (dispatched_state k d a p s)) as Hs.
  rewrite <- (apply_result_accepted _ _ _ _ Hac) in Hs.
  destruct (apply_result fresh (worker_result dm r) _) as [rr s3] eqn:Har.
  simpl in Hsv |- *. rewrite <- Hsv.
  assert (Hplan : ResultMsg.plan (worker_result dm r) = k).
  { simpl. by destruct (lo_plan _ Hok _ _ (dp_plan _ _ _ _ _ _ Hd)) as (_ & -> & _). }
  unfold completion_outcome in Hs.
  cbn [worker_result ResultMsg.unknown ResultMsg.output ResultMsg.output_digest] in Hs.
  destruct (BackendResult.ok r); cbn [negb] in Hs.
  - rewrite Hdg, bool_decide_true in Hs by done. destruct Hs as (-> & _ & Hpl & _).
    eexists _, s3. split_and!; [done..|]. unfold lifecycle_of.
    by rewrite Hpl, Hplan, lookup_insert_eq.
  - destruct Hs as (-> & _ & Hpl & _). eexists _, s3. split_and!; [done..|].
    unfold lifecycle_of. by rewrite Hpl, Hplan, lookup_insert_eq.
Qed.

(** Claim C6: from any reachable state, a dispatch that was prepared and
    confirmed and is then answered by an honest worker is accepted: the worker's
    answer repeats the authority it was sent, so it commits with a verified
    result when the engine serves the operation class, and is recorded as
    OUTCOME_UNKNOWN, without commit, when it does not. *)
Theorem honest_dispatch_commits s k d a out s1 s2 synthetic ns fresh :
  reachable s →
  prepare_dispatch k d a s = (Ok out, s1) → confirm_dispatched k d s1 = (Ok tt, s2) →
  ∃ msg res s3,
    worker_on_dispatch synthetic false ns (DispatchOutput.message out) = Some msg ∧
    apply_result fresh msg s2 = (Ok res, s3) ∧
    ExecutionResult.committed res =
      engine_serves synthetic (DispatchMsg.op_class (DispatchOutput.message out)) ∧
    lifecycle_of k s3 =
      if engine_serves synthetic (DispatchMsg.op_class (DispatchOutput.message out))
      then ExecutionLifecycle.COMMITTED else ExecutionLifecycle.OUTCOME_UNKNOWN.
Proof.
  intros Hok%reachable_ledger Hprep Hconf.
  destruct (honest_outcome s k d a out s1 synthetic ns fresh Hok Hprep)
    as (p & op & rt & w & _ & _ & Hc & res & s3 & Ha & Hr & _ & Hl).
  rewrite Hc in Hconf. injection Hconf as <-. eexists _, res, s3. split; [reflexivity|done].
Qed.

Lemma honest_dispatch_commits_witness :
  ∃ msg res s3,
    worker_on_dispatch true false 0
      (dispatch_message (demo_state demo_reserved) (plan_at 21 (demo_state demo_reserved))
         (small_operation 17) 11 31 41) = Some msg ∧
    apply_result 51 msg (exec (ConfirmDispatched 21 31)
      (exec (PrepareDispatch 21 31 41) (demo_state demo_reserved)).2).2 = (Ok res, s3) ∧
    ExecutionResult.committed res = true ∧
    lifecycle_of 21 s3 = ExecutionLifecycle.COMMITTED.
Proof.
  apply (honest_dispatch_commits (demo_state demo_reserved) 21 31 41
    {| DispatchOutput.ready := true;
       DispatchOutput.message :=
         dispatch_message (demo_state demo_reserved) (plan_at 21 (demo_state demo_reserved))
           (small_operation 17) 11 31 41;
       DispatchOutput.worker := 12 |}
    (exec (PrepareDispatch 21 31 41) (demo_state demo_reserved)).2
    (exec (ConfirmDispatched 21 31)
      (exec (PrepareDispatch 21 31 41) (demo_state demo_reserved)).2).2 true 0 51).
  - apply demo_reachable. vm_compute. reflexivity.
  - vm_compute. reflexivity.
  - vm_compute. reflexivity.
Defined.

(** ** Rejected commands *)

(** Claim C35: a command that answers an error leaves the state as it was, with
    two exceptions.  A refused reservation of a known plan may have created what
    [map\[k\]] creates for the plan's target: an empty reservation entry and, if
    the target has no definition, a default definition.  And a dispatch refused
    for staleness supersedes its plan, which is then not current. *)
Theorem rejected_commands_preserve_state c s e :
  (exec c s).1 = Some e →
  (exec c s).2 = s ∨
  (∃ k p, c = Reserve k ∧ plans s !! k = Some p ∧
     (exec c s).2 = touched (ExecutionPlan.target p) s) ∨
  (∃ k d a p, c = PrepareDispatch k d a ∧ code e = "E_STALE_PLAN" ∧
     plans s !! k = Some p ∧ ~ plan_current s p ∧
     (exec c s).2 = set_plans
       (<[k := ExecutionPlan.set_lifecycle ExecutionLifecycle.SUPERSEDED p]> (plans s)) s).
Proof.
  destruct c; simpl; try done.
  all: try (unfold register_memory_domain, register_dataset, register_region,
    register_program, register_policy, create_operation, apply_register_target,
    apply_capability, apply_data_evidence, apply_heartbeat, begin_drain, cancel_plan,
    confirm_dispatched, retire_target; intros; left; case_all; done).
  - unfold plan_locked. intros. left. case_all; done.
  - destruct (reserve_cases p s) as [(q & rt & d & rs & ws & _ & ->)|[[e' ->]|(e' & q & Hq & _ & ->)]];
      simpl; [done|by left|]. intros. right; left. by exists p, q.
  - destruct (prepare_dispatch_cases p d a s)
      as [(q & op & rt & w & _ & ->)|[[e' ->]|(e' & q & Hq & Hl & Hst & Hc & ->)]];
      simpl; [done|by left|]. intros [= <-]. right; right. by exists p, d, a, q.
  - destruct (apply_result_cases fresh msg s) as [(q & _ & ->)|[e' ->]]; simpl; [|by left].
    unfold settle_completion. by case_all.
Qed.

(** A plan whose target is being drained: its reservation is refused and leaves
    an empty reservation entry behind. *)
Definition demo_drained : RuntimeState := demo_state (demo_planned ++ [BeginDrain 16]).
Definition reservation_entries (s : RuntimeState) : nat := size (reservations s).

Lemma rejected_commands_preserve_state_witness :
  (exec (Reserve 99) (demo_state demo_planned)).2 = demo_state demo_planned ∧
  ∃ p, plans demo_drained !! 21 = Some p ∧
    (exec (Reserve 21) demo_drained).2 = touched (ExecutionPlan.target p) demo_drained.
Proof.
  split.
  2: {
    destruct (rejected_commands_preserve_state (Reserve 21) demo_drained
      (make_error "E_DRAIN" "target not accepting new admission"))
      as [H|[(k & p & [= <-] & Hp & H)|(k & d & a & p & [=] & _)]].
    - vm_compute. reflexivity.
    - exfalso. apply (f_equal reservation_entries) in H. vm_compute in H. discriminate.
    - exists p. split; [exact Hp|exact H]. }
  destruct (rejected_commands_preserve_state (Reserve 99) (demo_state demo_planned)
    (make_error "E_PLAN_NOT_FOUND" "plan not found")) as [H|[(k & p & [= <-] & Hp & _)|(k & d & a & p & [=] & _)]].
  - vm_compute. reflexivity.
  - exact H.
  - exfalso. apply (f_equal (fun o => bool_decide (is_Some o))) in Hp. vm_compute in Hp. discriminate.
Defined.
