(* ===== verification/Admission.v ===== *)
(** * Admission control: reservations against capacity

    What a target has to give, slots and workspace, is one kind of [Resource]:
    the reservation state counts what is taken, and as long as only reserved
    plans are cancelled and targets are registered once the counter stays within
    the target's limit and is never below what the plans in flight hold.  Cancelling a plan that
    was never reserved, and completions that fail, break the two halves of that
    accounting; both are shown on concrete executions. *)

From S2P Require Import Prelude Enums Ids Checksum Model Authority Planning Protocol State.
From S2P Require Import Coordinator Behaviour Machine Worker Safety.

(** ** What the plans of a target hold *)

Definition is_holding (l : ExecutionLifecycle) : bool :=
  match l with
  | ExecutionLifecycle.RESERVED | ExecutionLifecycle.OUTCOME_UNKNOWN => true
  | _ => is_in_flight l
  end.
Definition holds (t : NearMemoryTargetId) (p : ExecutionPlan) : Prop :=
  ExecutionPlan.target p = t ∧ is_holding (ExecutionPlan.lifecycle p) = true.
#[global] Instance holds_dec t p : base.Decision (holds t p).
Proof. unfold holds. apply _. Defined.

(** The plans that hold a slot of the target, and what they hold of a resource
    of which the plan [p] takes [w p]. *)
Definition holding (t : NearMemoryTargetId) (m : gmap Z ExecutionPlan) : nat :=
  size (filter (fun e => holds t e.2) m).
Definition share (w : ExecutionPlan → Z) (t : NearMemoryTargetId) (p : ExecutionPlan) : Z :=
  if decide (holds t p) then w p else 0.
Definition total (w : ExecutionPlan → Z) (t : NearMemoryTargetId) (m : gmap Z ExecutionPlan) : Z :=
  map_fold (fun _ p acc => share w t p + acc) 0 m.

Section Total.
Context (w : ExecutionPlan → Z) (t : NearMemoryTargetId).

Lemma total_fresh k p m : m !! k = None → total w t (<[k := p]> m) = share w t p + total w t m.
Proof. intros Hk. unfold total. rewrite map_fold_insert_L; [done| |done]. intros. lia. Qed.
Lemma total_lookup k p m :
  m !! k = Some p → total w t m = share w t p + total w t (delete k m).
Proof. intros Hk. unfold total. rewrite (map_fold_delete_L _ _ k p m); [done| |done]. intros. lia. Qed.
Lemma total_update k p p' m :
  m !! k = Some p → total w t (<[k := p']> m) = total w t m - share w t p + share w t p'.
Proof.
  intros Hk. rewrite (total_lookup k p' (<[k := p']> m)), delete_insert_eq, (total_lookup k p m)
    by (done || apply lookup_insert_eq). lia.
Qed.

Definition weighed (m : gmap Z ExecutionPlan) : Prop := map_Forall (fun _ p => 0 <= w p < 2 ^ 63) m.

Lemma share_nonneg p : 0 <= w p → 0 <= share w t p.
Proof. unfold share. case_decide; lia. Qed.
Lemma total_nonneg m : weighed m → 0 <= total w t m.
Proof.
  unfold weighed. induction m as [|k p m Hk Hf IH] using map_first_key_ind; intros Hw; [done|].
  rewrite total_fresh by done. apply map_Forall_insert in Hw as [Hp Hw]; [|done].
  pose proof (share_nonneg p ltac:(lia)). specialize (IH Hw). lia.
Qed.
(** Plans may lose what they hold, all at once. *)
Lemma total_fmap f m :
  weighed m → (∀ p, w (f p) = w p ∧ (holds t (f p) → holds t p)) → total w t (f <$> m) <= total w t m.
Proof.
  unfold weighed. intros Hw Hf. induction m as [|k p m Hk _ IH] using map_first_key_ind.
  { by rewrite fmap_empty. }
  apply map_Forall_insert in Hw as [Hp Hw]; [|done]. rewrite fmap_insert.
  rewrite !total_fresh by (by rewrite ?lookup_fmap, ?Hk). specialize (IH Hw).
  destruct (Hf p) as [Hwp Hh]. unfold share at 1. case_decide as Hd.
  - unfold share. rewrite decide_True by auto. lia.
  - pose proof (share_nonneg p ltac:(lia)). lia.
Qed.
End Total.

Lemma holding_total t m : Z.of_nat (holding t m) = total (fun _ => 1) t m.
Proof.
  induction m as [|k p m Hk _ IH] using map_first_key_ind; [done|].
  rewrite total_fresh by done. unfold holding, share in *. rewrite map_filter_insert.
  simpl. case_decide.
  - rewrite map_size_insert, (proj2 (map_lookup_filter_None _ _ _)) by (left; done). lia.
  - by rewrite delete_id.
Qed.

(** ** One resource *)

Definition reserved_of (t : NearMemoryTargetId) (s : RuntimeState) : ReservationState :=
  default ReservationState.dflt (reservations s !! t).

Lemma at_or_insert_snd {V} (d : V) k m : (at_or_insert d k m).2 = <[k := default d (m !! k)]> m.
Proof. unfold at_or_insert. destruct (m !! k) eqn:Hk; simpl; [by rewrite insert_id|done]. Qed.
Lemma is_Some_insert {V} (m : gmap Z V) k v v' t :
  m !! k = Some v' → is_Some (<[k := v]> m !! t) → is_Some (m !! t).
Proof. intros Hk. destruct (decide (k = t)) as [->|]; [eauto|by rewrite lookup_insert_ne]. Qed.
Lemma is_Some_fmap {V} (f : V → V) (m : gmap Z V) t :
  is_Some ((f <$> m) !! t) → is_Some (m !! t).
Proof. by rewrite lookup_fmap, fmap_is_Some. Qed.
Lemma release_frame p s :
  targets (release_reservation p s) = targets s ∧
  target_runtime (release_reservation p s) = target_runtime s ∧
  plans (release_reservation p s) = plans s.
Proof. unfold release_reservation. by case_match. Qed.
Lemma in_flight_holding l : is_in_flight l = true → is_holding l = true.
Proof. by destruct l. Qed.
Lemma entered_holding l :
  entered l → is_settled l = false → l ≠ ExecutionLifecycle.PLANNED → is_holding l = true.
Proof. by destruct l. Qed.

(** The usage discipline: a plan is cancelled only after it was reserved, and a
    target is registered once, with a 32-bit concurrency. *)
Definition disciplined (s : RuntimeState) (c : Command) : Prop :=
  match c with
  | CancelPlan k => ∀ p, plans s !! k = Some p →
      ExecutionPlan.lifecycle p ≠ ExecutionLifecycle.PLANNED
  | ApplyRegisterTarget msg =>
      targets s !! RegisterTargetMsg.target msg = None ∧
      in_u32 (RegisterTargetMsg.concurrency msg)
  | _ => True
  end.

(** A plan takes [weight p] of a resource of which the target has [limit]; the
    reservation state counts what is taken. *)
Record Resource := {
  weight : ExecutionPlan → Z;
  counter : ReservationState → Z;
  limit : TargetDefinition → Z;
  counter_dflt : counter ReservationState.dflt = 0;
  weight_kept p p' : ExecutionPlan.reserved_workspace p' = ExecutionPlan.reserved_workspace p →
    weight p' = weight p;
  counter_released p rs : counter rs < 2 ^ 63 → 0 <= counter rs →
    counter {| ReservationState.reserved_slots :=
                 if 0 <? ReservationState.reserved_slots rs
                 then ReservationState.reserved_slots rs - 1 else ReservationState.reserved_slots rs;
               ReservationState.reserved_workspace :=
                 if ExecutionPlan.reserved_workspace p <=? ReservationState.reserved_workspace rs
                 then ReservationState.reserved_workspace rs - ExecutionPlan.reserved_workspace p
                 else ReservationState.reserved_workspace rs |} =
    if weight p <=? counter rs then counter rs - weight p else counter rs;
  counter_taken s k p rt d rs ws : admits s k p rt d rs ws →
    0 <= counter rs <= limit d → limit d < 2 ^ 63 →
    let p' := ExecutionPlan.set_reserved 1 ws ExecutionLifecycle.RESERVED p in
    0 <= weight p' < 2 ^ 63 →
    counter {| ReservationState.reserved_slots := u64 (ReservationState.reserved_slots rs + 1);
               ReservationState.reserved_workspace :=
                 u64 (ReservationState.reserved_workspace rs + ws) |} = counter rs + weight p' ∧
    counter rs + weight p' <= limit d
}.

Section Accounting.
Context (R : Resource).
Abbreviation count t s := (counter R (reserved_of t s)).

(** Every target has a definition, within the counters; the counter is within
    the limit and covers what the plans hold. *)
Record accounted (s : RuntimeState) : Prop := {
  ac_runtime t : is_Some (target_runtime s !! t) → is_Some (targets s !! t);
  ac_limit t d : targets s !! t = Some d → 0 <= limit R d < 2 ^ 63;
  ac_weighed : weighed (weight R) (plans s);
  ac_counter t rs : reservations s !! t = Some rs → ∃ d, targets s !! t = Some d ∧
    0 <= counter R rs <= limit R d;
  ac_total t : total (weight R) t (plans s) <= count t s
}.

(** A command that changes neither definitions nor reservations, adds no
    runtime, and lets no plan hold more. *)
Lemma accounted_frame s s' :
  accounted s → targets s' = targets s → reservations s' = reservations s →
  (∀ t, is_Some (target_runtime s' !! t) → is_Some (target_runtime s !! t)) →
  weighed (weight R) (plans s') →
  (∀ t, total (weight R) t (plans s') <= total (weight R) t (plans s)) → accounted s'.
Proof.
  intros [Hrt Hlim Hw Hc Ht] Hts Hr Hd Hw' Hle. split; rewrite ?Hts, ?Hr; auto.
  intros t. unfold reserved_of. rewrite Hr. etrans; [apply Hle|apply Ht].
Qed.

(** One plan changes without taking more. *)
Lemma accounted_one s s' k p p' :
  accounted s → targets s' = targets s → reservations s' = reservations s →
  target_runtime s' = target_runtime s → plans s !! k = Some p →
  plans s' = <[k := p']> (plans s) →
  ExecutionPlan.reserved_workspace p' = ExecutionPlan.reserved_workspace p →
  (∀ t, holds t p' → holds t p) → accounted s'.
Proof.
  intros Hok Hts Hr Hrt Hp Hpl Hws Hh. pose proof (ac_weighed _ Hok k p Hp) as Hwp. simpl in Hwp.
  apply (weight_kept R) in Hws. eapply accounted_frame; [done|done|done|by rewrite Hrt|..]; rewrite Hpl.
  - apply map_Forall_insert_2; [by rewrite Hws|apply Hok].
  - intros t. rewrite (total_update _ _ k p) by done. unfold share. rewrite Hws.
    repeat case_decide; try lia. exfalso. by eauto.
Qed.

(** Every plan changes, none taking more. *)
Lemma accounted_all s s' f :
  accounted s → targets s' = targets s → reservations s' = reservations s →
  (∀ t, is_Some (target_runtime s' !! t) → is_Some (target_runtime s !! t)) →
  plans s' = f <$> plans s →
  (∀ p, ExecutionPlan.reserved_workspace (f p) = ExecutionPlan.reserved_workspace p ∧
        ExecutionPlan.target (f p) = ExecutionPlan.target p ∧
        (is_holding (ExecutionPlan.lifecycle (f p)) = true →
         is_holding (ExecutionPlan.lifecycle p) = true)) → accounted s'.
Proof.
  intros Hok Hts Hr Hrt Hpl Hf. eapply accounted_frame; [done|done|done|done|..]; rewrite Hpl.
  - intros k p (p0 & <- & Hk)%lookup_fmap_Some. rewrite (weight_kept R p0) by apply Hf.
    by apply (ac_weighed _ Hok k).
  - intros t. apply total_fmap; [apply Hok|]. intros p. destruct (Hf p) as (Hws & Htp & Hh).
    split; [by apply weight_kept|]. unfold holds. rewrite Htp. tauto.
Qed.

(** A plan that held its share gives it back. *)
Lemma count_release t p s :
  accounted s → 0 <= weight R p →
  count t (release_reservation p s) =
  if decide (ExecutionPlan.target p = t)
  then (if weight R p <=? count t s then count t s - weight R p else count t s) else count t s.
Proof.
  intros Hok Hw. unfold reserved_of, release_reservation.
  destruct (reservations s !! ExecutionPlan.target p) as [rs|] eqn:Hrs; simpl.
  - case_decide as Ht; [subst t|by rewrite lookup_insert_ne].
    rewrite lookup_insert_eq, Hrs. simpl.
    destruct (ac_counter _ Hok _ _ Hrs) as (d & Hd & Hb). pose proof (ac_limit _ Hok _ _ Hd).
    apply counter_released; lia.
  - case_decide as Ht; [subst t|done]. rewrite Hrs. simpl. rewrite counter_dflt.
    destruct (Z.leb_spec (weight R p) 0); lia.
Qed.

Lemma accounted_release s s' k p p' :
  accounted s → plans s !! k = Some p → is_holding (ExecutionPlan.lifecycle p) = true →
  is_holding (ExecutionPlan.lifecycle p') = false →
  ExecutionPlan.reserved_workspace p' = ExecutionPlan.reserved_workspace p →
  targets s' = targets s → target_runtime s' = target_runtime s →
  reservations s' = reservations (release_reservation p s) →
  plans s' = <[k := p']> (plans s) → accounted s'.
Proof.
  intros Hok Hp Hh Hh' Hws Ht Hrt Hr Hpl. apply (weight_kept R) in Hws.
  pose proof (ac_weighed _ Hok k p Hp) as Hwp. simpl in Hwp.
  assert (Hct : ∀ t, count t s' = count t (release_reservation p s)).
  { intros t. unfold reserved_of. by rewrite Hr. }
  split; rewrite ?Ht, ?Hrt, ?Hpl; [apply Hok|apply Hok| | |].
  - apply map_Forall_insert_2; [by rewrite Hws|apply Hok].
  - intros t rs. rewrite Hr. intros Hrs. pose proof (count_release t p s Hok ltac:(lia)) as Hc.
    unfold reserved_of in Hc at 1. rewrite Hrs in Hc. simpl in Hc.
    assert (Hold : is_Some (reservations s !! t)).
    { revert Hrs. unfold release_reservation.
      destruct (reservations s !! ExecutionPlan.target p) as [rs0|] eqn:E; [|intros; by eexists].
      simpl. intros Hrs. eapply is_Some_insert; [exact E|]. by eexists. }
    destruct Hold as [rs0 Hrs0]. destruct (ac_counter _ Hok _ _ Hrs0) as (d & Hd & Hb).
    exists d. split; [done|]. rewrite Hc. unfold reserved_of. rewrite Hrs0. simpl.
    repeat case_match; lia.
  - intros t. rewrite Hct, count_release, (total_update _ _ k p) by (done || lia).
    pose proof (ac_total _ Hok t) as Hle. unfold share.
    rewrite (decide_False (P := holds t p')) by (intros [_ ?]; congruence).
    rewrite (total_lookup _ _ k p) in Hle by done. unfold share in Hle.
    assert (Hrest : 0 <= total (weight R) t (delete k (plans s)))
      by (apply total_nonneg, map_Forall_delete, Hok).
    rewrite (total_lookup _ _ k p) by done. unfold share.
    destruct (decide (ExecutionPlan.target p = t)) as [Htp|Htp].
    + rewrite decide_True in * by done. destruct (Z.leb_spec (weight R p) (count t s)); lia.
    + rewrite decide_False in * by (intros [? _]; done). lia.
Qed.

Lemma accounted_cancel k s :
  accounted s → ledger_ok s → disciplined s (CancelPlan k) → accounted (cancel_plan k s).2.
Proof.
  intros Hok Hl Hd. unfold cancel_plan.
  destruct (plans s !! k) as [p|] eqn:Hp; [|done].
  destruct (is_settled _) eqn:Hs; [done|].
  destruct (release_frame p s) as (Ht & Hrt & Hpl).
  destruct (lo_plan _ Hl _ _ Hp) as (_ & _ & _ & He).
  eapply (accounted_release s _ k p); [done|done| | | |done|done|done|simpl; by rewrite Hpl]; [|done..].
  by apply entered_holding, Hd.
Qed.

Lemma accounted_result fresh msg s : accounted s → accounted (apply_result fresh msg s).2.
Proof.
  intros Hok. destruct (apply_result_cases fresh msg s) as [(p & [Hp Hfl] & ->)|[e ->]]; [|done].
  unfold settle_completion. repeat case_match; simpl.
  - eapply (accounted_one s _ _ p); [done|done|done|done|done|done|done|].
    intros t [Ht _]. split; [done|by apply in_flight_holding].
  - eapply (accounted_one s _ _ p); [done|done|done|done|done|done|done|]. by intros t [_ [=]].
  - set (s1 := record_outcome _ _ _ _).
    destruct (release_frame p s1) as (Ht & Hrt & Hpl).
    eapply (accounted_release s _ (ResultMsg.plan msg) p); [done|done| | | |done|done| |exact Hpl].
    + by apply in_flight_holding.
    + done.
    + done.
    + unfold release_reservation. simpl. by case_match.
Qed.

Lemma touched_accounted s t :
  accounted s → is_Some (target_runtime s !! t) → accounted (touched t s).
Proof.
  intros Hok Hrt. destruct (ac_runtime _ Hok _ Hrt) as [d Hd].
  assert (Hts : targets (touched t s) = targets s).
  { simpl. rewrite at_or_insert_snd, Hd. simpl. by rewrite insert_id. }
  split; rewrite ?Hts; simpl; [apply Hok..| |].
  - rewrite at_or_insert_snd. intros t' rs [[<- <-]|[_ Hrs]]%lookup_insert_Some; [|by apply Hok].
    destruct (reservations s !! t) as [rs|] eqn:Hrs; simpl; [by apply Hok|].
    exists d. split; [done|]. rewrite counter_dflt. pose proof (ac_limit _ Hok _ _ Hd). lia.
  - intros t'. pose proof (ac_total _ Hok t') as Hle. unfold reserved_of in *. simpl.
    rewrite at_or_insert_snd. destruct (decide (t = t')) as [->|];
      [by rewrite lookup_insert_eq|by rewrite lookup_insert_ne].
Qed.

Lemma accounted_reserve k s :
  accounted s →
  (∀ p rt d rs ws, admits s k p rt d rs ws →
     0 <= weight R (ExecutionPlan.set_reserved 1 ws ExecutionLifecycle.RESERVED p) < 2 ^ 63) →
  accounted (reserve k s).2.
Proof.
  intros Hok Hwt. destruct (reserve_cases k s)
    as [(p & rt & d & rs & ws & Had & ->)|[[e ->]|(e & p & Hp & Hrt & ->)]]; [|done|by apply touched_accounted].
  specialize (Hwt _ _ _ _ _ Had). pose proof Had as [Hp Hl Hrt Hd Hrs _ _ _ _ _].
  pose proof (touched_accounted s (ExecutionPlan.target p) Hok ltac:(by eexists)) as Ht.
  destruct (ac_runtime _ Hok (ExecutionPlan.target p) ltac:(by eexists)) as [d' Hd'].
  rewrite Hd' in Hd. simpl in Hd. subst d'. pose proof (ac_limit _ Hok _ _ Hd') as Hlim.
  assert (Hb : 0 <= counter R rs <= limit R d).
  { rewrite Hrs. destruct (reservations s !! _) as [rs'|] eqn:E; simpl.
    - destruct (ac_counter _ Hok _ _ E) as (d1 & ? & ?). by simplify_eq.
    - rewrite counter_dflt. lia. }
  destruct (counter_taken R _ _ _ _ _ _ _ Had Hb ltac:(lia) Hwt) as [Hc Hle].
  split; [apply Ht|apply Ht| | |]; simpl.
  - apply map_Forall_insert_2; [done|apply Hok].
  - intros t rs' [[<- <-]|[_ Hrs']]%lookup_insert_Some; [|by apply (ac_counter _ Ht)].
    exists d. rewrite Hc, at_or_insert_snd, Hd'. simpl. rewrite insert_id by done. split; [done|lia].
  - intros t. rewrite (total_update _ _ k p) by done. pose proof (ac_total _ Hok t) as Htot.
    unfold reserved_of in *. simpl. rewrite at_or_insert_snd. unfold share.
    rewrite (decide_False (P := holds t p)) by (intros [_ Hx]; by rewrite Hl in Hx).
    destruct (decide (ExecutionPlan.target p = t)) as [<-|Hne].
    + rewrite decide_True by done. rewrite lookup_insert_eq. simpl. rewrite Hc, Hrs. lia.
    + rewrite decide_False by (intros [Hx _]; done). rewrite !lookup_insert_ne by done. lia.
Qed.

Lemma accounted_register msg s :
  accounted s → disciplined s (ApplyRegisterTarget msg) → 0 <= limit R (definition_of msg) < 2 ^ 63 →
  accounted (apply_register_target msg s).2.
Proof.
  intros Hok [Hno _] Hlim. unfold apply_register_target. case_match; [done|]. simpl. split; simpl.
  - intros t. destruct (decide (RegisterTargetMsg.target msg = t)) as [<-|];
      [by rewrite !lookup_insert_eq|rewrite !lookup_insert_ne by done; apply (ac_runtime _ Hok)].
  - intros t d [[<- <-]|[_ Hd]]%lookup_insert_Some; [done|by eapply (ac_limit _ Hok)].
  - apply Hok.
  - intros t rs Hrs. destruct (ac_counter _ Hok _ _ Hrs) as (d & Hd & Hb). exists d.
    by rewrite lookup_insert_ne by congruence.
  - apply (ac_total _ Hok).
Qed.

Lemma accounted_plan fresh op s :
  plans s !! fresh = None → (∀ tid o, weight R (build_plan fresh s o tid) = 0 ∨
    weight R (build_plan fresh s o tid) = 1) →
  accounted s → accounted (plan_locked fresh op s).2.
Proof.
  intros Hf Hw Hok. unfold plan_locked. case_all; try done.
  eapply accounted_frame; [exact Hok|done|done|done|..]; simpl.
  - apply map_Forall_insert_2; [|apply Hok]. simpl.
    match goal with |- 0 <= weight R (build_plan _ _ ?o ?tid) < _ => destruct (Hw tid o) as [-> | ->] end; lia.
  - intros t. rewrite total_fresh by done. unfold share. rewrite decide_False; [lia|]. by intros [_ [=]].
Qed.

Lemma accounted_dispatch k d a s : accounted s → accounted (prepare_dispatch k d a s).2.
Proof.
  intros Hok. destruct (prepare_dispatch_cases k d a s)
    as [(p & op & rt & w & [Hp Hl] & ->)|[[e ->]|(e & p & Hp & Hl & _ & _ & ->)]]; [|done|].
  - eapply (accounted_one s _ k p); done.
  - eapply (accounted_one s _ k p); try done. by intros t [_ [=]].
Qed.

Lemma accounted_confirm k d s : accounted s → accounted (confirm_dispatched k d s).2.
Proof.
  intros Hok. unfold confirm_dispatched. destruct (plans s !! k) as [p|] eqn:Hp; [|done].
  case_match; [done|]. case_bool_decide as Hl; [|done]. simpl.
  eapply (accounted_one s _ k p); try done. intros t [Ht _]. split; [done|]. simpl. by rewrite Hl.
Qed.

Lemma fence_plan_holding b p :
  ExecutionPlan.reserved_workspace (fence_plan b p) = ExecutionPlan.reserved_workspace p ∧
  ExecutionPlan.target (fence_plan b p) = ExecutionPlan.target p ∧
  (is_holding (ExecutionPlan.lifecycle (fence_plan b p)) = true →
   is_holding (ExecutionPlan.lifecycle p) = true).
Proof.
  unfold fence_plan. destruct (_ && _); [|done]. split; [done|]. split; [done|]. simpl.
  by destruct (ExecutionPlan.lifecycle p).
Qed.

(** What a command brings in is within the counters: targets, new plans and what
    a reservation takes. *)
Definition measured (s : RuntimeState) (c : Command) : Prop :=
  match c with
  | ApplyRegisterTarget msg => 0 <= limit R (definition_of msg) < 2 ^ 63
  | PlanOperation fresh _ => ∀ tid o, weight R (build_plan fresh s o tid) = 0 ∨
      weight R (build_plan fresh s o tid) = 1
  | Reserve k => ∀ p rt d rs ws, admits s k p rt d rs ws →
      0 <= weight R (ExecutionPlan.set_reserved 1 ws ExecutionLifecycle.RESERVED p) < 2 ^ 63
  | _ => True
  end.

Lemma accounted_step s c s' :
  ledger_ok s → disciplined s c → measured s c → step s c s' → accounted s → accounted s'.
Proof.
  intros Hl Hd Hm Hst. revert Hd Hm. destruct Hst as [c' Hf]. intros Hd Hm Hok.
  destruct c'; simpl in Hf |- *.
  all: try (unfold attach_coordinator, register_memory_domain, register_dataset,
    register_region, register_program, register_policy, create_operation,
    bind_worker_session, apply_capability, apply_data_evidence; case_all; try done;
    by eapply accounted_frame; try done; apply Hok).
  - by apply accounted_register.
  - unfold apply_heartbeat. case_all; try done. simpl. eapply accounted_frame; try done; [|apply Hok].
    intros ?. by eapply is_Some_insert.
  - destruct Hf. by apply accounted_plan.
  - by apply accounted_reserve.
  - by apply accounted_dispatch.
  - by apply accounted_confirm.
  - by apply accounted_result.
  - unfold begin_drain. case_all; try done. simpl. eapply accounted_frame; try done; [|apply Hok].
    intros ?. by eapply is_Some_insert.
  - by apply accounted_cancel.
  - by eapply (accounted_all s _ (fence_plan boot)); try done; [intros t; apply is_Some_fmap|apply fence_plan_holding].
  - by eapply (accounted_all s _ (fence_plan boot)); try done; [intros t; apply is_Some_fmap|apply fence_plan_holding].
  - unfold retire_target. case_all; try done. eapply (accounted_all s _ (retire_plan t)); try done; simpl.
    + intros ?. by eapply is_Some_insert.
    + intros p. unfold retire_plan. by case_match.
  - eapply accounted_all; [exact Hok|reflexivity|reflexivity|intros t; apply is_Some_fmap|reflexivity|].
    intros p. split_and!; [done..|]. simpl. by destruct (ExecutionPlan.lifecycle p).
Qed.
End Accounting.

(** ** Slots and workspace *)

Definition slots_of (t : NearMemoryTargetId) (s : RuntimeState) : Z :=
  ReservationState.reserved_slots (reserved_of t s).
Definition workspace_of (t : NearMemoryTargetId) (s : RuntimeState) : Z :=
  ReservationState.reserved_workspace (reserved_of t s).

Program Definition slots : Resource :=
  {| weight := fun _ => 1; counter := ReservationState.reserved_slots;
     limit := TargetDefinition.concurrency_capacity |}.
Next Obligation. done. Qed.
Next Obligation. done. Qed.
Next Obligation.
  simpl. intros _ rs _ Hn. destruct (Z.ltb_spec 0 (ReservationState.reserved_slots rs)),
    (Z.leb_spec 1 (ReservationState.reserved_slots rs)); lia.
Qed.
Next Obligation.
  simpl. intros s k p rt d rs ws Had Hb Hl _. pose proof (ad_slots _ _ _ _ _ _ _ Had).
  rewrite u64_small by (unfold in_u64, UINT64_MAX; lia). lia.
Qed.

Program Definition workspace : Resource :=
  {| weight := ExecutionPlan.reserved_workspace; counter := ReservationState.reserved_workspace;
     limit := TargetDefinition.workspace_bytes |}.
Next Obligation. done. Qed.
Next Obligation. done. Qed.
Next Obligation. done. Qed.
Next Obligation.
  simpl. intros s k p rt d rs ws Had Hb Hl Hw. pose proof (ad_fits _ _ _ _ _ _ _ Had) as Hf.
  rewrite u64_small in Hf |- * by (unfold in_u64, UINT64_MAX; lia). lia.
Qed.

Lemma accounted_new R id : accounted R (new_coordinator id).
Proof.
  split; simpl; intros *; rewrite ?lookup_empty; try done.
  unfold reserved_of. simpl. rewrite lookup_empty. simpl. by rewrite counter_dflt.
Qed.

Lemma guarded_slots s : guarded disciplined s → accounted slots s.
Proof.
  induction 1 as [id|s c s' Hg IH Hd Hst]; [apply accounted_new|].
  eapply accounted_step; [|exact Hd| |exact Hst|exact IH]; [by eapply reachable_ledger, guarded_reachable|].
  destruct c; simpl; try done.
  - destruct Hd as [_ Hc]. ranges.
  - by right.
Qed.

(** The discipline with workspaces that two 64-bit counters can add up. *)
Definition sized (s : RuntimeState) (c : Command) : Prop :=
  disciplined s c ∧
  match c with
  | ApplyRegisterTarget msg => 0 <= RegisterTargetMsg.workspace msg < 2 ^ 63
  | CreateOperation op => 0 <= OperationSpec.workspace_bytes op < 2 ^ 63
  | _ => True
  end.
Definition sized_operations (s : RuntimeState) : Prop :=
  map_Forall (fun _ op => 0 <= OperationSpec.workspace_bytes op < 2 ^ 63) (operations s).

Lemma operations_step c s :
  operations (exec c s).2 = operations s ∨
  ∃ op, c = CreateOperation op ∧
    operations (exec c s).2 = <[OperationSpec.id op := op]> (operations s).
Proof.
  destruct c; simpl.
  all: try (left; unfold attach_coordinator, register_memory_domain, register_dataset,
    register_region, register_program, register_policy, bind_worker_session, apply_register_target,
    apply_capability, apply_data_evidence, apply_heartbeat, plan_locked, reserve, prepare_dispatch,
    confirm_dispatched, begin_drain, cancel_plan, release_reservation, retire_target; case_all; done).
  - unfold create_operation. case_all; [by left..|]. right. by exists op.
  - left. destruct (apply_result_cases fresh msg s) as [(p & _ & ->)|[e ->]]; [|done].
    unfold settle_completion, release_reservation. case_all; done.
Qed.

Lemma guarded_workspace s : guarded sized s → accounted workspace s ∧ sized_operations s.
Proof.
  induction 1 as [id|s c s' Hg [IH Hop] [Hd Hz] Hst]; [split; [apply accounted_new|done]|].
  split.
  - eapply accounted_step; [|exact Hd| |exact Hst|exact IH]; [by eapply reachable_ledger, guarded_reachable|].
    destruct c; simpl; try done; [by left|].
    intros q rt d rs ws Had. rewrite (ad_ws _ _ _ _ _ _ _ Had).
    destruct (operations s !! _) as [op|] eqn:Ho; [by apply (Hop _ _ Ho)|lia].
  - destruct Hst as [c _]. destruct (operations_step c s) as [Heq|(op & -> & Heq)];
      unfold sized_operations; rewrite Heq; [done|]. by apply map_Forall_insert_2.
Qed.

(** ** Properties *)

(** Claim C26: admission never exceeds capacity.  In every execution that
    registers each target once and cancels only plans that were reserved, a
    target's count of reserved slots stays within its concurrency and is at
    least the number of plans holding one, so the plans reserved or in flight on
    a target never outnumber its capacity.  If moreover no workspace is 2^63
    bytes or more, the count of reserved workspace stays within the target's
    budget and covers what those plans hold together. *)
Theorem admission_within_capacity s t d :
  guarded disciplined s → targets s !! t = Some d →
  Z.of_nat (holding t (plans s)) <= slots_of t s <= TargetDefinition.concurrency_capacity d ∧
  (guarded sized s →
   total ExecutionPlan.reserved_workspace t (plans s) <= workspace_of t s <=
     TargetDefinition.workspace_bytes d).
Proof.
  assert (Hac : ∀ R, accounted R s → targets s !! t = Some d →
    total (weight R) t (plans s) <= counter R (reserved_of t s) <= limit R d).
  { intros R Hok Hd. split; [apply Hok|]. unfold reserved_of.
    destruct (reservations s !! t) as [rs|] eqn:Hrs; simpl.
    - destruct (ac_counter _ _ Hok _ _ Hrs) as (d' & Hd' & Hb). simplify_eq. lia.
    - rewrite counter_dflt. pose proof (ac_limit _ _ Hok _ _ Hd). lia. }
  intros Hg Hd. rewrite holding_total. split; [by apply (Hac slots), Hd; apply guarded_slots|].
  intros Hz. by apply (Hac workspace), Hd; apply guarded_workspace.
Qed.

Definition disciplined_b (s : RuntimeState) (c : Command) : bool :=
  match c with
  | CancelPlan k => match plans s !! k with
                    | Some p => negb (bool_decide (ExecutionPlan.lifecycle p =
                                                   ExecutionLifecycle.PLANNED))
                    | None => true
                    end
  | ApplyRegisterTarget msg =>
      bool_decide (targets s !! RegisterTargetMsg.target msg = None) &&
      (0 <=? RegisterTargetMsg.concurrency msg) &&
      (RegisterTargetMsg.concurrency msg <? 4294967296)
  | _ => true
  end.

Lemma disciplined_check s c : disciplined_b s c = true → disciplined s c.
Proof.
  destruct c; simpl; try done.
  - rewrite !andb_true_iff, bool_decide_eq_true. intros [[? ?%Z.leb_le] ?%Z.ltb_lt].
    split; [|done]. done.
  - intros H q Hq. rewrite Hq in H. by apply negb_true_iff, bool_decide_eq_false in H.
Qed.

Definition small (n : Z) : bool := (0 <=? n) && (n <? 2 ^ 63).
Definition sized_b (s : RuntimeState) (c : Command) : bool :=
  disciplined_b s c &&
  match c with
  | ApplyRegisterTarget msg => small (RegisterTargetMsg.workspace msg)
  | CreateOperation op => small (OperationSpec.workspace_bytes op)
  | _ => true
  end.

Lemma sized_check s c : sized_b s c = true → sized s c.
Proof.
  unfold sized_b, sized, small. rewrite andb_true_iff. intros [Hd Hc].
  split; [by apply disciplined_check|].
  destruct c; try done; apply andb_true_iff in Hc as [?%Z.leb_le ?%Z.ltb_lt]; done.
Qed.
Lemma sized_guarded s : guarded sized s → guarded disciplined s.
Proof. induction 1 as [|s c s' _ IH [Hd _] Hst]; [constructor|by econstructor]. Qed.

(** The small scenario run under the discipline. *)
Definition guarded_state (cs : list Command) : RuntimeState :=
  default (new_coordinator 1) (run_guarded sized_b (small_demo ++ cs) (new_coordinator 1)).

Lemma guarded_state_ok cs : guarded sized (guarded_state cs).
Proof.
  unfold guarded_state. destruct (run_guarded _ _ _) as [s|] eqn:Hs; simpl; [|constructor].
  eapply run_guarded_sound; [apply sized_check|constructor|exact Hs].
Qed.

Lemma admission_within_capacity_witness :
  Z.of_nat (holding 16 (plans (guarded_state demo_dispatched))) = 1 ∧
  slots_of 16 (guarded_state demo_dispatched) <= 2 ∧
  total ExecutionPlan.reserved_workspace 16 (plans (guarded_state demo_dispatched)) <=
    workspace_of 16 (guarded_state demo_dispatched).
Proof.
  split; [vm_compute; reflexivity|].
  assert (Hd : TargetDefinition.concurrency_capacity <$>
    targets (guarded_state demo_dispatched) !! 16 = Some 2) by (vm_compute; reflexivity).
  pose proof (admission_within_capacity (guarded_state demo_dispatched) 16) as Hadm.
  pose proof (guarded_state_ok demo_dispatched) as Hg.
  revert Hd Hadm Hg. generalize (guarded_state demo_dispatched). intros s.
  destruct (targets s !! 16) as [d|]; [|done]. intros [= Hd] Hadm Hg. rewrite <- Hd.
  destruct (Hadm d (sized_guarded s Hg) eq_refl) as [[_ Hsl] Hws].
  split; [exact Hsl|exact (proj1 (Hws Hg))].
Defined.

(** Four operations; two are reserved, filling the target of capacity two. *)
Definition crowd : list Command :=
  [CreateOperation (small_operation 19); CreateOperation (small_operation 20);
   PlanOperation 21 17; PlanOperation 22 18; PlanOperation 23 19; PlanOperation 24 20;
   Reserve 21; Reserve 22].

(** A completion whose digest does not match, for the given plan. *)
Definition corrupt (k d a : Z) : ResultMsg :=
  {| ResultMsg.plan := k; ResultMsg.plan_gen := 1; ResultMsg.dispatch := d;
     ResultMsg.attempt := a; ResultMsg.target := 16; ResultMsg.target_gen := 1;
     ResultMsg.worker_boot := 11; ResultMsg.epoch := 1; ResultMsg.dataset_gen := 1;
     ResultMsg.region_gen := 1; ResultMsg.operation_gen := 1; ResultMsg.result_gen := 1;
     ResultMsg.output := [1]; ResultMsg.output_digest := "bad"; ResultMsg.unknown := false;
     ResultMsg.note := "" |}.

(** The slot count drifts both ways from the plans that hold slots.
    [cancel_plan] releases a slot even for a plan that never held one: with the
    target of capacity two full, cancelling a merely PLANNED plan lets a third
    plan be reserved.  And of the completions only a commit releases a
    reservation: after two completions that fail verification no plan holds a
    slot, yet the target still counts two and refuses every reservation. *)
Theorem slot_accounting_drifts :
  (error_code (reserve 24 (demo_state crowd)).1 = Some "E_CONCURRENCY" ∧
   lifecycle_of 23 (demo_state crowd) = ExecutionLifecycle.PLANNED ∧
   let s := demo_state (crowd ++ [CancelPlan 23; Reserve 24]) in
   TargetDefinition.concurrency_capacity <$> targets s !! 16 = Some 2 ∧
   holding 16 (plans s) = 3%nat ∧ slots_of 16 s = 2) ∧
  let s := demo_state (crowd ++
    [PrepareDispatch 21 31 41; ConfirmDispatched 21 31; ApplyResult 51 (corrupt 21 31 41);
     PrepareDispatch 22 32 42; ConfirmDispatched 22 32; ApplyResult 52 (corrupt 22 32 42)]) in
  lifecycle_of 21 s = ExecutionLifecycle.FAILED ∧ lifecycle_of 22 s = ExecutionLifecycle.FAILED ∧
  holding 16 (plans s) = 0%nat ∧ slots_of 16 s = 2 ∧
  error_code (reserve 23 s).1 = Some "E_CONCURRENCY".
Proof. vm_compute. by split_and!. Qed.
