(* ===== verification/Targets.v ===== *)
(** * The life of a target

    What each method does to the runtime record of a target: the edges of its
    lifecycle, and why a target that is not known to be current is given no
    work until its worker reports it again. *)

From S2P Require Import Prelude Enums Ids Model Codec Protocol Planning State Coordinator.
From S2P Require Import Behaviour Machine Worker Planner Safety Completion Admission.

(** ** Edges *)

(** The runtime of the target [t] after a command, from the runtime before. *)
Definition next_runtime (t : NearMemoryTargetId) (c : Command) (o : option TargetRuntime)
    : option TargetRuntime :=
  let unless_terminal f rt :=
    if is_terminal_target (TargetRuntime.lifecycle rt) then rt else f rt in
  let lost := TargetRuntime.invalidate TargetLifecycle.REVALIDATION_REQUIRED in
  match c with
  | ApplyRegisterTarget msg =>
      if negb (is_null (RegisterTargetMsg.target msg) || is_null (RegisterTargetMsg.generation msg))
         && (RegisterTargetMsg.target msg =? t)
      then Some (runtime_of msg) else o
  | ApplyHeartbeat msg => if HeartbeatMsg.target msg =? t then unless_terminal (observe msg) <$> o else o
  | BeginDrain t' =>
      if t' =? t then unless_terminal (TargetRuntime.set_lifecycle TargetLifecycle.DRAINING) <$> o else o
  | FenceWorker b | OnWorkerDisconnected b =>
      (fun rt => if TargetRuntime.owner_boot rt =? b then lost rt else rt) <$> o
  | RetireTarget t' =>
      if t' =? t then TargetRuntime.invalidate TargetLifecycle.RETIRED <$> o else o
  | AdvanceEpoch => lost <$> o
  | _ => o
  end.

Lemma plan_locked_runtime fresh op s : target_runtime (plan_locked fresh op s).2 = target_runtime s.
Proof. unfold plan_locked. by case_all. Qed.
Lemma reserve_runtime k s : target_runtime (reserve k s).2 = target_runtime s.
Proof. unfold reserve. by case_all. Qed.
Lemma prepare_dispatch_runtime k d a s :
  target_runtime (prepare_dispatch k d a s).2 = target_runtime s.
Proof. unfold prepare_dispatch. by case_all. Qed.
Lemma confirm_dispatched_runtime k d s :
  target_runtime (confirm_dispatched k d s).2 = target_runtime s.
Proof. unfold confirm_dispatched. by case_all. Qed.
Lemma cancel_plan_runtime k s : target_runtime (cancel_plan k s).2 = target_runtime s.
Proof.
  unfold cancel_plan. case_all; try done.
  by rewrite (proj1 (proj2 (release_frame _ _))).
Qed.
Lemma apply_result_runtime fresh msg s : target_runtime (apply_result fresh msg s).2 = target_runtime s.
Proof.
  destruct (apply_result_cases fresh msg s) as [(p & _ & ->)|[e ->]]; [|done].
  unfold settle_completion. repeat case_match; simpl; try done.
  all: by rewrite (proj1 (proj2 (release_frame _ _))).
Qed.

(** Every command moves every target along one edge. *)
Lemma exec_next_runtime t c s :
  target_runtime (exec c s).2 !! t = next_runtime t c (target_runtime s !! t).
Proof.
  destruct c; simpl.
  all: try (unfold attach_coordinator, register_memory_domain, register_dataset,
    register_region, register_program, register_policy, create_operation, bind_worker_session,
    apply_capability, apply_data_evidence; case_all; done).
  all: try (f_equal; first [apply plan_locked_runtime | apply reserve_runtime
    | apply prepare_dispatch_runtime | apply confirm_dispatched_runtime | apply cancel_plan_runtime
    | apply apply_result_runtime]).
  - unfold apply_register_target. case_match; [done|]. simpl.
    destruct (Z.eqb_spec (RegisterTargetMsg.target msg) t) as [<-|]; [by rewrite lookup_insert_eq|].
    by rewrite lookup_insert_ne.
  - unfold apply_heartbeat.
    destruct (Z.eqb_spec (HeartbeatMsg.target msg) t) as [<-|Hne].
    + destruct (target_runtime s !! _) as [rt|] eqn:Hrt; simpl; [|done].
      destruct (is_terminal_target _); simpl; [done|by rewrite lookup_insert_eq].
    + case_all; try done. by rewrite lookup_insert_ne.
  - unfold begin_drain. destruct (Z.eqb_spec t0 t) as [<-|Hne].
    + destruct (target_runtime s !! _) as [rt|] eqn:Hrt; simpl; [|done].
      destruct (is_terminal_target _); simpl; [done|by rewrite lookup_insert_eq].
    + case_all; try done. by rewrite lookup_insert_ne.
  - apply lookup_fmap.
  - apply lookup_fmap.
  - unfold retire_target. destruct (Z.eqb_spec t0 t) as [<-|Hne].
    + destruct (target_runtime s !! _) as [rt|] eqn:Hrt; simpl; [by rewrite lookup_insert_eq|done].
    + case_all; try done. by rewrite lookup_insert_ne.
  - apply lookup_fmap.
Qed.

(** ** Where plans come from *)

Lemma insert_known (s : RuntimeState) k' p' k p q :
  plans s !! k' = Some q → <[k' := p']> (plans s) !! k = Some p → is_Some (plans s !! k).
Proof. intros Hq [[<- _]|[_ Hk]]%lookup_insert_Some; by eexists. Qed.

(** A plan that was not there was created by planning its operation. *)
Lemma exec_plan_origin c s k p :
  plans (exec c s).2 !! k = Some p →
  is_Some (plans s !! k) ∨
  ∃ op out s1, c = PlanOperation k op ∧ plan_locked k op s = (Ok out, s1) ∧
    PlanOutput.created out = true ∧ p = PlanOutput.plan out.
Proof.
  destruct c; simpl.
  all: try (unfold attach_coordinator, register_memory_domain, register_dataset,
    register_region, register_program, register_policy, create_operation,
    bind_worker_session, apply_register_target, apply_capability, apply_data_evidence,
    apply_heartbeat, begin_drain; case_all; (left; by eexists)).
  all: try (unfold fence_worker, on_worker_disconnected, invalidate_boot, advance_epoch; simpl;
    rewrite lookup_fmap; intros (? & ? & _)%fmap_Some; (left; by eexists)).
  - destruct (plan_locked fresh op s) as [[out|e] s1] eqn:Hpl; simpl.
    2: { unfold plan_locked in Hpl. case_all; (left; by eexists). }
    destruct (PlanOutput.created out) eqn:Hc.
    + destruct (plan_locked_created _ _ _ _ _ Hpl Hc) as (? & ? & ? & ? & _ & _ & _ & _ & _ & _ & ->).
      simpl. intros [[<- <-]|[_ ?]]%lookup_insert_Some; [right; eexists _, _, _; by split_and!|left; by eexists].
    + destruct (plan_locked_not_created _ _ _ _ _ Hpl Hc) as [-> _]. (left; by eexists).
  - destruct (reserve_cases p0 s) as [(q & rt & d & rs & ws & [Hq _] & ->)|[[e ->]|(e & q & _ & _ & ->)]];
      simpl; [|(left; by eexists)..]. left. by eapply insert_known.
  - destruct (prepare_dispatch_cases p0 d a s)
      as [(q & op & rt & w & [Hq _] & ->)|[[e ->]|(e & q & Hq & _ & _ & _ & ->)]]; simpl; [|(left; by eexists)|];
      left; by eapply insert_known.
  - unfold confirm_dispatched. destruct (plans s !! p0) as [q|] eqn:Hq; [|(left; by eexists)].
    case_all; try (left; by eexists). left. by eapply insert_known.
  - destruct (apply_result_cases fresh msg s) as [(q & [Hq _] & ->)|[e ->]]; [|(left; by eexists)].
    unfold settle_completion. repeat case_match; simpl;
      rewrite ?(proj1 (release_reservation_frame _ _)); simpl; left; by eapply insert_known.
  - unfold cancel_plan. destruct (plans s !! p0) as [q|] eqn:Hq; [|(left; by eexists)].
    case_match; [(left; by eexists)|]. simpl. rewrite (proj1 (release_reservation_frame _ _)).
    left. by eapply insert_known.
  - unfold retire_target. case_match; [|(left; by eexists)]. simpl.
    rewrite lookup_fmap. intros (? & ? & _)%fmap_Some. (left; by eexists).
Qed.

(** ** Silent targets *)

(** Nothing current is known of the target. *)
Definition silent (t : NearMemoryTargetId) (s : RuntimeState) : Prop :=
  ∀ rt, target_runtime s !! t = Some rt → TargetRuntime.dynamic_current rt = false.
(** The worker of the target reports it. *)
Definition reports (t : NearMemoryTargetId) (c : Command) : Prop :=
  match c with ApplyHeartbeat msg => HeartbeatMsg.target msg = t | _ => False end.
#[global] Instance reports_dec t c : base.Decision (reports t c).
Proof. destruct c; simpl; apply _. Defined.
(** The command ends what was known of the target: its registration, its
    retirement, the loss of its worker, a new epoch. *)
Definition silences (t : NearMemoryTargetId) (c : Command) (s : RuntimeState) : Prop :=
  match c with
  | ApplyRegisterTarget msg =>
      RegisterTargetMsg.target msg = t ∧ t ≠ 0 ∧ RegisterTargetMsg.generation msg ≠ 0
  | RetireTarget t' => t' = t
  | FenceWorker b | OnWorkerDisconnected b =>
      ∀ rt, target_runtime s !! t = Some rt → TargetRuntime.owner_boot rt = b
  | AdvanceEpoch => True
  | _ => False
  end.

Lemma silences_silent t c s : silences t c s → silent t (exec c s).2.
Proof.
  intros Hs rt. rewrite exec_next_runtime. destruct c; try done; simpl in *.
  - destruct Hs as (-> & H0 & Hg). unfold is_null.
    rewrite (proj2 (Z.eqb_neq _ _) H0), (proj2 (Z.eqb_neq _ _) Hg), Z.eqb_refl. by intros [= <-].
  - intros (rt0 & Hrt & ->)%fmap_Some. by rewrite (Hs _ Hrt), Z.eqb_refl.
  - intros (rt0 & Hrt & ->)%fmap_Some. by rewrite (Hs _ Hrt), Z.eqb_refl.
  - subst. rewrite Z.eqb_refl. by intros (rt0 & _ & ->)%fmap_Some.
  - by intros (rt0 & _ & ->)%fmap_Some.
Qed.

Lemma silent_step t c s : silent t s → ~ reports t c → silent t (exec c s).2.
Proof.
  intros Hs Hr rt. rewrite exec_next_runtime. destruct c; simpl in *; try apply Hs.
  - case_match; [intros [= <-]; reflexivity|apply Hs].
  - rewrite (proj2 (Z.eqb_neq _ _) Hr). apply Hs.
  - case_match; [|apply Hs]. intros (rt0 & Hrt & ->)%fmap_Some. case_match; apply (Hs rt0 Hrt).
  - intros (rt0 & Hrt & ->)%fmap_Some. case_match; [done|apply (Hs rt0 Hrt)].
  - intros (rt0 & Hrt & ->)%fmap_Some. case_match; [done|apply (Hs rt0 Hrt)].
  - case_match; [|apply Hs]. by intros (rt0 & _ & ->)%fmap_Some.
  - by intros (rt0 & _ & ->)%fmap_Some.
Qed.

(** A silent target is not planned on, and no plan on it can be dispatched. *)
Lemma silent_not_planned t k op s out s1 :
  silent t s → plan_locked k op s = (Ok out, s1) → PlanOutput.created out = true →
  ExecutionPlan.target (PlanOutput.plan out) ≠ t.
Proof.
  intros Hs Hp Hc Ht.
  destruct (plan_locked_created _ _ _ _ _ Hp Hc) as (o & pol & best & rest & _ & _ & _ & Hrk & _ & Hpl & _).
  assert (Hbest : best ∈ omap (candidate_of s o pol) (map_entries (targets s))).
  { rewrite <- rank_candidates_perm, Hrk. left. }
  apply elem_of_candidates in Hbest as (tid & tdef & rt & caps & Hct & ->).
  destruct (candidate_target_eligible _ _ _ _ _ _ _ Hct) as (data & _ & Hel).
  destruct Hct as (_ & Hrt & _). rewrite Hpl in Ht. simpl in Ht. subst.
  pose proof (el_current _ _ _ _ _ _ _ _ _ Hel) as Hcur. rewrite (Hs _ Hrt) in Hcur. done.
Qed.
Lemma silent_not_dispatched t k d a s p :
  silent t s → plans s !! k = Some p → ExecutionPlan.target p = t →
  ∃ e s', prepare_dispatch k d a s = (Err e, s').
Proof.
  intros Hs Hp Ht.
  destruct (prepare_dispatch_cases k d a s)
    as [(q & op & rt & w & [Hq _ Hcur _ Hrt _] & _)|[[e ->]|(e & q & _ & _ & _ & _ & ->)]]; [|by eauto..].
  simplify_eq. destruct (pc_runtime _ _ Hcur _ Hrt) as [_ Hdc]. by rewrite (Hs _ Hrt) in Hdc.
Qed.

Lemma silent_execution t s cs s' :
  silent t s → Forall (fun c => ~ reports t c) cs → execution s cs s' →
  silent t s' ∧ ∀ k p, plans s' !! k = Some p → ExecutionPlan.target p = t → is_Some (plans s !! k).
Proof.
  intros Hs Hc Hex. induction Hex as [|cs c s1 s2 Hex IH Hst]; [by eauto|].
  apply Forall_app in Hc as [Hc Hl]. apply Forall_cons_iff in Hl as [Hl _].
  destruct (IH Hc) as [Hs1 Hp1]. destruct Hst as [c Hf]. split; [by apply silent_step|].
  intros k p Hp Ht. destruct (exec_plan_origin _ _ _ _ Hp) as [[p1 Hk]|(op & out & s3 & -> & Hpl & Hcr & ->)].
  - destruct (effect_plan_forward _ _ _ _ (exec_effect c s1 Hf) Hk) as (p2 & Hp2 & Hid & _).
    apply (Hp1 k p1 Hk). simplify_eq. unfold plan_identity in Hid. congruence.
  - by destruct (silent_not_planned t k op s1 out s3 Hs1 Hpl Hcr).
Qed.

(** ** Properties *)

(** Targets follow their lifecycle.  What a method does to each target
    is a function of the target's record alone: a registration starts it anew,
    REGISTERED and with nothing current; a heartbeat sets what the worker reports
    and a drain sets DRAINING, both only for a target that is neither RETIRED nor
    FAILED; the loss of its worker and a new epoch leave it
    REVALIDATION_REQUIRED, unreachable and not current; a retirement leaves it
    RETIRED, likewise; no other method touches it. *)
Theorem targets_follow_lifecycle t s c s' :
  step s c s' → target_runtime s' !! t = next_runtime t c (target_runtime s !! t).
Proof. intros [c' _]. apply exec_next_runtime. Qed.

Lemma targets_follow_lifecycle_witness :
  TargetRuntime.lifecycle <$> target_runtime (exec (BeginDrain 16) (demo_state [])).2 !! 16 =
  Some TargetLifecycle.DRAINING.
Proof.
  rewrite (targets_follow_lifecycle 16 (demo_state []) (BeginDrain 16) (exec (BeginDrain 16) (demo_state [])).2).
  - vm_compute. reflexivity.
  - constructor. exact I.
Defined.

(** Claim C27: a target nobody vouches for gets no work.  From its registration,
    its retirement, the loss of its worker or a new epoch on, and until a
    heartbeat reports the target, whatever other commands are issued: no plan is
    created on it, and no plan on it, however old, can be dispatched. *)
Theorem silent_targets_get_no_work t c s cs s' :
  silences t c s → Forall (fun c => ~ reports t c) cs → execution (exec c s).2 cs s' →
  (∀ k p, plans s' !! k = Some p → ExecutionPlan.target p = t → is_Some (plans s !! k)) ∧
  ∀ k d a p, plans s' !! k = Some p → ExecutionPlan.target p = t →
    ∃ e s1, prepare_dispatch k d a s' = (Err e, s1).
Proof.
  intros Hs Hc Hex. pose proof (silences_silent t c s Hs) as Hs0.
  destruct (silent_execution _ _ _ _ Hs0 Hc Hex) as [Hs' Hp]. split; [|intros; by eapply silent_not_dispatched].
  intros k p Hk Ht. destruct (Hp k p Hk Ht) as [p1 Hp1].
  destruct (exec_plan_origin _ _ _ _ Hp1) as [?|(op & out & s3 & -> & _)]; [done|by destruct Hs].
Qed.

Lemma silent_targets_get_no_work_witness :
  ∃ e s1, prepare_dispatch 21 31 41 (exec (RegisterPolicy builtin_policy)
    (exec (ApplyRegisterTarget (demo_register demo_ids)) (demo_state demo_reserved)).2).2 = (Err e, s1).
Proof.
  destruct (silent_targets_get_no_work 16 (ApplyRegisterTarget (demo_register demo_ids))
    (demo_state demo_reserved) [RegisterPolicy builtin_policy] (exec (RegisterPolicy builtin_policy)
    (exec (ApplyRegisterTarget (demo_register demo_ids)) (demo_state demo_reserved)).2).2) as [_ Hd].
  - split; [reflexivity|]. split; discriminate.
  - constructor; [|constructor]. intros H. exact H.
  - apply (execution_snoc _ [] _ (exec (ApplyRegisterTarget (demo_register demo_ids)) (demo_state demo_reserved)).2);
      constructor. exact I.
  - eapply (Hd 21 31 41); [apply plan_at_some; vm_compute; reflexivity|vm_compute; reflexivity].
Defined.
