(* ===== verification/Index.v ===== *)
(** * The active-plan index

    [active_plans] is the index behind duplicate suppression: one unsettled plan
    per operation.  It is kept by every method as long as no ambiguous
    completion is accepted; one ambiguous completion is enough to break it,
    which is shown on a concrete execution. *)

From S2P Require Import Prelude Enums Ids Checksum Model Authority Planning Protocol State.
From S2P Require Import Coordinator Behaviour Machine Worker Safety.

Definition unsettled (p : ExecutionPlan) : Prop :=
  is_settled (ExecutionPlan.lifecycle p) = false.

(** Every unsettled plan is the indexed plan of its operation. *)
Definition index_ok (s : RuntimeState) : Prop :=
  ∀ k p, plans s !! k = Some p → unsettled p →
    active_plans s !! ExecutionPlan.operation p = Some k.

Lemma index_unique s k1 k2 p1 p2 :
  index_ok s → plans s !! k1 = Some p1 → plans s !! k2 = Some p2 → unsettled p1 → unsettled p2 →
  ExecutionPlan.operation p1 = ExecutionPlan.operation p2 → k1 = k2.
Proof.
  intros Hix H1 H2 U1 U2 Hop. pose proof (Hix _ _ H1 U1) as A1.
  pose proof (Hix _ _ H2 U2) as A2. rewrite Hop in A1. congruence.
Qed.

Lemma unsettled_step l l' :
  lifecycle_step l l' → is_settled l' = false → is_settled l = false.
Proof. destruct 1; try done; by destruct l. Qed.

Lemma plan_step_unsettled p p' :
  plan_step p p' → unsettled p' →
  unsettled p ∧ ExecutionPlan.operation p = ExecutionPlan.operation p'.
Proof.
  unfold unsettled. intros [Hid Hl] Hu. split; [|by injection Hid].
  by eapply unsettled_step.
Qed.

(** ** Rebuilding *)

Lemma rebuild_lookup l m (k : Z) p :
  (k, p) ∈ l → unsettled p →
  (∀ k' p', (k', p') ∈ l → unsettled p' →
     ExecutionPlan.operation p' = ExecutionPlan.operation p →
     ExecutionPlan.id p' = ExecutionPlan.id p) →
  fold_left rebuild_step l m !! ExecutionPlan.operation p = Some (ExecutionPlan.id p).
Proof.
  induction l as [|[k' p'] l IH] using rev_ind; [by intros ?%elem_of_nil|].
  intros Hin Hu Huniq. rewrite fold_left_app. simpl. unfold rebuild_step at 1. simpl.
  destruct (is_settled (ExecutionPlan.lifecycle p')) eqn:Hs.
  - apply elem_of_app in Hin as [Hin|[= <- <-]%list_elem_of_singleton]; [|congruence].
    apply IH; [done..|]. intros k0 p0 Hin0. apply (Huniq k0). by apply elem_of_app; left.
  - destruct (decide (ExecutionPlan.operation p' = ExecutionPlan.operation p)) as [Heq|Hne].
    + rewrite <- Heq, lookup_insert_eq. f_equal. apply (Huniq k'); [|done..].
      apply elem_of_app. right. left.
    + rewrite lookup_insert_ne by done.
      apply elem_of_app in Hin as [Hin|[= <- <-]%list_elem_of_singleton]; [|done].
      apply IH; [done..|]. intros k0 p0 Hin0. apply (Huniq k0). by apply elem_of_app; left.
Qed.

(** Changing plans by lifecycle steps and rebuilding keeps the index. *)
Lemma rebuild_index s s1 f :
  index_ok s → ledger_ok s → (∀ p, plan_step p (f p)) → plans s1 = f <$> plans s →
  index_ok (rebuild_active_plans s1).
Proof.
  intros Hix Hl Hf Hpl k p' Hk Hu. simpl in *. rewrite Hpl in *.
  assert (Hback : ∀ k p', (f <$> plans s) !! k = Some p' → unsettled p' →
    ∃ p, plans s !! k = Some p ∧ unsettled p ∧
         ExecutionPlan.operation p = ExecutionPlan.operation p' ∧ ExecutionPlan.id p' = k).
  { intros k0 q'. rewrite lookup_fmap. destruct (plans s !! k0) as [q|] eqn:Hq; [|done].
    intros [= <-] Hu0. exists q. destruct (plan_step_unsettled q (f q) (Hf q) Hu0).
    split_and!; try done. rewrite (plan_step_id q) by done. by apply (lo_plan _ Hl). }
  destruct (Hback _ _ Hk Hu) as (p & Hp & Hup & Hop & Hid). transitivity (Some (ExecutionPlan.id p')); [|by rewrite Hid].
  apply (rebuild_lookup _ _ k); [by apply elem_of_map_entries|done|].
  intros k2 q' Hin Hu2 Hop2. apply elem_of_map_entries in Hin.
  destruct (Hback _ _ Hin Hu2) as (q & Hq & Huq & Hopq & Hidq). rewrite Hid, Hidq.
  eapply (index_unique s k2 k q p); [done..|congruence].
Qed.

(** ** Preservation *)

(** No ambiguous completion is delivered. *)
Definition unambiguous (s : RuntimeState) (c : Command) : Prop :=
  match c with
  | ApplyResult _ msg => ResultMsg.unknown msg = false
  | _ => True
  end.

Lemma index_frame s s' :
  index_ok s → active_plans s' = active_plans s → plans s' = plans s → index_ok s'.
Proof. intros Hix Ha Hp k p. rewrite Ha, Hp. apply Hix. Qed.

Lemma index_one s s' k p p' :
  index_ok s → plans s !! k = Some p → plan_step p p' → active_plans s' = active_plans s →
  plans s' = <[k := p']> (plans s) → index_ok s'.
Proof.
  intros Hix Hp Hst Ha Hpl k' q Hq Hu. rewrite Ha. rewrite Hpl in Hq.
  apply lookup_insert_Some in Hq as [[<- <-]|[_ Hq]]; [|by apply Hix].
  destruct (plan_step_unsettled _ _ Hst Hu) as [Hup <-]. by apply Hix.
Qed.

(** Settling an unsettled plan and freeing its operation. *)
Lemma index_settle s s' k p p' :
  index_ok s → plans s !! k = Some p → unsettled p → ~ unsettled p' →
  active_plans s' = delete (ExecutionPlan.operation p) (active_plans s) →
  plans s' = <[k := p']> (plans s) → index_ok s'.
Proof.
  intros Hix Hp Hup Hs Ha Hpl k' q Hq Hu. rewrite Ha. rewrite Hpl in Hq.
  apply lookup_insert_Some in Hq as [[<- <-]|[Hne Hq]]; [done|].
  rewrite lookup_delete_ne; [by apply Hix|]. intros Hop. apply Hne.
  by eapply (index_unique s k k').
Qed.

Lemma plan_locked_index fresh op s :
  plans s !! fresh = None → index_ok s → index_ok (plan_locked fresh op s).2.
Proof.
  intros Hf Hix. unfold plan_locked.
  destruct (operations s !! op) as [o|]; [|done].
  destruct (policies s !! _) as [pol|]; [|done]. case_bool_decide as Hact; [done|].
  apply eq_None_not_Some in Hact. case_match; [done|]. case_match; [|done].
  intros k p. simpl. intros [[<- <-]|[Hne Hp]]%lookup_insert_Some Hu; simpl.
  - by rewrite lookup_insert_eq.
  - pose proof (Hix k p Hp Hu) as Hk. rewrite lookup_insert_ne; [done|congruence].
Qed.

Lemma in_flight_unsettled l : is_in_flight l = true → is_settled l = false.
Proof. by destruct l. Qed.

Lemma apply_result_index fresh msg s :
  ResultMsg.unknown msg = false → index_ok s → index_ok (apply_result fresh msg s).2.
Proof.
  intros Hun Hix.
  destruct (apply_result_cases fresh msg s) as [(p & [Hp Hfl] & ->)|[e ->]]; [|done].
  unfold settle_completion. rewrite Hun.
  destruct (negb (intact msg)); simpl.
  - eapply (index_settle s _ (ResultMsg.plan msg) p); [done|done| | |done|done].
    + by apply in_flight_unsettled.
    + done.
  - set (s1 := record_outcome _ _ _ _).
    destruct (release_reservation_frame p s1) as (Hpl & _ & Ha).
    eapply (index_settle s _ (ResultMsg.plan msg) p); [done|done| | |exact Ha|exact Hpl].
    + by apply in_flight_unsettled.
    + done.
Qed.

Lemma index_step s c s' :
  ledger_ok s → unambiguous s c → step s c s' → index_ok s → index_ok s'.
Proof.
  intros Hl Hun Hst. revert Hun. destruct Hst as [c' Hf]. intros Hun Hix.
  destruct c'; simpl in Hf |- *.
  all: try (unfold attach_coordinator, register_memory_domain, register_dataset,
    register_region, register_program, register_policy, create_operation,
    bind_worker_session, apply_register_target, apply_capability, apply_data_evidence,
    apply_heartbeat, begin_drain; case_all; done).
  - destruct Hf. by apply plan_locked_index.
  - destruct (reserve_cases p s)
      as [(q & rt & d & rs & ws & [Hp Hpl] & ->)|[[e ->]|(e & q & _ & _ & ->)]]; [|done..].
    eapply (index_one s _ p q); [done..| |done|done].
    split; [done|]. simpl. rewrite Hpl. constructor.
  - destruct (prepare_dispatch_cases p d a s)
      as [(q & op & rt & w & [Hp Hpl] & ->)|[[e ->]|(e & q & Hp & Hpl & _ & _ & ->)]]; [|done|].
    + eapply (index_one s _ p q); [done..| |done|done]. by split; [|constructor].
    + eapply (index_one s _ p q); [done..| |done|done].
      apply plan_step_lifecycle. rewrite Hpl. constructor.
  - unfold confirm_dispatched. destruct (plans s !! p) as [q|] eqn:Hp; [|done].
    case_match; [done|]. case_bool_decide as Hpl; [|done].
    eapply (index_one s _ p q); [done..| |done|done].
    apply plan_step_lifecycle. rewrite Hpl. constructor.
  - by apply apply_result_index.
  - unfold cancel_plan. destruct (plans s !! p) as [q|] eqn:Hp; [|done].
    destruct (is_settled _) eqn:Hs; [done|].
    destruct (release_reservation_frame q s) as (Hpl & _ & Ha).
    eapply (index_settle s _ p q); [done|done|done| |simpl; by rewrite Ha|simpl; by rewrite Hpl].
    done.
  - eapply (rebuild_index s _ (fence_plan boot)); [done|done|apply fence_plan_step|done].
  - eapply (rebuild_index s _ (fence_plan boot)); [done|done|apply fence_plan_step|done].
  - unfold retire_target. case_match; [|done].
    eapply (rebuild_index s _ (retire_plan t)); [done|done|apply retire_plan_step|done].
  - eapply (rebuild_index s); [done|done| |reflexivity].
    intros p. apply plan_step_lifecycle, epoch_lifecycle_step.
Qed.

Lemma guarded_index s : guarded unambiguous s → index_ok s.
Proof.
  induction 1 as [id|s c s' Hg IH Hu Hst]; [by intros k p ?|].
  eapply index_step; [|done|done|done]. by eapply reachable_ledger, guarded_reachable.
Qed.

(** ** Properties *)

(** Claim C28: duplicate suppression.  In every execution in which no ambiguous
    completion is delivered, an operation has at most one plan that is not
    settled, and that plan is the one the active-plan index names, so a second
    plan for the operation is refused with E_PLAN_ACTIVE. *)
Theorem one_active_plan_per_operation s k p :
  guarded unambiguous s → plans s !! k = Some p → unsettled p →
  active_plans s !! ExecutionPlan.operation p = Some k ∧
  (∀ k' p', plans s !! k' = Some p' → unsettled p' →
     ExecutionPlan.operation p' = ExecutionPlan.operation p → k' = k) ∧
  (∀ fresh op pol, operations s !! ExecutionPlan.operation p = Some op →
     OperationSpec.id op = ExecutionPlan.operation p →
     policies s !! OperationSpec.policy op = Some pol →
     plan_locked fresh (ExecutionPlan.operation p) s =
       (fail "E_PLAN_ACTIVE" "an active plan already exists for this operation", s)).
Proof.
  intros Hix%guarded_index Hp Hu. pose proof (Hix k p Hp Hu) as Hk. split_and!; [done| |].
  - intros k' p' Hp' Hu' Hop. by eapply (index_unique s k' k p' p).
  - intros fresh op pol Hop Hid Hpol. unfold plan_locked. rewrite Hop, Hpol, Hid.
    by rewrite bool_decide_true by by eexists.
Qed.

Definition unambiguous_b (s : RuntimeState) (c : Command) : bool :=
  match c with ApplyResult _ msg => negb (ResultMsg.unknown msg) | _ => true end.

Lemma unambiguous_check s c : unambiguous_b s c = true → unambiguous s c.
Proof. destruct c; simpl; try done. by intros ->%negb_true_iff. Qed.

Definition unambiguous_state (cs : list Command) : RuntimeState :=
  default (new_coordinator 1) (run_guarded unambiguous_b (small_demo ++ cs) (new_coordinator 1)).

Lemma unambiguous_state_ok cs : guarded unambiguous (unambiguous_state cs).
Proof.
  unfold unambiguous_state. destruct (run_guarded _ _ _) as [s|] eqn:Hs; simpl; [|constructor].
  eapply run_guarded_sound; [apply unambiguous_check|constructor|exact Hs].
Qed.

Lemma one_active_plan_per_operation_witness :
  active_plans (unambiguous_state demo_dispatched) !!
    ExecutionPlan.operation (plan_at 21 (unambiguous_state demo_dispatched)) = Some 21.
Proof.
  apply (one_active_plan_per_operation (unambiguous_state demo_dispatched) 21
    (plan_at 21 (unambiguous_state demo_dispatched))).
  - apply unambiguous_state_ok.
  - apply plan_at_some. vm_compute. reflexivity.
  - vm_compute. reflexivity.
Defined.

(** Plan 30 of operation 17 ends in an ambiguous completion and plan 22 is
    created; fencing an unrelated worker rebuilds the index, which now names
    plan 30 again; cancelling plan 30 frees the operation while plan 22 is
    still live. *)
Definition ambiguous_run : list Command :=
  [PlanOperation 30 17; Reserve 30; PrepareDispatch 30 31 41; ConfirmDispatched 30 31;
   ApplyResult 51 {| ResultMsg.plan := 30; ResultMsg.plan_gen := 1; ResultMsg.dispatch := 31;
     ResultMsg.attempt := 41; ResultMsg.target := 16; ResultMsg.target_gen := 1;
     ResultMsg.worker_boot := 11; ResultMsg.epoch := 1; ResultMsg.dataset_gen := 1;
     ResultMsg.region_gen := 1; ResultMsg.operation_gen := 1; ResultMsg.result_gen := 1;
     ResultMsg.output := []; ResultMsg.output_digest := ""; ResultMsg.unknown := true;
     ResultMsg.note := "" |};
   PlanOperation 22 17; FenceWorker 99; CancelPlan 30; PlanOperation 23 17].

(** An accepted ambiguous completion defeats duplicate suppression:
    the plan leaves the index but stays unsettled, a later rebuild indexes it
    over the live plan, and cancelling it leaves one operation with two live
    plans, both reservable. *)
Theorem ambiguous_completion_breaks_index :
  let s := demo_state ambiguous_run in
  lifecycle_of 22 s = ExecutionLifecycle.PLANNED ∧
  lifecycle_of 23 s = ExecutionLifecycle.PLANNED ∧
  ExecutionPlan.operation (plan_at 22 s) = 17 ∧ ExecutionPlan.operation (plan_at 23 s) = 17 ∧
  error_code (reserve 22 s).1 = None ∧ error_code (reserve 23 (reserve 22 s).2).1 = None.
Proof. vm_compute. by split_and!. Qed.
