(* ===== verification/Ledger.v ===== *)
(** * The ledger specification and the coordinator's refinement of it

    What clients of the coordinator rely on, stated without its maps: a ledger
    that gives every plan one of four statuses.  A plan is opened once, may be
    started, may be closed without effect, and may be completed once, with one
    verified result that is final.  Every command of the coordinator is a step
    of the ledger. *)

From S2P Require Import Prelude Enums Ids Model Authority Planning Protocol State Coordinator.
From S2P Require Import Behaviour Machine Worker Safety.

(** ** The specification *)

Inductive Status : Type :=
| Waiting
| Flying
| Closed
| Done (r : ExecutionResult).

Abbreviation Ledger := (gmap ExecutionPlanId Status).

Definition is_done (st : Status) : bool := match st with Done _ => true | _ => false end.

Inductive ledger_step (a : Ledger) : Ledger → Prop :=
| l_stutter : ledger_step a a
| l_open k : a !! k = None → ledger_step a (<[k := Waiting]> a)
| l_start k : a !! k = Some Waiting → ledger_step a (<[k := Flying]> a)
| l_finish k r :
    a !! k = Some Flying → ExecutionResult.plan r = k → ExecutionResult.committed r = true →
    ExecutionResult.verification r = VerifyState.VERIFIED →
    ExecutionResult.ambiguous r = false → ledger_step a (<[k := Done r]> a)
| l_close a' :
    (∀ k, a' !! k = a !! k ∨
          ∃ st, a !! k = Some st ∧ is_done st = false ∧ a' !! k = Some Closed) →
    ledger_step a a'.

(** ** The abstraction *)

Definition status (s : RuntimeState) (k : ExecutionPlanId) (p : ExecutionPlan) : Status :=
  match ExecutionPlan.lifecycle p with
  | ExecutionLifecycle.COMMITTED => Done (result_of k s)
  | l => if is_resolved l then Closed else if is_in_flight l then Flying else Waiting
  end.

Definition ledger_of (s : RuntimeState) : Ledger :=
  map_imap (fun k p => Some (status s k p)) (plans s).

Lemma lookup_ledger s k : ledger_of s !! k = status s k <$> plans s !! k.
Proof. unfold ledger_of. rewrite map_lookup_imap. by destruct (plans s !! k). Qed.

(** [result_of] answers the plan's one result. *)
Lemma find_result_spec s k r :
  ledger_ok s →
  find_result k s = Some r ↔ ∃ rid, results s !! rid = Some r ∧ ExecutionResult.plan r = k.
Proof.
  intros Hok. unfold find_result. split.
  - intros ([rid r'] & Hf & Heq)%fmap_Some. simpl in Heq. subst r'.
    apply find_some in Hf as [Hin%list_elem_of_In Hk%Z.eqb_eq].
    apply elem_of_map_entries in Hin. by exists rid.
  - intros (rid & Hr & Hk).
    destruct (List.find _ _) as [[rid' r']|] eqn:Hf; simpl.
    + apply find_some in Hf as [Hin%list_elem_of_In Hk'%Z.eqb_eq].
      apply elem_of_map_entries in Hin. simpl in Hk'.
      assert (rid = rid') as -> by (eapply (lo_unique _ Hok); [done|done|congruence]).
      congruence.
    + apply elem_of_map_entries, list_elem_of_In in Hr.
      eapply (find_none _ _ Hf) in Hr. simpl in Hr. by rewrite Hk, Z.eqb_refl in Hr.
Qed.

Lemma result_of_stable s s' k p :
  ledger_ok s → ledger_ok s' → results s ⊆ results s' → plans s !! k = Some p →
  ExecutionPlan.lifecycle p = ExecutionLifecycle.COMMITTED → result_of k s' = result_of k s.
Proof.
  intros Hok Hok' Hsub Hp Hc. apply (lo_commit _ Hok k p Hp) in Hc as (rid & r & Hr & Hk & _).
  unfold result_of. rewrite (proj2 (find_result_spec s k r Hok)) by by exists rid.
  rewrite (proj2 (find_result_spec s' k r Hok')); [done|].
  exists rid. split; [|done]. by eapply lookup_weaken.
Qed.

(** A plan's status does not depend on results of other plans. *)
Lemma status_stable s s' k p p' :
  ledger_ok s → ledger_ok s' → results s ⊆ results s' → plans s !! k = Some p →
  ExecutionPlan.lifecycle p' = ExecutionPlan.lifecycle p → status s' k p' = status s k p.
Proof.
  intros Hok Hok' Hsub Hp Hl. unfold status. rewrite Hl.
  destruct (ExecutionPlan.lifecycle p) eqn:Hc; try done.
  f_equal. by eapply result_of_stable.
Qed.

Lemma status_closed s k p :
  is_resolved (ExecutionPlan.lifecycle p) = true →
  ExecutionPlan.lifecycle p ≠ ExecutionLifecycle.COMMITTED → status s k p = Closed.
Proof. unfold status. by destruct (ExecutionPlan.lifecycle p). Qed.

Lemma status_done s k p :
  is_done (status s k p) = true ↔ ExecutionPlan.lifecycle p = ExecutionLifecycle.COMMITTED.
Proof. unfold status. by destruct (ExecutionPlan.lifecycle p). Qed.

(** ** Each effect is a ledger step *)

Section Refinement.
Context (s s' : RuntimeState).
Context (Hok : ledger_ok s) (Hok' : ledger_ok s') (Hsub : results s ⊆ results s').

Lemma ledger_insert k p' :
  plans s' = <[k := p']> (plans s) → ledger_of s' = <[k := status s' k p']> (ledger_of s).
Proof using Hok Hok' Hsub.
  intros Hpl. apply map_eq. intros j. rewrite lookup_ledger, Hpl.
  destruct (decide (k = j)) as [->|Hne]; [by rewrite !lookup_insert_eq|].
  rewrite !lookup_insert_ne, lookup_ledger by done.
  destruct (plans s !! j) as [p|] eqn:Hj; simpl; [|done].
  f_equal. by apply status_stable.
Qed.

(** A single plan closed, or left in its status. *)
Lemma ledger_close_one k p p' :
  plans s !! k = Some p → plans s' = <[k := p']> (plans s) →
  ExecutionPlan.lifecycle p ≠ ExecutionLifecycle.COMMITTED →
  is_resolved (ExecutionPlan.lifecycle p') = true →
  ExecutionPlan.lifecycle p' ≠ ExecutionLifecycle.COMMITTED →
  ledger_step (ledger_of s) (ledger_of s').
Proof using Hok Hok' Hsub.
  intros Hp Hpl Hnc Hr Hnc'. rewrite (ledger_insert k p' Hpl), status_closed by done.
  apply l_close. intros j. destruct (decide (k = j)) as [->|];
    [|left; by rewrite lookup_insert_ne].
  right. exists (status s j p). rewrite lookup_ledger, Hp, lookup_insert_eq.
  split_and!; [done| |done]. apply not_true_is_false. by rewrite status_done.
Qed.

Lemma ledger_same_status k p p' :
  plans s !! k = Some p → plans s' = <[k := p']> (plans s) →
  status s' k p' = status s k p → ledger_step (ledger_of s) (ledger_of s').
Proof using Hok Hok' Hsub.
  intros Hp Hpl Hst. rewrite (ledger_insert k p' Hpl), Hst, insert_id; [constructor|].
  by rewrite lookup_ledger, Hp.
Qed.

Lemma ledger_one k p p' :
  plans s !! k = Some p → plan_step p p' →
  ExecutionPlan.lifecycle p' ≠ ExecutionLifecycle.COMMITTED ∨
    ExecutionPlan.lifecycle p = ExecutionLifecycle.COMMITTED →
  plans s' = <[k := p']> (plans s) → ledger_step (ledger_of s) (ledger_of s').
Proof using Hok Hok' Hsub.
  intros Hp [_ Hst] Hor Hpl.
  destruct (decide (ExecutionPlan.lifecycle p' = ExecutionPlan.lifecycle p)) as [Heq|Hne].
  { eapply ledger_same_status; [done..|]. by apply status_stable. }
  destruct (decide (is_resolved (ExecutionPlan.lifecycle p') = true)) as [Hr|Hr].
  { eapply (ledger_close_one k p p'); try done.
    - intros Hc. rewrite Hc in Hst, Hne. by inversion Hst.
    - destruct Hor as [?|Hc]; [done|]. rewrite Hc in Hst, Hne. by inversion Hst. }
  (* Only PLANNED -> RESERVED and RESERVED -> DISPATCHED remain. *)
  remember (ExecutionPlan.lifecycle p) as l eqn:Hl.
  remember (ExecutionPlan.lifecycle p') as l' eqn:Hl'. destruct Hst; try done.
  - eapply ledger_same_status; [done..|]. unfold status. by rewrite <- Hl, <- Hl'.
  - rewrite (ledger_insert k p' Hpl). unfold status. rewrite <- Hl'. simpl.
    apply l_start. rewrite lookup_ledger, Hp. unfold status. simpl. by rewrite <- Hl.
Qed.

Lemma ledger_all f :
  (∀ p, ExecutionPlan.lifecycle (f p) = ExecutionPlan.lifecycle p ∨
        is_resolved (ExecutionPlan.lifecycle (f p)) = true ∧
        ExecutionPlan.lifecycle (f p) ≠ ExecutionLifecycle.COMMITTED) →
  (∀ p, plan_step p (f p)) →
  plans s' = f <$> plans s → ledger_step (ledger_of s) (ledger_of s').
Proof using Hok Hok' Hsub.
  intros Hf Hst Hpl. apply l_close. intros k. rewrite !lookup_ledger, Hpl, lookup_fmap.
  destruct (plans s !! k) as [p|] eqn:Hp; simpl; [|by left].
  destruct (Hf p) as [Heq|[Hr Hnc]].
  - left. f_equal. by apply status_stable.
  - right. exists (status s k p). split_and!; [done| |by rewrite status_closed].
    apply not_true_is_false. rewrite status_done. intros Hc.
    destruct (Hst p) as [_ Hstp]. rewrite Hc in Hstp. apply Hnc. by inversion Hstp.
Qed.

Lemma ledger_result_step k p l res rid :
  plans s !! k = Some p → is_in_flight (ExecutionPlan.lifecycle p) = true →
  ExecutionResult.plan res = k → settles l res →
  plans s' = <[k := ExecutionPlan.set_lifecycle l p]> (plans s) →
  results s' = <[rid := res]> (results s) → ledger_step (ledger_of s) (ledger_of s').
Proof using Hok Hok' Hsub.
  intros Hp Hfl Hk Hs Hpl Hres.
  assert (Hnc : ExecutionPlan.lifecycle p ≠ ExecutionLifecycle.COMMITTED) by (by intros Hc; rewrite Hc in Hfl).
  destruct Hs as [res Hv Hc Ha|res Hv Hc Ha|res Hv Hc Ha];
    [|eapply (ledger_close_one k p); by try done..].
  rewrite (ledger_insert k _ Hpl). unfold status. simpl.
  assert (Hro : result_of k s' = res).
  { unfold result_of. rewrite (proj2 (find_result_spec s' k res Hok')); [done|].
    exists rid. by rewrite Hres, lookup_insert_eq. }
  rewrite Hro. apply l_finish; [|done..]. rewrite lookup_ledger, Hp. simpl. f_equal.
  unfold status. by destruct (ExecutionPlan.lifecycle p).
Qed.
End Refinement.

Lemma effect_ledger s s' :
  ledger_ok s → ledger_ok s' → effect s s' → ledger_step (ledger_of s) (ledger_of s').
Proof.
  intros Hok Hok' Heff. pose proof (effect_results_grow _ _ Heff) as Hsub.
  destruct Heff as [Hpl|k p ? Hno (_ & Hl & _) Hpl|k p p' Hp Hst Hor Hpl|f Hf Hpl
                   |k p l res rid Hp Hfl ? ? ? ? ? Hpl Hres].
  - replace (ledger_of s') with (ledger_of s); [constructor|]. apply map_eq. intros k.
    rewrite !lookup_ledger, Hpl. destruct (plans s !! k) eqn:Hk; simpl; [|done].
    f_equal. symmetry. by apply status_stable.
  - rewrite (ledger_insert s s' Hok Hok' Hsub k p Hpl). unfold status. rewrite Hl. simpl.
    apply l_open. by rewrite lookup_ledger, Hno.
  - by eapply ledger_one.
  - eapply ledger_all; try done; apply Hf.
  - by eapply ledger_result_step.
Qed.

(** ** The refinement *)

(** Claim C4: the coordinator refines the ledger.  Every command issued in a
    reachable state is one step of the ledger specification on the abstraction
    of the state: it opens a plan, starts a waiting one, completes one that is
    in flight with one verified result, closes plans that are not completed, or
    leaves the ledger unchanged; and the result [result_of] answers for a
    completed plan is the one it was completed with. *)
Theorem coordinator_refines_ledger s c s' :
  reachable s → step s c s' → ledger_step (ledger_of s) (ledger_of s').
Proof.
  intros Hr Hst. pose proof (reachable_ledger _ Hr) as Hok.
  pose proof (ledger_preserved _ _ _ Hst Hok) as Hok'.
  destruct Hst as [c Hf]. by apply effect_ledger, exec_effect.
Qed.

Lemma coordinator_refines_ledger_witness :
  ledger_step (ledger_of (demo_state demo_dispatched))
    (ledger_of (exec (ApplyResult 51 demo_honest) (demo_state demo_dispatched)).2).
Proof.
  apply (coordinator_refines_ledger _ (ApplyResult 51 demo_honest)).
  - apply demo_reachable. vm_compute. reflexivity.
  - constructor. apply (bool_decide_eq_true_1 _). vm_compute. reflexivity.
Defined.

Example demo_ledger_done :
  (is_done <$> ledger_of (demo_state demo_committed) !! 21) = Some true ∧
  ledger_of (demo_state demo_dispatched) !! 21 = Some Flying.
Proof. vm_compute. by split. Qed.
