(* ===== verification/Persistence.v ===== *)
(** * Versioned, checksummed persistence ([persistence.hpp],
      [persistence.cpp])

    The envelope of a persisted payload, its verification on load, and the
    write-to-temporary-then-replace protocol of [save] over a file system whose
    calls may fail.  A file is the list of its bytes; the outcomes of the
    operating-system calls are arguments. *)

From S2P Require Import Prelude Enums Ids Checksum Codec Protocol.

Definition kMagic : Z := 0x504D434E.
Definition kFormatVersion : Z := 1.
Definition kMaxPayload : Z := 256 * 1024 * 1024.

(** ** The envelope *)

Definition compute_payload_crc (magic version len : Z) (payload : list Z) : Z :=
  let c := crc_update crc_init (write_u32 magic) in
  let c := crc_update c (write_u16 version) in
  let c := crc_update c (write_u64 len) in
  crc_update c payload.

Definition envelope (payload : list Z) : list Z :=
  let len := Z.of_nat (length payload) in
  write_u32 kMagic ++ write_u16 kFormatVersion ++ write_u64 len ++ payload ++
  write_u32 (compute_payload_crc kMagic kFormatVersion len payload).

Definition build_envelope (payload : list Z) : Result (list Z) :=
  reject_if kMaxPayload <? Z.of_nat (length payload)
    with (fail "E_PERSIST_OVERSIZE" "serialized payload exceeds maximum size") in
  Ok (envelope payload).

(** The answers of the operating system to a read: the file opens, its size can
    be told ([tellg]), all its bytes are read. *)
Record ReadAnswers := { ra_open : bool; ra_size : bool; ra_read : bool }.
Definition read_ok (ra : ReadAnswers) : bool := ra_open ra && ra_size ra && ra_read ra.
Definition reads_fine : ReadAnswers := {| ra_open := true; ra_size := true; ra_read := true |}.

(** [read_whole_file]; [None] is a file that does not exist. *)
Definition read_whole_file (ra : ReadAnswers) (file : option (list Z)) : Result (list Z) :=
  let? data := (if ra_open ra then file else None)
    otherwise (fail "E_PERSIST_OPEN" "cannot open persistence file") in
  reject_if negb (ra_size ra) with (fail "E_PERSIST_SIZE" "cannot determine file size") in
  let size := Z.of_nat (length data) in
  reject_if kMaxPayload + 64 <? size
    with (fail "E_PERSIST_OVERSIZE" "persistence file exceeds maximum size") in
  reject_if (0 <? size) && negb (ra_read ra)
    with (fail "E_PERSIST_READ" "short read on persistence file") in
  Ok data.

(** The verification part of [PersistentStore::load]: the payload of an intact
    envelope. *)
Definition open_envelope (raw : list Z) : Result (list Z) :=
  let r := {| data_ := raw; pos_ := 0 |} in
  read? magic , r := read_u32 r otherwise (fail "E_PERSIST_MAGIC" "truncated header") in
  reject_if magic !=? kMagic with (fail "E_PERSIST_MAGIC" "bad magic") in
  read? version , r := read_u16 r otherwise (fail "E_PERSIST_VERSION" "truncated version") in
  reject_if version !=? kFormatVersion
    with (fail "E_PERSIST_VERSION" "unsupported format version") in
  read? len , r := read_u64 r otherwise (fail "E_PERSIST_LEN" "truncated payload length") in
  reject_if kMaxPayload <? len with (fail "E_PERSIST_OVERSIZE" "payload too large") in
  reject_if Z.of_nat (remaining r) <? len with (fail "E_PERSIST_TRUNC" "payload truncated") in
  read? payload , r := read_span len r
    otherwise (fail "E_PERSIST_TRUNC" "cannot read payload") in
  read? crc , r := read_u32 r otherwise (fail "E_PERSIST_CRC" "truncated checksum") in
  reject_if negb (at_end r)
    with (fail "E_PERSIST_TRAILING" "trailing garbage after payload") in
  reject_if compute_payload_crc magic version len payload !=? crc
    with (fail "E_PERSIST_CRC" "checksum mismatch (corruption)") in
  Ok payload.

(** [PersistentStore::load]; the decoder fills and answers the loaded value. *)
Definition load {A} (ra : ReadAnswers) (file : option (list Z)) (decode : Reader A) : Result A :=
  match read_whole_file ra file with
  | Err e => Err e
  | Ok raw =>
      match open_envelope raw with
      | Err e => Err e
      | Ok payload =>
          read? a , r := decode {| data_ := payload; pos_ := 0 |}
            otherwise (fail "E_PERSIST_DECODE" "malformed persistence payload") in
          reject_if negb (at_end r)
            with (fail "E_PERSIST_TRAILING" "trailing garbage inside payload") in
          Ok a
      end
  end.

(** ** [PersistentStore::save] *)

(** The answers of the operating system: the temporary file is created, the
    write reports a number of bytes ([None]: it fails), the flush, the deletion
    of the temporary file and the replacing rename succeed or not. *)
Record OsAnswers := {
  os_create : bool; os_write : option Z; os_flush : bool; os_delete : bool; os_move : bool
}.

Definition delete_file (os : OsAnswers) (tmp : string) (fs : gmap string (list Z))
    : gmap string (list Z) :=
  if os_delete os then delete tmp fs else fs.

(** [CreateFileW] of the temporary file, which empties it. *)
Definition create_temp (os : OsAnswers) (tmp : string) (fs : gmap string (list Z))
    : option (gmap string (list Z)) :=
  if os_create os then Some (<[tmp := []]> fs) else None.

(** [WriteFile], [FlushFileBuffers] and [CloseHandle]: whether all bytes went
    out. *)
Definition write_temp (os : OsAnswers) (bytes : list Z) (tmp : string)
    (fs : gmap string (list Z)) : bool * gmap string (list Z) :=
  let '(ok, fs) :=
    if bool_decide (bytes = []) then (true, fs)
    else match os_write os with
         | None => (false, fs)
         | Some n => (Z.of_nat (length bytes) =? n, <[tmp := take (Z.to_nat n) bytes]> fs)
         end in
  (if ok then os_flush os else false, fs).

(** [MoveFileExW]: there must be a file to move. *)
Definition replace_file (os : OsAnswers) (tmp path : string) (fs : gmap string (list Z))
    : option (gmap string (list Z)) :=
  if os_move os then (fun content => <[path := content]> (delete tmp fs)) <$> fs !! tmp else None.

Definition temp_of (path : string) : string := path +:+ ".tmp".

Definition save (os : OsAnswers) (path : string) (payload : list Z)
    (fs : gmap string (list Z)) : Result unit * gmap string (list Z) :=
  match build_envelope payload with
  | Err e => (Err e, fs)
  | Ok bytes =>
      let tmp := temp_of path in
      let? fs := create_temp os tmp fs
        otherwise (fail "E_PERSIST_WRITE" "cannot create temp persistence file", fs) in
      let (ok, fs) := write_temp os bytes tmp fs in
      reject_if negb ok
        with (fail "E_PERSIST_WRITE" "failure writing temp persistence file",
              delete_file os tmp fs) in
      let? fs' := replace_file os tmp path fs
        otherwise (fail "E_PERSIST_REPLACE" "atomic replace failed", delete_file os tmp fs) in
      (Ok tt, fs')
  end.

(** ** Envelopes are what [open_envelope] accepts *)

Lemma crc_of_header magic version len payload :
  compute_payload_crc magic version len payload =
  crc32 (write_u32 magic ++ write_u16 version ++ write_u64 len ++ payload).
Proof. unfold compute_payload_crc, crc32. by rewrite !crc_update_app. Qed.

Lemma header_part_bytes m v l payload :
  is_bytes payload → is_bytes (write_u32 m ++ write_u16 v ++ write_u64 l ++ payload).
Proof. auto 10 with nmc_codec. Qed.

Lemma crc_value_range m v l payload :
  is_bytes payload → in_u32 (compute_payload_crc m v l payload).
Proof.
  intros Hb. rewrite crc_of_header. apply crc_update_range; [apply crc_init_range|].
  by apply header_part_bytes.
Qed.

(** The verification as one reader: the checks between the reads do not move
    the cursor. *)
Definition envelope_reader : Reader (Z * Z * Z * list Z * Z) :=
  let! magic := read_u32 in
  let! version := read_u16 in
  let! len := read_u64 in
  let! payload := read_span len in
  let! crc := read_u32 in
  rret (magic, version, len, payload, crc).

(** The checks of [open_envelope] on what was read. *)
Definition envelope_valid (magic version len : Z) (payload : list Z) (crc : Z) : Prop :=
  magic = kMagic ∧ version = kFormatVersion ∧ len <= kMaxPayload ∧
  compute_payload_crc magic version len payload = crc.

Lemma open_envelope_spec raw payload :
  open_envelope raw = Ok payload ↔
  ∃ magic version len crc r,
    envelope_reader {| data_ := raw; pos_ := 0 |} = Some (magic, version, len, payload, crc, r) ∧
    at_end r = true ∧ envelope_valid magic version len payload crc.
Proof.
  unfold open_envelope, envelope_reader, envelope_valid, rbind, rret, fail. split.
  - intros H.
    repeat match type of H with
    | context [match ?o with Some _ => _ | None => _ end] => destruct o as [[? ?]|] eqn:?; [|done]
    | context [if ?b then _ else _] => destruct b eqn:?; [done|]
    end.
    simplify_eq. eexists _, _, _, _, _. split; [reflexivity|].
    repeat match goal with
    | H : (_ !=? _) = false |- _ => apply neqb_false in H
    | H : negb _ = false |- _ => apply negb_false_iff in H
    | H : (_ <? _) = false |- _ => apply Z.ltb_ge in H
    end. by subst.
  - intros (magic & version & len & crc & r & Heq & Hend & Hm & Hv & Hl & Hc).
    destruct (read_u32 _) as [[m r1]|]; [|done].
    destruct (read_u16 r1) as [[v r2]|]; [|done].
    destruct (read_u64 r2) as [[l r3]|]; [|done].
    destruct (read_span l r3) as [[p r4]|] eqn:Hsp; [|done].
    destruct (read_u32 r4) as [[c r5]|]; [|done]. simplify_eq.
    rewrite !Z.eqb_refl, (proj2 (Z.ltb_ge _ _) Hl), Hend. simpl.
    unfold read_span in Hsp. case_match; [|done]. by case_match.
Qed.

Lemma reads_span l : in_u64 (Z.of_nat (length l)) → reads (read_span (Z.of_nat (length l))) l l.
Proof.
  intros Hl pre rest. unfold read_span.
  destruct (checked_mul_u64 _ 1) eqn:Hm;
    [|apply checked_mul_None in Hm; [ranges|done|ranges]]. unfold remaining, size_, advance. simpl.
  rewrite !length_app, Nat2Z.id, drop_app_length, take_app_length.
  by rewrite (proj2 (Z.ltb_ge _ _)) by lia.
Qed.

Lemma open_envelope_complete payload :
  is_bytes payload → Z.of_nat (length payload) <= kMaxPayload →
  open_envelope (envelope payload) = Ok payload.
Proof.
  intros Hb Hlen. apply open_envelope_spec.
  assert (Hl : in_u64 (Z.of_nat (length payload))) by (unfold kMaxPayload in Hlen; ranges).
  assert (Hr : reads envelope_reader (envelope payload)
    (kMagic, kFormatVersion, Z.of_nat (length payload), payload,
     compute_payload_crc kMagic kFormatVersion (Z.of_nat (length payload)) payload)).
  { unfold envelope_reader, envelope. pose proof (crc_value_range kMagic kFormatVersion
      (Z.of_nat (length payload)) payload Hb).
    reads_step; [apply reads_u32; unfold kMagic; ranges|].
    reads_step; [apply reads_u16; unfold kFormatVersion; ranges|].
    reads_step; [by apply reads_u64|]. reads_step; [by apply reads_span|].
    reads_step; [by apply reads_u32|]. apply reads_ret. }
  eexists _, _, _, _, _. split; [by apply reads_whole|].
  split; [unfold at_end; apply Nat.leb_refl|]. by split_and!.
Qed.

Lemma open_envelope_sound raw payload :
  is_bytes raw → open_envelope raw = Ok payload →
  raw = envelope payload ∧ is_bytes payload ∧ Z.of_nat (length payload) <= kMaxPayload.
Proof.
  intros Hraw (magic & version & len & crc & r & Heq & Hend & Hm & Hv & Hl & Hc)%open_envelope_spec.
  assert (Hr0 : in_bounds {| data_ := raw; pos_ := 0 |}) by (split; simpl; [done|lia]).
  unfold envelope_reader, rbind, rret in Heq.
  destruct (read_u32 _) as [[m r1]|] eqn:H1; [|done].
  destruct (exact_u32 _ _ _ Hr0 H1) as (Hr1 & _ & Hd1).
  destruct (read_u16 r1) as [[v r2]|] eqn:H2; [|done].
  destruct (exact_u16 _ _ _ Hr1 H2) as (Hr2 & _ & Hd2).
  destruct (read_u64 r2) as [[l r3]|] eqn:H3; [|done].
  destruct (exact_u64 _ _ _ Hr2 H3) as (Hr3 & _ & Hd3).
  destruct (bounded_u64 _ _ _ Hr2 H3) as (_ & _ & Hl0).
  destruct (read_span l r3) as [[p r4]|] eqn:H4; [|done].
  destruct (exact_span l ltac:(ranges) _ _ _ Hr3 H4) as (Hr4 & _ & Hd4).
  destruct (read_span_length l _ _ _ ltac:(ranges) Hr3 H4) as (Hpl & Hpb).
  destruct (read_u32 r4) as [[c r5]|] eqn:H5; [|done].
  destruct (exact_u32 _ _ _ Hr4 H5) as (Hr5 & _ & Hd5). simplify_eq.
  assert (Hnil : drop (pos_ r) (data_ r) = []).
  { apply drop_ge. by apply Nat.leb_le in Hend. }
  split_and!; [|done|done]. unfold envelope. simpl in Hd1. rewrite drop_0 in Hd1.
  by rewrite Hd1, Hd2, Hd3, Hd4, Hd5, Hnil, app_nil_r.
Qed.

(** ** Corruption *)

Lemma envelope_length payload : length (envelope payload) = (18 + length payload)%nat.
Proof.
  unfold envelope. rewrite !length_app.
  change (length (write_u32 kMagic)) with 4%nat.
  change (length (write_u16 kFormatVersion)) with 2%nat.
  change (length (write_u64 (Z.of_nat (length payload)))) with 8%nat.
  change (length (write_u32 (compute_payload_crc kMagic kFormatVersion
    (Z.of_nat (length payload)) payload))) with 4%nat. lia.
Qed.

(** An envelope is a body followed by the body's checksum. *)
Definition body (payload : list Z) : list Z :=
  write_u32 kMagic ++ write_u16 kFormatVersion ++ write_u64 (Z.of_nat (length payload)) ++ payload.

Lemma envelope_body payload :
  envelope payload = body payload ++ write_u32 (crc32 (body payload)).
Proof. unfold envelope, body. rewrite crc_of_header. by rewrite !app_assoc. Qed.

Lemma body_length payload : length (body payload) = (14 + length payload)%nat.
Proof.
  unfold body. rewrite !length_app. change (length (write_u32 kMagic)) with 4%nat.
  change (length (write_u16 kFormatVersion)) with 2%nat.
  change (length (write_u64 (Z.of_nat (length payload)))) with 8%nat. lia.
Qed.

(** Two lists that differ in one place, split at the same point. *)
Lemma one_difference {A} (pre post x y x' y' : list A) b b' :
  pre ++ b :: post = x ++ y → pre ++ b' :: post = x' ++ y' → length x = length x' →
  (∃ p2, x = pre ++ b :: p2 ∧ x' = pre ++ b' :: p2 ∧ y = y') ∨ x = x'.
Proof.
  intros H1 H2 Hlen. destruct (decide (length x ≤ length pre)%nat) as [Hle|Hgt].
  - right. apply (f_equal (take (length x))) in H1. apply (f_equal (take (length x'))) in H2.
    rewrite take_app_length in H1, H2. rewrite take_app_le in H1, H2 by lia.
    by rewrite <- H1, <- H2, Hlen.
  - left. assert (Hx : length x = (length pre + S (length x - S (length pre)))%nat) by lia.
    exists (take (length x - S (length pre)) post).
    pose proof (f_equal (take (length x)) H1) as T1. pose proof (f_equal (drop (length x)) H1) as D1.
    pose proof (f_equal (take (length x')) H2) as T2. pose proof (f_equal (drop (length x')) H2) as D2.
    rewrite take_app_length in T1, T2. rewrite drop_app_length in D1, D2.
    rewrite <- Hlen in T2, D2. rewrite Hx in T1, T2, D1, D2.
    rewrite take_app_add in T1, T2. rewrite drop_app_add in D1, D2. simpl in *.
    split_and!; congruence.
Qed.

Lemma envelope_bytes payload : is_bytes payload → is_bytes (envelope payload).
Proof.
  intros. rewrite envelope_body. apply is_bytes_app; [|apply write_u32_bytes].
  by apply header_part_bytes.
Qed.

Lemma substituted_envelope_rejected payload pre b b' post :
  is_bytes payload → envelope payload = pre ++ b :: post → in_u8 b' → b ≠ b' →
  ∀ payload', open_envelope (pre ++ b' :: post) ≠ Ok payload'.
Proof.
  intros Hb Heq Hb' Hne payload' Hopen.
  pose proof (envelope_bytes _ Hb) as Hraw.
  pose proof Hraw as Hsplit. rewrite Heq in Hraw.
  destruct (open_envelope_sound _ _ (substituted_bytes _ _ _ _ Hraw Hb') Hopen)
    as (Heq' & Hpb' & _).
  assert (Hlen : length payload = length payload').
  { apply (f_equal length) in Heq, Heq'. rewrite envelope_length in Heq, Heq'.
    rewrite length_app in Heq, Heq'. simpl in *. lia. }
  rewrite envelope_body in Heq, Heq'.
  destruct (one_difference pre post (body payload) (write_u32 (crc32 (body payload)))
    (body payload') (write_u32 (crc32 (body payload'))) b b') as [(p2 & Hx & Hx' & Hcrc)|Hbody];
    [by symmetry|done|rewrite !body_length; lia| |].
  - assert (Hbb : is_bytes (body payload)) by by apply header_part_bytes.
    assert (Hbb' : is_bytes (body payload')) by by apply header_part_bytes.
    apply write_u32_inj in Hcrc; [|by apply crc_update_range; auto with nmc..].
    rewrite Hx, Hx' in Hcrc. rewrite Hx in Hbb.
    unfold is_bytes in Hbb. rewrite Forall_app, Forall_cons_iff in Hbb.
    revert Hcrc. apply crc_update_substitution; try apply Hbb; auto with nmc.
  - rewrite Hbody, <- Heq' in Heq. apply app_inv_head in Heq. congruence.
Qed.

(** A file cut short is refused: its header still announces the whole. *)
Lemma truncated_envelope_rejected payload m payload' :
  is_bytes payload → Z.of_nat (length payload) <= kMaxPayload →
  (m < length (envelope payload))%nat → open_envelope (take m (envelope payload)) ≠ Ok payload'.
Proof.
  intros Hb Hlen Hm Ho. apply open_envelope_sound in Ho as (Heq & _ & Hlen');
    [|by apply Forall_take, envelope_bytes].
  pose proof (take_drop m (envelope payload)) as Hsplit. rewrite Heq in Hsplit.
  pose proof (f_equal length Heq) as Hl. rewrite length_take, !envelope_length in Hl.
  rewrite envelope_length in Hm.
  unfold envelope in Hsplit. rewrite <- !(assoc_L (++)) in Hsplit.
  do 2 apply app_inv_head in Hsplit. apply app_inj_1 in Hsplit as [Hw _]; [|by rewrite !write_u64_length].
  apply write_u64_inj in Hw; unfold kMaxPayload in *; ranges.
Qed.

Lemma envelope_ne payload : envelope payload ≠ [].
Proof. intros H%(f_equal length). by rewrite envelope_length in H. Qed.
Lemma read_whole_file_Ok ra file raw :
  read_whole_file ra file = Ok raw → file = Some raw ∧ (raw ≠ [] → read_ok ra = true).
Proof.
  unfold read_whole_file, read_ok, fail. destruct (ra_open ra); [|done]. destruct file as [data|]; [|done].
  destruct (ra_size ra); [|done]. cbn zeta.
  destruct (kMaxPayload + 64 <? _); [done|]. destruct (ra_read ra).
  - rewrite andb_false_r. by intros [= ->].
  - destruct data; simpl; [by intros [= <-]|done].
Qed.
Lemma read_whole_file_fine ra data :
  read_ok ra = true → Z.of_nat (length data) <= kMaxPayload + 64 → read_whole_file ra (Some data) = Ok data.
Proof.
  unfold read_whole_file, read_ok. destruct (ra_open ra), (ra_size ra), (ra_read ra); try done.
  intros _ Hl. rewrite (proj2 (Z.ltb_ge _ _)) by lia. simpl. by rewrite andb_false_r.
Qed.
Lemma read_envelope ra payload :
  read_ok ra = true → Z.of_nat (length payload) <= kMaxPayload →
  read_whole_file ra (Some (envelope payload)) = Ok (envelope payload).
Proof. intros Hok Hl. apply read_whole_file_fine; [done|]. rewrite envelope_length. lia. Qed.

(** ** Properties *)

(** Claim C32: [load] accepts exactly the envelopes.  A file loads if and only if
    it can be opened, measured and read, it is, byte for byte, the envelope of a
    payload within the size limit (right magic, version, length and checksum,
    nothing missing and nothing trailing), and the decoder consumes that payload
    completely; so whatever was saved within the limits is loaded back when the
    reads succeed. *)
Theorem load_accepts_exactly_envelopes {A} ra raw (decode : Reader A) a :
  is_bytes raw →
  load ra (Some raw) decode = Ok a ↔
  read_ok ra = true ∧ ∃ payload r, raw = envelope payload ∧ is_bytes payload ∧
    Z.of_nat (length payload) <= kMaxPayload ∧
    decode {| data_ := payload; pos_ := 0 |} = Some (a, r) ∧ at_end r = true.
Proof.
  intros Hraw. unfold load. split.
  - destruct (read_whole_file ra (Some raw)) as [raw'|] eqn:Hr; [|done].
    destruct (read_whole_file_Ok _ _ _ Hr) as [[= <-] Hok].
    destruct (open_envelope raw) as [payload|e] eqn:Ho; [|done].
    destruct (open_envelope_sound _ _ Hraw Ho) as (Hre & Hpb & Hlen).
    destruct (decode _) as [[a' r]|] eqn:Hd; [|done]. destruct (at_end r) eqn:He; [|done].
    simpl. intros [= ->]. split; [|by exists payload, r]. apply Hok. rewrite Hre. apply envelope_ne.
  - intros (Hok & payload & r & -> & Hpb & Hlen & Hd & He).
    rewrite read_envelope, open_envelope_complete by done. by rewrite Hd, He.
Qed.

Lemma load_accepts_exactly_envelopes_witness :
  load reads_fine (Some (envelope (write_u64 7))) read_u64 = Ok 7.
Proof.
  apply (load_accepts_exactly_envelopes reads_fine (envelope (write_u64 7)) read_u64 7).
  - apply (bool_decide_eq_true_1 _). vm_compute. reflexivity.
  - split; [reflexivity|]. exists (write_u64 7), {| data_ := write_u64 7; pos_ := 8 |}.
    split; [reflexivity|]. split; [apply write_u64_bytes|].
    split; [vm_compute; discriminate|]. split; vm_compute; reflexivity.
Defined.

(** Claim C33: corruption never loads.  A saved file in which any one byte is
    replaced by another, be it in the magic, the version, the length, the
    payload or the checksum, is rejected, whatever the decoder and whatever the
    reads answer. *)
Theorem corrupted_file_never_loads {A} ra payload pre b b' post (decode : Reader A) a :
  is_bytes payload → envelope payload = pre ++ b :: post → in_u8 b' → b ≠ b' →
  load ra (Some (pre ++ b' :: post)) decode ≠ Ok a.
Proof.
  intros Hb Heq Hb' Hne. unfold load. destruct (read_whole_file _) as [raw|] eqn:Hr; [|done].
  destruct (read_whole_file_Ok _ _ _ Hr) as [[= <-] _].
  destruct (open_envelope _) as [payload'|] eqn:Ho; [|done].
  by apply (substituted_envelope_rejected payload pre b b' post) in Ho.
Qed.

Lemma corrupted_file_never_loads_witness :
  load reads_fine (Some (take 20 (envelope (write_u64 7)) ++ 1 :: drop 21 (envelope (write_u64 7))))
    read_u64 ≠ Ok 7.
Proof.
  apply (corrupted_file_never_loads reads_fine (write_u64 7) (take 20 (envelope (write_u64 7)))
    0 1 (drop 21 (envelope (write_u64 7))) read_u64 7).
  - apply write_u64_bytes.
  - vm_compute. reflexivity.
  - split; lia.
  - discriminate.
Defined.

Lemma tmp_path_ne path : path ≠ path +:+ ".tmp".
Proof. induction path as [|c path IH]; [done|]. intros [= Heq]. by apply IH. Qed.

(** What every run of [save] leaves behind. *)
Lemma temp_ne path : path ≠ temp_of path.
Proof. apply tmp_path_ne. Qed.

(** A completed write leaves the whole content. *)
Lemma write_temp_ok os bytes tmp fs fs' :
  bytes ≠ [] → write_temp os bytes tmp fs = (true, fs') → fs' = <[tmp := bytes]> fs.
Proof.
  unfold write_temp. intros Hne. rewrite bool_decide_false by done.
  destruct (os_write os) as [n|]; [|done].
  destruct (Z.eqb_spec (Z.of_nat (length bytes)) n) as [<-|]; [|done]. intros [= _ <-].
  by rewrite Nat2Z.id, take_ge by lia.
Qed.

(** The calls on the temporary file touch nothing else. *)
Lemma create_temp_frame os tmp fs fs' other :
  create_temp os tmp fs = Some fs' → other ≠ tmp → fs' !! other = fs !! other.
Proof. unfold create_temp. case_match; [|done]. intros [= <-] ?. by rewrite lookup_insert_ne. Qed.
Lemma write_temp_frame os bytes tmp fs other :
  other ≠ tmp → (write_temp os bytes tmp fs).2 !! other = fs !! other.
Proof. unfold write_temp. intros. repeat case_match; simplify_eq; simpl; by rewrite ?lookup_insert_ne. Qed.
Lemma delete_file_frame os tmp fs other :
  other ≠ tmp → delete_file os tmp fs !! other = fs !! other.
Proof. unfold delete_file. intros. case_match; [|done]. by rewrite lookup_delete_ne. Qed.
Lemma replace_file_Some os tmp path fs fs' :
  replace_file os tmp path fs = Some fs' →
  ∃ content, fs !! tmp = Some content ∧ fs' = <[path := content]> (delete tmp fs).
Proof. unfold replace_file. case_match; [|done]. intros (c & ? & ->)%fmap_Some. by exists c. Qed.

Lemma save_file os path payload fs :
  let '(r, fs') := save os path payload fs in
  match r with
  | Err _ => fs' !! path = fs !! path
  | Ok _ => Z.of_nat (length payload) <= kMaxPayload ∧
            fs' !! path = Some (envelope payload) ∧ fs' !! (path +:+ ".tmp") = None
  end.
Proof.
  pose proof (temp_ne path) as Hne. unfold save, build_envelope, fail.
  destruct (Z.ltb_spec kMaxPayload (Z.of_nat (length payload))); [done|].
  destruct (create_temp os _ fs) as [fs1|] eqn:Hc; [|done].
  pose proof (create_temp_frame _ _ _ _ path Hc Hne) as H1.
  pose proof (write_temp_frame os (envelope payload) (temp_of path) fs1 path Hne) as H2.
  destruct (write_temp os _ _ fs1) as [[] fs2] eqn:Hw; simpl in H2 |- *.
  2: { by rewrite delete_file_frame, H2. }
  apply write_temp_ok in Hw; [|apply envelope_ne].
  destruct (replace_file os _ _ fs2) as [fs3|] eqn:Hm; [|by rewrite delete_file_frame, H2].
  apply replace_file_Some in Hm as (content & Ht & ->). subst fs2.
  rewrite lookup_insert_eq in Ht. simplify_eq. fold (temp_of path).
  split_and!; [done|apply lookup_insert_eq|]. rewrite lookup_insert_ne by done. apply lookup_delete_eq.
Qed.

Lemma save_frame os path payload fs other :
  other ≠ path → other ≠ path +:+ ".tmp" → (save os path payload fs).2 !! other = fs !! other.
Proof.
  intros Hp Ht. unfold save. destruct (build_envelope payload) as [bytes|]; [|done].
  destruct (create_temp os _ fs) as [fs1|] eqn:Hc; [|done].
  pose proof (create_temp_frame _ _ _ _ other Hc Ht) as H1.
  pose proof (write_temp_frame os bytes (temp_of path) fs1 other Ht) as H2.
  destruct (write_temp os _ _ fs1) as [[] fs2] eqn:Hw; simpl in H2 |- *.
  2: { by rewrite delete_file_frame, H2. }
  destruct (replace_file os _ _ fs2) as [fs3|] eqn:Hm; simpl; [|by rewrite delete_file_frame, H2].
  apply replace_file_Some in Hm as (content & _ & ->).
  by rewrite lookup_insert_ne, lookup_delete_ne, H2.
Qed.

(** Claim C34: [save] replaces atomically.  Whatever the operating system
    answers, no file other than the destination and its temporary changes; when
    [save] reports an error the destination is exactly as before, and when it
    succeeds the destination holds the whole envelope, never a part of it,
    and the temporary is gone. *)
Theorem save_is_atomic os path payload fs :
  let '(r, fs') := save os path payload fs in
  (∀ other, other ≠ path → other ≠ path +:+ ".tmp" → fs' !! other = fs !! other) ∧
  match r with
  | Err _ => fs' !! path = fs !! path
  | Ok _ => Z.of_nat (length payload) <= kMaxPayload ∧
            fs' !! path = Some (envelope payload) ∧ fs' !! (path +:+ ".tmp") = None
  end.
Proof.
  pose proof (save_frame os path payload fs) as Hf. pose proof (save_file os path payload fs) as Hs.
  by destruct (save os path payload fs).
Qed.
