(* ===== verification/StateCodec.v ===== *)
(** * The durable state on disk ([coordinator.cpp], persistence part)

    [encode_state] and [decode_state]: every durable table of the coordinator,
    enumerations by name, each entry with its own [put_*]/[get_*] pair.  Dynamic
    evidence, sessions, reservations and the active-plan index are not
    persisted; [recovered] is what [Coordinator::load] makes of a decoded
    state. *)

From S2P Require Import Prelude Enums Ids Double Model Codec Protocol State Coordinator.
From S2P Require Import Persistence Machine Worker Safety.

(** ** Helpers of the persistence format *)

Definition put_enum {E} `{CEnum E} (e : E) : list Z := write_string (to_string e).
Definition get_enum {E} `{CEnum E, ParseEnum E} : Reader E :=
  let! s := read_string in
  match parse_enum s with Some e => rret e | None => rfail end.

(** A counted list; the decoder reads at most 64 entries of it. *)
Definition put_list {A} (put : A → list Z) (l : list A) : list Z :=
  write_u64 (Z.of_nat (length l)) ++ write_list put l.
Definition get_list {A} (get : Reader A) : Reader (list A) :=
  let! n := read_u64 in read_capped n 64 get.
Definition list_ok {A} (ok : A → Prop) (l : list A) : Prop :=
  Forall ok l ∧ Z.of_nat (length l) <= 64.

(** [put_bool(has_value); if (has_value) put_id(value)]. *)
Definition put_option (o : option Z) : list Z :=
  match o with Some v => write_bool true ++ write_u64 v | None => write_bool false end.
Definition get_option : Reader (option Z) :=
  let! b := read_bool in
  if b then let! v := read_u64 in rret (Some v) else rret None.
Definition option_ok (o : option Z) : Prop := match o with Some v => in_u64 v | None => True end.

Definition bounded_count (n : Z) : Z := if kMaxPersistCount <? n then kMaxPersistCount else n.

(** A table: its bounded size, then every entry in key order. *)
Definition put_table {V} (put : V → list Z) (m : gmap Z V) : list Z :=
  write_u64 (bounded_count (Z.of_nat (size m))) ++ write_list put (map_entries m).*2.
(** The decoding loop: at most [kMaxPersistCount] entries, stored under their
    own ids. *)
Definition get_table {V} (get : Reader V) (id : V → Z) : Reader (gmap Z V) :=
  let! n := read_u64 in
  if kMaxPersistCount <? n then rfail else
  let! l := read_times (Z.to_nat n) get in
  rret (fold_left (fun m v => <[id v := v]> m) l ∅).

(** A table that survives: keyed by id, within the bound, entries fine. *)
Definition table_ok {V} (id : V → Z) (ok : V → Prop) (m : gmap Z V) : Prop :=
  map_Forall (fun k v => id v = k ∧ ok v) m ∧ Z.of_nat (size m) <= kMaxPersistCount.

(** ** Reading the helpers back *)

Lemma enum_string_ok {E} `{CEnumLaws E} (e : E) :
  Forall string_ok (enum_names (E:=E)) → valid_enum e → string_ok (to_string e).
Proof.
  intros Hn He. apply (Forall_lookup_1 _ _ _ _ Hn (to_string_lookup e He)).
Qed.

(** Every name of every enumeration fits a string. *)
Class ShortNames (E : Type) `{CEnum E} := short_names : Forall string_ok (enum_names (E:=E)).

Lemma enum_get {E} `{CEnumLaws E, !ParseEnum E, !ParseEnumLaws E, !ShortNames E} (e : E) :
  valid_enum e → reads get_enum (put_enum e) e.
Proof.
  intros He. eapply reads_bind_last; [apply reads_string; by apply enum_string_ok|].
  rewrite parse_enum_spec, parse_from_table_to_string by done. apply reads_ret.
Qed.

Ltac solve_short_names :=
  unfold ShortNames; repeat constructor; unfold string_ok, kMaxCodecBlobBytes; simpl; lia.

#[global] Instance OperationClass_short : ShortNames OperationClass.
Proof. solve_short_names. Qed.
#[global] Instance TargetKind_short : ShortNames TargetKind.
Proof. solve_short_names. Qed.
#[global] Instance ProviderKind_short : ShortNames ProviderKind.
Proof. solve_short_names. Qed.
#[global] Instance ExecutionLifecycle_short : ShortNames ExecutionLifecycle.
Proof. solve_short_names. Qed.
#[global] Instance ProgramLifecycle_short : ShortNames ProgramLifecycle.
Proof. solve_short_names. Qed.
#[global] Instance Decision_short : ShortNames Decision.
Proof. solve_short_names. Qed.
#[global] Instance RetryClass_short : ShortNames RetryClass.
Proof. solve_short_names. Qed.
#[global] Instance VerifyState_short : ShortNames VerifyState.
Proof. solve_short_names. Qed.
#[global] Instance DataType_short : ShortNames DataType.
Proof. solve_short_names. Qed.
#[global] Instance Layout_short : ShortNames Layout.
Proof. solve_short_names. Qed.
#[global] Instance PolicyOutcome_short : ShortNames PolicyOutcome.
Proof. solve_short_names. Qed.
#[global] Instance IntegrityState_short : ShortNames IntegrityState.
Proof. solve_short_names. Qed.
#[global] Instance AccessSemantics_short : ShortNames AccessSemantics.
Proof. solve_short_names. Qed.
#[global] Instance IntegrityRequirement_short : ShortNames IntegrityRequirement.
Proof. solve_short_names. Qed.

Lemma list_get {A} (put : A → list Z) (get : Reader A) (ok : A → Prop) l :
  (∀ a, ok a → reads get (put a) a) → list_ok ok l → reads (get_list get) (put_list put l) l.
Proof.
  intros Hget [Hl Hlen]. eapply reads_bind; [apply reads_u64; ranges|].
  apply reads_capped; [|done]. eapply Forall_impl; [|done]. auto.
Qed.

Lemma option_get o : option_ok o → reads get_option (put_option o) o.
Proof.
  unfold get_option, put_option. destruct o as [v|]; simpl; intros Hv.
  - eapply reads_bind; [apply reads_bool|]. simpl.
    eapply reads_bind_last; [by apply reads_u64|apply reads_ret].
  - eapply reads_bind_last; [apply reads_bool|apply reads_ret].
Qed.

Lemma enum_list_get {E} `{CEnumLaws E, !ParseEnum E, !ParseEnumLaws E, !ShortNames E} (l : list E) :
  list_ok valid_enum l → reads (get_list get_enum) (put_list put_enum l) l.
Proof. apply list_get. intros. by apply enum_get. Qed.
Lemma id_list_get l : list_ok in_u64 l → reads (get_list read_u64) (put_list write_u64 l) l.
Proof. apply list_get. intros. by apply reads_u64. Qed.
Lemma string_list_get l :
  list_ok string_ok l → reads (get_list read_string) (put_list write_string l) l.
Proof. apply list_get. intros. by apply reads_string. Qed.

#[export] Hint Resolve option_get id_list_get string_list_get : nmc_codec.
#[export] Hint Extern 1 (reads get_enum _ _) => apply enum_get : nmc_codec.
#[export] Hint Extern 1 (reads (get_list get_enum) _ _) => apply enum_list_get : nmc_codec.

(** Inserting entries of distinct ids one after the other. *)
Lemma fold_insert_list_to_map {V} (id : V → Z) (l : list V) :
  NoDup (id <$> l) →
  fold_left (fun m v => <[id v := v]> m) l ∅ = (list_to_map ((fun v => (id v, v)) <$> l) : gmap Z V).
Proof.
  induction l as [|v l IH] using rev_ind; [done|]. rewrite fmap_app, list.NoDup_app. intros (Hl & Hd & _).
  rewrite fold_left_app. simpl. rewrite IH by done. rewrite fmap_app. simpl.
  rewrite list_to_map_snoc; [done|]. rewrite <- list_fmap_compose. intros Hin.
  apply (Hd (id v)); [|by left]. done.
Qed.

Lemma table_get {V} (put : V → list Z) (get : Reader V) (id : V → Z) (ok : V → Prop) m :
  (∀ v, ok v → reads get (put v) v) → table_ok id ok m →
  reads (get_table get id) (put_table put m) m.
Proof.
  intros Hget [Hm Hsz].
  assert (Hlen : length (map_entries m).*2 = size m) by by rewrite length_fmap, map_entries_length.
  unfold put_table, get_table, bounded_count, kMaxPersistCount in *.
  rewrite (proj2 (Z.ltb_ge _ _)) by lia.
  eapply reads_bind; [apply reads_u64; ranges|].
  rewrite (proj2 (Z.ltb_ge _ _)) by lia. rewrite Nat2Z.id, <- Hlen.
  assert (Hin : ∀ k v, (k, v) ∈ map_entries m → id v = k ∧ ok v).
  { intros k v Hkv%elem_of_map_entries. by apply (Hm k v). }
  assert (Hids : (fun v => (id v, v)) <$> (map_entries m).*2 = map_entries m).
  { rewrite <- list_fmap_compose. etrans; [|apply list_fmap_id]. apply list_fmap_ext.
    intros i [k v] Hi%list_elem_of_lookup_2. simpl. by destruct (Hin k v Hi) as [-> _]. }
  eapply reads_bind_last; [apply reads_times|].
  - apply Forall_forall. intros v Hv%list_elem_of_In.
    apply list_elem_of_fmap in Hv as ([k v'] & -> & Hkv). apply Hget. by apply (Hin k v').
  - rewrite fold_insert_list_to_map.
    + rewrite Hids, list_to_map_entries. apply reads_ret.
    + assert (id <$> (map_entries m).*2 = (map_entries m).*1) as ->; [|apply map_entries_NoDup].
      rewrite <- Hids at 2. by rewrite <- !list_fmap_compose.
Qed.

(** ** The entries *)

Definition put_shape (s : DataShape) : list Z :=
  put_enum (DataShape.data_type s) ++ put_enum (DataShape.layout s) ++
  write_u64 (DataShape.element_count s) ++ write_u64 (DataShape.alignment s).
Definition get_shape : Reader DataShape :=
  let! data_type' := get_enum in
  let! layout' := get_enum in
  let! element_count' := read_u64 in
  let! alignment' := read_u64 in
  rret {| DataShape.element_count := element_count'; DataShape.data_type := data_type';
          DataShape.layout := layout'; DataShape.alignment := alignment' |}.
Definition wf_shape (s : DataShape) : Prop :=
  valid_enum (DataShape.data_type s) ∧ valid_enum (DataShape.layout s) ∧
  in_u64 (DataShape.element_count s) ∧ in_u64 (DataShape.alignment s).
Lemma shape_get s : wf_shape s → reads get_shape (put_shape s) s.
Proof. unfold wf_shape, put_shape, get_shape. intros. destruct_and!. destruct s; simpl in *. solve_reads. Qed.

Definition put_window (w : ByteWindow) : list Z :=
  write_u64 (ByteWindow.offset w) ++ write_u64 (ByteWindow.length w).
Definition get_window : Reader ByteWindow :=
  let! o := read_u64 in
  let! l := read_u64 in
  rret {| ByteWindow.offset := o; ByteWindow.length := l |}.
Definition wf_window (w : ByteWindow) : Prop :=
  in_u64 (ByteWindow.offset w) ∧ in_u64 (ByteWindow.length w).
Lemma window_get w : wf_window w → reads get_window (put_window w) w.
Proof. unfold wf_window, put_window, get_window. intros. destruct_and!. destruct w; simpl in *. solve_reads. Qed.
#[export] Hint Resolve shape_get window_get : nmc_codec.
#[local] Opaque put_enum put_list put_option put_shape put_window.

Definition put_memory_domain (v : MemoryDomainDescriptor) : list Z :=
  write_u64 (MemoryDomainDescriptor.id v) ++
  write_u64 (MemoryDomainDescriptor.generation v) ++
  write_string (MemoryDomainDescriptor.name v) ++
  write_bool (MemoryDomainDescriptor.durable v).
Definition get_memory_domain : Reader MemoryDomainDescriptor :=
  let! id' := read_u64 in
  let! generation' := read_u64 in
  let! name' := read_string in
  let! durable' := read_bool in
  rret {| MemoryDomainDescriptor.id := id';
          MemoryDomainDescriptor.generation := generation';
          MemoryDomainDescriptor.name := name';
          MemoryDomainDescriptor.durable := durable' |}.
Definition wf_memory_domain (v : MemoryDomainDescriptor) : Prop :=
  in_u64 (MemoryDomainDescriptor.id v) ∧ in_u64 (MemoryDomainDescriptor.generation v) ∧
  string_ok (MemoryDomainDescriptor.name v).
Lemma memory_domain_get v : wf_memory_domain v → reads get_memory_domain (put_memory_domain v) v.
Proof. unfold wf_memory_domain, put_memory_domain, get_memory_domain. intros. destruct_and!. destruct v; simpl in *. solve_reads. Qed.

Definition put_dataset (v : DatasetDescriptor) : list Z :=
  write_u64 (DatasetDescriptor.id v) ++ write_u64 (DatasetDescriptor.generation v) ++
  write_string (DatasetDescriptor.name v) ++ write_string (DatasetDescriptor.producer v) ++
  write_bool (DatasetDescriptor.durable v).
Definition get_dataset : Reader DatasetDescriptor :=
  let! id' := read_u64 in
  let! generation' := read_u64 in
  let! name' := read_string in
  let! producer' := read_string in
  let! durable' := read_bool in
  rret {| DatasetDescriptor.id := id'; DatasetDescriptor.generation := generation';
          DatasetDescriptor.name := name'; DatasetDescriptor.producer := producer';
          DatasetDescriptor.durable := durable' |}.
Definition wf_dataset (v : DatasetDescriptor) : Prop :=
  in_u64 (DatasetDescriptor.id v) ∧ in_u64 (DatasetDescriptor.generation v) ∧
  string_ok (DatasetDescriptor.name v) ∧ string_ok (DatasetDescriptor.producer v).
Lemma dataset_get v : wf_dataset v → reads get_dataset (put_dataset v) v.
Proof. unfold wf_dataset, put_dataset, get_dataset. intros. destruct_and!. destruct v; simpl in *. solve_reads. Qed.

Definition put_region (v : DataRegionDescriptor) : list Z :=
  write_u64 (DataRegionDescriptor.id v) ++ write_u64 (DataRegionDescriptor.generation v) ++
  write_u64 (DataRegionDescriptor.dataset v) ++
  write_u64 (DataRegionDescriptor.dataset_generation v) ++
  write_u64 (DataRegionDescriptor.memory_domain v) ++
  put_window (DataRegionDescriptor.window v) ++ put_shape (DataRegionDescriptor.shape v) ++
  put_enum (DataRegionDescriptor.integrity v) ++
  write_bool (DataRegionDescriptor.durable v).
Definition get_region : Reader DataRegionDescriptor :=
  let! id' := read_u64 in
  let! generation' := read_u64 in
  let! dataset' := read_u64 in
  let! dataset_generation' := read_u64 in
  let! memory_domain' := read_u64 in
  let! window' := get_window in
  let! shape' := get_shape in
  let! integrity' := get_enum in
  let! durable' := read_bool in
  rret {| DataRegionDescriptor.id := id'; DataRegionDescriptor.generation := generation';
          DataRegionDescriptor.dataset := dataset';
          DataRegionDescriptor.dataset_generation := dataset_generation';
          DataRegionDescriptor.memory_domain := memory_domain';
          DataRegionDescriptor.window := window'; DataRegionDescriptor.shape := shape';
          DataRegionDescriptor.integrity := integrity';
          DataRegionDescriptor.durable := durable' |}.
Definition wf_region (v : DataRegionDescriptor) : Prop :=
  in_u64 (DataRegionDescriptor.id v) ∧ in_u64 (DataRegionDescriptor.generation v) ∧
  in_u64 (DataRegionDescriptor.dataset v) ∧
  in_u64 (DataRegionDescriptor.dataset_generation v) ∧
  in_u64 (DataRegionDescriptor.memory_domain v) ∧
  wf_window (DataRegionDescriptor.window v) ∧ wf_shape (DataRegionDescriptor.shape v) ∧
  valid_enum (DataRegionDescriptor.integrity v).
Lemma region_get v : wf_region v → reads get_region (put_region v) v.
Proof. unfold wf_region, put_region, get_region. intros. destruct_and!. destruct v; simpl in *. solve_reads. Qed.

Definition put_program_entry (v : Program) : list Z :=
  write_u64 (Program.id v) ++ write_u64 (Program.generation v) ++
  write_string (Program.name v) ++ put_enum (Program.op_class v) ++
  put_enum (Program.target_kind v) ++ write_string (Program.digest v) ++
  put_list put_enum (Program.data_types v) ++ put_list put_enum (Program.layouts v) ++
  write_u64 (Program.workspace_bytes v) ++ put_enum (Program.lifecycle v) ++
  write_bool (Program.predefined v) ++ write_bool (Program.validated v).
Definition get_program_entry : Reader Program :=
  let! id' := read_u64 in
  let! generation' := read_u64 in
  let! name' := read_string in
  let! op_class' := get_enum in
  let! target_kind' := get_enum in
  let! digest' := read_string in
  let! data_types' := get_list get_enum in
  let! layouts' := get_list get_enum in
  let! workspace_bytes' := read_u64 in
  let! lifecycle' := get_enum in
  let! predefined' := read_bool in
  let! validated' := read_bool in
  rret {| Program.id := id'; Program.generation := generation'; Program.name := name';
          Program.op_class := op_class'; Program.target_kind := target_kind';
          Program.digest := digest'; Program.data_types := data_types';
          Program.layouts := layouts'; Program.workspace_bytes := workspace_bytes';
          Program.lifecycle := lifecycle'; Program.predefined := predefined';
          Program.validated := validated' |}.
Definition wf_program_entry (v : Program) : Prop :=
  in_u64 (Program.id v) ∧ in_u64 (Program.generation v) ∧ string_ok (Program.name v) ∧
  valid_enum (Program.op_class v) ∧ valid_enum (Program.target_kind v) ∧
  string_ok (Program.digest v) ∧ list_ok valid_enum (Program.data_types v) ∧
  list_ok valid_enum (Program.layouts v) ∧ in_u64 (Program.workspace_bytes v) ∧
  valid_enum (Program.lifecycle v).
Lemma program_entry_get v : wf_program_entry v → reads get_program_entry (put_program_entry v) v.
Proof. unfold wf_program_entry, put_program_entry, get_program_entry. intros. destruct_and!. destruct v; simpl in *. solve_reads. Qed.

Definition put_policy (v : Policy) : list Z :=
  write_u64 (Policy.id v) ++ write_u64 (Policy.generation v) ++
  write_string (Policy.name v) ++ put_enum (Policy.outcome v) ++
  put_list put_enum (Policy.permitted_fallbacks v) ++
  write_f64 (Policy.required_confidence v) ++ write_f64 (Policy.near_memory_bias v) ++
  write_bool (Policy.reject_on_stale v) ++
  write_u64 (Policy.max_near_memory_input_bytes v) ++
  write_bool (Policy.require_verification v).
Definition get_policy : Reader Policy :=
  let! id' := read_u64 in
  let! generation' := read_u64 in
  let! name' := read_string in
  let! outcome' := get_enum in
  let! permitted_fallbacks' := get_list get_enum in
  let! required_confidence' := read_f64 in
  let! near_memory_bias' := read_f64 in
  let! reject_on_stale' := read_bool in
  let! max_near_memory_input_bytes' := read_u64 in
  let! require_verification' := read_bool in
  rret {| Policy.id := id'; Policy.generation := generation'; Policy.name := name';
          Policy.outcome := outcome'; Policy.permitted_fallbacks := permitted_fallbacks';
          Policy.required_confidence := required_confidence';
          Policy.near_memory_bias := near_memory_bias';
          Policy.reject_on_stale := reject_on_stale';
          Policy.max_near_memory_input_bytes := max_near_memory_input_bytes';
          Policy.require_verification := require_verification' |}.
Definition wf_policy (v : Policy) : Prop :=
  in_u64 (Policy.id v) ∧ in_u64 (Policy.generation v) ∧ string_ok (Policy.name v) ∧
  valid_enum (Policy.outcome v) ∧ list_ok valid_enum (Policy.permitted_fallbacks v) ∧
  in_u64 (Policy.required_confidence v) ∧ in_u64 (Policy.near_memory_bias v) ∧
  in_u64 (Policy.max_near_memory_input_bytes v).
Lemma policy_get v : wf_policy v → reads get_policy (put_policy v) v.
Proof. unfold wf_policy, put_policy, get_policy. intros. destruct_and!. destruct v; simpl in *. solve_reads. Qed.

Definition put_target (v : TargetDefinition) : list Z :=
  write_u64 (TargetDefinition.id v) ++ write_u64 (TargetDefinition.generation v) ++
  put_enum (TargetDefinition.provider v) ++ put_enum (TargetDefinition.kind v) ++
  write_string (TargetDefinition.name v) ++
  write_string (TargetDefinition.description v) ++
  write_u64 (TargetDefinition.failure_domain v) ++
  put_list write_u64 (TargetDefinition.memory_domains v) ++
  put_list put_enum (TargetDefinition.supported_ops v) ++
  put_list put_enum (TargetDefinition.supported_data_types v) ++
  put_list put_enum (TargetDefinition.supported_layouts v) ++
  write_u64 (TargetDefinition.max_input_bytes v) ++
  write_u64 (TargetDefinition.alignment_constraint v) ++
  write_u32 (TargetDefinition.concurrency_capacity v) ++
  write_u64 (TargetDefinition.queue_depth v) ++
  write_u64 (TargetDefinition.workspace_bytes v) ++
  put_enum (TargetDefinition.access_semantics v) ++
  write_bool (TargetDefinition.requires_staging v) ++
  write_bool (TargetDefinition.synthetic v) ++
  write_bool (TargetDefinition.supports_verification v) ++
  write_bool (TargetDefinition.supports_cancellation v) ++
  write_bool (TargetDefinition.supports_drain v) ++
  write_string (TargetDefinition.authority_owner v).
Definition get_target : Reader TargetDefinition :=
  let! id' := read_u64 in
  let! generation' := read_u64 in
  let! provider' := get_enum in
  let! kind' := get_enum in
  let! name' := read_string in
  let! description' := read_string in
  let! failure_domain' := read_u64 in
  let! memory_domains' := get_list read_u64 in
  let! supported_ops' := get_list get_enum in
  let! supported_data_types' := get_list get_enum in
  let! supported_layouts' := get_list get_enum in
  let! max_input_bytes' := read_u64 in
  let! alignment_constraint' := read_u64 in
  let! concurrency_capacity' := read_u32 in
  let! queue_depth' := read_u64 in
  let! workspace_bytes' := read_u64 in
  let! access_semantics' := get_enum in
  let! requires_staging' := read_bool in
  let! synthetic' := read_bool in
  let! supports_verification' := read_bool in
  let! supports_cancellation' := read_bool in
  let! supports_drain' := read_bool in
  let! authority_owner' := read_string in
  rret {| TargetDefinition.id := id'; TargetDefinition.generation := generation';
          TargetDefinition.provider := provider'; TargetDefinition.kind := kind';
          TargetDefinition.name := name'; TargetDefinition.description := description';
          TargetDefinition.failure_domain := failure_domain';
          TargetDefinition.memory_domains := memory_domains';
          TargetDefinition.supported_ops := supported_ops';
          TargetDefinition.supported_data_types := supported_data_types';
          TargetDefinition.supported_layouts := supported_layouts';
          TargetDefinition.max_input_bytes := max_input_bytes';
          TargetDefinition.alignment_constraint := alignment_constraint';
          TargetDefinition.concurrency_capacity := concurrency_capacity';
          TargetDefinition.queue_depth := queue_depth';
          TargetDefinition.workspace_bytes := workspace_bytes';
          TargetDefinition.access_semantics := access_semantics';
          TargetDefinition.requires_staging := requires_staging';
          TargetDefinition.synthetic := synthetic';
          TargetDefinition.supports_verification := supports_verification';
          TargetDefinition.supports_cancellation := supports_cancellation';
          TargetDefinition.supports_drain := supports_drain';
          TargetDefinition.authority_owner := authority_owner' |}.
Definition wf_target (v : TargetDefinition) : Prop :=
  in_u64 (TargetDefinition.id v) ∧ in_u64 (TargetDefinition.generation v) ∧
  valid_enum (TargetDefinition.provider v) ∧ valid_enum (TargetDefinition.kind v) ∧
  string_ok (TargetDefinition.name v) ∧ string_ok (TargetDefinition.description v) ∧
  in_u64 (TargetDefinition.failure_domain v) ∧
  list_ok in_u64 (TargetDefinition.memory_domains v) ∧
  list_ok valid_enum (TargetDefinition.supported_ops v) ∧
  list_ok valid_enum (TargetDefinition.supported_data_types v) ∧
  list_ok valid_enum (TargetDefinition.supported_layouts v) ∧
  in_u64 (TargetDefinition.max_input_bytes v) ∧
  in_u64 (TargetDefinition.alignment_constraint v) ∧
  in_u32 (TargetDefinition.concurrency_capacity v) ∧
  in_u64 (TargetDefinition.queue_depth v) ∧ in_u64 (TargetDefinition.workspace_bytes v) ∧
  valid_enum (TargetDefinition.access_semantics v) ∧
  string_ok (TargetDefinition.authority_owner v).
Lemma target_get v : wf_target v → reads get_target (put_target v) v.
Proof. unfold wf_target, put_target, get_target. intros. destruct_and!. destruct v; simpl in *. solve_reads. Qed.

Definition put_result_entry (v : ExecutionResult) : list Z :=
  write_u64 (ExecutionResult.id v) ++ write_u64 (ExecutionResult.generation v) ++
  write_u64 (ExecutionResult.plan v) ++ write_u64 (ExecutionResult.plan_generation v) ++
  write_u64 (ExecutionResult.dispatch v) ++ write_u64 (ExecutionResult.attempt v) ++
  write_u64 (ExecutionResult.target v) ++
  write_u64 (ExecutionResult.target_generation v) ++
  write_u64 (ExecutionResult.worker_boot v) ++ write_u64 (ExecutionResult.epoch v) ++
  write_u64 (ExecutionResult.dataset_generation v) ++
  write_u64 (ExecutionResult.region_generation v) ++
  write_u64 (ExecutionResult.operation_generation v) ++
  put_enum (ExecutionResult.verification v) ++
  write_string (ExecutionResult.output_digest v) ++
  write_u64 (ExecutionResult.output_bytes v) ++ write_bool (ExecutionResult.committed v) ++
  write_bool (ExecutionResult.ambiguous v) ++ write_string (ExecutionResult.note v).
Definition get_result_entry : Reader ExecutionResult :=
  let! id' := read_u64 in
  let! generation' := read_u64 in
  let! plan' := read_u64 in
  let! plan_generation' := read_u64 in
  let! dispatch' := read_u64 in
  let! attempt' := read_u64 in
  let! target' := read_u64 in
  let! target_generation' := read_u64 in
  let! worker_boot' := read_u64 in
  let! epoch' := read_u64 in
  let! dataset_generation' := read_u64 in
  let! region_generation' := read_u64 in
  let! operation_generation' := read_u64 in
  let! verification' := get_enum in
  let! output_digest' := read_string in
  let! output_bytes' := read_u64 in
  let! committed' := read_bool in
  let! ambiguous' := read_bool in
  let! note' := read_string in
  rret {| ExecutionResult.id := id'; ExecutionResult.generation := generation';
          ExecutionResult.plan := plan';
          ExecutionResult.plan_generation := plan_generation';
          ExecutionResult.dispatch := dispatch'; ExecutionResult.attempt := attempt';
          ExecutionResult.target := target';
          ExecutionResult.target_generation := target_generation';
          ExecutionResult.worker_boot := worker_boot'; ExecutionResult.epoch := epoch';
          ExecutionResult.dataset_generation := dataset_generation';
          ExecutionResult.region_generation := region_generation';
          ExecutionResult.operation_generation := operation_generation';
          ExecutionResult.verification := verification';
          ExecutionResult.output_digest := output_digest';
          ExecutionResult.output_bytes := output_bytes';
          ExecutionResult.committed := committed'; ExecutionResult.ambiguous := ambiguous';
          ExecutionResult.note := note' |}.
Definition wf_result_entry (v : ExecutionResult) : Prop :=
  in_u64 (ExecutionResult.id v) ∧ in_u64 (ExecutionResult.generation v) ∧
  in_u64 (ExecutionResult.plan v) ∧ in_u64 (ExecutionResult.plan_generation v) ∧
  in_u64 (ExecutionResult.dispatch v) ∧ in_u64 (ExecutionResult.attempt v) ∧
  in_u64 (ExecutionResult.target v) ∧ in_u64 (ExecutionResult.target_generation v) ∧
  in_u64 (ExecutionResult.worker_boot v) ∧ in_u64 (ExecutionResult.epoch v) ∧
  in_u64 (ExecutionResult.dataset_generation v) ∧
  in_u64 (ExecutionResult.region_generation v) ∧
  in_u64 (ExecutionResult.operation_generation v) ∧
  valid_enum (ExecutionResult.verification v) ∧
  string_ok (ExecutionResult.output_digest v) ∧ in_u64 (ExecutionResult.output_bytes v) ∧
  string_ok (ExecutionResult.note v).
Lemma result_entry_get v : wf_result_entry v → reads get_result_entry (put_result_entry v) v.
Proof. unfold wf_result_entry, put_result_entry, get_result_entry. intros. destruct_and!. destruct v; simpl in *. solve_reads. Qed.

Section Snapshot.
Import AuthoritySnapshot.
Definition put_snapshot (s : AuthoritySnapshot) : list Z :=
  write_u64 (epoch s) ++ write_u64 (worker_boot s) ++ write_u64 (target s) ++
  write_u64 (target_generation s) ++ write_u64 (memory_domain_generation s) ++
  write_u64 (dataset_generation s) ++ write_u64 (region_generation s) ++
  write_u64 (operation_generation s) ++ put_option (program_generation s) ++
  write_u64 (capability_generation s) ++ write_u64 (policy_generation s) ++
  write_u64 (evidence_generation s) ++ write_u64 (plan_generation s).
Definition get_snapshot : Reader AuthoritySnapshot :=
  let! epoch' := read_u64 in
  let! worker_boot' := read_u64 in
  let! target' := read_u64 in
  let! target_generation' := read_u64 in
  let! memory_domain_generation' := read_u64 in
  let! dataset_generation' := read_u64 in
  let! region_generation' := read_u64 in
  let! operation_generation' := read_u64 in
  let! program_generation' := get_option in
  let! capability_generation' := read_u64 in
  let! policy_generation' := read_u64 in
  let! evidence_generation' := read_u64 in
  let! plan_generation' := read_u64 in
  rret {| epoch := epoch'; worker_boot := worker_boot'; target := target';
          target_generation := target_generation';
          memory_domain_generation := memory_domain_generation';
          dataset_generation := dataset_generation'; region_generation := region_generation';
          operation_generation := operation_generation';
          program_generation := program_generation';
          capability_generation := capability_generation';
          policy_generation := policy_generation';
          evidence_generation := evidence_generation'; plan_generation := plan_generation' |}.
Definition wf_snapshot (s : AuthoritySnapshot) : Prop :=
  in_u64 (epoch s) ∧ in_u64 (worker_boot s) ∧ in_u64 (target s) ∧ in_u64 (target_generation s) ∧
  in_u64 (memory_domain_generation s) ∧ in_u64 (dataset_generation s) ∧
  in_u64 (region_generation s) ∧ in_u64 (operation_generation s) ∧
  option_ok (program_generation s) ∧ in_u64 (capability_generation s) ∧
  in_u64 (policy_generation s) ∧ in_u64 (evidence_generation s) ∧ in_u64 (plan_generation s).
Lemma snapshot_get s : wf_snapshot s → reads get_snapshot (put_snapshot s) s.
Proof. unfold wf_snapshot, put_snapshot, get_snapshot. intros. destruct_and!. destruct s; simpl in *. solve_reads. Qed.
End Snapshot.
#[export] Hint Resolve snapshot_get : nmc_codec.
#[local] Opaque put_snapshot.

Section Operation.
Import OperationSpec.
(** The flag is followed by the program and its generation, then the
    description. *)
Definition put_operation (v : OperationSpec) : list Z :=
  write_u64 (id v) ++ write_u64 (generation v) ++ put_enum (op_class v) ++
  write_u64 (dataset v) ++ write_u64 (dataset_generation v) ++ write_u64 (region v) ++
  write_u64 (region_generation v) ++ put_shape (shape v) ++ write_u64 (input_bytes v) ++
  write_u64 (output_bytes v) ++ write_u64 (workspace_bytes v) ++ put_enum (output_data_type v) ++
  write_bool (determinism_required v) ++ write_u64 (max_tolerated_latency_ns v) ++
  write_u64 (required_throughput_bps v) ++ put_enum (integrity v) ++ put_enum (retry_class v) ++
  write_u64 (policy v) ++ write_u64 (policy_generation v) ++
  write_bool (bool_decide (is_Some (program v))) ++
  match program v with
  | Some p => write_u64 p ++ write_u64 (default 0 (program_generation v))
  | None => []
  end ++
  write_string (description v).
(** [program_generation.value()] on an absent generation throws. *)
Definition operation_throws (v : OperationSpec) : bool :=
  match program v, program_generation v with Some _, None => true | _, _ => false end.
(** The flag is followed by the description, then the program and its
    generation. *)
Definition get_operation : Reader OperationSpec :=
  let! id' := read_u64 in
  let! generation' := read_u64 in
  let! op_class' := get_enum in
  let! dataset' := read_u64 in
  let! dataset_generation' := read_u64 in
  let! region' := read_u64 in
  let! region_generation' := read_u64 in
  let! shape' := get_shape in
  let! input_bytes' := read_u64 in
  let! output_bytes' := read_u64 in
  let! workspace_bytes' := read_u64 in
  let! output_data_type' := get_enum in
  let! determinism_required' := read_bool in
  let! max_tolerated_latency_ns' := read_u64 in
  let! required_throughput_bps' := read_u64 in
  let! integrity' := get_enum in
  let! retry_class' := get_enum in
  let! policy' := read_u64 in
  let! policy_generation' := read_u64 in
  let! has_prog := read_bool in
  let! description' := read_string in
  let! prog := if has_prog
               then let! p := read_u64 in let! g := read_u64 in rret (Some p, Some g)
               else rret (None, None) in
  rret {| id := id'; generation := generation'; op_class := op_class'; dataset := dataset';
          dataset_generation := dataset_generation'; region := region';
          region_generation := region_generation'; shape := shape';
          input_bytes := input_bytes'; output_bytes := output_bytes';
          workspace_bytes := workspace_bytes'; output_data_type := output_data_type';
          determinism_required := determinism_required';
          max_tolerated_latency_ns := max_tolerated_latency_ns';
          required_throughput_bps := required_throughput_bps'; integrity := integrity';
          retry_class := retry_class'; policy := policy';
          policy_generation := policy_generation'; program := fst prog;
          program_generation := snd prog; description := description' |}.
(** Only operations without a program survive the trip. *)
Definition wf_operation (v : OperationSpec) : Prop :=
  in_u64 (id v) ∧ in_u64 (generation v) ∧ valid_enum (op_class v) ∧ in_u64 (dataset v) ∧
  in_u64 (dataset_generation v) ∧ in_u64 (region v) ∧ in_u64 (region_generation v) ∧
  wf_shape (shape v) ∧ in_u64 (input_bytes v) ∧ in_u64 (output_bytes v) ∧
  in_u64 (workspace_bytes v) ∧ valid_enum (output_data_type v) ∧
  in_u64 (max_tolerated_latency_ns v) ∧ in_u64 (required_throughput_bps v) ∧
  valid_enum (integrity v) ∧ valid_enum (retry_class v) ∧ in_u64 (policy v) ∧
  in_u64 (policy_generation v) ∧ program v = None ∧ program_generation v = None ∧
  string_ok (description v).
Lemma operation_get v : wf_operation v → reads get_operation (put_operation v) v.
Proof.
  unfold wf_operation, put_operation, get_operation. intros. destruct_and!.
  destruct v; simpl in *. simplify_eq. rewrite bool_decide_false by by intros [].
  rewrite app_nil_l. repeat (reads_step; [solve [eauto with nmc_codec]|]). apply reads_ret.
Qed.
End Operation.

Section Plan.
Import ExecutionPlan.
Definition put_plan (v : ExecutionPlan) : list Z :=
  write_u64 (id v) ++ write_u64 (generation v) ++
  put_snapshot (PlanAuthority.snapshot (authority v)) ++ write_u64 (target v) ++
  write_u64 (target_generation v) ++ write_u64 (operation v) ++ put_enum (op_class v) ++
  write_u64 (dataset v) ++ write_u64 (dataset_generation v) ++ write_u64 (region v) ++
  write_u64 (region_generation v) ++ put_enum (lifecycle v) ++ write_u64 (reserved_slots v) ++
  write_u64 (reserved_workspace v) ++ put_option (dispatch_id v) ++ put_option (attempt_id v) ++
  put_enum (retry_class v) ++ put_enum (decision v) ++ put_list write_string (notes v).
(** The plan part of the authority is rebuilt from the plan itself. *)
Definition get_plan : Reader ExecutionPlan :=
  let! id' := read_u64 in
  let! generation' := read_u64 in
  let! snapshot' := get_snapshot in
  let! target' := read_u64 in
  let! target_generation' := read_u64 in
  let! operation' := read_u64 in
  let! op_class' := get_enum in
  let! dataset' := read_u64 in
  let! dataset_generation' := read_u64 in
  let! region' := read_u64 in
  let! region_generation' := read_u64 in
  let! lifecycle' := get_enum in
  let! reserved_slots' := read_u64 in
  let! reserved_workspace' := read_u64 in
  let! dispatch_id' := get_option in
  let! attempt_id' := get_option in
  let! retry_class' := get_enum in
  let! decision' := get_enum in
  let! notes' := get_list read_string in
  rret {| id := id'; generation := generation';
          authority := {| PlanAuthority.snapshot := snapshot'; PlanAuthority.plan := id';
                          PlanAuthority.plan_generation := generation' |};
          target := target'; target_generation := target_generation';
          operation := operation'; op_class := op_class'; dataset := dataset';
          dataset_generation := dataset_generation'; region := region';
          region_generation := region_generation'; lifecycle := lifecycle';
          reserved_slots := reserved_slots'; reserved_workspace := reserved_workspace';
          dispatch_id := dispatch_id'; attempt_id := attempt_id';
          retry_class := retry_class'; decision := decision'; notes := notes' |}.
Definition wf_plan (v : ExecutionPlan) : Prop :=
  in_u64 (id v) ∧ in_u64 (generation v) ∧ wf_snapshot (PlanAuthority.snapshot (authority v)) ∧
  PlanAuthority.plan (authority v) = id v ∧
  PlanAuthority.plan_generation (authority v) = generation v ∧ in_u64 (target v) ∧
  in_u64 (target_generation v) ∧ in_u64 (operation v) ∧ valid_enum (op_class v) ∧
  in_u64 (dataset v) ∧ in_u64 (dataset_generation v) ∧ in_u64 (region v) ∧
  in_u64 (region_generation v) ∧ valid_enum (lifecycle v) ∧ in_u64 (reserved_slots v) ∧
  in_u64 (reserved_workspace v) ∧ option_ok (dispatch_id v) ∧ option_ok (attempt_id v) ∧
  valid_enum (retry_class v) ∧ valid_enum (decision v) ∧ list_ok string_ok (notes v).
Lemma plan_get v : wf_plan v → reads get_plan (put_plan v) v.
Proof.
  unfold wf_plan, put_plan, get_plan. intros. destruct_and!.
  destruct v as [? ? [snap pl pg]]; simpl in *. simplify_eq. solve_reads.
Qed.
End Plan.

(** ** The state *)

Definition encode_state (s : RuntimeState) : option (list Z) :=
  if existsb operation_throws (map_entries (operations s)).*2 then None
  else Some (
    write_u64 (coordinator_id s) ++ write_u64 (epoch s) ++
    put_table put_memory_domain (memory_domains s) ++ put_table put_dataset (datasets s) ++
    put_table put_region (regions s) ++ put_table put_program_entry (programs s) ++
    put_table put_policy (policies s) ++ put_table put_operation (operations s) ++
    put_table put_target (targets s) ++ put_table put_plan (plans s) ++
    put_table put_result_entry (results s)).

Definition decode_state : Reader RuntimeState :=
  let! coordinator_id' := read_u64 in
  let! epoch' := read_u64 in
  if is_null epoch' then rfail else
  let! memory_domains' := get_table get_memory_domain MemoryDomainDescriptor.id in
  let! datasets' := get_table get_dataset DatasetDescriptor.id in
  let! regions' := get_table get_region DataRegionDescriptor.id in
  let! programs' := get_table get_program_entry Program.id in
  let! policies' := get_table get_policy Policy.id in
  let! operations' := get_table get_operation OperationSpec.id in
  let! targets' := get_table get_target TargetDefinition.id in
  let! plans' := get_table get_plan ExecutionPlan.id in
  let! results' := get_table get_result_entry ExecutionResult.id in
  rret {| coordinator_id := coordinator_id'; epoch := epoch'; memory_domains := memory_domains';
          datasets := datasets'; regions := regions'; data_evidence := ∅; targets := targets';
          target_runtime := ∅; capabilities := ∅; operations := operations';
          programs := programs'; policies := policies'; plans := plans'; active_plans := ∅;
          results := results'; reservations := ∅; workers := ∅ |}.

(** [Coordinator::load] after decoding: the statements of [advance_epoch], then
    reservations and sessions cleared. *)
Definition recovered (s : RuntimeState) : RuntimeState :=
  set_workers ∅ (set_reservations ∅ (advance_epoch s)).

(** [Coordinator::save]; [None] is the exception of [encode_state]. *)
Definition coordinator_save (os : OsAnswers) (path : string) (s : RuntimeState)
    (fs : gmap string (list Z)) : option (Result unit * gmap string (list Z)) :=
  (fun payload => save os path payload fs) <$> encode_state s.

Definition coordinator_load (ra : ReadAnswers) (file : option (list Z)) (s : RuntimeState)
    : Result unit * RuntimeState :=
  match load ra file decode_state with
  | Err e => (Err e, s)
  | Ok loaded => (Ok tt, recovered loaded)
  end.
