(* ===== verification/Recovery.v ===== *)
(** * Saving and recovering the coordinator ([Coordinator::save],
      [Coordinator::load])

    What survives a restart: [durable] keeps the persisted part of a state,
    [persistable] says which states are read back as they were written, and the
    theorems follow a state through the file and through the conservative
    recovery.  Two states that are written and cannot be recovered close the
    file. *)

From S2P Require Import Prelude Enums Ids Double Model Codec Protocol State Coordinator.
From S2P Require Import Persistence Machine Worker Safety StateCodec.

(** ** Everything written is bytes *)

Lemma put_list_bytes {A} (put : A → list Z) l :
  (∀ a, is_bytes (put a)) → is_bytes (put_list put l).
Proof. intros. apply is_bytes_app; [apply write_u64_bytes|by apply write_list_bytes]. Qed.
Lemma put_enum_bytes {E} `{CEnum E} (e : E) : is_bytes (put_enum e).
Proof. apply write_string_bytes. Qed.
Lemma put_table_bytes {V} (put : V → list Z) (m : gmap Z V) :
  (∀ v, is_bytes (put v)) → is_bytes (put_table put m).
Proof. intros. apply is_bytes_app; [apply write_u64_bytes|by apply write_list_bytes]. Qed.
#[local] Hint Resolve put_list_bytes put_enum_bytes put_table_bytes : nmc_codec.

Lemma put_option_bytes o : is_bytes (put_option o).
Proof. destruct o; simpl; auto with nmc_codec. Qed.
Lemma is_bytes_nil : is_bytes [].
Proof. by apply Forall_nil. Qed.
#[local] Hint Resolve put_option_bytes is_bytes_nil : nmc_codec.

(** Every field of an entry in turn. *)
Ltac solve_bytes := first [solve [auto with nmc_codec] | apply is_bytes_app; solve_bytes].

Lemma put_shape_bytes s : is_bytes (put_shape s).
Proof. solve_bytes. Qed.
Lemma put_window_bytes s : is_bytes (put_window s).
Proof. solve_bytes. Qed.
Lemma put_snapshot_bytes s : is_bytes (put_snapshot s).
Proof. solve_bytes. Qed.
#[local] Hint Resolve put_shape_bytes put_window_bytes put_snapshot_bytes : nmc_codec.
Lemma put_operation_bytes v : is_bytes (put_operation v).
Proof.
  unfold put_operation. destruct (OperationSpec.program v); solve_bytes.
Qed.
#[local] Hint Resolve put_operation_bytes : nmc_codec.

Lemma encode_state_bytes s payload : encode_state s = Some payload → is_bytes payload.
Proof.
  unfold encode_state. case_match; [done|]. intros [= <-].
  repeat (apply is_bytes_app; [solve [auto with nmc_codec | apply put_table_bytes; intros; solve_bytes]|]).
  apply write_list_bytes. intros. solve_bytes.
Qed.

(** ** The states that survive *)

(** The persisted part: no evidence, runtime, capability, session, reservation
    or index. *)
Definition durable (s : RuntimeState) : RuntimeState :=
  {| coordinator_id := coordinator_id s; epoch := epoch s; memory_domains := memory_domains s;
     datasets := datasets s; regions := regions s; data_evidence := ∅; targets := targets s;
     target_runtime := ∅; capabilities := ∅; operations := operations s;
     programs := programs s; policies := policies s; plans := plans s; active_plans := ∅;
     results := results s; reservations := ∅; workers := ∅ |}.

(** Every table within the persisted bound, every entry stored under its id,
    within the widths, strings and list bounds of the format, its enumerations
    named; operations without a program. *)
Definition persistable (s : RuntimeState) : Prop :=
  in_u64 (coordinator_id s) ∧ in_u64 (epoch s) ∧ epoch s ≠ 0 ∧
  table_ok MemoryDomainDescriptor.id wf_memory_domain (memory_domains s) ∧
  table_ok DatasetDescriptor.id wf_dataset (datasets s) ∧
  table_ok DataRegionDescriptor.id wf_region (regions s) ∧
  table_ok Program.id wf_program_entry (programs s) ∧
  table_ok Policy.id wf_policy (policies s) ∧
  table_ok OperationSpec.id wf_operation (operations s) ∧
  table_ok TargetDefinition.id wf_target (targets s) ∧
  table_ok ExecutionPlan.id wf_plan (plans s) ∧
  table_ok ExecutionResult.id wf_result_entry (results s).

#[local] Hint Extern 1 (reads (get_table _ _) _ _) =>
  eapply table_get; [|eassumption] : nmc_codec.
#[local] Hint Resolve memory_domain_get dataset_get region_get program_entry_get policy_get
  operation_get target_get plan_get result_entry_get : nmc_codec.

Lemma state_get s payload :
  persistable s → encode_state s = Some payload → reads decode_state payload (durable s).
Proof.
  intros (? & ? & Hep & ? & ? & ? & ? & ? & ? & ? & ? & ?). unfold encode_state, decode_state.
  case_match; [done|]. intros [= <-].
  reads_step; [by auto with nmc_codec|]. reads_step; [by auto with nmc_codec|].
  unfold is_null. rewrite (proj2 (Z.eqb_neq _ _)) by done. solve_reads.
Qed.

(** ** Deciding it on a concrete state *)

#[export] Instance list_ok_dec {A} (ok : A → Prop) `{∀ a, base.Decision (ok a)} l :
  base.Decision (list_ok ok l).
Proof. unfold list_ok. apply _. Defined.
#[export] Instance option_ok_dec o : base.Decision (option_ok o).
Proof. destruct o; simpl; apply _. Defined.
#[export] Instance table_ok_dec {V} (id : V → Z) (ok : V → Prop) `{∀ v, base.Decision (ok v)} m :
  base.Decision (table_ok id ok m).
Proof. unfold table_ok. apply _. Defined.
#[export] Instance string_ok_dec s : base.Decision (string_ok s).
Proof. unfold string_ok. apply _. Defined.
#[export] Instance persistable_dec s : base.Decision (persistable s).
Proof.
  unfold persistable, wf_memory_domain, wf_dataset, wf_region, wf_program_entry, wf_policy,
    wf_operation, wf_target, wf_plan, wf_result_entry, wf_snapshot, wf_shape, wf_window, valid_enum.
  apply _.
Defined.

(** ** Through the file *)

Lemma loaded_envelope ra s payload :
  read_ok ra = true → persistable s → encode_state s = Some payload → Z.of_nat (length payload) <= kMaxPayload →
  load ra (Some (envelope payload)) decode_state = Ok (durable s).
Proof.
  intros Hra Hs He Hlen. pose proof (encode_state_bytes _ _ He) as Hb.
  unfold load, fail. rewrite read_envelope, open_envelope_complete, (reads_whole _ _ _ (state_get _ _ Hs He)) by done.
  unfold at_end, size_. simpl. by rewrite Nat.leb_refl.
Qed.

Lemma recovered_lookup s k p :
  plans (recovered s) !! k = Some p ↔
  ∃ p0, plans s !! k = Some p0 ∧
        p = ExecutionPlan.set_lifecycle (epoch_lifecycle (ExecutionPlan.lifecycle p0)) p0.
Proof.
  change (plans (recovered s)) with
    ((fun p => ExecutionPlan.set_lifecycle (epoch_lifecycle (ExecutionPlan.lifecycle p)) p)
       <$> plans s).
  rewrite lookup_fmap, fmap_Some. done.
Qed.

Lemma epoch_lifecycle_committed l :
  epoch_lifecycle l = ExecutionLifecycle.COMMITTED ↔ l = ExecutionLifecycle.COMMITTED.
Proof. by destruct l. Qed.
Lemma epoch_lifecycle_resolved l : is_resolved (epoch_lifecycle l) = true.
Proof. by destruct l. Qed.

(** What the rebuilt index may name. *)
Lemma rebuild_origin l m o k :
  fold_left rebuild_step l m !! o = Some k →
  m !! o = Some k ∨
  ∃ e, e ∈ l ∧ ExecutionPlan.operation e.2 = o ∧ ExecutionPlan.id e.2 = k ∧
       is_settled (ExecutionPlan.lifecycle e.2) = false.
Proof.
  revert m. induction l as [|e l IH]; intros m; simpl; [by auto|].
  intros [Hm|(e' & ? & ?)]%IH; [|right; exists e'; split; [by right|done]].
  unfold rebuild_step in Hm. destruct (is_settled _) eqn:Hs; [by auto|].
  destruct (decide (ExecutionPlan.operation e.2 = o)) as [<-|]; simplify_map_eq; [|by auto].
  right. exists e. split_and!; [by left|done..].
Qed.

Lemma recovered_index s o k :
  active_plans (recovered s) !! o = Some k →
  ∃ k' p0, plans s !! k' = Some p0 ∧ ExecutionPlan.operation p0 = o ∧ ExecutionPlan.id p0 = k ∧
           is_in_flight (ExecutionPlan.lifecycle p0) = true.
Proof.
  intros [H|([k' p] & Hin & Ho & Hk & Hs)]%rebuild_origin; [by rewrite lookup_empty in H|].
  apply elem_of_map_entries, recovered_lookup in Hin as (p0 & Hp0 & ->). exists k', p0.
  split_and!; [done..|]. simpl in Hs. by destruct (ExecutionPlan.lifecycle p0).
Qed.

Lemma decoded_is_durable ra file s :
  load ra file decode_state = Ok s → durable s = s.
Proof.
  unfold load, fail. destruct (read_whole_file ra file); [|done]. destruct (open_envelope _); [|done].
  destruct (decode_state _) as [[s' r]|] eqn:Hd; [|done]. case_match; [done|]. intros [= <-].
  unfold decode_state, rbind, rret, rfail in Hd. repeat case_match; by simplify_eq.
Qed.

(** Histories of a coordinator that is saved and restarted any number of times,
    each time from a state the format can hold.  [save] and [load] do not check
    that: on other states the save throws or the load refuses the file
    ([saved_states_not_recovered]). *)
Inductive lifetime : RuntimeState → Prop :=
| life_new id : lifetime (new_coordinator id)
| life_step s c s' : lifetime s → step s c s' → lifetime s'
| life_restart os ra path s fs fs' s0 s' :
    lifetime s → persistable s → coordinator_save os path s fs = Some (Ok tt, fs') →
    coordinator_load ra (fs' !! path) s0 = (Ok tt, s') → lifetime s'.

Lemma recovered_ledger s : ledger_ok s → ledger_ok (recovered (durable s)).
Proof.
  intros [H1 H2 H3 H4].
  assert (Hd : ledger_ok (durable s)) by by split.
  destruct (ledger_preserved (durable s) AdvanceEpoch _ (step_exec _ AdvanceEpoch I) Hd). by split.
Qed.

Lemma saved_loads os ra path s fs fs' s0 :
  read_ok ra = true → persistable s → coordinator_save os path s fs = Some (Ok tt, fs') →
  coordinator_load ra (fs' !! path) s0 = (Ok tt, recovered (durable s)).
Proof.
  intros Hra Hs Hsave. unfold coordinator_save in Hsave.
  destruct (encode_state s) as [payload|] eqn:He; [|done]. simpl in Hsave. simplify_eq.
  pose proof (save_file os path payload fs) as Hf. rewrite Hsave in Hf.
  destruct Hf as (Hlen & -> & _). unfold coordinator_load.
  by rewrite (loaded_envelope ra s payload).
Qed.
(** A load that answers has read the file. *)
Lemma load_reads {A} ra file (decode : Reader A) a :
  load ra file decode = Ok a → read_ok ra = true.
Proof.
  unfold load. destruct (read_whole_file ra file) as [raw|] eqn:Hr; [|done].
  apply read_whole_file_Ok in Hr as [_ Hr]. destruct raw; [done|]. by rewrite Hr.
Qed.
Lemma saved_loads_only os ra path s fs fs' s0 s' :
  persistable s → coordinator_save os path s fs = Some (Ok tt, fs') →
  coordinator_load ra (fs' !! path) s0 = (Ok tt, s') → s' = recovered (durable s).
Proof.
  intros Hp Hsave Hload. assert (Hra : read_ok ra = true).
  { unfold coordinator_load in Hload. destruct (load ra _ _) eqn:Hl; [by eapply load_reads|done]. }
  rewrite (saved_loads os ra path s fs fs' s0 Hra Hp Hsave) in Hload. by simplify_eq.
Qed.

Lemma lifetime_ledger s : lifetime s → ledger_ok s.
Proof.
  induction 1 as [id|s c s' _ IH Hst|os ra path s fs fs' s0 s' _ IH Hp Hsave Hload].
  - apply ledger_ok_new.
  - by eapply ledger_preserved.
  - rewrite (saved_loads_only _ _ _ _ _ _ _ _ Hp Hsave Hload). by apply recovered_ledger.
Qed.

(** ** Properties *)

(** Claim C8: save, then load.  Let the state be one the format can hold: no
    operation names a program or a program generation, every enumerator is one of
    its enumeration, every entry is stored under its own id with its numbers
    within their types, and no table exceeds the count the loader accepts
    ([persistable]; [saved_states_not_recovered] shows what happens otherwise).
    Then whatever a successful [Coordinator::save] left at the destination,
    loading it with reads that succeed succeeds in any coordinator and yields the
    recovered form of exactly the durable part of the saved state: every domain,
    dataset, region, program, policy, operation, target, plan and result. *)
Theorem save_load_round_trip os ra path s fs fs' s0 :
  read_ok ra = true → persistable s → coordinator_save os path s fs = Some (Ok tt, fs') →
  coordinator_load ra (fs' !! path) s0 = (Ok tt, recovered (durable s)).
Proof. intros. by eapply saved_loads. Qed.

(** An operating system whose calls all succeed on [n] bytes. *)
Definition os_fine (n : Z) : OsAnswers :=
  {| os_create := true; os_write := Some n; os_flush := true; os_delete := true; os_move := true |}.
Definition os_for (s : RuntimeState) : OsAnswers :=
  os_fine (18 + Z.of_nat (length (default [] (encode_state s)))).

Lemma save_load_round_trip_witness :
  match coordinator_save (os_for (demo_state demo_committed)) "state" (demo_state demo_committed) ∅ with
  | Some (Ok _, fs') =>
      coordinator_load reads_fine (fs' !! "state") (new_coordinator 2) =
      (Ok tt, recovered (durable (demo_state demo_committed)))
  | _ => False
  end.
Proof.
  destruct (coordinator_save _ _ _ _) as [[[[]|e] fs']|] eqn:Hsave.
  - apply (save_load_round_trip (os_for (demo_state demo_committed)) reads_fine "state"
      (demo_state demo_committed) ∅ fs' (new_coordinator 2)); [reflexivity| |exact Hsave].
    apply (bool_decide_eq_true_1 _). vm_compute. reflexivity.
  - apply (f_equal (option_map fst)) in Hsave. vm_compute in Hsave. discriminate Hsave.
  - apply (f_equal (option_map fst)) in Hsave. vm_compute in Hsave. discriminate Hsave.
Defined.

(** Claim C9: recovery is conservative.  A successful load answers the next
    epoch (a 64-bit counter) and the stored results unchanged, and trusts nothing
    dynamic: no target is known to run, no capability, evidence, session or
    reservation is kept, and an operation counts as active only for a plan that
    was in flight.  The plans are exactly those on disk, each with its identity;
    a plan is COMMITTED if and only if it was on disk, and each is resolved: in
    any continuation it is COMMITTED only if it was, and every completion sent
    for it is refused. *)
Theorem recovery_is_conservative ra file s0 s :
  coordinator_load ra file s0 = (Ok tt, s) →
  ∃ loaded, load ra file decode_state = Ok loaded ∧
    epoch s = u64 (epoch loaded + 1) ∧ results s = results loaded ∧
    target_runtime s = ∅ ∧ capabilities s = ∅ ∧ data_evidence s = ∅ ∧
    reservations s = ∅ ∧ workers s = ∅ ∧
    (∀ o k, active_plans s !! o = Some k → ∃ k' p0, plans loaded !! k' = Some p0 ∧
       ExecutionPlan.operation p0 = o ∧ ExecutionPlan.id p0 = k ∧
       is_in_flight (ExecutionPlan.lifecycle p0) = true) ∧
    (∀ k, plans s !! k = None ↔ plans loaded !! k = None) ∧
    ∀ k p0, plans loaded !! k = Some p0 → ∃ p, plans s !! k = Some p ∧
      plan_identity p = plan_identity p0 ∧
      (ExecutionPlan.lifecycle p = ExecutionLifecycle.COMMITTED ↔
       ExecutionPlan.lifecycle p0 = ExecutionLifecycle.COMMITTED) ∧
      is_resolved (ExecutionPlan.lifecycle p) = true ∧
      ∀ cs s', execution s cs s' →
        (∃ p', plans s' !! k = Some p' ∧
           (ExecutionPlan.lifecycle p' = ExecutionLifecycle.COMMITTED ↔
            ExecutionPlan.lifecycle p = ExecutionLifecycle.COMMITTED)) ∧
        ∀ fresh msg, ResultMsg.plan msg = k → ∃ e, apply_result fresh msg s' = (Err e, s').
Proof.
  unfold coordinator_load. destruct (load ra file decode_state) as [loaded|] eqn:Hl; [|done].
  intros [= <-]. exists loaded. pose proof (decoded_is_durable _ _ _ Hl) as Hd.
  split_and!; [done|done|done|by rewrite <- Hd; simpl; rewrite ?fmap_empty..|
    by apply recovered_index|intros k|].
  { rewrite <- !not_elem_of_dom. apply not_iff_compat. rewrite !elem_of_dom. split.
    - intros [p (p0 & Hp0 & _)%recovered_lookup]. by eexists.
    - intros [p0 Hp0]. eexists. apply recovered_lookup. by exists p0. }
  intros k p0 Hp0.
  assert (Hp : plans (recovered loaded) !! k = Some
    (ExecutionPlan.set_lifecycle (epoch_lifecycle (ExecutionPlan.lifecycle p0)) p0))
    by (apply recovered_lookup; by eauto).
  eexists. split; [exact Hp|]. split; [done|]. split; [by apply epoch_lifecycle_committed|].
  split; [apply epoch_lifecycle_resolved|]. intros cs s' Hex.
  destruct (execution_plan _ _ _ _ _ Hex Hp) as (p' & Hp' & _ & Hr).
  destruct (Hr (epoch_lifecycle_resolved _)) as [Hres Hc]. split; [by eauto|].
  intros fresh msg Hk. by eapply resolved_refuses.
Qed.

Lemma recovery_is_conservative_witness :
  match coordinator_load reads_fine
          (envelope <$> encode_state (demo_state demo_dispatched)) (new_coordinator 2) with
  | (Ok _, s) => workers s = ∅ ∧ reservations s = ∅
  | _ => False
  end.
Proof.
  destruct (coordinator_load _ _) as [[[]|e] s] eqn:Hload.
  - destruct (recovery_is_conservative reads_fine (envelope <$> encode_state (demo_state demo_dispatched))
      (new_coordinator 2) s Hload) as (loaded & _ & _ & _ & _ & _ & _ & Hr & Hw & _).
    split; [exact Hw|exact Hr].
  - apply (f_equal (fun r => match r.1 with Ok _ => true | Err _ => false end)) in Hload.
    vm_compute in Hload. discriminate Hload.
Defined.

(** Claim C2: exactly-once commit survives restarts.  However often the
    coordinator is saved and recovered, with any commands in between, each plan
    has at most one stored result and is COMMITTED exactly when a committed,
    verified result of it is stored.  The states saved are ones the format can
    hold ([persistable]: no operation names a program or a program generation,
    every enumerator is one of its enumeration, numbers are within their types,
    no table exceeds the count the loader accepts); a load that fails leaves the
    new coordinator as it is. *)
Theorem exactly_once_across_restarts s : lifetime s → exactly_once s.
Proof. intros Hok%lifetime_ledger. by apply ledger_exactly_once. Qed.

Lemma execution_lifetime s cs s' : lifetime s → execution s cs s' → lifetime s'.
Proof. intros Hs. induction 1; [done|]. by eapply life_step. Qed.

Lemma reachable_lifetime s : reachable s → lifetime s.
Proof. intros (id & cs & Hex). eapply execution_lifetime; [constructor|done]. Qed.

Lemma exactly_once_across_restarts_witness :
  match coordinator_save (os_for (demo_state demo_committed)) "state" (demo_state demo_committed) ∅ with
  | Some (Ok _, fs') =>
      match coordinator_load reads_fine (fs' !! "state") (new_coordinator 2) with
      | (Ok _, s) => exactly_once s
      | _ => False
      end
  | _ => False
  end.
Proof.
  destruct (coordinator_save _ _ _ _) as [[[[]|e] fs']|] eqn:Hsave.
  - assert (Hp : persistable (demo_state demo_committed))
      by (apply (bool_decide_eq_true_1 _); vm_compute; reflexivity).
    rewrite (saved_loads _ reads_fine _ _ _ _ (new_coordinator 2) eq_refl Hp Hsave).
    apply (exactly_once_across_restarts (recovered (durable (demo_state demo_committed)))).
    eapply (life_restart _ reads_fine _ (demo_state demo_committed)); [|exact Hp|exact Hsave|].
    + apply reachable_lifetime, demo_reachable. vm_compute. reflexivity.
    + exact (saved_loads _ reads_fine _ _ _ _ (new_coordinator 2) eq_refl Hp Hsave).
  - apply (f_equal (option_map fst)) in Hsave. vm_compute in Hsave. discriminate Hsave.
  - apply (f_equal (option_map fst)) in Hsave. vm_compute in Hsave. discriminate Hsave.
Defined.

(** The answer of a save followed by a load of the file. *)
Definition save_then_load (s : RuntimeState) : option (Result unit * Result unit) :=
  match coordinator_save (os_for s) "state" s ∅ with
  | Some (saved, fs) => Some (saved, (coordinator_load reads_fine (fs !! "state") (new_coordinator 2)).1)
  | None => None
  end.

(** An operation that names a program. *)
Definition program_operation (generation : option ProgramGeneration) : OperationSpec :=
  let o := small_operation 19 in
  {| OperationSpec.id := 19; OperationSpec.generation := OperationSpec.generation o;
     OperationSpec.op_class := OperationClass.CUSTOM_REGISTERED;
     OperationSpec.dataset := OperationSpec.dataset o;
     OperationSpec.dataset_generation := OperationSpec.dataset_generation o;
     OperationSpec.region := OperationSpec.region o;
     OperationSpec.region_generation := OperationSpec.region_generation o;
     OperationSpec.shape := OperationSpec.shape o;
     OperationSpec.input_bytes := OperationSpec.input_bytes o;
     OperationSpec.output_bytes := OperationSpec.output_bytes o;
     OperationSpec.workspace_bytes := OperationSpec.workspace_bytes o;
     OperationSpec.output_data_type := OperationSpec.output_data_type o;
     OperationSpec.determinism_required := OperationSpec.determinism_required o;
     OperationSpec.max_tolerated_latency_ns := OperationSpec.max_tolerated_latency_ns o;
     OperationSpec.required_throughput_bps := OperationSpec.required_throughput_bps o;
     OperationSpec.integrity := OperationSpec.integrity o;
     OperationSpec.retry_class := OperationSpec.retry_class o;
     OperationSpec.policy := OperationSpec.policy o;
     OperationSpec.policy_generation := OperationSpec.policy_generation o;
     OperationSpec.program := Some 7; OperationSpec.program_generation := generation;
     OperationSpec.description := "sum" |}.

(** A registration whose operation class names no enumerator. *)
Definition odd_registration : RegisterTargetMsg :=
  {| RegisterTargetMsg.target := 77; RegisterTargetMsg.generation := 1;
     RegisterTargetMsg.provider := ProviderKind.SYNTHETIC;
     RegisterTargetMsg.kind := TargetKind.MEMORY_SIDE_PROCESSOR;
     RegisterTargetMsg.synthetic := true; RegisterTargetMsg.name := "odd";
     RegisterTargetMsg.ops := [OperationClass.raw 99]; RegisterTargetMsg.data_types := [];
     RegisterTargetMsg.layouts := []; RegisterTargetMsg.max_input_bytes := 0;
     RegisterTargetMsg.alignment := 1; RegisterTargetMsg.concurrency := 1;
     RegisterTargetMsg.workspace := 0; RegisterTargetMsg.owner_boot := 11 |}.

(** Three accepted states that are saved and never recovered.  An
    operation with a program: [save] reports success, but the encoder writes the
    program before the description and the decoder reads them the other way
    round, so the whole file is refused.  The same without a program generation:
    the encoder throws.  A registration frame whose operation class is outside
    the enumeration: it decodes and is accepted, [save] writes a name
    [parse_enum] does not know, and the whole file is refused. *)
Theorem saved_states_not_recovered :
  (let s := demo_state [CreateOperation (program_operation (Some 1))] in
   has_operation 19 s = true ∧
   save_then_load s =
     Some (Ok tt, fail "E_PERSIST_DECODE" "malformed persistence payload")) ∧
  (let s := demo_state [CreateOperation (program_operation None)] in
   has_operation 19 s = true ∧ save_then_load s = None) ∧
  option_map fst (RegisterTargetMsg.decode_register_target
    {| data_ := RegisterTargetMsg.encode_register_target odd_registration; pos_ := 0 |}) =
  Some odd_registration ∧
  (let s := demo_state [ApplyRegisterTarget odd_registration] in
   has_target 77 s = true ∧
   save_then_load s = Some (Ok tt, fail "E_PERSIST_DECODE" "malformed persistence payload")).
Proof. vm_compute. auto 10. Qed.
