(* ===== verification/Typed.v ===== *)
(** * States the file can hold

    The persistence format bounds every field of the coordinator's tables:
    identifiers and generations are 64-bit, enumerators have names, strings and
    lists are within its lengths, and operations name no program.  [typed_state]
    collects those bounds with two facts more: every entry is stored under its
    own id, and every target with a runtime is registered.  Commands whose
    arguments are within the bounds preserve it, saving and loading included, so
    every such history stays recoverable. *)

From S2P Require Import Prelude Enums Ids Double Model Codec Protocol State Coordinator.
From S2P Require Import Planning Behaviour Machine Worker Planner Safety Persistence StateCodec Recovery.

(** ** The invariant *)

(** Every entry is fine and stored under its own id. *)
Definition keyed {V} (id : V → Z) (ok : V → Prop) (m : gmap Z V) : Prop :=
  map_Forall (fun k v => id v = k ∧ ok v) m.

(** The dynamic records a plan copies its authority from. *)
Definition wf_runtime (rt : TargetRuntime) : Prop := in_u64 (TargetRuntime.owner_boot rt).
Definition wf_caps (c : CapabilitySet) : Prop :=
  in_u64 (CapabilitySet.generation c) ∧ in_u64 (CapabilitySet.evidence_generation c).
Definition wf_evidence (e : DataEvidence) : Prop :=
  in_u64 (DataEvidence.memory_domain_generation e).

Record typed_state (s : RuntimeState) : Prop := {
  ty_coordinator : in_u64 (coordinator_id s);
  ty_epoch : in_u64 (epoch s);
  ty_domains : keyed MemoryDomainDescriptor.id wf_memory_domain (memory_domains s);
  ty_datasets : keyed DatasetDescriptor.id wf_dataset (datasets s);
  ty_regions : keyed DataRegionDescriptor.id wf_region (regions s);
  ty_programs : keyed Program.id wf_program_entry (programs s);
  ty_policies : keyed Policy.id wf_policy (policies s);
  ty_operations : keyed OperationSpec.id wf_operation (operations s);
  ty_targets : keyed TargetDefinition.id wf_target (targets s);
  ty_plans : keyed ExecutionPlan.id wf_plan (plans s);
  ty_results : keyed ExecutionResult.id wf_result_entry (results s);
  ty_runtime : map_Forall (fun _ => wf_runtime) (target_runtime s);
  ty_caps : map_Forall (fun _ => wf_caps) (capabilities s);
  ty_evidence : map_Forall (fun _ => wf_evidence) (data_evidence s);
  ty_registered t rt : target_runtime s !! t = Some rt → is_Some (targets s !! t)
}.

(** The commands whose effect the state file can hold: ids and generations of 64
    bits, enumerators with a name, strings and blobs within the format's length,
    and new operations that name neither a program nor a program generation.
    The C++ types and the protocol's decoder allow more; what becomes of the rest
    is [saved_states_not_recovered] of [Recovery].  Completions are what the
    protocol decoder lets through. *)
Definition savable_command (c : Command) : Prop :=
  match c with
  | AttachCoordinator id => in_u64 id
  | RegisterMemoryDomain md => wf_memory_domain md
  | RegisterDataset ds => wf_dataset ds
  | RegisterRegion rg => wf_region rg
  | RegisterProgram pg => wf_program_entry pg
  | RegisterPolicy pl => wf_policy pl
  | CreateOperation op => wf_operation op
  | ApplyRegisterTarget msg => wf_target (definition_of msg) ∧ in_u64 (RegisterTargetMsg.owner_boot msg)
  | ApplyCapability _ msg =>
      in_u64 (CapabilityMsg.generation msg) ∧ in_u64 (CapabilityMsg.evidence_generation msg)
  | ApplyDataEvidence msg => in_u64 (DataEvidenceMsg.memory_domain_generation msg)
  | PlanOperation fresh _ => in_u64 fresh
  | PrepareDispatch _ d a => in_u64 d ∧ in_u64 a
  | ApplyResult fresh msg => in_u64 fresh ∧ ResultMsg.wf_result msg
  | _ => True
  end.

#[export] Instance savable_command_dec c : base.Decision (savable_command c).
Proof.
  destruct c; simpl; unfold wf_memory_domain, wf_dataset, wf_region, wf_program_entry, wf_policy,
    wf_operation, wf_target, wf_shape, wf_window, valid_enum, ResultMsg.wf_result, is_bytes, blob_ok;
  apply _.
Defined.

(** ** Keyed tables *)

Lemma keyed_insert {V} (id : V → Z) ok m k v :
  keyed id ok m → id v = k → ok v → keyed id ok (<[k := v]> m).
Proof. intros. by apply map_Forall_insert_2. Qed.

Lemma keyed_fmap {V} (id : V → Z) ok (f : V → V) m :
  keyed id ok m → (∀ v, id (f v) = id v) → (∀ v, ok v → ok (f v)) → keyed id ok (f <$> m).
Proof.
  intros Hm Hid Hok k v (v0 & <- & Hk)%lookup_fmap_Some.
  destruct (Hm _ _ Hk) as [? ?]. rewrite Hid. auto.
Qed.

Lemma all_fmap {V} (ok : V → Prop) (f : V → V) (m : gmap Z V) :
  map_Forall (fun _ => ok) m → (∀ v, ok v → ok (f v)) → map_Forall (fun _ => ok) (f <$> m).
Proof. intros Hm Hok k v (v0 & <- & Hk)%lookup_fmap_Some. eauto. Qed.

Lemma registered_fmap (s : RuntimeState) (f : TargetRuntime → TargetRuntime) t rt :
  typed_state s → (f <$> target_runtime s) !! t = Some rt → is_Some (targets s !! t).
Proof. intros Hs (rt0 & <- & Hk)%lookup_fmap_Some. by eapply ty_registered. Qed.

(** ** Plans stay well formed *)

Lemma named_valid {E} `{CEnumLaws E} (e : E) : (∀ n, e ≠ of_raw n) → valid_enum e.
Proof. intros Hr. destruct (enum_complete e) as [?|[n ->]]; [done|]. by destruct (Hr n). Qed.

Lemma wf_plan_lifecycle l p :
  wf_plan p → valid_enum l → wf_plan (ExecutionPlan.set_lifecycle l p).
Proof. unfold wf_plan. simpl. tauto. Qed.

Lemma wf_plan_reserved ws p :
  wf_plan p → in_u64 ws → wf_plan (ExecutionPlan.set_reserved 1 ws ExecutionLifecycle.RESERVED p).
Proof.
  unfold wf_plan. simpl. intros Hp Hw. destruct_and!. split_and!; try done.
  by apply named_valid.
Qed.

Lemma wf_plan_dispatch d a p :
  wf_plan p → in_u64 d → in_u64 a → wf_plan (ExecutionPlan.set_dispatch d a p).
Proof. unfold wf_plan. simpl. tauto. Qed.

Lemma wf_plan_epoch p :
  wf_plan p → wf_plan (ExecutionPlan.set_lifecycle (epoch_lifecycle (ExecutionPlan.lifecycle p)) p).
Proof. intros. apply wf_plan_lifecycle; [done|]. apply named_valid. by destruct (ExecutionPlan.lifecycle p). Qed.

Lemma wf_fence_plan b p : wf_plan p → wf_plan (fence_plan b p).
Proof.
  intros. unfold fence_plan. case_match; [|done]. apply wf_plan_lifecycle; [done|].
  apply named_valid. by case_match.
Qed.

Lemma wf_retire_plan t p : wf_plan p → wf_plan (retire_plan t p).
Proof.
  intros. unfold retire_plan. case_match; [|done]. apply wf_plan_lifecycle; [done|].
  by apply named_valid.
Qed.

Lemma fence_plan_id b p : ExecutionPlan.id (fence_plan b p) = ExecutionPlan.id p.
Proof. unfold fence_plan. by case_match. Qed.
Lemma retire_plan_id t p : ExecutionPlan.id (retire_plan t p) = ExecutionPlan.id p.
Proof. unfold retire_plan. by case_match. Qed.
#[local] Hint Resolve wf_plan_epoch wf_fence_plan wf_retire_plan fence_plan_id retire_plan_id : nmc.

(** ** Assigning one field *)

Section Assign.
Context (s : RuntimeState) (Hs : typed_state s).

Ltac assign := destruct Hs; constructor; simpl; try done.

Lemma typed_active_plans m : typed_state (set_active_plans m s).
Proof. assign. Qed.
Lemma typed_reservations m : typed_state (set_reservations m s).
Proof. assign. Qed.
Lemma typed_workers m : typed_state (set_workers m s).
Proof. assign. Qed.
Lemma typed_plans m : keyed ExecutionPlan.id wf_plan m → typed_state (set_plans m s).
Proof. assign. Qed.
Lemma typed_results m : keyed ExecutionResult.id wf_result_entry m → typed_state (set_results m s).
Proof. assign. Qed.
Lemma typed_caps m : map_Forall (fun _ => wf_caps) m → typed_state (set_capabilities m s).
Proof. assign. Qed.
Lemma typed_evidence m : map_Forall (fun _ => wf_evidence) m → typed_state (set_data_evidence m s).
Proof. assign. Qed.
Lemma typed_epoch e : typed_state (set_epoch (u64 e) s).
Proof. assign. apply u64_range. Qed.
Lemma typed_runtime m :
  map_Forall (fun _ => wf_runtime) m → (∀ t rt, m !! t = Some rt → is_Some (targets s !! t)) →
  typed_state (set_target_runtime m s).
Proof. assign. Qed.

Lemma typed_plan_insert k p :
  ExecutionPlan.id p = k → wf_plan p → typed_state (set_plans (<[k := p]> (plans s)) s).
Proof. intros. apply typed_plans. apply keyed_insert; [apply Hs|done|done]. Qed.

Lemma typed_plan_map f :
  (∀ p, ExecutionPlan.id (f p) = ExecutionPlan.id p) → (∀ p, wf_plan p → wf_plan (f p)) →
  typed_state (set_plans (f <$> plans s) s).
Proof. intros. apply typed_plans. apply keyed_fmap; [apply Hs|done|done]. Qed.

Lemma typed_runtime_insert t rt rt' :
  target_runtime s !! t = Some rt →
  TargetRuntime.owner_boot rt' = TargetRuntime.owner_boot rt →
  typed_state (set_target_runtime (<[t := rt']> (target_runtime s)) s).
Proof.
  intros Ht Hb. apply typed_runtime.
  - apply map_Forall_insert_2; [|apply Hs]. unfold wf_runtime. rewrite Hb.
    by apply (ty_runtime s Hs t).
  - intros t' rt0 [[<- _]|[_ H]]%lookup_insert_Some; by eapply ty_registered.
Qed.

Lemma typed_runtime_map f :
  (∀ rt, TargetRuntime.owner_boot (f rt) = TargetRuntime.owner_boot rt) →
  typed_state (set_target_runtime (f <$> target_runtime s) s).
Proof.
  intros Hf. apply typed_runtime.
  - apply all_fmap; [apply Hs|]. intros rt. unfold wf_runtime. by rewrite Hf.
  - intros t rt. by apply registered_fmap.
Qed.

Lemma typed_caps_map f : (∀ c, wf_caps c → wf_caps (f c)) →
  typed_state (set_capabilities (f <$> capabilities s) s).
Proof. intros. apply typed_caps. by apply all_fmap; [apply Hs|]. Qed.
Lemma typed_evidence_map f : (∀ e, wf_evidence e → wf_evidence (f e)) →
  typed_state (set_data_evidence (f <$> data_evidence s) s).
Proof. intros. apply typed_evidence. by apply all_fmap; [apply Hs|]. Qed.
End Assign.

(** ** Each method *)

Section Methods.
Context (s : RuntimeState) (Hs : typed_state s).

Lemma typed_invalidate_boot b : typed_state (invalidate_boot b s).
Proof.
  unfold invalidate_boot, rebuild_active_plans. apply typed_active_plans, typed_plan_map;
    [|by auto with nmc..].
  apply typed_evidence_map; [|intros e; by case_match].
  apply typed_caps_map; [|intros c; by case_match].
  apply typed_runtime_map; [done|intros rt; by case_match].
Qed.

Lemma typed_advance_epoch : typed_state (advance_epoch s).
Proof.
  unfold advance_epoch, rebuild_active_plans.
  apply typed_active_plans, typed_plan_map; [|done|by auto with nmc].
  apply typed_evidence_map; [|done]. apply typed_caps_map; [|done].
  apply typed_runtime_map; [by apply typed_epoch|done].
Qed.

(** A plan is built from an operation and the records of a registered
    target. *)
Lemma wf_build_plan fresh op tid :
  in_u64 fresh → wf_operation op → is_Some (targets s !! tid) → wf_plan (build_plan fresh s op tid).
Proof.
  intros Hf Hop [d Ht]. destruct (ty_targets s Hs _ _ Ht) as [<- Hd].
  unfold wf_operation in Hop. unfold wf_target in Hd. destruct_and!.
  assert (Hrt : wf_runtime (default TargetRuntime.dflt (target_runtime s !! TargetDefinition.id d))).
  { destruct (target_runtime s !! _) eqn:E; [by apply (ty_runtime s Hs _ _ E)|done]. }
  assert (Hc : wf_caps (default CapabilitySet.dflt (capabilities s !! TargetDefinition.id d))).
  { destruct (capabilities s !! _) eqn:E; [by apply (ty_caps s Hs _ _ E)|done]. }
  destruct Hc as [Hc1 Hc2]. unfold wf_plan, wf_snapshot, build_plan; simpl. rewrite Ht. simpl.
  split_and!; try done; try (by apply Hs); [|by replace (OperationSpec.program_generation op) with (@None Z)|by apply named_valid..].
  destruct (data_evidence s !! _) eqn:E; [by apply (ty_evidence s Hs _ _ E)|done].
Qed.

Lemma typed_plan_locked fresh op_id : in_u64 fresh → typed_state (plan_locked fresh op_id s).2.
Proof.
  intros Hf. unfold plan_locked.
  destruct (operations s !! op_id) as [op|] eqn:Hop; [|done].
  destruct (policies s !! _) as [policy|]; [|done]. destruct (bool_decide _); [done|].
  destruct (PlanOutput.ranked (gather s op policy)) as [|best rest] eqn:Hg; [done|].
  case_bool_decide; [|done]. apply typed_active_plans, typed_plan_insert; [done|done|].
  apply wf_build_plan; [done|by apply (ty_operations s Hs _ _ Hop)|].
  assert (Hin : best ∈ omap (candidate_of s op policy) (map_entries (targets s))).
  { rewrite <- (rank_candidates_perm (omap _ _)), <- gather_ranked, Hg. by left. }
  apply elem_of_candidates in Hin as (tid & tdef & rt & caps & (Ht & _) & ->). simpl. by eexists.
Qed.

Lemma touched_registered p k :
  plans s !! k = Some p → is_Some (target_runtime s !! ExecutionPlan.target p) →
  typed_state (touched (ExecutionPlan.target p) s).
Proof.
  intros _ [rt Hrt]. destruct (ty_registered s Hs _ _ Hrt) as [d Hd].
  unfold touched. apply typed_reservations. unfold at_or_insert. rewrite Hd. simpl.
  by destruct Hs; constructor.
Qed.

Lemma typed_reserve k : typed_state (reserve k s).2.
Proof.
  destruct (reserve_cases k s)
    as [(p & rt & d & rs & ws & Had & ->)|[[e ->]|(e & p & Hp & Hrt & ->)]];
    [|done|by eapply touched_registered].
  destruct Had as [Hp _ Hrt _ _ Hws _ _ _ _]. destruct (ty_plans s Hs _ _ Hp) as [Hid Hwf].
  unfold reserved_state. apply (typed_plan_insert (set_reservations _ _)).
  - apply typed_reservations. by eapply touched_registered.
  - done.
  - apply wf_plan_reserved; [done|]. subst ws. destruct (operations s !! _) eqn:E; [|done].
    apply (ty_operations s Hs _ _ E).
Qed.

Lemma typed_lifecycle k p l :
  plans s !! k = Some p → (∀ n, l ≠ ExecutionLifecycle.raw n) →
  typed_state (set_plans (<[k := ExecutionPlan.set_lifecycle l p]> (plans s)) s).
Proof.
  intros Hp Hl. destruct (ty_plans s Hs _ _ Hp) as [Hid Hwf].
  apply typed_plan_insert; [done|done|]. apply wf_plan_lifecycle; [done|by apply named_valid].
Qed.

Lemma typed_prepare_dispatch k d a :
  in_u64 d → in_u64 a → typed_state (prepare_dispatch k d a s).2.
Proof.
  intros. destruct (prepare_dispatch_cases k d a s)
    as [(p & op & rt & w & [Hp _ _ _ _ _] & ->)|[[e ->]|(e & p & Hp & _ & _ & _ & ->)]];
    [|done|by apply typed_lifecycle].
  destruct (ty_plans s Hs _ _ Hp) as [Hid Hwf]. apply typed_plan_insert; [done|done|].
  by apply wf_plan_dispatch.
Qed.

Lemma typed_confirm_dispatched k d : typed_state (confirm_dispatched k d s).2.
Proof.
  unfold confirm_dispatched. destruct (plans s !! k) as [p|] eqn:Hp; [|done].
  case_match; [done|]. case_match; [done|]. by apply typed_lifecycle.
Qed.
End Methods.

Lemma typed_release p s : typed_state s → typed_state (release_reservation p s).
Proof. intros. unfold release_reservation. case_match; [by apply typed_reservations|done]. Qed.

Lemma typed_cancel_plan k s : typed_state s → typed_state (cancel_plan k s).2.
Proof.
  intros Hs. unfold cancel_plan. destruct (plans s !! k) as [p|] eqn:Hp; [|done].
  case_match; [done|]. apply typed_active_plans, typed_lifecycle; [by apply typed_release| |done].
  by destruct (release_reservation_frame p s) as (-> & _).
Qed.

(** A result copies a decoded completion. *)
Lemma wf_result_of_msg fresh msg v digest c a :
  in_u64 fresh → ResultMsg.wf_result msg → (∀ n, v ≠ VerifyState.raw n) → string_ok digest →
  wf_result_entry (result_of_msg fresh msg v digest c a).
Proof.
  unfold ResultMsg.wf_result, wf_result_entry. intros Hf Hm Hv Hd. destruct_and!. simpl.
  split_and!; try done; [by apply named_valid|].
  unfold blob_ok, kMaxCodecBlobBytes in *. ranges.
Qed.

Lemma typed_record_outcome s p l res :
  typed_state s → plans s !! ExecutionResult.plan res = Some p →
  (∀ n, l ≠ ExecutionLifecycle.raw n) → wf_result_entry res →
  typed_state (record_outcome p l res s).
Proof.
  intros Hs Hp Hl Hr. unfold record_outcome. apply typed_results.
  - by apply typed_active_plans, typed_lifecycle.
  - apply keyed_insert; [apply Hs|done|done].
Qed.

Lemma typed_apply_result fresh msg s :
  typed_state s → in_u64 fresh → ResultMsg.wf_result msg → typed_state (apply_result fresh msg s).2.
Proof.
  intros Hs Hf Hm.
  destruct (apply_result_cases fresh msg s) as [(p & [Hp _ _ _ _ _ _ _] & ->)|[e ->]]; [|done].
  assert (Hd : string_ok (ResultMsg.output_digest msg)) by (unfold ResultMsg.wf_result in Hm; tauto).
  unfold settle_completion. repeat case_match; simpl; try apply typed_release;
    (apply typed_record_outcome; [done|done|done|by apply wf_result_of_msg]).
Qed.

(** ** Registration *)

Ltac register :=
  intros Hs ?; case_all; try done;
  destruct Hs; constructor; simpl; try done; by apply keyed_insert.

Lemma typed_register c s :
  match c with
  | RegisterMemoryDomain _ | RegisterDataset _ | RegisterRegion _ | RegisterProgram _
  | RegisterPolicy _ | CreateOperation _ => True
  | _ => False
  end → typed_state s → savable_command c → typed_state (exec c s).2.
Proof.
  destruct c; simpl; try done; intros _;
    unfold register_memory_domain, register_dataset, register_region, register_program,
      register_policy, create_operation; register.
Qed.

Lemma typed_apply_register_target msg s :
  typed_state s → wf_target (definition_of msg) → in_u64 (RegisterTargetMsg.owner_boot msg) →
  typed_state (apply_register_target msg s).2.
Proof.
  intros Hs Hd Hb. unfold apply_register_target. case_match; [done|].
  destruct Hs; constructor; simpl; try done.
  - by apply keyed_insert.
  - by apply map_Forall_insert_2.
  - intros t rt [[<- _]|[Hne Ht]]%lookup_insert_Some; [by rewrite lookup_insert_eq|].
    rewrite lookup_insert_ne by done. eauto.
Qed.

(** ** Every command *)

Lemma typed_step s c s' : step s c s' → savable_command c → typed_state s → typed_state s'.
Proof.
  intros [c' _] Hc Hs.
  destruct c'; try (by apply typed_register); simpl in *.
  - destruct Hs; by constructor.
  - by apply typed_workers.
  - destruct Hc. by apply typed_apply_register_target.
  - unfold apply_capability. case_all; try done. apply typed_caps; [done|].
    apply map_Forall_insert_2; [exact Hc|apply Hs].
  - unfold apply_data_evidence. case_match; [done|]. apply typed_evidence; [done|].
    apply map_Forall_insert_2; [exact Hc|apply Hs].
  - unfold apply_heartbeat. case_all; try done. by eapply typed_runtime_insert.
  - by apply typed_plan_locked.
  - by apply typed_reserve.
  - destruct Hc. by apply typed_prepare_dispatch.
  - by apply typed_confirm_dispatched.
  - destruct Hc. by apply typed_apply_result.
  - unfold begin_drain. case_all; try done. by eapply typed_runtime_insert.
  - by apply typed_cancel_plan.
  - by apply typed_invalidate_boot.
  - by apply typed_invalidate_boot, typed_workers.
  - unfold retire_target. case_match; [|done]. unfold rebuild_active_plans.
    apply typed_active_plans, (typed_plan_map (set_target_runtime _ _)); [|by auto with nmc..].
    by eapply typed_runtime_insert.
  - by apply typed_advance_epoch.
Qed.

Lemma typed_new id : in_u64 id → typed_state (new_coordinator id).
Proof.
  intros. constructor; simpl; try done.
  apply keyed_insert; [done|done|]. apply (bool_decide_eq_true_1 (savable_command (RegisterPolicy _))).
  vm_compute. reflexivity.
Qed.

Lemma typed_recovered s : typed_state s → typed_state (recovered (durable s)).
Proof.
  intros Hs. unfold recovered. apply typed_workers, typed_reservations, typed_advance_epoch.
  destruct Hs; constructor; simpl; try done.
Qed.

(** ** Histories *)

(** The tables within the bound of the file format, and the epoch counter not
    wrapped to zero. *)
Definition fits (s : RuntimeState) : Prop :=
  epoch s ≠ 0 ∧
  Forall (fun n => Z.of_nat n <= kMaxPersistCount)
    [size (memory_domains s); size (datasets s); size (regions s); size (programs s);
     size (policies s); size (operations s); size (targets s); size (plans s); size (results s)].

(** Savable commands, with any number of saves and restarts in between. *)
Inductive savable_history : RuntimeState → Prop :=
| th_new id : in_u64 id → savable_history (new_coordinator id)
| th_step s c s' : savable_history s → savable_command c → step s c s' → savable_history s'
| th_restart os ra path s fs fs' s0 s' :
    savable_history s → fits s → coordinator_save os path s fs = Some (Ok tt, fs') →
    coordinator_load ra (fs' !! path) s0 = (Ok tt, s') → savable_history s'.

Lemma typed_fits_persistable s : typed_state s → fits s → persistable s.
Proof.
  intros [] [? Hf]. repeat (apply Forall_cons_iff in Hf as [? Hf]).
  unfold persistable, table_ok. by split_and!.
Qed.

Lemma history_typed s : savable_history s → typed_state s.
Proof.
  induction 1 as [id|s c s' _ IH Hc Hst|os ra path s fs fs' s0 s' _ IH Hf Hsave Hload].
  - by apply typed_new.
  - by eapply typed_step.
  - rewrite (saved_loads_only _ _ _ _ _ _ _ _ (typed_fits_persistable _ IH Hf) Hsave Hload).
    by apply typed_recovered.
Qed.

Lemma typed_encodes s : typed_state s → is_Some (encode_state s).
Proof.
  intros Hs. unfold encode_state. destruct (existsb _ _) eqn:He; [|by eexists].
  apply existsb_exists in He as (op & Hin & Ht).
  apply list_elem_of_In, list_elem_of_fmap in Hin as ([k op'] & -> & Hin%elem_of_map_entries).
  destruct (ty_operations s Hs _ _ Hin) as [_ Hwf]. unfold wf_operation in Hwf. destruct_and!.
  simpl in Ht. unfold operation_throws in Ht. case_all.
Qed.

(** Claim C15: histories of savable commands stay recoverable.  A command is
    savable when its ids and generations are 64-bit numbers, its enumerators are
    named ones, its strings and blobs have a length the format holds and, when it
    creates an operation, that operation names neither a program nor a program
    generation (the file format cannot hold the others: such states make the save
    throw or the load refuse the file).  Whatever savable commands are issued,
    with any number of saves and restarts in between, every entry of the nine
    persisted tables keeps these bounds and is stored under its own id, and every
    target with a runtime is registered.  Hence the state can be encoded; and
    while no table exceeds the format's count and the epoch has not wrapped to
    zero, whatever a successful save wrote is loaded again, by a start whose reads
    succeed, as the recovered durable state. *)
Theorem savable_histories_recover s :
  savable_history s →
  typed_state s ∧ is_Some (encode_state s) ∧
  (fits s → ∀ os ra path fs fs' s0, coordinator_save os path s fs = Some (Ok tt, fs') →
     read_ok ra = true → coordinator_load ra (fs' !! path) s0 = (Ok tt, recovered (durable s))).
Proof.
  intros Hs%history_typed. split_and!; [done|by apply typed_encodes|].
  intros Hf os ra path fs fs' s0 Hsave Hra. eapply saved_loads, Hsave; [done|]. by apply typed_fits_persistable.
Qed.

(** Running a list of savable commands. *)
Lemma typed_run cs s s' :
  savable_history s → forallb (fun c => bool_decide (savable_command c)) cs = true →
  run cs s = Some s' → savable_history s'.
Proof.
  revert s. induction cs as [|c cs IH]; simpl; intros s Hs Hc Hrun; [by simplify_eq|].
  apply andb_prop in Hc as [Hc%bool_decide_eq_true_1 Hcs]. case_bool_decide; [|done].
  eapply IH, Hrun; [|done]. by eapply th_step.
Qed.

Lemma savable_histories_recover_witness :
  typed_state (demo_state demo_committed) ∧ has_result 21 (demo_state demo_committed) = true.
Proof.
  split; [|vm_compute; reflexivity].
  apply (savable_histories_recover (demo_state demo_committed)).
  apply (typed_run (small_demo ++ demo_committed) (new_coordinator 1)).
  - apply th_new. unfold in_u64. lia.
  - vm_compute. reflexivity.
  - unfold demo_state. destruct (run _ _) eqn:Hr; [reflexivity|].
    apply (f_equal (option_map coordinator_id)) in Hr. vm_compute in Hr. discriminate Hr.
Defined.
