(* ===== verification/Net.v ===== *)
(** * The framed transport ([net.hpp], [net.cpp])

    [send_all] and [recv_all] loop over system calls that may take any part of
    what they are offered, be interrupted or fail; the answers of the operating
    system are the lists the loops consume, one answer per call, and a loop that
    is out of answers has not returned yet ([None]).  A connection is the list
    of bytes in flight.  [send_frame] and [recv_frame] add the header and its
    checksum. *)

From S2P Require Import Prelude Enums Ids Checksum Codec Model Protocol.

(** ** Sockets *)

Definition kInvalidSocket : Z := UINT64_MAX.
Definition socket_valid (handle : Z) : bool := negb (handle =? kInvalidSocket).

Definition INT_MAX : Z := 2147483647.
Definition WSAEINTR : Z := 10004.
Definition WSAECONNABORTED : Z := 10053.
Definition WSAECONNRESET : Z := 10054.

(** The part of [n] bytes offered to one system call. *)
Definition chunk (n : nat) : nat := if INT_MAX <? Z.of_nat n then Z.to_nat INT_MAX else n.

(** [::send]: up to the given number of the offered bytes are taken. *)
Inductive SendAnswer := Accepted (r : nat) | SendFailed (e : Z).
(** [::recv]: up to the given number of bytes have arrived; none is the end of
    the stream. *)
Inductive RecvAnswer := Arrived (r : nat) | RecvFailed (e : Z).

(** The loop of [TcpSocket::send_all]: [data] is what is left to send, [out]
    what the connection has taken. *)
Fixpoint send_loop (answers : list SendAnswer) (data out : list Z)
    : option (Result unit * list Z) :=
  match data with
  | [] => Some (Ok tt, out)
  | _ :: _ =>
      match answers with
      | [] => None
      | SendFailed e :: answers =>
          if e =? WSAEINTR then send_loop answers data out
          else Some (fail "E_NET_SEND" ("send failed: " +:+ to_string_u64 e), out)
      | Accepted k :: answers =>
          let r := Nat.min k (chunk (length data)) in
          if (r =? 0)%nat
          then Some (fail "E_NET_SEND" "send returned 0 (connection closed)", out)
          else send_loop answers (drop r data) (out ++ take r data)
      end
  end.
Definition send_all (handle : Z) (answers : list SendAnswer) (data : list Z)
    : option (Result unit * list Z) :=
  if socket_valid handle then send_loop answers data []
  else Some (fail "E_NET_SEND" "socket not valid", []).

(** What [TcpSocket::recv_all] leaves: its answer, the buffer, [peer_closed],
    the bytes still in flight and the answers not yet used. *)
Record Received := {
  outcome_of : Result unit; buffer : list Z; peer_closed : bool;
  in_flight : list Z; unused : list RecvAnswer
}.

(** The loop: [n] bytes are still missing after [got]. *)
Fixpoint recv_loop (answers : list RecvAnswer) (n : nat) (got stream : list Z)
    : option Received :=
  let stop r closed answers :=
    Some {| outcome_of := r; buffer := got ++ replicate n 0; peer_closed := closed;
            in_flight := stream; unused := answers |} in
  match n with
  | O => stop (Ok tt) false answers
  | S _ =>
      match answers with
      | [] => None
      | Arrived k :: answers =>
          let r := Nat.min (Nat.min k (chunk n)) (length stream) in
          if (r =? 0)%nat then stop (fail "E_NET_EOF" "peer closed") true answers
          else recv_loop answers (n - r) (got ++ take r stream) (drop r stream)
      | RecvFailed e :: answers =>
          if e =? WSAEINTR then recv_loop answers n got stream
          else if (e =? WSAECONNRESET) || (e =? WSAECONNABORTED)
          then stop (fail "E_NET_EOF" "connection reset") true answers
          else stop (fail "E_NET_RECV" ("recv failed: " +:+ to_string_u64 e)) false answers
      end
  end.
Definition recv_all (handle : Z) (answers : list RecvAnswer) (n : nat) (stream : list Z)
    : option Received :=
  if socket_valid handle then recv_loop answers n [] stream
  else Some {| outcome_of := fail "E_NET_RECV" "socket not valid"; buffer := replicate n 0;
               peer_closed := false; in_flight := stream; unused := answers |}.

(** ** Frames *)

(** The checksum over the header fields, without the checksum field, and the
    payload. *)
Definition frame_crc (h : FrameHeader) (payload : list Z) : Z :=
  let c := crc_update crc_init (write_u32 (magic h)) in
  let c := crc_update c (write_u16 (version h)) in
  let c := crc_update c (write_enum16 (type h)) in
  let c := crc_update c (write_u32 (payload_len h)) in
  let c := crc_update c (write_u64 (correlation h)) in
  crc_update c payload.

Definition frame_header (t : FrameType) (payload : list Z) (corr crc : Z) : FrameHeader :=
  {| magic := kProtocolMagic; version := kProtocolVersion; type := t;
     payload_len := u32 (Z.of_nat (length payload)); correlation := corr; checksum := crc |}.

(** The bytes of one frame. *)
Definition frame_bytes (t : FrameType) (payload : list Z) (corr : Z) : list Z :=
  encode_header (frame_header t payload corr (frame_crc (frame_header t payload corr 0) payload))
  ++ write_raw payload.

Definition send_frame (handle : Z) (answers : list SendAnswer) (t : FrameType)
    (payload : list Z) (corr : Z) : option (Result unit * list Z) :=
  if kMaxFramePayload <? Z.of_nat (length payload)
  then Some (fail "E_FRAME_OVERSIZE" "payload exceeds frame maximum", [])
  else send_all handle answers (frame_bytes t payload corr).

Inductive Status := Ok_ | Disconnect | Malformed | Truncated | Oversized.
Record FrameReceive := { status : Status; header : FrameHeader; payload : list Z }.

Definition no_header : FrameHeader :=
  {| magic := 0; version := 0; type := FrameType.PING; payload_len := 0;
     correlation := 0; checksum := 0 |}.

(** [recv_frame], with the bytes in flight and the answers left behind. *)
Definition recv_frame (handle : Z) (answers : list RecvAnswer) (stream : list Z)
    : option (FrameReceive * list Z * list RecvAnswer) :=
  let? r := recv_all handle answers kFrameHeaderBytes stream otherwise None in
  let leave st h p r := Some ({| status := st; header := h; payload := p |}, in_flight r, unused r) in
  if peer_closed r then leave Disconnect no_header [] r else
  if is_error (outcome_of r) then leave Disconnect no_header [] r else
  read? h , hr := decode_header {| data_ := buffer r; pos_ := 0 |}
    otherwise (leave Malformed no_header [] r) in
  if magic h !=? kProtocolMagic then leave Malformed no_header [] r else
  if version h !=? kProtocolVersion then leave Malformed no_header [] r else
  if kMaxFramePayload <? payload_len h then leave Oversized no_header [] r else
  let finish p r :=
    if frame_crc h p !=? checksum h then leave Malformed h p r else leave Ok_ h p r in
  if 0 <? payload_len h then
    let? r := recv_all handle (unused r) (Z.to_nat (payload_len h)) (in_flight r)
      otherwise None in
    if peer_closed r then leave Truncated h (buffer r) r else
    if is_error (outcome_of r) then leave Truncated h (buffer r) r else
    finish (buffer r) r
  else finish [] r.

(** ** The loops deliver every byte *)

(** Schedules that make progress: every call takes something or is interrupted. *)
Definition accepting (a : SendAnswer) : bool :=
  match a with Accepted k => (0 <? k)%nat | SendFailed _ => false end.
Definition arriving (a : RecvAnswer) : bool :=
  match a with Arrived k => (0 <? k)%nat | RecvFailed _ => false end.
Definition send_fair (n : nat) (answers : list SendAnswer) : Prop :=
  Forall (fun a => accepting a = true ∨ a = SendFailed WSAEINTR) answers ∧
  (n ≤ length (filter (fun a => accepting a = true) answers))%nat.
Definition recv_fair (n : nat) (answers : list RecvAnswer) : Prop :=
  Forall (fun a => arriving a = true ∨ a = RecvFailed WSAEINTR) answers ∧
  (n ≤ length (filter (fun a => arriving a = true) answers))%nat.

Lemma chunk_pos n : (0 < n)%nat → (0 < chunk n ≤ n)%nat.
Proof. intros. unfold chunk, INT_MAX. destruct (Z.ltb_spec 2147483647 (Z.of_nat n)); lia. Qed.

Lemma send_loop_complete answers data out :
  send_fair (length data) answers → send_loop answers data out = Some (Ok tt, out ++ data).
Proof.
  intros [Hf Hn]. revert data out Hn. induction Hf as [|a answers Ha Hf IH]; intros data out Hn.
  { destruct data; [|simpl in Hn; lia]. simpl. by rewrite app_nil_r. }
  destruct data as [|b data]; [simpl; by rewrite app_nil_r|].
  destruct Ha as [Ha| ->].
  - destruct a as [k|]; [|done]. rewrite filter_cons_True in Hn by done. simpl in Ha.
    apply Nat.ltb_lt in Ha. pose proof (chunk_pos (length (b :: data)) ltac:(simpl; lia)) as Hc.
    cbn [send_loop]. set (r := Nat.min k (chunk (length (b :: data)))).
    assert (0 < r ≤ length (b :: data))%nat by (unfold r; lia).
    rewrite (proj2 (Nat.eqb_neq r 0)) by lia. rewrite IH.
    + by rewrite <- app_assoc, take_drop.
    + rewrite length_drop. simpl in Hn |- *. lia.
  - rewrite filter_cons_False in Hn by done. cbn [send_loop]. rewrite Z.eqb_refl. by apply IH.
Qed.

Lemma recv_loop_complete answers bs got rest m :
  recv_fair (length bs + m) answers →
  ∃ left, recv_fair m left ∧
    recv_loop answers (length bs) got (bs ++ rest) =
    Some {| outcome_of := Ok tt; buffer := got ++ bs; peer_closed := false;
            in_flight := rest; unused := left |}.
Proof.
  intros [Hf Hn]. revert bs got Hn. induction Hf as [|a answers Ha Hf IH]; intros bs got Hn.
  { simpl in Hn. destruct bs; [|simpl in Hn; lia]. exists []. simpl. split; [|done].
    split; [constructor|simpl in *; lia]. }
  destruct bs as [|b bs].
  { exists (a :: answers). split; [split; [by constructor|done]|done]. }
  destruct Ha as [Ha| ->].
  - destruct a as [k|]; [|done]. rewrite filter_cons_True in Hn by done. simpl in Ha.
    apply Nat.ltb_lt in Ha. pose proof (chunk_pos (length (b :: bs)) ltac:(simpl; lia)) as Hc.
    set (r := Nat.min (Nat.min k (chunk (length (b :: bs)))) (length ((b :: bs) ++ rest))).
    assert (0 < r ≤ length (b :: bs))%nat by (unfold r; rewrite length_app; simpl in *; lia).
    destruct (IH (drop r (b :: bs)) (got ++ take r (b :: bs))) as (left & Hl & Heq).
    { rewrite length_drop. simpl in Hn |- *. lia. }
    exists left. split; [done|]. cbn [recv_loop]. change (length (b :: bs)) with (S (length bs)) at 1.
    cbn [recv_loop]. fold (length (b :: bs)).
    rewrite length_drop, <- app_assoc, take_drop in Heq.
    change (S (length bs)) with (length (b :: bs)). fold r.
    rewrite (proj2 (Nat.eqb_neq r 0)) by lia.
    rewrite take_app_le, drop_app_le by lia. done.
  - rewrite filter_cons_False in Hn by done.
    destruct (IH (b :: bs) got Hn) as (left & Hl & Heq). exists left. split; [done|].
    cbn [recv_loop]. simpl length. cbn [recv_loop]. rewrite Z.eqb_refl. done.
Qed.

(** ** The checksum covers the frame *)

(** The header without its checksum field. *)
Definition header_body (h : FrameHeader) : list Z :=
  write_u32 (magic h) ++ write_u16 (version h) ++ write_enum16 (type h) ++
  write_u32 (payload_len h) ++ write_u64 (correlation h).

Lemma encode_header_body h : encode_header h = header_body h ++ write_u32 (checksum h).
Proof. unfold encode_header, header_body. by rewrite <- !app_assoc. Qed.

Lemma frame_crc_body h payload : frame_crc h payload = crc32 (header_body h ++ payload).
Proof. unfold frame_crc, crc32, header_body. by rewrite !crc_update_app. Qed.

Lemma header_body_bytes h : is_bytes (header_body h).
Proof. unfold header_body. auto 10 with nmc_codec. Qed.

Lemma frame_crc_range h payload : is_bytes payload → in_u32 (frame_crc h payload).
Proof.
  intros Hp. rewrite frame_crc_body. apply crc_update_range; [apply crc_init_range|].
  apply is_bytes_app; [apply header_body_bytes|done].
Qed.

(** A header on the wire: every field in range, the type whatever 16 bits say. *)
Definition wire_header (h : FrameHeader) : Prop :=
  in_u32 (magic h) ∧ in_u16 (version h) ∧ wire_enum (type h) ∧ in_u32 (payload_len h) ∧
  in_u64 (correlation h) ∧ in_u32 (checksum h).

Lemma wire_header_decodes h :
  wire_header h →
  option_map fst (decode_header {| data_ := encode_header h; pos_ := 0 |}) =
  if is_valid_frame_type (type h) then Some h else None.
Proof.
  intros (Hm & Hv & Ht & Hl & Hc & Hk). destruct (is_valid_frame_type (type h)) eqn:Hty.
  - rewrite (reads_whole _ _ h); [done|]. apply header_reads. split_and!; try done.
    by apply is_valid_frame_type_spec.
  - unfold encode_header, decode_header, rbind.
    pose proof (reads_u32 _ Hm [] (write_u16 (version h) ++ write_enum16 (type h) ++
      write_u32 (payload_len h) ++ write_u64 (correlation h) ++ write_u32 (checksum h))) as H1.
    pose proof (reads_u16 _ Hv (write_u32 (magic h)) (write_enum16 (type h) ++
      write_u32 (payload_len h) ++ write_u64 (correlation h) ++ write_u32 (checksum h))) as H2.
    pose proof (reads_wire_enum _ Ht (write_u32 (magic h) ++ write_u16 (version h))
      (write_u32 (payload_len h) ++ write_u64 (correlation h) ++ write_u32 (checksum h))) as H3.
    simpl in H1. rewrite H1, H2. rewrite length_app, <- app_assoc in H3. rewrite H3, Hty. done.
Qed.

Lemma is_bytes_part n m l : is_bytes l → is_bytes (take m (drop n l)).
Proof. intros. unfold is_bytes. apply Forall_take, Forall_drop. done. Qed.

(** Any 24 bytes are the encoding of a wire header. *)
Lemma le_bytes_of_list n l : is_bytes l → length l = n → ∃ v, 0 <= v < 256 ^ Z.of_nat n ∧ l = le_bytes n v.
Proof.
  intros Hb <-. exists (le_value l). split; [by apply le_value_range|]. by rewrite le_bytes_value.
Qed.

Lemma header_of_bytes l :
  is_bytes l → length l = kFrameHeaderBytes → ∃ h, wire_header h ∧ encode_header h = l.
Proof.
  intros Hb Hlen. unfold kFrameHeaderBytes in Hlen.
  assert (Hpart : ∀ i n, (i + n ≤ 24)%nat → ∃ v, 0 <= v < 256 ^ Z.of_nat n ∧
    take n (drop i l) = le_bytes n v).
  { intros i n Hi. apply le_bytes_of_list; [by apply is_bytes_part|].
    rewrite length_take, length_drop. lia. }
  destruct (Hpart 0 4)%nat as (m & Hm & E1); [lia|]. rewrite drop_0 in E1.
  destruct (Hpart 4 2)%nat as (v & Hv & E2); [lia|].
  destruct (Hpart 6 2)%nat as (t & Ht & E3); [lia|].
  destruct (Hpart 8 4)%nat as (n & Hn & E4); [lia|].
  destruct (Hpart 12 8)%nat as (c & Hc & E5); [lia|].
  destruct (Hpart 20 4)%nat as (k & Hk & E6); [lia|].
  exists {| magic := m; version := v; type := enum_of_int t; payload_len := n; correlation := c; checksum := k |}.
  split.
  - unfold wire_header, wire_enum. cbn [magic version type payload_len correlation checksum].
    rewrite to_int_of_int.
    split_and!; try done; apply enum_of_int_canonical.
  - unfold encode_header. cbn [magic version type payload_len correlation checksum].
    rewrite write_enum16_of_int by done.
    change (write_u32 m) with (le_bytes 4 m). change (write_u16 v) with (le_bytes 2 v).
    change (write_u16 t) with (le_bytes 2 t). change (write_u32 n) with (le_bytes 4 n).
    change (write_u64 c) with (le_bytes 8 c). change (write_u32 k) with (le_bytes 4 k).
    rewrite <- E1, <- E2, <- E3, <- E4, <- E5, <- E6.
    assert (drop 20 l = drop 8 (drop 12 l)) as -> by by rewrite drop_drop.
    assert (drop 12 l = drop 4 (drop 8 l)) as -> by by rewrite drop_drop.
    assert (drop 8 l = drop 2 (drop 6 l)) as -> by by rewrite drop_drop.
    assert (drop 6 l = drop 2 (drop 4 l)) as -> by by rewrite drop_drop.
    rewrite (take_ge (drop 8 _)) by (rewrite !length_drop; lia).
    by rewrite !take_drop.
Qed.

(** ** What a receiver makes of a header and a payload *)

Definition verdict (h : FrameHeader) (p : list Z) : Status :=
  if negb (is_valid_frame_type (type h)) || (magic h !=? kProtocolMagic)
     || (version h !=? kProtocolVersion) then Malformed
  else if kMaxFramePayload <? payload_len h then Oversized
  else if frame_crc h p !=? checksum h then Malformed else Ok_.

Lemma recv_frame_verdict handle answers h p rest m :
  socket_valid handle = true → wire_header h → length p = Z.to_nat (payload_len h) →
  recv_fair (kFrameHeaderBytes + (length p + m)) answers →
  ∃ out stream left, recv_frame handle answers (encode_header h ++ p ++ rest) = Some (out, stream, left) ∧
    status out = verdict h p ∧
    (verdict h p = Ok_ → header out = h ∧ payload out = p ∧ stream = rest ∧ recv_fair m left).
Proof.
  intros Hs Hh Hp Hf. unfold recv_frame, recv_all. rewrite Hs.
  rewrite <- (encode_header_length h) in Hf |- *.
  destruct (recv_loop_complete answers (encode_header h) [] (p ++ rest) _ Hf) as (left & Hl & ->).
  cbn [peer_closed outcome_of buffer in_flight unused app is_error has_value negb].
  pose proof (wire_header_decodes h Hh) as Hd. unfold verdict.
  destruct (decode_header _) as [[h' hr]|], (is_valid_frame_type (type h)); simpl in Hd; simplify_eq;
    cbn [negb orb]; [|eexists _, _, _; by split_and!].
  destruct (magic h !=? kProtocolMagic); cbn [orb]; [eexists _, _, _; by split_and!|].
  destruct (version h !=? kProtocolVersion); cbn [orb]; [eexists _, _, _; by split_and!|].
  destruct (kMaxFramePayload <? payload_len h); [eexists _, _, _; by split_and!|].
  destruct (Z.ltb_spec 0 (payload_len h)).
  - rewrite <- Hp. destruct (recv_loop_complete left p [] rest m Hl) as (left' & Hl' & ->).
    cbn [peer_closed outcome_of buffer in_flight unused app is_error has_value negb].
    destruct (frame_crc h p !=? checksum h); eexists _, _, _; by split_and!.
  - assert (p = []) as -> by (apply nil_length_inv; lia).
    destruct (frame_crc h [] !=? checksum h); eexists _, _, _; by split_and!.
Qed.

Lemma frame_header_wire t payload corr crc :
  valid_enum t → in_u64 corr → in_u32 crc → wire_header (frame_header t payload corr crc).
Proof.
  intros Ht Hc Hk. unfold wire_header, frame_header, kProtocolMagic, kProtocolVersion.
  cbn [magic version type payload_len correlation checksum]. split_and!; try ranges.
  - split; [by apply enum_of_int_valid|by apply valid_enum_u16].
  - unfold u32. apply Z.mod_pos_bound. lia.
Qed.

Lemma frame_header_len t payload corr crc :
  Z.of_nat (length payload) <= kMaxFramePayload →
  payload_len (frame_header t payload corr crc) = Z.of_nat (length payload).
Proof. intros H. unfold kMaxFramePayload in H. simpl. unfold u32. apply Z.mod_small. lia. Qed.

(** The header of a sent frame. *)
Definition sent_header (t : FrameType) (payload : list Z) (corr : Z) : FrameHeader :=
  frame_header t payload corr (frame_crc (frame_header t payload corr 0) payload).

Lemma sent_header_wire t payload corr :
  valid_enum t → in_u64 corr → is_bytes payload → wire_header (sent_header t payload corr).
Proof. intros. apply frame_header_wire; [done..|]. by apply frame_crc_range. Qed.

Lemma sent_verdict t payload corr :
  valid_enum t → Z.of_nat (length payload) <= kMaxFramePayload →
  verdict (sent_header t payload corr) payload = Ok_.
Proof.
  intros Ht Hlen. unfold verdict. unfold sent_header at 4. rewrite frame_header_len by done.
  rewrite (proj2 (Z.ltb_ge _ _) Hlen). unfold sent_header, frame_header. cbn [type magic version checksum].
  rewrite (proj2 (is_valid_frame_type_spec t) Ht), !Z.eqb_refl. done.
Qed.

Lemma frame_bytes_length t payload corr :
  length (frame_bytes t payload corr) = (kFrameHeaderBytes + length payload)%nat.
Proof. unfold frame_bytes, write_raw. by rewrite length_app, encode_header_length. Qed.

Lemma send_frame_complete handle answers t payload corr :
  socket_valid handle = true → Z.of_nat (length payload) <= kMaxFramePayload →
  send_fair (kFrameHeaderBytes + length payload) answers →
  send_frame handle answers t payload corr = Some (Ok tt, frame_bytes t payload corr).
Proof.
  intros Hs Hlen Hf. unfold send_frame, send_all. rewrite (proj2 (Z.ltb_ge _ _) Hlen), Hs.
  apply send_loop_complete. by rewrite frame_bytes_length.
Qed.

(** ** Substituted bytes *)

(** Where the changed byte of a concatenation lies. *)
Lemma substitution_split {A} (pre post x y : list A) b b' :
  x ++ y = pre ++ b :: post →
  (∃ p2, x = pre ++ b :: p2 ∧ pre ++ b' :: post = (pre ++ b' :: p2) ++ y) ∨
  (∃ p1, pre = x ++ p1 ∧ y = p1 ++ b :: post ∧ pre ++ b' :: post = x ++ p1 ++ b' :: post).
Proof.
  intros Heq. destruct (decide (length x ≤ length pre)%nat) as [Hle|Hgt].
  - right. exists (drop (length x) pre).
    assert (Hpre : pre = x ++ drop (length x) pre).
    { apply (f_equal (take (length x))) in Heq. rewrite take_app_length, take_app_le in Heq by done.
      by rewrite Heq at 1; rewrite take_drop. }
    split_and!; [done| |by rewrite app_assoc, <- Hpre].
    rewrite Hpre, <- app_assoc in Heq at 1. by apply app_inv_head in Heq.
  - left. exists (take (length x - S (length pre)) post).
    apply (f_equal (fun l => (take (length x) l, drop (length x) l))) in Heq.
    rewrite take_app_length, drop_app_length in Heq. injection Heq as Hx Hy.
    assert (Hl : length x = (length pre + S (length x - S (length pre)))%nat) by lia.
    rewrite Hl in Hx, Hy. rewrite take_app_add in Hx. rewrite drop_app_add in Hy. simpl in Hx, Hy.
    split; [done|]. by rewrite Hy, <- app_assoc; simpl; rewrite take_drop.
Qed.

Lemma verdict_accepts h p :
  verdict h p = Ok_ → crc32 (header_body h ++ p) = checksum h.
Proof.
  unfold verdict. repeat case_match; try done. intros _. rewrite <- frame_crc_body.
  by apply neqb_false.
Qed.

Lemma verdict_cases h p :
  payload_len h <= kMaxFramePayload → verdict h p = Ok_ ∨ verdict h p = Malformed.
Proof. intros H. unfold verdict. rewrite (proj2 (Z.ltb_ge _ _) H). repeat case_match; auto. Qed.

Lemma substitution_part {A} (pre post : list A) b b' i n :
  ~ (i ≤ length pre < i + n)%nat →
  take n (drop i (pre ++ b' :: post)) = take n (drop i (pre ++ b :: post)).
Proof.
  intros Hi. apply list_eq. intros j. destruct (decide (j < n)%nat) as [Hj|Hj].
  - rewrite !lookup_take_lt, !lookup_drop by done.
    destruct (decide (i + j < length pre)%nat); [by rewrite !lookup_app_l by done|].
    rewrite !lookup_app_r by lia. by destruct (i + j - length pre)%nat eqn:?; [lia|].
  - by rewrite !lookup_take_ge by lia.
Qed.

Lemma encode_header_len_field h :
  take 4 (drop 8 (encode_header h)) = write_u32 (payload_len h).
Proof. reflexivity. Qed.

Lemma header_body_length h : length (header_body h) = 20%nat.
Proof. reflexivity. Qed.

(** The checksum of a header whose bytes differ in one place is wrong. *)
Lemma corrupted_header h h' p pre b b' post :
  wire_header h → wire_header h' → is_bytes p → in_u8 b → in_u8 b' → b ≠ b' →
  encode_header h = pre ++ b :: post → encode_header h' = pre ++ b' :: post →
  crc32 (header_body h ++ p) = checksum h → crc32 (header_body h' ++ p) ≠ checksum h'.
Proof.
  intros (_ & _ & _ & _ & _ & Hk) (_ & _ & _ & _ & _ & Hk') Hp Hb Hb' Hne He He' Hc Hc'.
  pose proof (header_body_bytes h) as Hbytes.
  rewrite encode_header_body in He, He'.
  destruct (substitution_split pre post (header_body h) (write_u32 (checksum h)) b b' He)
    as [(p2 & Hbody & Hsub)|(p1 & Hpre & Hfield & Hsub)]; rewrite Hsub in He';
    apply app_inj_1 in He' as [Hbody' Hfield'].
  - apply write_u32_inj in Hfield'; [|done..]. rewrite Hbody', Hfield', <- Hc, Hbody in Hc'.
    rewrite <- !app_assoc in Hc'. simpl in Hc'. revert Hc'. rewrite Hbody in Hbytes.
    unfold is_bytes in Hbytes. rewrite Forall_app, Forall_cons_iff in Hbytes.
    apply crc_update_substitution; try apply Hbytes; auto with nmc.
    apply is_bytes_app; [apply Hbytes|done].
  - rewrite header_body_length, <- (header_body_length h), Hbody.
    by rewrite length_app; simpl; rewrite length_app.
  - rewrite Hbody', Hc in Hc'. rewrite <- Hc', Hfield in Hfield'. apply app_inv_head in Hfield'. congruence.
  - by rewrite !header_body_length.
Qed.

(** The receiver's verdict on a frame with one byte of the header changed,
    outside the length field, or one byte of the payload. *)
Section Corrupted.
Context (h : FrameHeader) (p : list Z).
Hypothesis Hw : wire_header h.
Hypothesis Hp : is_bytes p.
Hypothesis Hlen : Z.of_nat (length p) <= kMaxFramePayload.
Hypothesis Hn : payload_len h = Z.of_nat (length p).
Hypothesis Hcrc : crc32 (header_body h ++ p) = checksum h.

Lemma corrupted_header_verdict pre b b' post :
  encode_header h = pre ++ b :: post → in_u8 b' → b ≠ b' → ~ (8 ≤ length pre < 12)%nat →
  ∃ h', wire_header h' ∧ encode_header h' = pre ++ b' :: post ∧
        length p = Z.to_nat (payload_len h') ∧ verdict h' p = Malformed.
Proof.
  intros Hx Hb' Hne Hpos. pose proof (encode_header_bytes h) as Hhb. rewrite Hx in Hhb.
  destruct (header_of_bytes (pre ++ b' :: post)) as (h' & Hw' & He').
  { by eapply substituted_bytes. }
  { rewrite <- (encode_header_length h), Hx. by rewrite !length_app. }
  assert (Hn' : payload_len h' = payload_len h).
  { apply write_u32_inj; [apply Hw'|apply Hw|]. rewrite <- !encode_header_len_field, He', Hx.
    by apply substitution_part. }
  exists h'. split_and!; [done|done|rewrite Hn', Hn; lia|].
  destruct (verdict_cases h' p) as [Hok|?]; [by rewrite Hn', Hn| |done].
  exfalso. apply verdict_accepts in Hok. revert Hok. apply (corrupted_header h h' p pre b b' post); try done.
  unfold is_bytes in Hhb. rewrite Forall_app, Forall_cons_iff in Hhb. apply Hhb.
Qed.

Lemma corrupted_payload_verdict pre b b' post :
  p = pre ++ b :: post → in_u8 b' → b ≠ b' → verdict h (pre ++ b' :: post) = Malformed.
Proof.
  intros Hx Hb' Hne. destruct (verdict_cases h (pre ++ b' :: post)) as [Hok|?]; [by rewrite Hn| |done].
  exfalso. apply verdict_accepts in Hok. rewrite <- Hcrc, Hx, !app_assoc in Hok.
  symmetry in Hok. revert Hok. rewrite Hx in Hp. unfold is_bytes in Hp.
  rewrite Forall_app, Forall_cons_iff in Hp.
  apply crc_update_substitution; try apply Hp; auto with nmc.
  apply is_bytes_app; [apply header_body_bytes|apply Hp].
Qed.
End Corrupted.

(** ** Delivery *)

(** A well-formed payload in a frame is received as it was sent. *)
Lemma frame_received handle p corr receives rest m :
  socket_valid handle = true → wf_payload p → is_bytes (encode_payload p) →
  Z.of_nat (length (encode_payload p)) <= kMaxFramePayload → in_u64 corr →
  recv_fair (kFrameHeaderBytes + (length (encode_payload p) + m)) receives →
  ∃ out left r,
    recv_frame handle receives (frame_bytes (payload_type p) (encode_payload p) corr ++ rest) =
      Some (out, rest, left) ∧
    status out = Ok_ ∧ type (header out) = payload_type p ∧ correlation (header out) = corr ∧
    decode_payload (type (header out)) {| data_ := payload out; pos_ := 0 |} = Some (p, r) ∧
    at_end r = true ∧ recv_fair m left.
Proof.
  intros Hs Hwf Hb Hlen Hc Hrecv. pose proof (payload_type_valid p) as Hty.
  set (h := sent_header (payload_type p) (encode_payload p) corr).
  destruct (recv_frame_verdict handle receives h (encode_payload p) rest m)
    as (out & stream & left & Hr & Hst & Hok).
  { done. }
  { by apply sent_header_wire. }
  { unfold h, sent_header. rewrite frame_header_len by done. lia. }
  { done. }
  unfold h in Hst, Hok. rewrite sent_verdict in Hst, Hok by done.
  destruct (Hok eq_refl) as (Hh & Hp & -> & Hleft).
  exists out, left. eexists.
  split_and!; [|done|by rewrite Hh|by rewrite Hh| | |done].
  - unfold frame_bytes, write_raw. by rewrite <- app_assoc.
  - rewrite Hp, Hh. apply reads_whole. by apply payload_reads.
  - unfold at_end, size_. simpl. by apply Nat.leb_refl.
Qed.

(** ** Properties *)

(** Claim C29: a message sent is the message received.  Any well-formed payload
    within the frame limit, sent as a frame over system calls that take it in
    pieces of any size and may be interrupted, and received in pieces of any
    other sizes, arrives: [send_frame] succeeds, [recv_frame] answers [Ok] with
    the frame type and the correlation, the payload decodes to the message that
    was sent, and exactly the bytes behind the frame stay in flight. *)
Theorem frames_deliver_payloads handle handle' p corr sends receives rest m :
  socket_valid handle = true → socket_valid handle' = true → wf_payload p →
  is_bytes (encode_payload p) → Z.of_nat (length (encode_payload p)) <= kMaxFramePayload →
  in_u64 corr → send_fair (kFrameHeaderBytes + length (encode_payload p)) sends →
  recv_fair (kFrameHeaderBytes + (length (encode_payload p) + m)) receives →
  ∃ wire out left r,
    send_frame handle sends (payload_type p) (encode_payload p) corr = Some (Ok tt, wire) ∧
    recv_frame handle' receives (wire ++ rest) = Some (out, rest, left) ∧
    status out = Ok_ ∧ type (header out) = payload_type p ∧ correlation (header out) = corr ∧
    decode_payload (type (header out)) {| data_ := payload out; pos_ := 0 |} = Some (p, r) ∧
    at_end r = true ∧ recv_fair m left.
Proof.
  intros Hs Hs' Hwf Hb Hlen Hc Hsend Hrecv.
  destruct (frame_received handle' p corr receives rest m) as (out & left & r & H); [done..|].
  exists (frame_bytes (payload_type p) (encode_payload p) corr), out, left, r.
  split; [by apply send_frame_complete|exact H].
Qed.

Definition ping_sends : list SendAnswer := SendFailed WSAEINTR :: replicate 60 (Accepted 3).
Definition ping_receives : list RecvAnswer := replicate 60 (Arrived 7).

Lemma frames_deliver_payloads_witness :
  ∃ wire out left r,
    send_frame 5 ping_sends FrameType.SHUTDOWN
      (encode_payload (P_SHUTDOWN {| ShutdownMsg.reason := "done" |})) 9 = Some (Ok tt, wire) ∧
    recv_frame 6 ping_receives (wire ++ [1; 2]) = Some (out, [1; 2], left) ∧
    status out = Ok_ ∧ type (header out) = FrameType.SHUTDOWN ∧ correlation (header out) = 9 ∧
    decode_payload (type (header out)) {| data_ := payload out; pos_ := 0 |} =
      Some (P_SHUTDOWN {| ShutdownMsg.reason := "done" |}, r) ∧
    at_end r = true ∧ recv_fair 10 left.
Proof.
  apply (frames_deliver_payloads 5 6 (P_SHUTDOWN {| ShutdownMsg.reason := "done" |}) 9
    ping_sends ping_receives [1; 2] 10).
  - reflexivity.
  - reflexivity.
  - vm_compute. congruence.
  - apply (bool_decide_eq_true_1 _). vm_compute. reflexivity.
  - vm_compute. congruence.
  - split; lia.
  - split; [|vm_compute; lia]. constructor; [by right|apply Forall_replicate; by left].
  - split; [|vm_compute; lia]. apply Forall_replicate. by left.
Defined.

(** Claim C30: a corrupted frame is rejected.  Replacing any one byte of a frame,
    other than in its length field, makes [recv_frame] return [Malformed],
    however the bytes are cut into pieces and whatever follows them. *)
Theorem corrupted_frame_rejected handle receives t p corr pre b b' post rest :
  socket_valid handle = true → valid_enum t → in_u64 corr → is_bytes p →
  Z.of_nat (length p) <= kMaxFramePayload →
  frame_bytes t p corr = pre ++ b :: post → in_u8 b' → b ≠ b' → ~ (8 ≤ length pre < 12)%nat →
  recv_fair (kFrameHeaderBytes + (length p + 0)) receives →
  ∃ out stream left,
    recv_frame handle receives ((pre ++ b' :: post) ++ rest) = Some (out, stream, left) ∧
    status out = Malformed.
Proof.
  intros Hs Ht Hc Hp Hlen Hfr Hb' Hne Hpos Hf. set (h := sent_header t p corr).
  assert (Hw : wire_header h) by by apply sent_header_wire.
  assert (Hn : payload_len h = Z.of_nat (length p)) by (unfold h, sent_header; by rewrite frame_header_len).
  assert (Hcrc : crc32 (header_body h ++ p) = checksum h) by by apply verdict_accepts, sent_verdict.
  change (frame_bytes t p corr) with (encode_header h ++ p) in Hfr.
  destruct (substitution_split pre post (encode_header h) p b b' Hfr)
    as [(p2 & Hx & Hsub)|(p1 & Hpre & Hy & Hsub)]; rewrite Hsub, <- app_assoc.
  - destruct (corrupted_header_verdict h p Hw Hp Hlen Hn Hcrc pre b b' p2 Hx Hb' Hne Hpos)
      as (h' & Hw' & <- & Hl & Hv).
    destruct (recv_frame_verdict handle receives h' p rest 0 Hs Hw' Hl Hf)
      as (out & st & left & Hr & Hst & _). exists out, st, left. split; [exact Hr|by rewrite Hst].
  - assert (Hl : length (p1 ++ b' :: post) = length p) by by rewrite Hy, !length_app.
    destruct (recv_frame_verdict handle receives h (p1 ++ b' :: post) rest 0 Hs Hw)
      as (out & st & left & Hr & Hst & _); [rewrite Hn; lia|by rewrite Hl|].
    exists out, st, left. split; [exact Hr|]. rewrite Hst.
    by apply (corrupted_payload_verdict h p Hp Hlen Hn Hcrc p1 b b' post).
Qed.

Lemma corrupted_frame_rejected_witness :
  ∃ out stream left,
    recv_frame 6 ping_receives
      ((take 26 (frame_bytes FrameType.PING [4; 5; 6] 9) ++
        7 :: drop 27 (frame_bytes FrameType.PING [4; 5; 6] 9)) ++ [0; 0]) = Some (out, stream, left) ∧
    status out = Malformed.
Proof.
  apply (corrupted_frame_rejected 6 ping_receives FrameType.PING [4; 5; 6] 9
    (take 26 (frame_bytes FrameType.PING [4; 5; 6] 9)) 6 7
    (drop 27 (frame_bytes FrameType.PING [4; 5; 6] 9)) [0; 0]).
  - reflexivity.
  - apply is_valid_frame_type_spec. reflexivity.
  - split; lia.
  - apply (bool_decide_eq_true_1 _). vm_compute. reflexivity.
  - vm_compute. congruence.
  - vm_compute. reflexivity.
  - split; lia.
  - discriminate.
  - vm_compute. lia.
  - split; [|vm_compute; lia]. apply Forall_replicate. by left.
Defined.
