(* ===== verification/Sockets.v ===== *)
(** * Socket handles ([net.hpp], [net.cpp])

    [TcpSocket] and [TcpListener] own one native handle each and release it when
    they are closed, assigned over or destroyed; moves hand it on.  The state is
    the live objects of the process and the sockets the operating system has
    open for it; the system's answers are arguments.  A [closesocket] on a
    handle that is not open is recorded. *)

From S2P Require Import Prelude Enums Ids Checksum Codec Model Protocol Net.

(** ** State *)

(** A [TcpSocket], or a [TcpListener] with its port. *)
Record NetObject := { is_listener : bool; handle_ : Z; port_ : Z }.

Record NetState := {
  wsa_called : bool;               (** [g_wsa_once] *)
  g_wsa_init_ok : bool;
  objects : gmap Z NetObject;
  opened : gset Z;                 (** sockets open for the process *)
  listening : gmap Z (Z * Z);      (** address and port a socket is bound to *)
  stray : list Z                   (** closes of handles that were not open *)
}.

Definition net_start : NetState :=
  {| wsa_called := false; g_wsa_init_ok := false; objects := ∅; opened := ∅;
     listening := ∅; stray := [] |}.

Definition set_wsa (called ok : bool) (s : NetState) : NetState :=
  {| wsa_called := called; g_wsa_init_ok := ok; objects := objects s; opened := opened s;
     listening := listening s; stray := stray s |}.
Definition set_object (o : Z) (x : NetObject) (s : NetState) : NetState :=
  {| wsa_called := wsa_called s; g_wsa_init_ok := g_wsa_init_ok s;
     objects := <[o := x]> (objects s); opened := opened s; listening := listening s;
     stray := stray s |}.
Definition drop_object (o : Z) (s : NetState) : NetState :=
  {| wsa_called := wsa_called s; g_wsa_init_ok := g_wsa_init_ok s;
     objects := delete o (objects s); opened := opened s; listening := listening s;
     stray := stray s |}.
(** [::socket] or [::accept] hands out a socket. *)
Definition open_socket (h : Z) (s : NetState) : NetState :=
  {| wsa_called := wsa_called s; g_wsa_init_ok := g_wsa_init_ok s; objects := objects s;
     opened := {[h]} ∪ opened s; listening := listening s; stray := stray s |}.
Definition bind_socket (h addr port : Z) (s : NetState) : NetState :=
  {| wsa_called := wsa_called s; g_wsa_init_ok := g_wsa_init_ok s; objects := objects s;
     opened := opened s; listening := <[h := (addr, port)]> (listening s); stray := stray s |}.
(** [::closesocket]. *)
Definition closesocket (h : Z) (s : NetState) : NetState :=
  {| wsa_called := wsa_called s; g_wsa_init_ok := g_wsa_init_ok s; objects := objects s;
     opened := opened s ∖ {[h]}; listening := delete h (listening s);
     stray := stray s ++ (if decide (h ∈ opened s) then [] else [h]) |}.

(** ** Operations *)

(** [net_init]; [wsa] is what [WSAStartup] answers if it is called. *)
Definition net_init (wsa : bool) (s : NetState) : Result unit * NetState :=
  let s := if wsa_called s then s else set_wsa true wsa s in
  if g_wsa_init_ok s then (Ok tt, s) else (fail "E_NET_INIT" "WSAStartup failed", s).
Definition net_cleanup (s : NetState) : NetState :=
  if g_wsa_init_ok s then set_wsa (wsa_called s) false s else s.

(** [TcpSocket()], [TcpListener()]: the members' initialisers. *)
Definition new_object (listener : bool) : NetObject :=
  {| is_listener := listener; handle_ := 0; port_ := 0 |}.
Definition object_of (listener : bool) (h port : Z) : NetObject :=
  {| is_listener := listener; handle_ := h; port_ := port |}.

(** [close]: releases the handle if it is valid. *)
Definition close (o : Z) (s : NetState) : NetState :=
  let? x := objects s !! o otherwise s in
  if socket_valid (handle_ x)
  then set_object o (object_of (is_listener x) kInvalidSocket (port_ x)) (closesocket (handle_ x) s)
  else s.
Definition destroy (o : Z) (s : NetState) : NetState := drop_object o (close o s).

(** The moved-from object. *)
Definition moved_from (x : NetObject) : NetObject := object_of (is_listener x) kInvalidSocket 0.
(** [T(T&& other)]. *)
Definition move_construct (o from : Z) (s : NetState) : NetState :=
  let? x := objects s !! from otherwise s in
  set_object from (moved_from x) (set_object o x s).
(** [operator=(T&& other)]. *)
Definition move_assign (o from : Z) (s : NetState) : NetState :=
  if o =? from then s else
  let s := close o s in
  let? x := objects s !! from otherwise s in
  set_object from (moved_from x) (set_object o x s).

(** The answers to one [listen], [accept] or [tcp_connect]; [None] or an error
    number when a call fails. *)
Record OpenAnswers := {
  oa_wsa : bool; oa_socket : option Z; oa_pton : option Z; oa_bind : option Z;
  oa_listen : option Z; oa_port : option Z; oa_connect : option Z; oa_accept : option Z;
  oa_error : Z
}.

Definition INADDR_ANY : Z := 0.

(** [TcpListener::listen]; a host that does not parse leaves the wildcard
    address in place. *)
Definition listen (a : OpenAnswers) (o : Z) (host : string) (port : Z) (s : NetState)
    : Result unit * NetState :=
  let (init, s) := net_init (oa_wsa a) s in
  match init with
  | Err e => (Err e, s)
  | Ok _ =>
      let? h := oa_socket a otherwise (fail "E_NET_SOCKET" "socket failed", s) in
      let s := open_socket h s in
      let addr := if String.eqb host "" then INADDR_ANY else default INADDR_ANY (oa_pton a) in
      match oa_bind a with
      | Some e => (fail "E_NET_BIND" ("bind failed: " +:+ to_string_u64 e), closesocket h s)
      | None =>
          let s := bind_socket h addr port s in
          match oa_listen a with
          | Some e => (fail "E_NET_LISTEN" ("listen failed: " +:+ to_string_u64 e), closesocket h s)
          | None =>
              let? x := objects s !! o otherwise (Ok tt, s) in
              (Ok tt, set_object o (object_of (is_listener x) h (default (port_ x) (oa_port a))) s)
          end
      end
  end.

(** [TcpListener::accept]; the new [TcpSocket] is the object [c]. *)
Definition accept (a : OpenAnswers) (o c : Z) (s : NetState) : Result unit * NetState :=
  let? x := objects s !! o otherwise (fail "E_NET_ACCEPT" "not listening", s) in
  if negb (socket_valid (handle_ x)) then (fail "E_NET_ACCEPT" "not listening", s) else
  match oa_accept a with
  | None => (fail "E_NET_ACCEPT" ("accept failed: " +:+ to_string_u64 (oa_error a)), s)
  | Some h => (Ok tt, set_object c (object_of false h 0) (open_socket h s))
  end.

(** [tcp_connect]; the new [TcpSocket] is the object [c]. *)
Definition tcp_connect (a : OpenAnswers) (c : Z) (host : string) (port : Z) (s : NetState)
    : Result unit * NetState :=
  let (init, s) := net_init (oa_wsa a) s in
  match init with
  | Err e => (Err e, s)
  | Ok _ =>
      let? h := oa_socket a otherwise (fail "E_NET_SOCKET" "socket failed", s) in
      let s := open_socket h s in
      match oa_pton a with
      | None => (fail "E_NET_ADDR" "invalid address", closesocket h s)
      | Some _ =>
          match oa_connect a with
          | Some e => (fail "E_NET_CONNECT" ("connect failed: " +:+ to_string_u64 e), closesocket h s)
          | None => (Ok tt, set_object c (object_of false h 0) s)
          end
      end
  end.

(** ** Executions *)

Inductive NetOp :=
| NewObject (o : Z) (listener : bool)
| MoveConstruct (o from : Z) | MoveAssign (o from : Z)
| CloseObject (o : Z) | Destroy (o : Z)
| Listen (a : OpenAnswers) (o : Z) (host : string) (port : Z)
| Accept (a : OpenAnswers) (o c : Z)
| Connect (a : OpenAnswers) (c : Z) (host : string) (port : Z)
| NetInit (wsa : bool) | NetCleanup.

Definition net_step (op : NetOp) (s : NetState) : NetState :=
  match op with
  | NewObject o l => set_object o (new_object l) s
  | MoveConstruct o from => move_construct o from s
  | MoveAssign o from => move_assign o from s
  | CloseObject o => close o s
  | Destroy o => destroy o s
  | Listen a o host port => (listen a o host port s).2
  | Accept a o c => (accept a o c s).2
  | Connect a c host port => (tcp_connect a c host port s).2
  | NetInit wsa => ((net_init wsa s).2)
  | NetCleanup => net_cleanup s
  end.

(** A handle the system hands out is not open and not the invalid one. *)
Definition fresh_handle (h : option Z) (s : NetState) : Prop :=
  match h with Some h => (h ∉ opened s) ∧ (h ≠ kInvalidSocket) | None => True end.
(** What C++ and the system guarantee of an operation: constructed objects are
    new, used ones exist, handles handed out are fresh. *)
Definition net_legal (op : NetOp) (s : NetState) : Prop :=
  match op with
  | NewObject o _ => objects s !! o = None
  | MoveConstruct o from => objects s !! o = None ∧ is_Some (objects s !! from)
  | MoveAssign o from => is_Some (objects s !! o) ∧ is_Some (objects s !! from)
  | CloseObject o | Destroy o => is_Some (objects s !! o)
  | Listen a o _ _ => is_Some (objects s !! o) ∧ fresh_handle (oa_socket a) s
  | Accept a o c => is_Some (objects s !! o) ∧ objects s !! c = None ∧ fresh_handle (oa_accept a) s
  | Connect a c _ _ => objects s !! c = None ∧ fresh_handle (oa_socket a) s
  | NetInit _ | NetCleanup => True
  end.

(** The handle a successful [listen] writes over: [listen] stores its new
    handle without looking at the one its object holds. *)
Definition overwritten (op : NetOp) (s : NetState) : gset Z :=
  match op with
  | Listen a o host port =>
      match (listen a o host port s).1, objects s !! o with
      | Ok _, Some x => {[handle_ x]}
      | _, _ => ∅
      end
  | _ => ∅
  end.

(** Operations, the state they lead to and the handles written over on the
    way. *)
Inductive net_execution : list NetOp → NetState → gset Z → Prop :=
| net_nil : net_execution [] net_start ∅
| net_snoc ops op s lost :
    net_execution ops s lost → net_legal op s →
    net_execution (ops ++ [op]) (net_step op s) (overwritten op s ∪ lost).

(** ** Ownership *)

Section Ownership.
(** The handles that may be held without being open: 0 as long as there are
    objects that were constructed and not yet opened. *)
Context (spare : Z → Prop) `{!∀ h, base.Decision (spare h)}.
(** The handles written over. *)
Context (lost : gset Z).

(** A handle that stands for a socket of the process. *)
Definition owned (h : Z) : Prop := ~ spare h ∧ h ≠ kInvalidSocket.

Record net_inv (s : NetState) : Prop := {
  ni_unique o1 o2 x1 x2 :
    objects s !! o1 = Some x1 → objects s !! o2 = Some x2 →
    handle_ x1 = handle_ x2 → owned (handle_ x1) → o1 = o2;
  ni_open o x : objects s !! o = Some x → owned (handle_ x) → handle_ x ∈ opened s;
  ni_held h : h ∈ opened s → ~ spare h → h ∉ lost → ∃ o x, objects s !! o = Some x ∧ handle_ x = h;
  ni_lost h : h ∈ lost → owned h →
    h ∈ opened s ∧ ∀ o x, objects s !! o = Some x → handle_ x ≠ h;
  ni_valid : kInvalidSocket ∉ opened s;
  ni_stray : Forall spare (stray s)
}.

(** The invariant reads three of the fields. *)
Lemma net_inv_ext s s' :
  objects s' = objects s → opened s' = opened s → stray s' = stray s → net_inv s → net_inv s'.
Proof. intros Ho Hp Hs [H1 H2 H3 H6 H4 H5]. split; rewrite ?Ho, ?Hp, ?Hs; done. Qed.

Lemma net_inv_set o x s :
  net_inv s → (∀ x', objects s !! o = Some x' → ~ owned (handle_ x')) → ~ owned (handle_ x) →
  net_inv (set_object o x s).
Proof.
  intros [H1 H2 H3 H6 H4 H5] Hold Hnew. split; simpl; try done.
  - intros o1 o2 x1 x2 [[<- <-]|[_ L1]]%lookup_insert_Some [[<- <-]|[_ L2]]%lookup_insert_Some E Ho;
      [done|..|by eapply H1]; exfalso; [done|]. by rewrite E in Ho.
  - intros o' x' [[<- <-]|[_ L]]%lookup_insert_Some Ho; [done|by eapply H2].
  - intros h Hh Hz Hl. destruct (H3 h Hh Hz Hl) as (o' & x' & L & E). exists o', x'. split; [|done].
    rewrite lookup_insert_ne; [done|]. intros <-. apply (Hold _ L). split; [by rewrite E|].
    rewrite E. intros ->. by apply H4.
  - intros h Hl Hw. destruct (H6 h Hl Hw) as [Hh Hn]. split; [done|].
    intros o' x' [[<- <-]|[_ L]]%lookup_insert_Some; [congruence|by eapply Hn].
Qed.

(** Closing an object that holds a socket. *)
Lemma net_inv_close o s : net_inv s → net_inv (close o s).
Proof.
  intros Hi. unfold close. destruct (objects s !! o) as [x|] eqn:Hx; [|done].
  destruct (socket_valid (handle_ x)) eqn:Hv; [|done].
  apply negb_true_iff, Z.eqb_neq in Hv. destruct Hi as [H1 H2 H3 H6 H4 H5]. split; simpl.
  - intros o1 o2 x1 x2 [[<- <-]|[N1 L1]]%lookup_insert_Some [[<- <-]|[N2 L2]]%lookup_insert_Some E Ho;
      [done|..|by eapply H1]; simpl in *.
    + by destruct Ho.
    + rewrite E in Ho. by destruct Ho.
  - intros o' x' [[<- <-]|[N L]]%lookup_insert_Some Ho; [by destruct Ho|].
    apply elem_of_difference. split; [by eapply H2|]. intros E%elem_of_singleton.
    apply N. symmetry. by eapply H1.
  - intros h [Hh Hne]%elem_of_difference Hz Hl. destruct (H3 h Hh Hz Hl) as (o' & x' & L & E).
    exists o', x'. split; [|done]. rewrite lookup_insert_ne; [done|]. intros <-. simplify_eq. set_solver.
  - intros h Hl Hw. destruct (H6 h Hl Hw) as [Hh Hn]. pose proof (Hn _ _ Hx). split; [set_solver|].
    intros o' x' [[<- <-]|[_ L]]%lookup_insert_Some; [by destruct Hw|by eapply Hn].
  - set_solver.
  - apply Forall_app. split; [done|]. case_decide as Hd; [constructor|].
    constructor; [|constructor]. destruct (decide (spare (handle_ x))); [done|].
    destruct Hd. by eapply H2.
Qed.

Lemma close_releases o s x :
  objects (close o s) !! o = Some x → socket_valid (handle_ x) = false.
Proof.
  unfold close. destruct (objects s !! o) as [y|] eqn:Hy; [|congruence].
  destruct (socket_valid (handle_ y)) eqn:Hv; simpl; [|congruence].
  rewrite lookup_insert_eq. by intros [= <-].
Qed.
Lemma close_other o o' s : o' ≠ o → objects (close o s) !! o' = objects s !! o'.
Proof.
  intros Hne. unfold close. repeat case_match; try done. simpl. by rewrite lookup_insert_ne.
Qed.
Lemma invalid_not_owned h : socket_valid h = false → ~ owned h.
Proof. intros Hv%negb_false_iff%Z.eqb_eq [_ ?]. done. Qed.

(** Handing a socket on to an object that holds none. *)
Lemma net_inv_transfer o from x s :
  net_inv s → objects s !! from = Some x → o ≠ from →
  (∀ x', objects s !! o = Some x' → ~ owned (handle_ x')) →
  net_inv (set_object from (moved_from x) (set_object o x s)).
Proof.
  intros [H1 H2 H3 H6 H4 H5] Hf Hne Ho. split; simpl; try done.
  - intros o1 o2 x1 x2 [[<- <-]|[N1 L1]]%lookup_insert_Some [[<- <-]|[N2 L2]]%lookup_insert_Some E Hw;
      [done|by destruct Hw|rewrite E in Hw; by destruct Hw|].
    apply lookup_insert_Some in L1 as [[<- <-]|[M1 L1]], L2 as [[<- <-]|[M2 L2]]; [done|..|by eapply H1].
    + destruct N2. by eapply H1.
    + destruct N1. symmetry. by eapply H1.
  - intros o' x' [[<- <-]|[N L]]%lookup_insert_Some Hw; [by destruct Hw|].
    apply lookup_insert_Some in L as [[<- <-]|[M L]]; by eapply H2.
  - intros h Hh Hz Hl. destruct (H3 h Hh Hz Hl) as (o' & x' & L & E).
    destruct (decide (o' = from)) as [->|N].
    + exists o, x'. rewrite lookup_insert_ne by done. rewrite lookup_insert_eq. by simplify_eq.
    + exists o', x'. split; [|done]. rewrite !lookup_insert_ne; [done| |done].
      intros <-. apply (Ho _ L). rewrite E. split; [done|]. intros ->. by apply H4.
  - intros h Hl Hw. destruct (H6 h Hl Hw) as [Hh Hn]. split; [done|].
    intros o' x' [[<- <-]|[_ L]]%lookup_insert_Some; [by destruct Hw|].
    apply lookup_insert_Some in L as [[<- <-]|[_ L]]; by eapply Hn.
Qed.

(** Giving a fresh socket to an object that holds none. *)
Lemma net_inv_give o l h p s :
  net_inv s → h ∉ opened s → h ≠ kInvalidSocket →
  (∀ x', objects s !! o = Some x' → ~ owned (handle_ x')) →
  net_inv (set_object o (object_of l h p) (open_socket h s)).
Proof.
  intros [H1 H2 H3 H6 H4 H5] Hf Hv Ho.
  assert (Hno : ∀ o' x', objects s !! o' = Some x' → handle_ x' = h → ~ owned h).
  { intros o' x' L <- Hw. by eapply Hf, H2. }
  split; simpl; try done.
  - intros o1 o2 x1 x2 [[<- <-]|[N1 L1]]%lookup_insert_Some [[<- <-]|[N2 L2]]%lookup_insert_Some E Hw;
      [done|..|by eapply H1]; simpl in *; exfalso.
    + by eapply Hno.
    + rewrite E in Hw. by eapply Hno.
  - intros o' x' [[<- <-]|[N L]]%lookup_insert_Some Hw; simpl; [set_solver|].
    apply elem_of_union_r. by eapply H2.
  - intros h' [->%elem_of_singleton|Hh]%elem_of_union Hz Hl.
    + exists o, (object_of l h p). by rewrite lookup_insert_eq.
    + destruct (H3 h' Hh Hz Hl) as (o' & x' & L & E). exists o', x'. split; [|done].
      rewrite lookup_insert_ne; [done|]. intros <-. apply (Ho _ L). rewrite E.
      split; [done|]. intros ->. by apply H4.
  - intros h' Hl Hw. destruct (H6 h' Hl Hw) as [Hh Hn]. split; [set_solver|].
    intros o' x' [[<- <-]|[_ L]]%lookup_insert_Some; [simpl; by intros ->|by eapply Hn].
  - set_solver.
Qed.

(** A socket that is opened and closed again leaves no trace. *)
Lemma open_close_ext h s s' :
  h ∉ opened s → objects s' = objects s → opened s' = {[h]} ∪ opened s → stray s' = stray s →
  net_inv s → net_inv (closesocket h s').
Proof.
  intros Hf Ho Hp Hs. apply net_inv_ext; simpl; [done| |].
  - rewrite Hp. set_solver.
  - rewrite Hp, Hs. case_decide as Hd; [by rewrite app_nil_r|set_solver].
Qed.

Lemma net_init_frame wsa s :
  objects (net_init wsa s).2 = objects s ∧ opened (net_init wsa s).2 = opened s ∧
  stray (net_init wsa s).2 = stray s.
Proof. unfold net_init. by repeat case_match. Qed.

Lemma net_inv_drop o s :
  net_inv s → (∀ x, objects s !! o = Some x → ~ owned (handle_ x)) → net_inv (drop_object o s).
Proof.
  intros [H1 H2 H3 H6 H4 H5] Ho. split; simpl; try done.
  - intros o1 o2 x1 x2 [_ L1]%lookup_delete_Some [_ L2]%lookup_delete_Some. by eapply H1.
  - intros o' x [_ L]%lookup_delete_Some. by eapply H2.
  - intros h Hh Hz Hl. destruct (H3 h Hh Hz Hl) as (o' & x & L & E). exists o', x. split; [|done].
    rewrite lookup_delete_ne; [done|]. intros <-. apply (Ho _ L). rewrite E.
    split; [done|]. intros ->. by apply H4.
  - intros h Hl Hw. destruct (H6 h Hl Hw) as [Hh Hn]. split; [done|].
    intros o' x [_ L]%lookup_delete_Some. by eapply Hn.
Qed.

Lemma connect_inv a c host port s :
  net_inv s → objects s !! c = None → fresh_handle (oa_socket a) s →
  net_inv (tcp_connect a c host port s).2.
Proof.
  intros Hi Hc Hf. unfold tcp_connect. destruct (net_init (oa_wsa a) s) as [init s1] eqn:Hn.
  destruct (net_init_frame (oa_wsa a) s) as (Eo & Ep & Es). rewrite Hn in Eo, Ep, Es. simpl in *.
  assert (Hi1 : net_inv s1) by by eapply net_inv_ext.
  destruct init as [u|e]; [|done]. destruct (oa_socket a) as [h|]; [|done].
  destruct Hf as [Hf Hv]. rewrite <- Ep in Hf. rewrite <- Eo in Hc.
  destruct (oa_pton a); [|by apply (open_close_ext h s1)].
  destruct (oa_connect a); [by apply (open_close_ext h s1)|]. simpl.
  apply net_inv_give; try done. intros x Hx. congruence.
Qed.

End Ownership.

(** An object as constructed has handle 0. *)
Definition unopened (h : Z) : Prop := h = 0.
#[global] Instance unopened_dec h : base.Decision (unopened h).
Proof. unfold unopened. apply _. Defined.

(** An object forgets its handle: the handle is lost if it was a socket. *)
Lemma net_inv_forget lost o x s :
  net_inv unopened lost s → objects s !! o = Some x →
  net_inv unopened ({[handle_ x]} ∪ lost) (set_object o (moved_from x) s).
Proof.
  intros [H1 H2 H3 H6 H4 H5] Hx. split; simpl; try done.
  - intros o1 o2 x1 x2 [[<- <-]|[N1 L1]]%lookup_insert_Some [[<- <-]|[N2 L2]]%lookup_insert_Some E Hw;
      [done|by destruct Hw|rewrite E in Hw; by destruct Hw|by eapply H1].
  - intros o' x' [[<- <-]|[_ L]]%lookup_insert_Some Hw; [by destruct Hw|by eapply H2].
  - intros h Hh Hz [Hne Hl]%not_elem_of_union. destruct (H3 h Hh Hz Hl) as (o' & x' & L & E).
    exists o', x'. split; [|done]. rewrite lookup_insert_ne; [done|]. intros <-. set_solver.
  - intros h [->%elem_of_singleton|Hl]%elem_of_union Hw.
    + split; [by eapply H2|]. intros o' x' [[<- <-]|[N L]]%lookup_insert_Some E; [by destruct Hw|].
      apply N. symmetry. eapply H1; [exact L|exact Hx|exact E|by rewrite E].
    + destruct (H6 h Hl Hw) as [Hh Hn]. split; [done|].
      intros o' x' [[<- <-]|[_ L]]%lookup_insert_Some; [by destruct Hw|by eapply Hn].
Qed.

Lemma listen_inv lost a o host port s :
  net_inv unopened lost s → is_Some (objects s !! o) → fresh_handle (oa_socket a) s →
  net_inv unopened (overwritten (Listen a o host port) s ∪ lost) (listen a o host port s).2.
Proof.
  intros Hi [x Hx] Hf. unfold overwritten, listen. rewrite Hx. destruct (net_init (oa_wsa a) s) as [init s1] eqn:Hn.
  destruct (net_init_frame (oa_wsa a) s) as (Eo & Ep & Es). rewrite Hn in Eo, Ep, Es. simpl in *.
  assert (Hi1 : net_inv unopened lost s1) by by eapply net_inv_ext.
  destruct init as [u|e]; [|simpl; by rewrite (left_id_L ∅ (∪))].
  destruct (oa_socket a) as [h|]; [|simpl; by rewrite (left_id_L ∅ (∪))].
  destruct Hf as [Hf Hv]. rewrite <- Ep in Hf. rewrite <- Eo in Hx.
  destruct (oa_bind a); [simpl; rewrite (left_id_L ∅ (∪)); by apply (open_close_ext _ _ h s1)|].
  destruct (oa_listen a); [simpl; rewrite (left_id_L ∅ (∪)); by apply (open_close_ext _ _ h s1)|]. simpl.
  rewrite Hx. simpl.
  eapply net_inv_ext; [..|apply (net_inv_give _ _ o (is_listener x) h (default (port_ x) (oa_port a))
    (set_object o (moved_from x) s1)); [by apply net_inv_forget|done|done|]]; try done.
  - simpl. by rewrite insert_insert_eq.
  - intros x' Hx'. simpl in Hx'. rewrite lookup_insert_eq in Hx'. simplify_eq. by intros [].
Qed.

Lemma net_step_inv lost op s :
  net_inv unopened lost s → net_legal op s → net_inv unopened (overwritten op s ∪ lost) (net_step op s).
Proof.
  intros Hi Hl. destruct op; try (cbn [overwritten]; rewrite (left_id_L ∅ (∪))); simpl in *.
  - apply net_inv_set; [done|congruence|by intros []].
  - destruct Hl as [Ho [x Hx]]. unfold move_construct. rewrite Hx.
    apply net_inv_transfer; (congruence || done).
  - destruct Hl as [[y Hy] [x Hx]]. unfold move_assign.
    destruct (Z.eqb_spec o from) as [->|Hne]; [done|].
    rewrite close_other, Hx by done. apply net_inv_transfer; [by apply (net_inv_close unopened)| |done|].
    + by rewrite close_other.
    + intros x' L. by eapply invalid_not_owned, close_releases.
  - by apply (net_inv_close unopened).
  - apply net_inv_drop; [by apply (net_inv_close unopened)|].
    intros x L. by eapply invalid_not_owned, close_releases.
  - destruct Hl. by apply (listen_inv lost a o host port s).
  - destruct Hl as (_ & Hc & Hf). unfold accept. repeat case_match; simplify_eq; try done; simpl.
    apply net_inv_give; try apply Hf; [done|]. congruence.
  - destruct Hl. by apply connect_inv.
  - destruct (net_init_frame wsa s) as (? & ? & ?). by apply (net_inv_ext _ _ s).
  - unfold net_cleanup. case_match; [|done]. by apply (net_inv_ext _ _ s).
Qed.

Lemma net_execution_inv ops s lost : net_execution ops s lost → net_inv unopened lost s.
Proof.
  induction 1 as [|ops op s lost _ IH Hl]; [|by apply net_step_inv].
  split; simpl; (done || set_solver || constructor).
Qed.

(** ** Properties *)

(** Claim C20: every socket has exactly one owner.  In every sequence of
    constructions, moves, assignments, closes, destructions, listens, accepts and
    connects on objects that exist, with any of the system's calls failing and the
    handles it hands out neither open nor the invalid one, each socket open for
    the process (whose handle is not 0) is held by exactly one object, unless a
    later successful listen of the listener that held it has written over its
    handle, and then it stays open and no object holds it.  An object that holds
    a valid non-zero handle holds an open socket, so it is never used after its
    close; and a handle is never closed twice: the only closes of something that
    is not open are closes of handle 0. *)
Theorem sockets_owned_once ops s lost :
  net_execution ops s lost →
  (∀ h, h ∈ opened s → h ≠ 0 → h ∉ lost →
     ∃ o, (∃ x, objects s !! o = Some x ∧ handle_ x = h) ∧
       ∀ o' x', objects s !! o' = Some x' → handle_ x' = h → o' = o) ∧
  (∀ h, h ∈ lost → h ≠ 0 → socket_valid h = true →
     h ∈ opened s ∧ ∀ o x, objects s !! o = Some x → handle_ x ≠ h) ∧
  (∀ o x, objects s !! o = Some x → handle_ x ≠ 0 → socket_valid (handle_ x) = true →
     handle_ x ∈ opened s) ∧
  Forall (fun h => h = 0) (stray s).
Proof.
  intros Hex. destruct (net_execution_inv _ _ _ Hex) as [H1 H2 H3 H6 H4 H5]. split_and!; [| | |done].
  2: { intros h Hl Hz Hv. apply H6; [done|]. split; [done|by apply negb_true_iff, Z.eqb_neq in Hv]. }
  2: { intros o x Hx Hz Hv. apply (H2 o x Hx). split; [done|by apply negb_true_iff, Z.eqb_neq in Hv]. }
  intros h Hh Hz Hl. destruct (H3 h Hh Hz Hl) as (o & x & L & <-). exists o. split; [by exists x|].
  intros o' x' L' E. eapply H1; try done. rewrite E. split; [done|]. intros E'. by rewrite E' in Hh.
Qed.

(** A listener, a connection accepted into a temporary and moved to its place,
    and the temporary destroyed; then the listener closed. *)
Definition fine_answers (h : Z) : OpenAnswers :=
  {| oa_wsa := true; oa_socket := Some h; oa_pton := Some 16777343; oa_bind := None;
     oa_listen := None; oa_port := Some 4242; oa_connect := None; oa_accept := Some h;
     oa_error := 0 |}.
Definition serving_ops : list NetOp :=
  [NewObject 1 true; Listen (fine_answers 100) 1 "127.0.0.1" 0; Accept (fine_answers 104) 1 2;
   MoveConstruct 3 2; Destroy 2; CloseObject 1].

#[global] Instance net_legal_dec op s : base.Decision (net_legal op s).
Proof. destruct op; simpl; unfold fresh_handle; repeat case_match; apply _. Defined.

Fixpoint run_net (ops : list NetOp) (s : NetState) (lost : gset Z) : option (NetState * gset Z) :=
  match ops with
  | [] => Some (s, lost)
  | op :: ops =>
      if bool_decide (net_legal op s) then run_net ops (net_step op s) (overwritten op s ∪ lost) else None
  end.

Lemma run_net_execution ops0 ops s lost s' lost' :
  net_execution ops0 s lost → run_net ops s lost = Some (s', lost') →
  net_execution (ops0 ++ ops) s' lost'.
Proof.
  revert ops0 s lost. induction ops as [|op ops IH]; simpl; intros ops0 s lost Hex Hr.
  - simplify_eq. by rewrite app_nil_r.
  - case_bool_decide; [|done]. rewrite cons_middle, app_assoc. eapply IH; [|done]. by constructor.
Qed.

(** At the end the listener listens a second time, and the connection moved to
    object 3 is closed. *)
Definition relisten_ops : list NetOp :=
  serving_ops ++ [Listen (fine_answers 108) 1 "127.0.0.1" 0;
                  Listen (fine_answers 112) 1 "127.0.0.1" 0; Destroy 3].

Lemma sockets_owned_once_witness :
  ∃ s lost, run_net relisten_ops net_start ∅ = Some (s, lost) ∧
    (∃ o x, objects s !! o = Some x ∧ handle_ x = 112) ∧
    108 ∈ opened s ∧ ∀ o x, objects s !! o = Some x → handle_ x ≠ 108.
Proof.
  destruct (run_net relisten_ops net_start ∅) as [[s lost]|] eqn:Hr; [|by vm_compute in Hr].
  assert (Ho : (fun r => (bool_decide (112 ∈ opened r.1), bool_decide (112 ∉ r.2), bool_decide (108 ∈ r.2)))
    <$> run_net relisten_ops net_start ∅ = Some (true, true, true)) by (vm_compute; reflexivity).
  rewrite Hr in Ho. injection Ho as H1%bool_decide_eq_true_1 H2%bool_decide_eq_true_1 H3%bool_decide_eq_true_1.
  exists s, lost. split; [reflexivity|].
  destruct (sockets_owned_once relisten_ops s lost) as (Hone & Hlost & _).
  - exact (run_net_execution [] relisten_ops net_start ∅ s lost net_nil Hr).
  - split.
    + destruct (Hone 112 H1) as (o & (x & Hx & Hh) & _); [lia|exact H2|].
      exists o, x. split; [exact Hx|exact Hh].
    + apply Hlost; [exact H3|lia|reflexivity].
Defined.

(** An object as constructed passes for one that holds a socket: a listener that
    never listened calls the system's [accept] on handle 0 instead of answering
    "not listening", and closes handle 0 when it is destroyed. *)
Lemma default_object_closes_zero :
  (accept (fine_answers 104) 1 2 (net_step (NewObject 1 true) net_start)).1 = Ok tt ∧
  stray (net_step (Destroy 1) (net_step (NewObject 1 true) net_start)) = [0].
Proof. vm_compute. done. Qed.

(** Listening twice on one listener loses the first socket: it stays open with
    no object to close it. *)
Lemma second_listen_leaks :
  let s := foldr net_step net_start
    [Destroy 1; Listen (fine_answers 108) 1 "127.0.0.1" 0;
     Listen (fine_answers 100) 1 "127.0.0.1" 0; NewObject 1 true] in
  elements (opened s) = [100] ∧ objects s = ∅.
Proof. vm_compute. done. Qed.
