(* ===== verification/WorkerProcess.v ===== *)
(** * The worker process ([nmc_worker.cpp])

    [main] of the worker from its command line to its exit: the connection, the
    five announcements, and the loop that receives frames from the coordinator
    and answers them, over the byte stream of the connection and the answers of
    the system calls that deliver it.  [sent] says whether the n-th frame the
    worker hands to the connection is taken, [clock] is the time the n-th
    execution measures. *)

From S2P Require Import Prelude Enums Ids Args Checksum Codec Model Protocol Backend State.
From S2P Require Import Coordinator Machine Worker Net.

(** ** State *)

(** A frame handed to the connection. *)
Record OutFrame := { of_type : FrameType; of_payload : list Z; of_corr : Z }.

(** The correlation counter, the frames sent, the dispatches executed and
    withheld ([--hold-result]). *)
Record WorkerRun := { wr_corr : Z; wr_out : list OutFrame; wr_withheld : list DispatchId }.
Definition worker_fresh : WorkerRun := {| wr_corr := 1; wr_out := []; wr_withheld := [] |}.

Inductive WorkerEnd :=
| Threw                               (* an option is not a number *)
| Exited (code : Z) (w : WorkerRun)
| Awaiting (w : WorkerRun)            (* in [recv] *)
| Spinning.                           (* out of fuel *)

(** ** Operations *)

Section Process.
Context (sent : nat → bool) (clock : nat → Z).

(** [send_payload]: whether the frame was taken; an oversized one never is. *)
Definition emit (t : FrameType) (p : list Z) (corr : Z) (w : WorkerRun) : bool * WorkerRun :=
  if kMaxFramePayload <? Z.of_nat (length p) then (false, w) else
  (sent (length (wr_out w)),
   {| wr_corr := wr_corr w;
      wr_out := wr_out w ++ [{| of_type := t; of_payload := p; of_corr := corr |}];
      wr_withheld := wr_withheld w |}).
(** [send_msg(sock, type, w, corr++)]. *)
Definition send_msg (t : FrameType) (p : list Z) (w : WorkerRun) : bool * WorkerRun :=
  emit t p (wr_corr w)
    {| wr_corr := u64 (wr_corr w + 1); wr_out := wr_out w; wr_withheld := wr_withheld w |}.

(** The announcements, up to the first that is not taken. *)
Fixpoint announce (ps : list Payload) (w : WorkerRun) : bool * WorkerRun :=
  match ps with
  | [] => (true, w)
  | p :: ps =>
      let (ok, w) := send_msg (payload_type p) (encode_payload p) w in
      if ok then announce ps w else (false, w)
  end.

(** One iteration of the receive loop, with the exit code when it ends. *)
Definition worker_frame (synthetic hold_result : bool) (fr : FrameReceive) (w : WorkerRun)
    : WorkerRun * option Z :=
  match status fr with
  | Ok_ =>
      match type (header fr) with
      | FrameType.PING => ((emit FrameType.PONG [] (correlation (header fr)) w).2, None)
      | FrameType.DISPATCH =>
          match DispatchMsg.decode_dispatch {| data_ := payload fr; pos_ := 0 |} with
          | None => (w, None)
          | Some (dm, _) =>
              match worker_on_dispatch synthetic hold_result (clock (length (wr_out w))) dm with
              | None =>
                  ({| wr_corr := wr_corr w; wr_out := wr_out w;
                      wr_withheld := wr_withheld w ++ [DispatchMsg.dispatch dm] |}, None)
              | Some rm =>
                  let (ok, w) := send_msg FrameType.RESULT (ResultMsg.encode_result rm) w in
                  (w, if ok then None else Some 1)
              end
          end
      | FrameType.SHUTDOWN => (w, Some 0)
      | _ => (w, None)
      end
  | _ => (w, Some 0)
  end.

(** The receive loop over the bytes in flight. *)
Fixpoint worker_serve (fuel : nat) (synthetic hold_result : bool) (handle : Z)
    (answers : list RecvAnswer) (stream : list Z) (w : WorkerRun) : WorkerEnd :=
  match fuel with
  | O => Spinning
  | S fuel =>
      match recv_frame handle answers stream with
      | None => Awaiting w
      | Some (fr, stream, answers) =>
          match worker_frame synthetic hold_result fr w with
          | (w, Some code) => Exited code w
          | (w, None) => worker_serve fuel synthetic hold_result handle answers stream w
          end
      end
  end.

Definition config_of (wa : WorkerArgs) (wid boot target : Z) : WorkerConfig :=
  {| cfg_worker := wid; cfg_boot := boot; cfg_name := wa_name wa; cfg_target := target;
     cfg_target_name := wa_target wa; cfg_synthetic := wa_synthetic wa;
     cfg_concurrency := wa_concurrency wa; cfg_region := wa_region_id wa;
     cfg_dataset := wa_dataset_id wa; cfg_domain := wa_domain_id wa;
     cfg_latency := wa_latency wa; cfg_throughput := wa_throughput wa |}.

(** [main]; [connect] answers [tcp_connect] with the socket's handle. *)
Definition worker_main (fuel : nat) (argv : list string) (wid boot target : Z)
    (connect : string → Z → option Z) (answers : list RecvAnswer) (stream : list Z) : WorkerEnd :=
  let? wa := worker_args (parse_args argv ∅) otherwise Threw in
  let? handle := connect (wa_host wa) (wa_port wa) otherwise (Exited 1 worker_fresh) in
  let (ok, w) := announce (worker_announce (config_of wa wid boot target)) worker_fresh in
  if ok then worker_serve fuel (wa_synthetic wa) (wa_hold_result wa) handle answers stream w
  else Exited 1 w.

(** ** The loop ends *)

Lemma recv_loop_uses answers n got stream r :
  recv_loop answers n got stream = Some r →
  (length (unused r) + (if (n =? 0)%nat then 0 else 1) ≤ length answers)%nat.
Proof.
  revert n got stream. induction answers as [|a answers IH]; intros n got stream.
  - destruct n; simpl; [|done]. intros [= <-]. simpl. lia.
  - destruct n as [|n]; [cbn [recv_loop]; intros [= <-]; simpl; lia|].
    cbn [recv_loop Nat.eqb]. destruct a as [k|e].
    + case_match; [intros [= <-]; simpl; lia|]. intros Hr%IH. simpl. destruct (_ =? 0)%nat; lia.
    + repeat case_match; intros Hr; simplify_eq; simpl; try lia. apply IH in Hr. simpl in Hr. lia.
Qed.

(** A frame that was received took at least one system call. *)
Lemma recv_frame_uses handle answers stream fr stream' left :
  recv_frame handle answers stream = Some (fr, stream', left) → status fr = Ok_ →
  (length left < length answers)%nat.
Proof.
  unfold recv_frame, recv_all. destruct (socket_valid handle); [|by intros [= <- <- <-]].
  destruct (recv_loop answers kFrameHeaderBytes [] stream) as [r|] eqn:H1; [|done].
  apply recv_loop_uses in H1. cbn [kFrameHeaderBytes Nat.eqb] in H1.
  intros Hr Hst. repeat case_match; simplify_eq/=; try done; try lia.
  all: match goal with H : recv_loop (unused _) _ _ _ = Some _ |- _ => apply recv_loop_uses in H end; lia.
Qed.

Lemma worker_frame_goes_on synthetic hold fr w w' :
  worker_frame synthetic hold fr w = (w', None) → status fr = Ok_.
Proof. unfold worker_frame. by destruct (status fr). Qed.

Lemma worker_serve_ends fuel synthetic hold handle answers stream w :
  (length answers < fuel)%nat →
  worker_serve fuel synthetic hold handle answers stream w ≠ Spinning.
Proof.
  revert answers stream w. induction fuel as [|fuel IH]; intros answers stream w Hf; [lia|].
  cbn [worker_serve]. destruct (recv_frame handle answers stream) as [[[fr st] left]|] eqn:Hr; [|done].
  destruct (worker_frame synthetic hold fr w) as [w' [code|]] eqn:Hw; [done|].
  apply IH. apply recv_frame_uses in Hr; [lia|]. by eapply worker_frame_goes_on.
Qed.
End Process.

(** ** What the worker sends *)

Definition is_answer (f : OutFrame) : Prop :=
  of_type f = FrameType.PONG ∨ of_type f = FrameType.RESULT.

Lemma emit_out sent t p corr w :
  ∃ l, wr_out (emit sent t p corr w).2 = wr_out w ++ l ∧ Forall (fun f => of_type f = t) l.
Proof.
  unfold emit. case_match; simpl; [exists []; by rewrite app_nil_r|].
  eexists. split; [done|]. by constructor.
Qed.

Lemma worker_frame_out sent clock synthetic hold fr w w' code :
  worker_frame sent clock synthetic hold fr w = (w', code) →
  (∃ l, wr_out w' = wr_out w ++ l ∧ Forall is_answer l) ∧ code ∈ [None; Some 0; Some 1].
Proof.
  unfold worker_frame. intros Hf.
  assert (Hsame : ∃ l, wr_out w = wr_out w ++ l ∧ Forall is_answer l) by (exists []; by rewrite app_nil_r).
  destruct (status fr); simplify_eq; try (split; [done|set_solver]).
  destruct (type (header fr)); simplify_eq; try (split; [done|set_solver]).
  - destruct (DispatchMsg.decode_dispatch _) as [[dm r]|]; simplify_eq; [|split; [done|set_solver]].
    destruct (worker_on_dispatch _ _ _ _) as [rm|]; simplify_eq; [|split; [done|set_solver]].
    unfold send_msg in Hf. destruct (emit _ _ _ _ _) as [ok w1] eqn:He.
    destruct (emit_out sent FrameType.RESULT (ResultMsg.encode_result rm) (wr_corr w)
      {| wr_corr := u64 (wr_corr w + 1); wr_out := wr_out w; wr_withheld := wr_withheld w |}) as (l & Hl & Ha).
    rewrite He in Hl. simplify_eq/=. split; [|destruct ok; set_solver].
    exists l. split; [done|]. eapply Forall_impl; [|exact Ha]. by right.
  - destruct (emit_out sent FrameType.PONG [] (correlation (header fr)) w) as (l & Hl & Ha).
    split; [|set_solver]. exists l. split; [done|]. eapply Forall_impl; [|exact Ha]. by left.
Qed.

(** The run a process ended or waits with. *)
Definition end_run (e : WorkerEnd) : option WorkerRun :=
  match e with Exited _ w | Awaiting w => Some w | _ => None end.
Definition end_code (e : WorkerEnd) : option Z :=
  match e with Exited code _ => Some code | _ => None end.

Lemma worker_serve_out sent clock fuel synthetic hold handle answers stream w :
  let e := worker_serve sent clock fuel synthetic hold handle answers stream w in
  (∀ w', end_run e = Some w' → ∃ l, wr_out w' = wr_out w ++ l ∧ Forall is_answer l) ∧
  (∀ code, end_code e = Some code → code = 0 ∨ code = 1).
Proof.
  revert answers stream w. induction fuel as [|fuel IH]; intros answers stream w; [done|].
  cbn [worker_serve]. destruct (recv_frame handle answers stream) as [[[fr st] left]|]; simpl.
  2: { split; [|done]. intros w' [= <-]. exists []. by rewrite app_nil_r. }
  destruct (worker_frame sent clock synthetic hold fr w) as [w1 [code|]] eqn:Hw;
    destruct (worker_frame_out _ _ _ _ _ _ _ _ Hw) as [(l & Hl & Ha) Hc].
  - split; [intros w' [= <-]; by exists l|]. intros c [= <-]. set_solver.
  - destruct (IH left st w1) as [Hr Hcode]. split; [|done].
    intros w' Hw'. destruct (Hr w' Hw') as (l' & Hl' & Ha'). exists (l ++ l').
    split; [by rewrite Hl', Hl, app_assoc|]. by apply Forall_app.
Qed.

(** The announcements as frames, correlated from [corr] on. *)
Fixpoint announced (corr : Z) (ps : list Payload) : list OutFrame :=
  match ps with
  | [] => []
  | p :: ps => {| of_type := payload_type p; of_payload := encode_payload p; of_corr := corr |}
               :: announced (u64 (corr + 1)) ps
  end.

Lemma announce_sends sent ps w w' :
  announce sent ps w = (true, w') → wr_out w' = wr_out w ++ announced (wr_corr w) ps.
Proof.
  revert w. induction ps as [|p ps IH]; intros w; simpl; [intros [= <-]; by rewrite app_nil_r|].
  unfold send_msg, emit. destruct (kMaxFramePayload <? _); [done|]. simpl.
  destruct (sent (length (wr_out w))); [|done]. intros Ha. apply IH in Ha. rewrite Ha. simpl. by rewrite <- app_assoc.
Qed.

(** ** Properties *)

(** Claim C19: the worker process ends or waits.  Whatever its command line, the
    bytes that reach it, the pieces and failures they arrive in and the frames
    that cannot be sent, the worker's receive loop never spins: every iteration
    takes a system call, so with more fuel than there are answers one of three
    things holds.  An exception left [main], and then some numeric option of the
    command line does not parse; or it has exited, with code 0 or 1; or it is
    blocked in [recv], and then it has sent its five announcements in order,
    correlated 1 to 5, followed by nothing but PONG and RESULT frames. *)
Theorem worker_process_ends sent clock fuel argv wid boot target connect answers stream :
  (length answers < fuel)%nat →
  match worker_main sent clock fuel argv wid boot target connect answers stream with
  | Spinning => False
  | Threw => worker_args (parse_args argv ∅) = None
  | Exited code _ => code = 0 ∨ code = 1
  | Awaiting w => ∃ wa rest, worker_args (parse_args argv ∅) = Some wa ∧
      wr_out w = announced 1 (worker_announce (config_of wa wid boot target)) ++ rest ∧
      Forall is_answer rest
  end.
Proof.
  intros Hf. unfold worker_main.
  destruct (worker_args (parse_args argv ∅)) as [wa|] eqn:Ha; [|done].
  destruct (connect (wa_host wa) (wa_port wa)) as [h|]; [|by right].
  destruct (announce _ _ _) as [[] w] eqn:Han; [|by right].
  apply announce_sends in Han. simpl in Han.
  pose proof (worker_serve_ends sent clock fuel (wa_synthetic wa) (wa_hold_result wa) h answers stream w Hf) as Hne.
  destruct (worker_serve_out sent clock fuel (wa_synthetic wa) (wa_hold_result wa) h answers stream w)
    as [Hr Hc].
  destruct (worker_serve _ _ _ _ _ _ _ _ _) as [|code w'|w'|] eqn:He; try done.
  - exfalso. revert He. clear. revert answers stream w.
    induction fuel as [|fuel IH]; intros answers stream w; [done|]. cbn [worker_serve].
    repeat case_match; try done. apply IH.
  - by apply Hc.
  - destruct (Hr w' eq_refl) as (l & Hl & Hfa). exists wa, l. by rewrite Hl, Han.
Qed.

Definition sample_connect (host : string) (port : Z) : option Z := Some 5.

Lemma worker_process_ends_witness :
  match worker_main (fun _ => true) (fun _ => 0) 5 ["--name"; "w"] 1 2 3 sample_connect
          [Arrived 9; RecvFailed WSAEINTR] [1; 2; 3] with
  | Awaiting w => ∃ rest, map of_type (wr_out w) =
      [FrameType.HELLO; FrameType.REGISTER_TARGET; FrameType.CAPABILITY;
       FrameType.DATA_EVIDENCE; FrameType.HEARTBEAT] ++ map of_type rest
  | _ => False
  end.
Proof.
  pose proof (worker_process_ends (fun _ => true) (fun _ => 0) 5 ["--name"; "w"] 1 2 3
    sample_connect [Arrived 9; RecvFailed WSAEINTR] [1; 2; 3] ltac:(simpl; lia)) as H.
  assert (Hw : match worker_main (fun _ => true) (fun _ => 0) 5 ["--name"; "w"] 1 2 3 sample_connect
    [Arrived 9; RecvFailed WSAEINTR] [1; 2; 3] with Awaiting _ => true | _ => false end = true)
    by (vm_compute; reflexivity).
  destruct (worker_main _ _ _ _ _ _ _ _ _ _) as [|code w|w|]; try discriminate Hw.
  destruct H as (wa & rest & Hwa & Ho & _). exists rest. rewrite Ho, map_app. reflexivity.
Defined.

(** ** Serving a stream of messages *)

(** The coordinator's messages as bytes, each with its correlation. *)
Definition stream_of (ps : list (Payload * Z)) : list Z :=
  concat ((fun pc => frame_bytes (payload_type pc.1) (encode_payload pc.1) pc.2) <$> ps).

(** What a worker that holds nothing back answers to a sequence of messages,
    from its [n]-th frame and correlation [corr] on; a SHUTDOWN ends it. *)
Fixpoint answers_to (clock : nat → Z) (synthetic : bool) (n : nat) (corr : Z) (ps : list (Payload * Z))
    : list OutFrame :=
  match ps with
  | [] => []
  | (P_PING, c) :: ps =>
      {| of_type := FrameType.PONG; of_payload := []; of_corr := c |}
      :: answers_to clock synthetic (S n) corr ps
  | (P_DISPATCH dm, _) :: ps =>
      {| of_type := FrameType.RESULT; of_corr := corr;
         of_payload := ResultMsg.encode_result
           (worker_result dm (worker_execute synthetic (clock n) dm)) |}
      :: answers_to clock synthetic (S n) (u64 (corr + 1)) ps
  | (P_SHUTDOWN _, _) :: _ => []
  | _ :: ps => answers_to clock synthetic n corr ps
  end.

(** A message that fits a frame, and its answer too. *)
Definition servable (synthetic : bool) (pc : Payload * Z) : Prop :=
  wf_payload pc.1 ∧ is_bytes (encode_payload pc.1) ∧
  Z.of_nat (length (encode_payload pc.1)) <= kMaxFramePayload ∧ in_u64 pc.2 ∧
  match pc.1 with
  | P_DISPATCH dm => ∀ ns, Z.of_nat (length (ResultMsg.encode_result
      (worker_result dm (worker_execute synthetic ns dm)))) <= kMaxFramePayload
  | _ => True
  end.

Lemma decode_dispatch_of fr dm r :
  decode_payload FrameType.DISPATCH {| data_ := payload fr; pos_ := 0 |} = Some (P_DISPATCH dm, r) →
  DispatchMsg.decode_dispatch {| data_ := payload fr; pos_ := 0 |} = Some (dm, r).
Proof.
  unfold decode_payload, decode_as, rbind. simpl.
  destruct (DispatchMsg.decode_dispatch _) as [[dm' r']|]; [|done].
  unfold rret. by intros [= -> ->].
Qed.

(** One delivered message: the frame it leaves, and what happens next. *)
Lemma worker_frame_serves sent clock synthetic fr w pc r :
  (∀ n, sent n = true) → servable synthetic pc →
  status fr = Ok_ → type (header fr) = payload_type pc.1 → correlation (header fr) = pc.2 →
  decode_payload (type (header fr)) {| data_ := payload fr; pos_ := 0 |} = Some (pc.1, r) →
  ∃ w', worker_frame sent clock synthetic false fr w =
      (w', match pc.1 with P_SHUTDOWN _ => Some 0 | _ => None end) ∧
    ∀ ps, wr_out w ++ answers_to clock synthetic (length (wr_out w)) (wr_corr w) (pc :: ps) =
      match pc.1 with
      | P_SHUTDOWN _ => wr_out w'
      | _ => wr_out w' ++ answers_to clock synthetic (length (wr_out w')) (wr_corr w') ps
      end.
Proof.
  intros Hsent (Hwf & Hb & Hl & Hc & Hfit) Hst Hty Hco Hd. unfold worker_frame. rewrite Hst, Hty.
  destruct pc as [p c]. simpl in *. rewrite Hty in Hd. destruct p; simpl in *;
    try (exists w; split; [done|intros ps; by rewrite ?app_nil_r]).
  - apply decode_dispatch_of in Hd. rewrite Hd. simpl.
    unfold send_msg, emit. rewrite (proj2 (Z.ltb_ge _ _) (Hfit _)). cbn [fst snd wr_out].
    rewrite Hsent. eexists. split; [done|]. intros ps. simpl.
    by rewrite length_app, <- app_assoc, Nat.add_1_r.
  - rewrite Hco. eexists. split; [done|]. intros ps. simpl.
    by rewrite length_app, <- app_assoc, Nat.add_1_r.
Qed.

Lemma serve_stream sent clock synthetic handle receives ps w fuel :
  (∀ n, sent n = true) → socket_valid handle = true → Forall (servable synthetic) ps →
  recv_fair (length (stream_of ps)) receives → (length receives < fuel)%nat →
  ∃ w', (worker_serve sent clock fuel synthetic false handle receives (stream_of ps) w = Awaiting w' ∨
         worker_serve sent clock fuel synthetic false handle receives (stream_of ps) w = Exited 0 w') ∧
    wr_out w' = wr_out w ++ answers_to clock synthetic (length (wr_out w)) (wr_corr w) ps.
Proof.
  intros Hsent Hs Hps. revert receives w fuel. induction Hps as [|pc ps Hpc Hps IH]; intros receives w fuel Hr Hf.
  - exists w. split; [|by rewrite app_nil_r]. destruct fuel as [|fuel]; [lia|]. cbn [worker_serve].
    destruct (recv_frame handle receives (stream_of [])) as [[[fr st] unread]|] eqn:Hrf; [|by left].
    right. unfold worker_frame. replace (status fr) with Disconnect; [done|].
    revert Hrf. unfold recv_frame, recv_all. rewrite Hs.
    destruct Hr as [Hr _]. clear -Hr. induction Hr as [|a receives [Ha| ->] Hr IHr]; [done| |].
    + destruct a as [k|]; [|done]. cbn [recv_loop kFrameHeaderBytes length].
      rewrite Nat.min_0_r. by intros [= <- <- <-].
    + exact IHr.
  - pose proof Hpc as (Hwf & Hb & Hl & Hc & _).
    assert (Hst : stream_of (pc :: ps) =
      frame_bytes (payload_type pc.1) (encode_payload pc.1) pc.2 ++ stream_of ps) by done.
    rewrite Hst, length_app, frame_bytes_length, <- Nat.add_assoc in Hr.
    destruct (frame_received handle pc.1 pc.2 receives (stream_of ps) (length (stream_of ps)))
      as (fr & unread & r & Hrecv & Hok & Hty & Hco & Hdec & _ & Hleft); [done..|].
    destruct (worker_frame_serves sent clock synthetic fr w pc r) as (w1 & Hw & Hout); [done..|].
    destruct fuel as [|fuel]; [lia|]. cbn [worker_serve]. rewrite Hst, Hrecv, Hw, Hout.
    pose proof (recv_frame_uses _ _ _ _ _ _ Hrecv Hok).
    destruct (IH unread w1 fuel Hleft ltac:(lia)) as (w' & He & Ho).
    destruct pc.1; first [exists w'; split; [exact He|exact Ho]
                        | exists w1; split; [right; reflexivity|reflexivity]].
Qed.

(** Claim C18: the worker answers what it is asked.  Over any cutting of the byte
    stream into pieces, with interruptions, a worker that holds nothing back and
    whose frames are taken receives every message of the coordinator, and has
    sent, when it comes to wait for more or to the end, exactly one PONG per PING
    with the PING's correlation and exactly one RESULT per DISPATCH, carrying the
    engine's result under the dispatch's authority, in the order asked, up to the
    first SHUTDOWN. *)
Theorem worker_serves_stream sent clock synthetic handle receives ps w fuel :
  (∀ n, sent n = true) → socket_valid handle = true → Forall (servable synthetic) ps →
  recv_fair (length (stream_of ps)) receives → (length receives < fuel)%nat →
  ∃ w', (worker_serve sent clock fuel synthetic false handle receives (stream_of ps) w = Awaiting w' ∨
         worker_serve sent clock fuel synthetic false handle receives (stream_of ps) w = Exited 0 w') ∧
    wr_out w' = wr_out w ++ answers_to clock synthetic (length (wr_out w)) (wr_corr w) ps.
Proof. apply serve_stream. Qed.

Definition sample_dispatch : DispatchMsg :=
  {| DispatchMsg.plan := 21; DispatchMsg.plan_gen := 1; DispatchMsg.dispatch := 31;
     DispatchMsg.attempt := 41; DispatchMsg.target := 16; DispatchMsg.target_gen := 1;
     DispatchMsg.worker_boot := 11; DispatchMsg.epoch := 1; DispatchMsg.dataset_gen := 1;
     DispatchMsg.region_gen := 1; DispatchMsg.operation_gen := 1;
     DispatchMsg.has_program := false; DispatchMsg.program_gen := 0;
     DispatchMsg.op_class := OperationClass.SUM; DispatchMsg.data_type := DataType.U8;
     DispatchMsg.retry_class := RetryClass.REPLAY_SAFE; DispatchMsg.idempotent := true;
     DispatchMsg.require_verification := true; DispatchMsg.payload := [200; 100] |}.
Definition sample_stream : list (Payload * Z) := [(P_PING, 9); (P_DISPATCH sample_dispatch, 0)].

Lemma sample_servable : servable true (P_DISPATCH sample_dispatch, 0).
Proof.
  unfold servable. cbn [fst snd]. split.
  { unfold wf_payload, wire_wf, DispatchMsg_wire, DispatchMsg.wf_dispatch, wire_enum, canonical, in_u64, in_u16.
    simpl. split_and!; first [done | lia | repeat constructor; lia | vm_compute; congruence]. }
  split; [apply (bool_decide_eq_true_1 _); vm_compute; reflexivity|].
  split; [vm_compute; congruence|]. split; [unfold in_u64; lia|].
  intros ns. vm_compute. congruence.
Qed.

Lemma worker_serves_stream_witness :
  ∃ w', (worker_serve (fun _ => true) (fun _ => 0) 500 true false 5 (replicate 400 (Arrived 3))
           (stream_of sample_stream) worker_fresh = Awaiting w' ∨
         worker_serve (fun _ => true) (fun _ => 0) 500 true false 5 (replicate 400 (Arrived 3))
           (stream_of sample_stream) worker_fresh = Exited 0 w') ∧
    map (fun f => (of_type f, of_corr f)) (wr_out w') =
      [(FrameType.PONG, 9); (FrameType.RESULT, 1)].
Proof.
  destruct (worker_serves_stream (fun _ => true) (fun _ => 0) true 5 (replicate 400 (Arrived 3))
    sample_stream worker_fresh 500) as (w' & He & Ho).
  - reflexivity.
  - reflexivity.
  - constructor; [|constructor; [|constructor]].
    + unfold servable. cbn [fst snd]. split; [exact I|]. split; [constructor|]. split; [vm_compute; congruence|]. split; [unfold in_u64; lia|exact I].
    + apply sample_servable.
  - split; [apply Forall_replicate; by left|vm_compute; lia].
  - rewrite length_replicate. lia.
  - exists w'. split; [exact He|]. rewrite Ho. vm_compute. reflexivity.
Defined.
