(* ===== verification/Wire.v ===== *)
(** * Several senders on one connection

    The coordinator's threads share a worker's [TcpSocket]: every client thread
    that dispatches to the worker calls [send_frame] on it, and so does the
    worker's own thread when it answers a PING, with no lock around the loop of
    [send_all].  Each system call is one step here; the calls of the threads
    interleave. *)

From S2P Require Import Prelude Enums Ids Checksum Codec Model Protocol Backend Worker Net WorkerProcess.

(** ** The shared connection *)

(** The bytes the connection has taken, and what each thread has left to send. *)
Record Wire := { taken : list Z; unsent : gmap Z (list Z) }.

Definition frame_of (m : Payload * Z) : list Z :=
  frame_bytes (payload_type m.1) (encode_payload m.1) m.2.
Definition wire_start (msgs : gmap Z (Payload * Z)) : Wire :=
  {| taken := []; unsent := frame_of <$> msgs |}.

(** One iteration of the loop of [send_all] on the thread [i]; [None]: the
    thread is not sending.  A failed call abandons the rest. *)
Definition send_call (i : Z) (a : SendAnswer) (w : Wire) : option Wire :=
  match unsent w !! i with
  | None | Some [] => None
  | Some data =>
      match a with
      | SendFailed e =>
          Some (if e =? WSAEINTR then w
                else {| taken := taken w; unsent := delete i (unsent w) |})
      | Accepted k =>
          let r := Nat.min k (chunk (length data)) in
          Some (if (r =? 0)%nat then {| taken := taken w; unsent := delete i (unsent w) |}
                else {| taken := taken w ++ take r data; unsent := <[i := drop r data]> (unsent w) |})
      end
  end.
Fixpoint send_calls (calls : list (Z * SendAnswer)) (w : Wire) : option Wire :=
  match calls with
  | [] => Some w
  | (i, a) :: calls => let? w := send_call i a w otherwise None in send_calls calls w
  end.

(** ** One sender *)

(** A thread that nobody interrupts runs the loop of [send_all]. *)
Lemma sole_sender i answers data out out' w :
  unsent w !! i = Some data → taken w = out →
  send_loop answers data out = Some (Ok tt, out') →
  ∃ k w', send_calls ((i,.) <$> take k answers) w = Some w' ∧
    taken w' = out' ∧ unsent w' !! i = Some [].
Proof.
  revert data out w. induction answers as [|a answers IH]; intros data out w Hu Ht Hs.
  { destruct data as [|b data]; [|done]. simpl in Hs. simplify_eq. by exists 0%nat, w. }
  destruct data as [|b data]; [simpl in Hs; simplify_eq; by exists 0%nat, w|].
  destruct a as [k|e]; cbn [send_loop] in Hs.
  - destruct (Nat.min k (chunk (length (b :: data))) =? 0)%nat eqn:Hr; [done|].
    set (r := Nat.min k (chunk (length (b :: data)))) in *.
    destruct (IH _ _ {| taken := taken w ++ take r (b :: data);
      unsent := <[i := drop r (b :: data)]> (unsent w) |} (lookup_insert_eq _ _ _) eq_refl) as (j & w' & Hc & H').
    { by rewrite Ht. }
    exists (S j), w'. split; [|done]. cbn [take fmap list_fmap send_calls]. unfold send_call.
    rewrite Hu. fold r. by rewrite Hr.
  - destruct (e =? WSAEINTR) eqn:He; [|done].
    destruct (IH _ _ w Hu Ht Hs) as (j & w' & Hc & H'). exists (S j), w'. split; [|done].
    cbn [take fmap list_fmap send_calls]. unfold send_call. by rewrite Hu, He.
Qed.

(** ** Calls that take what they are offered *)

(** The call takes as much as the longest frame, or is interrupted. *)
Definition whole (msgs : gmap Z (Payload * Z)) (c : Z * SendAnswer) : Prop :=
  match c.2 with
  | Accepted k => map_Forall (fun _ m => (length (frame_of m) ≤ k)%nat) msgs
  | SendFailed e => e = WSAEINTR
  end.

Section Whole.
Context (msgs : gmap Z (Payload * Z)).
Hypothesis msgs_fit :
  map_Forall (fun _ m => Z.of_nat (length (encode_payload m.1)) <= kMaxFramePayload) msgs.

(** The threads in [sent] are done, in that order; the others have not begun. *)
Record in_order (sent : list (Z * (Payload * Z))) (w : Wire) : Prop := {
  io_once : NoDup sent.*1;
  io_from : Forall (fun e => msgs !! e.1 = Some e.2) sent;
  io_taken : taken w = stream_of sent.*2;
  io_unsent i : unsent w !! i =
    if bool_decide (i ∈ sent.*1) then Some [] else frame_of <$> msgs !! i
}.

Lemma frame_of_length m : length (frame_of m) = (kFrameHeaderBytes + length (encode_payload m.1))%nat.
Proof. apply frame_bytes_length. Qed.

Lemma stream_snoc ps m : stream_of (ps ++ [m]) = stream_of ps ++ frame_of m.
Proof. unfold stream_of. rewrite fmap_app, concat_app. simpl. by rewrite app_nil_r. Qed.

Lemma send_call_whole sent c w w' :
  in_order sent w → whole msgs c → send_call c.1 c.2 w = Some w' → ∃ sent', in_order sent' w'.
Proof.
  destruct c as [i a]. intros [Ho Hf Ht Hu] Hw Hc. simpl in Hc. unfold send_call in Hc.
  pose proof (Hu i) as Hi. case_bool_decide as Hin; [by rewrite Hi in Hc|].
  destruct (msgs !! i) as [m|] eqn:Hm; [|by rewrite Hi in Hc]. simpl in Hi. rewrite Hi in Hc.
  pose proof (frame_of_length m) as Hlen. pose proof (msgs_fit i m Hm) as Hfit. simpl in Hfit.
  destruct (frame_of m) as [|b data] eqn:Hfr; [done|].
  destruct a as [k|e]; unfold whole in Hw; cbn [snd] in Hw.
  - assert (Hr : Nat.min k (chunk (length (b :: data))) = length (b :: data)).
    { clear Hc. specialize (Hw i m Hm). simpl in Hw. rewrite Hfr in Hw.
      rewrite Hlen in *. unfold chunk, INT_MAX, kMaxFramePayload in *.
      rewrite (proj2 (Z.ltb_ge _ _)); unfold kFrameHeaderBytes in *; lia. }
    rewrite Hr, take_ge, drop_ge in Hc by lia. simpl in Hc. simplify_eq.
    exists (sent ++ [(i, m)]). split; simpl.
    + rewrite fmap_app. apply list.NoDup_app. split_and!; [done| |apply NoDup_singleton].
      intros x Hx ->%list_elem_of_singleton. done.
    + apply Forall_app. by split; [|constructor].
    + rewrite fmap_app. cbn [fmap list_fmap snd]. by rewrite stream_snoc, Ht, Hfr.
    + intros j. rewrite fmap_app. destruct (decide (i = j)) as [<-|Hne].
      * rewrite lookup_insert_eq, bool_decide_eq_true_2; [done|]. apply elem_of_app. right. by left.
      * rewrite lookup_insert_ne, Hu by done.
        assert (Hj : j ∈ sent.*1 ↔ j ∈ sent.*1 ++ [i])
          by (rewrite elem_of_app, list_elem_of_singleton; naive_solver).
        by rewrite (bool_decide_ext _ _ Hj).
  - subst e. simpl in Hc. simplify_eq. by exists sent.
Qed.

Lemma wire_start_in_order : in_order [] (wire_start msgs).
Proof. split; simpl; [constructor|constructor|done|]. intros i. by rewrite lookup_fmap. Qed.

Lemma send_calls_whole calls sent w w' :
  in_order sent w → Forall (whole msgs) calls → send_calls calls w = Some w' → ∃ sent', in_order sent' w'.
Proof.
  intros Ho Hc. revert sent w Ho. induction Hc as [|[i a] calls Hw _ IH]; intros sent w Ho Hrun.
  { simpl in Hrun. simplify_eq. by exists sent. }
  cbn [send_calls] in Hrun. destruct (send_call i a w) as [w1|] eqn:H1; [|done].
  destruct (send_call_whole _ (i, a) _ _ Ho Hw H1) as (sent1 & Ho1). by eapply IH.
Qed.

(** When every thread is done, each message has been sent once. *)
Lemma in_order_all sent w :
  in_order sent w → map_Forall (fun _ data => data = []) (unsent w) → sent ≡ₚ map_to_list msgs.
Proof.
  intros [Ho Hf _ Hu] Hd. apply NoDup_Permutation.
  - by eapply NoDup_fmap_1.
  - apply NoDup_map_to_list.
  - intros [i m]. rewrite elem_of_map_to_list. split.
    + intros Hin. rewrite Forall_forall in Hf. by apply (Hf _ (proj1 (list_elem_of_In _ _) Hin)).
    + intros Hm. pose proof (Hu i) as Hi. rewrite Hm in Hi. case_bool_decide as Hin.
      * apply list_elem_of_fmap in Hin as ([j m'] & -> & Hin). simpl in Hm.
        rewrite Forall_forall in Hf. pose proof (Hf _ (proj1 (list_elem_of_In _ _) Hin)) as Hm'.
        simpl in Hm'. by simplify_eq.
      * simpl in Hi. apply Hd, (f_equal length) in Hi. by rewrite frame_of_length in Hi.
Qed.
End Whole.

(** ** Properties *)

(** Claim C31: frames sent at once arrive whole.  However the calls of any number
    of threads on one connection interleave, interrupted or not, if each call
    takes what it is offered and each message, and the RESULT of each DISPATCH,
    fits a frame then, once the threads are done, the connection has taken the
    frames one after the other, each message once.  A worker that does not hold
    its results back, whose own sends are all taken and that receives those
    bytes, in any pieces and without a failed call, sends in that order a PONG
    for every PING and a RESULT for every DISPATCH before the first SHUTDOWN, and
    nothing else; the other messages get no answer.  It then waits for more or
    has exited with code 0. *)
Theorem concurrent_frames_arrive_whole msgs calls w synthetic :
  map_Forall (fun _ => servable synthetic) msgs → Forall (whole msgs) calls →
  send_calls calls (wire_start msgs) = Some w →
  map_Forall (fun _ data => data = []) (unsent w) →
  ∃ ps, ps ≡ₚ (map_to_list msgs).*2 ∧ taken w = stream_of ps ∧
    ∀ sent clock handle receives ws fuel,
      (∀ n, sent n = true) → socket_valid handle = true →
      recv_fair (length (taken w)) receives → (length receives < fuel)%nat →
      ∃ ws', (worker_serve sent clock fuel synthetic false handle receives (taken w) ws = Awaiting ws' ∨
              worker_serve sent clock fuel synthetic false handle receives (taken w) ws = Exited 0 ws') ∧
        wr_out ws' = wr_out ws ++ answers_to clock synthetic (length (wr_out ws)) (wr_corr ws) ps.
Proof.
  intros Hm Hc Hrun Hd.
  assert (Hfit : map_Forall (fun _ m => Z.of_nat (length (encode_payload m.1)) <= kMaxFramePayload) msgs)
    by (intros i m Hi; apply (Hm i m Hi)).
  destruct (send_calls_whole msgs Hfit calls [] (wire_start msgs) w (wire_start_in_order msgs) Hc Hrun)
    as (sent & Ho).
  pose proof (in_order_all msgs sent w Ho Hd) as Hp. exists sent.*2.
  rewrite (io_taken _ _ _ Ho). split_and!; [by rewrite Hp|done|].
  intros. apply serve_stream; try done. apply Forall_fmap, Forall_forall.
  intros [i m] Hin. apply (Hm i). apply elem_of_map_to_list. rewrite <- Hp. by apply list_elem_of_In.
Qed.

(** A client's dispatch and the answer to a PING share a worker's connection. *)
Definition shared : gmap Z (Payload * Z) :=
  <[2 := (P_DISPATCH sample_dispatch, 0)]> {[1 := (P_PONG, 9)]}.
Definition at_once : list (Z * SendAnswer) :=
  [(2, SendFailed WSAEINTR); (1, Accepted 1000); (2, Accepted 1000)].
(** The first call takes ten bytes only. *)
Definition cut_short : list (Z * SendAnswer) :=
  [(2, Accepted 10); (1, Accepted 1000); (2, Accepted 1000)].
Definition wire_after (calls : list (Z * SendAnswer)) : Wire :=
  default (wire_start ∅) (send_calls calls (wire_start shared)).

Lemma concurrent_frames_arrive_whole_witness :
  ∃ ps, ps ≡ₚ (map_to_list shared).*2 ∧ taken (wire_after at_once) = stream_of ps.
Proof.
  destruct (concurrent_frames_arrive_whole shared at_once (wire_after at_once) true)
    as (ps & Hp & Ht & _).
  - apply map_Forall_insert_2; [|apply map_Forall_singleton].
    + apply sample_servable.
    + unfold servable. cbn [fst snd]. split; [exact I|]. split; [constructor|]. split; [vm_compute; congruence|]. split; [unfold in_u64; lia|exact I].
  - constructor; [reflexivity|]. constructor; [|constructor; [|constructor]];
      unfold whole; cbn [snd]; apply (bool_decide_eq_true_1 _); vm_compute; reflexivity.
  - vm_compute. reflexivity.
  - apply (bool_decide_eq_true_1 _). vm_compute. reflexivity.
  - exists ps. split; [exact Hp|exact Ht].
Defined.

(** A call that takes part of a frame lets another frame in between: both
    [send_frame]s succeed, and the worker, which finds no frame there, leaves
    its loop without having seen the dispatch. *)
Lemma short_send_breaks_frames :
  unsent (wire_after cut_short) = (fun _ => []) <$> shared ∧
  worker_serve (fun _ => true) (fun _ => 0) 500 true false 5 (replicate 400 (Arrived 3))
    (taken (wire_after cut_short)) worker_fresh = Exited 0 worker_fresh.
Proof. split; vm_compute; reflexivity. Qed.
