(* ===== verification/Node.v ===== *)
(** * The coordinator process ([nmc_coordinator.cpp])

    One thread per connection around the shared [Coordinator] and the [Node]
    that routes completions back to waiting clients.  A thread is its program
    counter; every transition is one critical section (under the coordinator's
    lock or the node's lock), one socket call or one wait, so that executions
    are the interleavings the locks allow.  A save copies the state under the
    coordinator's lock and then works on the file with no lock held, one call at
    a time, so saves of two threads can overlap.  A dispatch registers a promise
    in [pending]; [futures] holds the promises that have been set (a promise
    taken out of [pending] is set by the same thread, and nothing but the waiting
    client can tell the two apart, so they are one step). *)

From S2P Require Import Prelude Enums Ids Model Codec Protocol State Coordinator.
From S2P Require Import Behaviour Machine Worker Safety Persistence StateCodec Recovery.

(** ** State *)

(** Where a connection's thread is. *)
Inductive Pc :=
| Serving                                                        (* in [recv_frame] *)
| Joining                                                        (* HELLO: session bound *)
| Saving (d : DispatchId) (reply : ClientReplyMsg)               (* RESULT: committed *)
| Storing (d : DispatchId) (reply : ClientReplyMsg) (copy : RuntimeState)  (* [save]: copied *)
| Writing (d : DispatchId) (reply : ClientReplyMsg) (bytes : list Z)       (* temporary open *)
| Replacing (d : DispatchId) (reply : ClientReplyMsg)            (* temporary written, closed *)
| Discarding (d : DispatchId) (reply : ClientReplyMsg)           (* save failed *)
| Resolving (d : DispatchId) (reply : ClientReplyMsg)            (* RESULT: applied *)
| Fetching (k : ExecutionPlanId) (corr : Z)                      (* GET_RESULT: there is one *)
| Reserving (k : ExecutionPlanId) (d : DispatchId) (a : AttemptId) (corr : Z)
| Preparing (k : ExecutionPlanId) (d : DispatchId) (a : AttemptId) (corr : Z)
| Looking (k : ExecutionPlanId) (d : DispatchId) (dm : DispatchMsg) (corr : Z)
| Confirming (k : ExecutionPlanId) (d : DispatchId) (dm : DispatchMsg) (sock : Z) (corr : Z)
| Registering (k : ExecutionPlanId) (d : DispatchId) (dm : DispatchMsg) (sock : Z) (corr : Z)
| Sending (k : ExecutionPlanId) (d : DispatchId) (dm : DispatchMsg) (sock : Z) (corr : Z)
| Unsent (k : ExecutionPlanId) (d : DispatchId) (corr : Z)       (* send failed *)
| Retracting (k : ExecutionPlanId) (d : DispatchId) (corr : Z)   (* promise set, plan not cancelled *)
| Waiting (k : ExecutionPlanId) (d : DispatchId) (corr : Z)      (* in [fut.get()] *)
| Cancelling (k : ExecutionPlanId) (reply : ClientReplyMsg) (corr : Z)
| Leaving | Departing | Closing | Closed.                        (* after the frame loop *)

Record Thread := { t_boot : WorkerBootId; t_worker : bool; t_pc : Pc }.
Definition at_pc (pc : Pc) (th : Thread) : Thread :=
  {| t_boot := t_boot th; t_worker := t_worker th; t_pc := pc |}.

(** [Node], with the set promises, the connections, the file system and the
    replies sent so far; a worker's socket is named by its connection. *)
Record Node := {
  coord : RuntimeState; sockets : gmap WorkerBootId Z; pending : gmap DispatchId WorkerBootId;
  futures : gmap DispatchId ClientReplyMsg; persist : string; disk : gmap string (list Z);
  running : bool; exited : bool; threads : gmap Z Thread;
  replies : list (Z * Z * ClientReplyMsg)
}.

Definition set_coord (c : RuntimeState) (n : Node) : Node :=
  {| coord := c; sockets := sockets n; pending := pending n; futures := futures n;
     persist := persist n; disk := disk n; running := running n; exited := exited n;
     threads := threads n; replies := replies n |}.
Definition set_routes (ss : gmap WorkerBootId Z) (pd : gmap DispatchId WorkerBootId)
    (fu : gmap DispatchId ClientReplyMsg) (n : Node) : Node :=
  {| coord := coord n; sockets := ss; pending := pd; futures := fu;
     persist := persist n; disk := disk n; running := running n; exited := exited n;
     threads := threads n; replies := replies n |}.
Definition set_disk (fs : gmap string (list Z)) (n : Node) : Node :=
  {| coord := coord n; sockets := sockets n; pending := pending n; futures := futures n;
     persist := persist n; disk := fs; running := running n; exited := exited n;
     threads := threads n; replies := replies n |}.
Definition set_flags (run ex : bool) (n : Node) : Node :=
  {| coord := coord n; sockets := sockets n; pending := pending n; futures := futures n;
     persist := persist n; disk := disk n; running := run; exited := ex;
     threads := threads n; replies := replies n |}.
Definition set_thread (tid : Z) (th : Thread) (n : Node) : Node :=
  {| coord := coord n; sockets := sockets n; pending := pending n; futures := futures n;
     persist := persist n; disk := disk n; running := running n; exited := exited n;
     threads := <[tid := th]> (threads n); replies := replies n |}.

(** [reply_client]. *)
Definition reply_client (tid corr : Z) (reply : ClientReplyMsg) (n : Node) : Node :=
  {| coord := coord n; sockets := sockets n; pending := pending n; futures := futures n;
     persist := persist n; disk := disk n; running := running n; exited := exited n;
     threads := threads n; replies := replies n ++ [(tid, corr, reply)] |}.

(** [Node::resolve_dispatch]. *)
Definition resolve_dispatch (d : DispatchId) (reply : ClientReplyMsg) (n : Node) : Node :=
  match pending n !! d with
  | None => n
  | Some _ => set_routes (sockets n) (delete d (pending n)) (<[d := reply]> (futures n)) n
  end.

(** [Node::resolve_disconnect]. *)
Definition disconnect_reply : ClientReplyMsg :=
  {| ClientReplyMsg.ok := false; ClientReplyMsg.plan := 0;
     ClientReplyMsg.decision := Decision.REJECT; ClientReplyMsg.created := false;
     ClientReplyMsg.committed := false; ClientReplyMsg.ambiguous := true;
     ClientReplyMsg.verification := VerifyState.UNVERIFIED; ClientReplyMsg.output_bytes := 0;
     ClientReplyMsg.output_digest := "";
     ClientReplyMsg.note := "worker disconnected; outcome unknown" |}.
Definition resolve_disconnect (boot : WorkerBootId) (n : Node) : Node :=
  let gone := filter (fun e => e.2 = boot) (pending n) in
  set_routes (delete boot (sockets n)) (filter (fun e => e.2 ≠ boot) (pending n))
    (((fun _ => disconnect_reply) <$> gone) ∪ futures n) n.

(** ** Replies *)

(** [reply.plan = k; reply.note = note]. *)
Definition note_reply (k : ExecutionPlanId) (note : string) : ClientReplyMsg :=
  {| ClientReplyMsg.ok := false; ClientReplyMsg.plan := k;
     ClientReplyMsg.decision := Decision.REJECT; ClientReplyMsg.created := false;
     ClientReplyMsg.committed := false; ClientReplyMsg.ambiguous := false;
     ClientReplyMsg.verification := VerifyState.UNVERIFIED; ClientReplyMsg.output_bytes := 0;
     ClientReplyMsg.output_digest := ""; ClientReplyMsg.note := note |}.
Definition send_failed_reply (k : ExecutionPlanId) : ClientReplyMsg :=
  {| ClientReplyMsg.ok := false; ClientReplyMsg.plan := k;
     ClientReplyMsg.decision := Decision.REJECT; ClientReplyMsg.created := false;
     ClientReplyMsg.committed := false; ClientReplyMsg.ambiguous := true;
     ClientReplyMsg.verification := VerifyState.UNVERIFIED; ClientReplyMsg.output_bytes := 0;
     ClientReplyMsg.output_digest := ""; ClientReplyMsg.note := "send dispatch failed" |}.
Definition ok_reply (ok : bool) : ClientReplyMsg :=
  {| ClientReplyMsg.ok := ok; ClientReplyMsg.plan := 0;
     ClientReplyMsg.decision := Decision.REJECT; ClientReplyMsg.created := false;
     ClientReplyMsg.committed := false; ClientReplyMsg.ambiguous := false;
     ClientReplyMsg.verification := VerifyState.UNVERIFIED; ClientReplyMsg.output_bytes := 0;
     ClientReplyMsg.output_digest := ""; ClientReplyMsg.note := "" |}.

(** The fields of a stored result, for the plan [k]. *)
Definition result_reply (k : ExecutionPlanId) (res : ExecutionResult) : ClientReplyMsg :=
  {| ClientReplyMsg.ok := true; ClientReplyMsg.plan := k;
     ClientReplyMsg.decision := Decision.REJECT; ClientReplyMsg.created := false;
     ClientReplyMsg.committed := ExecutionResult.committed res;
     ClientReplyMsg.ambiguous := ExecutionResult.ambiguous res;
     ClientReplyMsg.verification := ExecutionResult.verification res;
     ClientReplyMsg.output_bytes := ExecutionResult.output_bytes res;
     ClientReplyMsg.output_digest := ExecutionResult.output_digest res;
     ClientReplyMsg.note := ExecutionResult.note res |}.

Definition plan_reply (r : Result PlanOutput) : ClientReplyMsg :=
  match r with
  | Ok out =>
      {| ClientReplyMsg.ok := true;
         ClientReplyMsg.plan :=
           if PlanOutput.created out then ExecutionPlan.id (PlanOutput.plan out) else 0;
         ClientReplyMsg.decision := PlanOutput.decision out;
         ClientReplyMsg.created := PlanOutput.created out;
         ClientReplyMsg.committed := false; ClientReplyMsg.ambiguous := false;
         ClientReplyMsg.verification := VerifyState.UNVERIFIED; ClientReplyMsg.output_bytes := 0;
         ClientReplyMsg.output_digest := "";
         ClientReplyMsg.note := List.last (PlanOutput.explanation out) "" |}
  | Err e => note_reply 0 (message e)
  end.

(** ** The frame loop *)

Definition decoded (t : FrameType) (bytes : list Z) : option Payload :=
  fst <$> decode_payload t {| data_ := bytes; pos_ := 0 |}.

Definition with_owner (boot : WorkerBootId) (m : RegisterTargetMsg) : RegisterTargetMsg :=
  {| RegisterTargetMsg.target := RegisterTargetMsg.target m;
     RegisterTargetMsg.generation := RegisterTargetMsg.generation m;
     RegisterTargetMsg.provider := RegisterTargetMsg.provider m;
     RegisterTargetMsg.kind := RegisterTargetMsg.kind m;
     RegisterTargetMsg.synthetic := RegisterTargetMsg.synthetic m;
     RegisterTargetMsg.name := RegisterTargetMsg.name m;
     RegisterTargetMsg.ops := RegisterTargetMsg.ops m;
     RegisterTargetMsg.data_types := RegisterTargetMsg.data_types m;
     RegisterTargetMsg.layouts := RegisterTargetMsg.layouts m;
     RegisterTargetMsg.max_input_bytes := RegisterTargetMsg.max_input_bytes m;
     RegisterTargetMsg.alignment := RegisterTargetMsg.alignment m;
     RegisterTargetMsg.concurrency := RegisterTargetMsg.concurrency m;
     RegisterTargetMsg.workspace := RegisterTargetMsg.workspace m;
     RegisterTargetMsg.owner_boot := boot |}.
(** [if (publisher.is_null()) publisher = boot]. *)
Definition publisher_or (boot publisher : WorkerBootId) : WorkerBootId :=
  if is_null publisher then boot else publisher.
Definition capability_from (boot : WorkerBootId) (m : CapabilityMsg) : CapabilityMsg :=
  {| CapabilityMsg.target := CapabilityMsg.target m;
     CapabilityMsg.generation := CapabilityMsg.generation m;
     CapabilityMsg.entries := CapabilityMsg.entries m;
     CapabilityMsg.evidence_generation := CapabilityMsg.evidence_generation m;
     CapabilityMsg.publisher := publisher_or boot (CapabilityMsg.publisher m) |}.
Definition evidence_from (boot : WorkerBootId) (m : DataEvidenceMsg) : DataEvidenceMsg :=
  {| DataEvidenceMsg.region := DataEvidenceMsg.region m;
     DataEvidenceMsg.region_generation := DataEvidenceMsg.region_generation m;
     DataEvidenceMsg.dataset := DataEvidenceMsg.dataset m;
     DataEvidenceMsg.dataset_generation := DataEvidenceMsg.dataset_generation m;
     DataEvidenceMsg.memory_domain := DataEvidenceMsg.memory_domain m;
     DataEvidenceMsg.memory_domain_generation := DataEvidenceMsg.memory_domain_generation m;
     DataEvidenceMsg.present := DataEvidenceMsg.present m;
     DataEvidenceMsg.current := DataEvidenceMsg.current m;
     DataEvidenceMsg.reachable := DataEvidenceMsg.reachable m;
     DataEvidenceMsg.publisher := publisher_or boot (DataEvidenceMsg.publisher m) |}.

(** The RESULT case: the completion is applied, then saved when it committed
    and a file was given, then the waiting client is resolved. *)
Definition on_result (fresh : ResultId) (tid : Z) (th : Thread) (m : ResultMsg) (n : Node) : Node :=
  let (res, c) := apply_result fresh m (coord n) in
  let n := set_coord c n in
  match res with
  | Ok r =>
      let reply := result_reply (ResultMsg.plan m) r in
      let save := ExecutionResult.committed r && negb (String.eqb (persist n) "") in
      set_thread tid (at_pc (if save then Saving (ResultMsg.dispatch m) reply
                             else Resolving (ResultMsg.dispatch m) reply) th) n
  | Err e =>
      set_thread tid (at_pc (Resolving (ResultMsg.dispatch m)
                               (note_reply (ResultMsg.plan m) (message e))) th) n
  end.

(** The switch on the frame type, up to the first blocking point; PING is
    answered on the socket and changes nothing here. *)
Definition on_frame (draw : nat → Z) (tid : Z) (th : Thread) (t : FrameType) (corr : Z)
    (bytes : list Z) (n : Node) : Node :=
  let c := coord n in
  match t, decoded t bytes with
  | FrameType.HELLO, Some (P_HELLO m) =>
      let boot := HelloMsg.worker_boot m in
      let n := set_coord (bind_worker_session (HelloMsg.worker m) boot (HelloMsg.name m) c).2 n in
      set_thread tid {| t_boot := boot; t_worker := true; t_pc := Joining |} n
  | FrameType.REGISTER_TARGET, Some (P_REGISTER_TARGET m) =>
      set_coord (apply_register_target (with_owner (t_boot th) m) c).2 n
  | FrameType.CAPABILITY, Some (P_CAPABILITY m) =>
      set_coord (apply_capability draw (capability_from (t_boot th) m) c).2 n
  | FrameType.DATA_EVIDENCE, Some (P_DATA_EVIDENCE m) =>
      set_coord (apply_data_evidence (evidence_from (t_boot th) m) c).2 n
  | FrameType.HEARTBEAT, Some (P_HEARTBEAT m) => set_coord (apply_heartbeat m c).2 n
  | FrameType.RESULT, Some (P_RESULT m) => on_result (draw 0%nat) tid th m n
  | FrameType.CLIENT_REGISTER_OPERATION, Some (P_CLIENT_REGISTER_OPERATION m) =>
      let (r, c) := create_operation (ClientRegisterOperationMsg.op m) c in
      reply_client tid corr (ok_reply (has_value r)) (set_coord c n)
  | FrameType.CLIENT_REGISTER_OPERATION, _ => reply_client tid corr (ok_reply false) n
  | FrameType.CLIENT_PLAN, Some (P_CLIENT_PLAN m) =>
      let (r, c) := plan_locked (draw 0%nat) (ClientPlanMsg.op m) c in
      reply_client tid corr (plan_reply r) (set_coord c n)
  | FrameType.CLIENT_PLAN, _ => reply_client tid corr (ok_reply false) n
  | FrameType.CLIENT_DISPATCH, Some (P_CLIENT_DISPATCH m) =>
      set_thread tid (at_pc (Reserving (ClientDispatchMsg.plan m) (draw 0%nat) (draw 1%nat) corr) th) n
  | FrameType.CLIENT_DISPATCH, _ => reply_client tid corr (note_reply 0 "bad dispatch request") n
  | FrameType.CLIENT_GET_RESULT, Some (P_CLIENT_GET_RESULT m) =>
      let k := ClientGetResultMsg.plan m in
      if has_result k c then set_thread tid (at_pc (Fetching k corr) th) n
      else reply_client tid corr (note_reply 0 "no result") n
  | FrameType.CLIENT_GET_RESULT, _ => reply_client tid corr (ok_reply false) n
  | FrameType.SHUTDOWN, _ => set_flags false (exited n) n
  | _, _ => n
  end.

(** ** The rest of a handler, one critical section at a time *)

Definition socket_open (sock : Z) (n : Node) : bool :=
  match threads n !! sock with
  | Some th => match t_pc th with Closed => false | _ => true end
  | None => false
  end.

(** A file open without sharing cannot be created again, moved or deleted. *)
Definition writing (th : Thread) : bool :=
  match t_pc th with Writing _ _ _ => true | _ => false end.
Definition temp_open (n : Node) : bool :=
  existsb (fun e => writing e.2) (map_to_list (threads n)).
Definition sharing (n : Node) (os : OsAnswers) : OsAnswers :=
  let free := negb (temp_open n) in
  {| os_create := os_create os && free; os_write := os_write os; os_flush := os_flush os;
     os_delete := os_delete os && free; os_move := os_move os && free |}.

(** [os] answers the calls of a save, [sent] whether the connection takes the
    frame; [None]: the thread waits. *)
Definition resume (os : OsAnswers) (sent : bool) (tid : Z) (th : Thread) (n : Node) : option Node :=
  let goto pc n := Some (set_thread tid (at_pc pc th) n) in
  let answer corr reply n := Some (set_thread tid (at_pc Serving th) (reply_client tid corr reply n)) in
  let c := coord n in
  let tmp := temp_of (persist n) in
  match t_pc th with
  | Serving | Closed => None
  | Joining => goto Serving (set_routes (<[t_boot th := tid]> (sockets n)) (pending n) (futures n) n)
  | Saving d reply => goto (Storing d reply c) n
  | Storing d reply copy =>
      let? payload := encode_state copy otherwise (Some (set_flags (running n) true n)) in
      match build_envelope payload with
      | Err _ => goto (Resolving d reply) n
      | Ok bytes =>
          let? fs := create_temp (sharing n os) tmp (disk n) otherwise (goto (Resolving d reply) n) in
          goto (Writing d reply bytes) (set_disk fs n)
      end
  | Writing d reply bytes =>
      let (ok, fs) := write_temp os bytes tmp (disk n) in
      goto (if ok then Replacing d reply else Discarding d reply) (set_disk fs n)
  | Replacing d reply =>
      let? fs := replace_file (sharing n os) tmp (persist n) (disk n)
        otherwise (goto (Discarding d reply) n) in
      goto (Resolving d reply) (set_disk fs n)
  | Discarding d reply =>
      goto (Resolving d reply) (set_disk (delete_file (sharing n os) tmp (disk n)) n)
  | Resolving d reply => goto Serving (resolve_dispatch d reply n)
  | Fetching k corr =>
      let res := result_of k c in answer corr (result_reply (ExecutionResult.plan res) res) n
  | Reserving k d a corr =>
      let (r, c) := reserve k c in
      if has_value r then goto (Preparing k d a corr) (set_coord c n)
      else answer corr (note_reply k "reserve failed") (set_coord c n)
  | Preparing k d a corr =>
      let (r, c) := prepare_dispatch k d a c in
      match r with
      | Ok out => goto (Looking k d (DispatchOutput.message out) corr) (set_coord c n)
      | Err _ => answer corr (note_reply k "dispatch not reserved / stale") (set_coord c n)
      end
  | Looking k d dm corr =>
      match sockets n !! DispatchMsg.worker_boot dm with
      | None => goto (Cancelling k (note_reply k "no worker connected") corr) n
      | Some sock => goto (Confirming k d dm sock corr) n
      end
  | Confirming k d dm sock corr =>
      let (r, c) := confirm_dispatched k d c in
      if has_value r then goto (Registering k d dm sock corr) (set_coord c n)
      else goto (Cancelling k (note_reply k "confirm dispatched failed") corr) (set_coord c n)
  | Registering k d dm sock corr =>
      goto (Sending k d dm sock corr)
        (set_routes (sockets n) (<[d := DispatchMsg.worker_boot dm]> (pending n)) (futures n) n)
  | Sending k d dm sock corr =>
      if sent && socket_open sock n then goto (Waiting k d corr) n else goto (Unsent k d corr) n
  | Unsent k d corr => goto (Retracting k d corr) (resolve_dispatch d (send_failed_reply k) n)
  | Retracting k d corr => goto (Waiting k d corr) (set_coord (cancel_plan k c).2 n)
  | Waiting k d corr => let? reply := futures n !! d otherwise None in answer corr reply n
  | Cancelling k reply corr => answer corr reply (set_coord (cancel_plan k c).2 n)
  | Leaving => goto Departing (set_coord (on_worker_disconnected (t_boot th) c).2 n)
  | Departing => goto Closing (resolve_disconnect (t_boot th) n)
  | Closing => goto Closed n
  end.

(** ** Events *)

Inductive Event :=
| Connect (tid : Z)
| Frame (tid : Z) (t : FrameType) (corr : Z) (bytes : list Z) (draw : nat → Z)
| Hangup (tid : Z)
| Resume (tid : Z) (os : OsAnswers) (sent : bool).

(** The thread is in its frame loop. *)
Definition serving (tid : Z) (n : Node) : option Thread :=
  let? th := threads n !! tid otherwise None in
  match t_pc th with Serving => Some th | _ => None end.

(** [None]: the event cannot happen.  The accept loop tests [running] only
    between two connections; leaving it ends the process. *)
Definition act (e : Event) (n : Node) : option Node :=
  if exited n then None else
  match e with
  | Connect tid =>
      match threads n !! tid with
      | Some _ => None
      | None => Some (set_flags (running n) (negb (running n))
                  (set_thread tid {| t_boot := 0; t_worker := false; t_pc := Serving |} n))
      end
  | Frame tid t corr bytes draw =>
      let? th := serving tid n otherwise None in Some (on_frame draw tid th t corr bytes n)
  | Hangup tid =>
      let? th := serving tid n otherwise None in
      Some (set_thread tid (at_pc (if t_worker th then Leaving else Closing) th) n)
  | Resume tid os sent =>
      let? th := threads n !! tid otherwise None in resume os sent tid th n
  end.

(** The dispatch a client thread has drawn and not yet answered for, and
    whether its promise is registered. *)
Definition owns (pc : Pc) : option DispatchId :=
  match pc with
  | Reserving _ d _ _ | Preparing _ d _ _ | Looking _ d _ _ | Confirming _ d _ _ _
  | Registering _ d _ _ _ | Sending _ d _ _ _ | Unsent _ d _ | Retracting _ d _
  | Waiting _ d _ => Some d
  | _ => None
  end.
Definition registered (pc : Pc) : bool :=
  match pc with
  | Sending _ _ _ _ _ | Unsent _ _ _ | Retracting _ _ _ | Waiting _ _ _ => true
  | _ => false
  end.
Definition unused_dispatch (d : DispatchId) (n : Node) : Prop :=
  pending n !! d = None ∧ futures n !! d = None ∧
  map_Forall (fun _ th => owns (t_pc th) ≠ Some d) (threads n).

(** The identifiers drawn for a frame are not null and not in use. *)
Definition event_fresh (e : Event) (n : Node) : Prop :=
  match e with
  | Frame _ _ _ _ draw => draw 0%nat ≠ 0 ∧ plans (coord n) !! draw 0%nat = None ∧
                          results (coord n) !! draw 0%nat = None ∧ unused_dispatch (draw 0%nat) n
  | _ => True
  end.

(** ** Starting the process *)

(** [while (current_epoch() < epoch) advance_epoch();] *)
Fixpoint advance_until (fuel : nat) (target : Z) (c : RuntimeState) : RuntimeState :=
  match fuel with
  | O => c
  | S fuel => if epoch c <? target then advance_until fuel target (advance_epoch c) else c
  end.

(** A node around a coordinator, before the first connection. *)
Definition node_of (c : RuntimeState) (persist : string) (fs : gmap string (list Z)) : Node :=
  {| coord := c; sockets := ∅; pending := ∅; futures := ∅; persist := persist;
     disk := fs; running := true; exited := false; threads := ∅; replies := [] |}.

(** [main] up to the accept loop: [id] is the drawn coordinator id, [fs] the
    file system, [ra] the answers to reading the state file.  A load that fails is reported and otherwise ignored. *)
Definition start (ra : ReadAnswers) (id : CoordinatorId) (persist : string) (epoch_arg : Z)
    (fs : gmap string (list Z)) : Node :=
  let c := (attach_coordinator id (new_coordinator 0)).2 in
  let c := if negb (String.eqb persist "") && bool_decide (is_Some (fs !! persist))
           then (coordinator_load ra (fs !! persist) c).2 else c in
  let c := if 1 <? epoch_arg
           then advance_until (Z.to_nat (epoch_arg - epoch c)) epoch_arg c else c in
  node_of c persist fs.

Inductive node_execution (n : Node) : list Event → Node → Prop :=
| node_nil : node_execution n [] n
| node_snoc es e n1 n2 :
    node_execution n es n1 → event_fresh e n1 → act e n1 = Some n2 →
    node_execution n (es ++ [e]) n2.

(** The fuel is enough: the loop ends at the requested epoch. *)
Lemma advance_until_reaches target c :
  in_u64 target → in_u64 (epoch c) →
  epoch (advance_until (Z.to_nat (target - epoch c)) target c) = Z.max target (epoch c).
Proof.
  intros Ht Hc. remember (Z.to_nat (target - epoch c)) as fuel eqn:Hf. revert c Hc Hf.
  induction fuel as [|fuel IH]; intros c Hc Hf; simpl; [ranges|].
  destruct (Z.ltb_spec (epoch c) target) as [Hlt|Hge]; [|lia].
  assert (He : epoch (advance_epoch c) = epoch c + 1).
  { simpl. unfold u64. apply Z.mod_small. ranges. }
  rewrite IH; rewrite He; ranges.
Qed.

(** ** What a step does to the coordinator *)

(** The method of the coordinator an event calls, if any: a frame at once, the
    rest of a handler under its own lock. *)
Definition frame_command (draw : nat → Z) (th : Thread) (t : FrameType) (bytes : list Z)
    : option Command :=
  match t, decoded t bytes with
  | FrameType.HELLO, Some (P_HELLO m) =>
      Some (BindWorkerSession (HelloMsg.worker m) (HelloMsg.worker_boot m) (HelloMsg.name m))
  | FrameType.REGISTER_TARGET, Some (P_REGISTER_TARGET m) =>
      Some (ApplyRegisterTarget (with_owner (t_boot th) m))
  | FrameType.CAPABILITY, Some (P_CAPABILITY m) =>
      Some (ApplyCapability draw (capability_from (t_boot th) m))
  | FrameType.DATA_EVIDENCE, Some (P_DATA_EVIDENCE m) =>
      Some (ApplyDataEvidence (evidence_from (t_boot th) m))
  | FrameType.HEARTBEAT, Some (P_HEARTBEAT m) => Some (ApplyHeartbeat m)
  | FrameType.RESULT, Some (P_RESULT m) => Some (ApplyResult (draw 0%nat) m)
  | FrameType.CLIENT_REGISTER_OPERATION, Some (P_CLIENT_REGISTER_OPERATION m) =>
      Some (CreateOperation (ClientRegisterOperationMsg.op m))
  | FrameType.CLIENT_PLAN, Some (P_CLIENT_PLAN m) =>
      Some (PlanOperation (draw 0%nat) (ClientPlanMsg.op m))
  | _, _ => None
  end.
Definition resume_command (th : Thread) : option Command :=
  match t_pc th with
  | Reserving k _ _ _ => Some (Reserve k)
  | Preparing k d a _ => Some (PrepareDispatch k d a)
  | Confirming k d _ _ _ => Some (ConfirmDispatched k d)
  | Retracting k _ _ | Cancelling k _ _ => Some (CancelPlan k)
  | Leaving => Some (OnWorkerDisconnected (t_boot th))
  | _ => None
  end.
Definition event_command (e : Event) (n : Node) : option Command :=
  match e with
  | Frame tid t _ bytes draw =>
      let? th := serving tid n otherwise None in frame_command draw th t bytes
  | Resume tid _ _ => let? th := threads n !! tid otherwise None in resume_command th
  | _ => None
  end.
Definition after_command (c : option Command) (s : RuntimeState) : RuntimeState :=
  match c with Some c => (exec c s).2 | None => s end.

(** The state of an equation between a method's pair and its components. *)
Ltac open_pair answered := let r := fresh "r" in let c := fresh "c" in destruct answered as [r c] eqn:?.
Ltac pair_state :=
  match goal with
  | Hin : context [let (_, _) := ?call in _] |- _ => open_pair call
  | |- context [let (_, _) := ?call in _] => open_pair call
  end.

Lemma on_frame_coord draw tid th t corr bytes n :
  coord (on_frame draw tid th t corr bytes n) =
  after_command (frame_command draw th t bytes) (coord n).
Proof.
  unfold on_frame, frame_command, after_command. destruct t; try done.
  all: destruct (decoded _ bytes) as [[]|]; try done; cbn [exec outcome fst snd].
  - unfold on_result. pair_state. by case_match.
  - by pair_state.
  - by pair_state.
  - simpl. by case_match.
Qed.

Lemma resolve_dispatch_coord d reply n : coord (resolve_dispatch d reply n) = coord n.
Proof. unfold resolve_dispatch. by case_match. Qed.

Lemma resume_coord os sent tid th n n' :
  resume os sent tid th n = Some n' →
  coord n' = after_command (resume_command th) (coord n).
Proof.
  unfold resume, resume_command, after_command. destruct (t_pc th); intros H; simplify_eq; try done.
  all: try pair_state; repeat case_match; simplify_eq; try done.
  all: cbn [exec outcome fst snd]; simpl; rewrite ?resolve_dispatch_coord; try done.
  all: match goal with H : _ = (_, _) |- _ => by rewrite H end.
Qed.

(** Every event is one method of the coordinator or leaves it alone. *)
Lemma act_command e n n' :
  act e n = Some n' → coord n' = after_command (event_command e n) (coord n).
Proof.
  unfold act, event_command. destruct (exited n); [done|]. destruct e; simpl in *.
  - case_match; [done|]. by intros [= <-].
  - case_match; [|done]. intros [= <-]. apply on_frame_coord.
  - case_match; [|done]. by intros [= <-].
  - case_match; [|done]. apply resume_coord.
Qed.

Lemma event_command_fresh e n c :
  event_fresh e n → event_command e n = Some c → draws_fresh c (coord n).
Proof.
  unfold event_command, frame_command, resume_command. intros Hf.
  destruct e; simpl in Hf; try done; repeat case_match; intros; simplify_eq; try done.
  all: destruct Hf as (? & ? & ? & _); by split.
Qed.

Lemma act_coord e n n' :
  event_fresh e n → act e n = Some n' →
  coord n' = coord n ∨ ∃ c, step (coord n) c (coord n').
Proof.
  intros Hf Ha. rewrite (act_command _ _ _ Ha). destruct (event_command e n) as [c|] eqn:Hc; [|by left].
  right. exists c. constructor. by eapply event_command_fresh.
Qed.

(** The methods called along an execution, in the order of their critical
    sections. *)
Fixpoint commands_of (es : list Event) (n : Node) : list Command :=
  match es with
  | [] => []
  | e :: es =>
      let? n' := act e n otherwise [] in
      match event_command e n with Some c => [c] | None => [] end ++ commands_of es n'
  end.

Lemma commands_of_snoc n es n1 e n2 :
  node_execution n es n1 → act e n1 = Some n2 →
  commands_of (es ++ [e]) n =
  commands_of es n ++ match event_command e n1 with Some c => [c] | None => [] end.
Proof.
  intros Hex Ha.
  assert (Hcons : ∀ es' n', node_execution n es n1 → n' = n1 →
    commands_of (es ++ es') n = commands_of es n ++ commands_of es' n').
  { clear Ha e n2. intros es' n' Hx ->. clear Hex. revert es'.
    induction Hx as [|es e n1 n2 _ IH _ Ha]; intros es'; [done|].
    rewrite <- (assoc_L (++)), !IH. simpl. rewrite Ha, app_nil_r. by rewrite (assoc_L (++)). }
  rewrite (Hcons [e] n1 Hex eq_refl). simpl. by rewrite Ha, app_nil_r.
Qed.

Lemma node_commands n0 es n :
  node_execution n0 es n → execution (coord n0) (commands_of es n0) (coord n).
Proof.
  induction 1 as [|es e n1 n2 Hex IH Hf Ha]; [constructor|].
  rewrite (commands_of_snoc _ _ _ _ _ Hex Ha), (act_command _ _ _ Ha).
  destruct (event_command e n1) as [c|] eqn:Hc; [|by rewrite app_nil_r].
  eapply execution_snoc; [done|]. constructor. by eapply event_command_fresh.
Qed.

(** ** What clients are told *)

(** A reply that says "committed" is backed by a stored committed result of its
    plan, with the digest the client is given. *)
Definition backed (s : RuntimeState) (r : ClientReplyMsg) : Prop :=
  ClientReplyMsg.committed r = true →
  ∃ rid res, results s !! rid = Some res ∧ ExecutionResult.plan res = ClientReplyMsg.plan r ∧
    ExecutionResult.committed res = true ∧
    ExecutionResult.output_digest res = ClientReplyMsg.output_digest r.

(** The reply a thread holds, and the replies in flight anywhere in a node. *)
Definition pc_reply (pc : Pc) : option ClientReplyMsg :=
  match pc with
  | Saving _ r | Storing _ r _ | Writing _ r _ | Replacing _ r | Discarding _ r
  | Resolving _ r | Cancelling _ r _ => Some r
  | _ => None
  end.
Definition carries (n : Node) (r : ClientReplyMsg) : Prop :=
  (∃ d, futures n !! d = Some r) ∨
  (∃ tid th, threads n !! tid = Some th ∧ pc_reply (t_pc th) = Some r) ∨
  (∃ x, x ∈ replies n ∧ x.2 = r).
Definition all_backed (n : Node) : Prop := ∀ r, carries n r → backed (coord n) r.

Lemma backed_mono s s' r : results s ⊆ results s' → backed s r → backed s' r.
Proof.
  intros Hsub Hb Hc. destruct (Hb Hc) as (rid & res & Hr & ?). exists rid, res.
  split; [by eapply lookup_weaken|done].
Qed.
Lemma uncommitted_backed s r : ClientReplyMsg.committed r = false → backed s r.
Proof. unfold backed. congruence. Qed.

Lemma carries_coord c n r : carries (set_coord c n) r → carries n r.
Proof. done. Qed.
Lemma carries_disk fs n r : carries (set_disk fs n) r → carries n r.
Proof. done. Qed.
Lemma carries_flags a b n r : carries (set_flags a b n) r → carries n r.
Proof. done. Qed.
Lemma carries_thread tid th n r :
  carries (set_thread tid th n) r → carries n r ∨ pc_reply (t_pc th) = Some r.
Proof.
  intros [H|[(tid' & th' & Hth & Hr)|H]]; [by left; left| |by left; right; right].
  simpl in Hth. apply lookup_insert_Some in Hth as [[<- <-]|[_ Hth]]; [by right|].
  left. right. left. by eauto.
Qed.
Lemma carries_reply tid corr reply n r :
  carries (reply_client tid corr reply n) r → carries n r ∨ r = reply.
Proof.
  intros [H|[H|(x & Hx & <-)]]; [by left; left|by left; right; left|].
  simpl in Hx. apply elem_of_app in Hx as [Hx| ->%list_elem_of_singleton]; [|by right].
  left. right. right. by eauto.
Qed.
Lemma carries_routes ss pd fu n r :
  carries (set_routes ss pd fu n) r → carries n r ∨ ∃ d, fu !! d = Some r.
Proof. intros [H|[H|H]]; [by right|by left; right; left|by left; right; right]. Qed.
Lemma carries_resolve d reply n r :
  carries (resolve_dispatch d reply n) r → carries n r ∨ r = reply.
Proof.
  unfold resolve_dispatch. destruct (pending n !! d); [|by left].
  intros [H|(d' & Hd)]%carries_routes; [by left|].
  apply lookup_insert_Some in Hd as [[_ <-]|[_ Hd]]; [by right|]. left. left. by eauto.
Qed.
Lemma carries_disconnect boot n r :
  carries (resolve_disconnect boot n) r → carries n r ∨ r = disconnect_reply.
Proof.
  intros [H|(d & Hd)]%carries_routes; [by left|].
  apply lookup_union_Some_raw in Hd as [Hd|[_ Hd]]; [|left; left; by eauto].
  rewrite lookup_fmap in Hd. apply fmap_Some in Hd as (? & _ & ->). by right.
Qed.

(** Where the replies of a new state come from. *)
Ltac trace_replies :=
  repeat match goal with
  | H : carries (set_coord _ _) _ |- _ => apply carries_coord in H
  | H : carries (set_disk _ _) _ |- _ => apply carries_disk in H
  | H : carries (set_flags _ _ _) _ |- _ => apply carries_flags in H
  | H : carries (set_thread _ _ _) _ |- _ => apply carries_thread in H as [H|H]
  | H : carries (reply_client _ _ _ _) _ |- _ => apply carries_reply in H as [H| ->]
  | H : carries (resolve_dispatch _ _ _) _ |- _ => apply carries_resolve in H as [H| ->]
  | H : carries (resolve_disconnect _ _) _ |- _ => apply carries_disconnect in H as [H| ->]
  | H : pc_reply _ = Some _ |- _ => progress simpl in H; simplify_eq
  end; try (by left); try (right; by apply uncommitted_backed).

Lemma result_reply_backed s rid res :
  results s !! rid = Some res → backed s (result_reply (ExecutionResult.plan res) res).
Proof. intros Hr Hc. exists rid, res. by split_and!. Qed.

(** What [apply_result] answers is stored under the fresh identifier. *)
Lemma apply_result_stored fresh msg s res s' :
  apply_result fresh msg s = (Ok res, s') →
  results s' !! fresh = Some res ∧ ExecutionResult.plan res = ResultMsg.plan msg.
Proof.
  intros Ha. destruct (apply_result_cases fresh msg s) as [(p & _ & Heq)|[e Heq]];
    rewrite Heq in Ha; [|done]. revert Ha. unfold settle_completion.
  repeat case_match; intros [= <- <-]; simpl;
    rewrite ?(proj1 (proj2 (release_reservation_frame _ _))); simpl; by rewrite lookup_insert_eq.
Qed.

Lemma result_of_stored k s :
  has_result k s = true → ∃ rid, results s !! rid = Some (result_of k s) ∧
    ExecutionResult.plan (result_of k s) = k.
Proof.
  unfold has_result, result_of, find_result. intros [res Hres]%bool_decide_eq_true_1. rewrite Hres. simpl.
  apply fmap_Some in Hres as ([rid res'] & Hf & ->). apply List.find_some in Hf as [Hin Heq].
  exists rid. simpl in *. apply list_elem_of_In, elem_of_map_entries in Hin. by apply Z.eqb_eq in Heq.
Qed.

Lemma result_of_backed k s : backed s (result_reply (ExecutionResult.plan (result_of k s)) (result_of k s)).
Proof.
  destruct (has_result k s) eqn:Hh.
  - destruct (result_of_stored _ _ Hh) as (rid & Hr & _). by eapply result_reply_backed.
  - apply uncommitted_backed. unfold has_result in Hh. apply bool_decide_eq_false_1 in Hh.
    unfold result_of. destruct (find_result k s); [|done]. by destruct Hh.
Qed.

(** Every reply of the new state was there before or is backed. *)
Lemma on_frame_carries draw tid th t corr bytes n r :
  carries (on_frame draw tid th t corr bytes n) r →
  carries n r ∨ backed (coord (on_frame draw tid th t corr bytes n)) r.
Proof.
  unfold on_frame. destruct t; try by left.
  all: destruct (decoded _ bytes) as [[]|]; intros H; trace_replies.
  - unfold on_result in *. destruct (apply_result _ m _) as [[res|e] c] eqn:Ha; trace_replies.
    destruct (apply_result_stored _ _ _ _ _ Ha) as [Hst Hpl].
    destruct (_ && _); simpl in H; simplify_eq; right; simpl; rewrite <- Hpl;
      by eapply result_reply_backed.
  - destruct (create_operation _ _) as [res c]. trace_replies.
  - destruct (plan_locked _ _ _) as [[out|e] c]; trace_replies.
  - destruct (has_result _ _); trace_replies.
Qed.

Lemma resume_carries os sent tid th n n' r :
  threads n !! tid = Some th → resume os sent tid th n = Some n' →
  carries n' r → carries n r ∨ backed (coord n') r.
Proof.
  unfold resume. intros Hth Hs H. destruct (t_pc th) eqn:Hpc; simplify_eq; trace_replies.
  all: try (left; right; left; exists tid, th; by rewrite Hpc).
  all: repeat case_match; simplify_eq; trace_replies.
  all: try (left; right; left; exists tid, th; by rewrite Hpc).
  - right. apply result_of_backed.
  - left. left. by eauto.
Qed.

Lemma act_carries e n n' r :
  act e n = Some n' → carries n' r → carries n r ∨ backed (coord n') r.
Proof.
  unfold act, serving. destruct (exited n); [done|]. destruct e; simpl.
  - case_match; [done|]. intros [= <-] Hcar. trace_replies.
  - repeat case_match; try done. intros [= <-]. apply on_frame_carries.
  - repeat case_match; try done; intros [= <-] Hcar; trace_replies.
  - case_match; [|done]. by apply resume_carries.
Qed.

Lemma coord_moves s s' :
  (s' = s ∨ ∃ c, step s c s') → results s ⊆ results s' ∧ (lifetime s → lifetime s').
Proof.
  intros [->|[c Hst]]; [done|]. split; [|intros; by eapply life_step].
  destruct Hst as [c Hf]. by apply effect_results_grow, exec_effect.
Qed.

Lemma all_backed_step e n n' :
  event_fresh e n → act e n = Some n' → all_backed n → all_backed n'.
Proof.
  intros Hf Ha Hb r Hc. destruct (act_carries _ _ _ _ Ha Hc) as [Hold|?]; [|done].
  eapply backed_mono; [|by apply Hb]. by eapply coord_moves, act_coord.
Qed.

Lemma node_invariant c persist fs es n :
  lifetime c → node_execution (node_of c persist fs) es n → lifetime (coord n) ∧ all_backed n.
Proof.
  intros Hc. induction 1 as [|es e n1 n2 _ [IHl IHb] Hf Ha].
  - split; [done|]. intros r [[d Hd]|[(tid & th & Hth & _)|(x & Hx & _)]]; simpl in *.
    + by rewrite lookup_empty in Hd.
    + by rewrite lookup_empty in Hth.
    + by apply elem_of_nil in Hx.
  - split; [by eapply coord_moves, IHl; eapply act_coord|by eapply all_backed_step].
Qed.

(** ** Promises *)

Definition known (d : DispatchId) (n : Node) : Prop :=
  is_Some (pending n !! d) ∨ is_Some (futures n !! d).

(** A promise is pending or set, never both; a client's promise is known from
    its registration on; no two clients share a dispatch. *)
Record promises_ok (n : Node) : Prop := {
  po_once d b : pending n !! d = Some b → futures n !! d = None;
  po_thread tid th d : threads n !! tid = Some th → owns (t_pc th) = Some d →
    registered (t_pc th) = true ↔ known d n;
  po_unique tid1 tid2 th1 th2 d :
    threads n !! tid1 = Some th1 → threads n !! tid2 = Some th2 →
    owns (t_pc th1) = Some d → owns (t_pc th2) = Some d → tid1 = tid2
}.

Lemma promises_thread tid th n :
  promises_ok n →
  (∀ d, owns (t_pc th) = Some d → (registered (t_pc th) = true ↔ known d n) ∧
     ∀ tid' th', threads n !! tid' = Some th' → owns (t_pc th') = Some d → tid' = tid) →
  promises_ok (set_thread tid th n).
Proof.
  intros [H1 H2 H3] Hth. split; simpl; [done| |].
  - intros tid' th' d [[<- <-]|[_ Hl]]%lookup_insert_Some Ho; [by apply Hth|by eapply H2].
  - intros tid1 tid2 th1 th2 d [[<- <-]|[? Hl1]]%lookup_insert_Some
      [[<- <-]|[? Hl2]]%lookup_insert_Some Ho1 Ho2; [done| | |by eapply H3].
    + symmetry. by eapply Hth.
    + by eapply Hth.
Qed.

(** Moving a thread on without touching its dispatch, or dropping it. *)
Lemma promises_move tid th pc n :
  promises_ok n → threads n !! tid = Some th →
  owns pc = None ∨ owns pc = owns (t_pc th) ∧ registered pc = registered (t_pc th) →
  promises_ok (set_thread tid (at_pc pc th) n).
Proof.
  intros Hok Hth Hpc. apply promises_thread; [done|]. simpl. intros d Hd.
  destruct Hpc as [Hpc|[Ho Hr]]; [congruence|]. rewrite Ho in Hd. rewrite Hr.
  split; [by eapply po_thread|]. intros tid' th' Hth' Ho'. by eapply (po_unique n).
Qed.

Lemma promises_routes ss pd fu n :
  promises_ok n → (∀ d b, pd !! d = Some b → fu !! d = None) →
  (∀ d, is_Some (pd !! d) ∨ is_Some (fu !! d) ↔ known d n) → promises_ok (set_routes ss pd fu n).
Proof.
  intros [H1 H2 H3] Hd Hk. split; simpl; [done| |done].
  intros tid th d Hth Ho. rewrite (H2 _ _ _ Hth Ho). symmetry. apply Hk.
Qed.

Lemma promises_resolve d reply n : promises_ok n → promises_ok (resolve_dispatch d reply n).
Proof.
  intros Hok. unfold resolve_dispatch. destruct (pending n !! d) as [b|] eqn:Hp; [|done].
  apply promises_routes; [done| |].
  - intros d' b' [? Hd']%lookup_delete_Some. rewrite lookup_insert_ne by done. by eapply po_once.
  - intros d'. unfold known. destruct (decide (d = d')) as [->|].
    + rewrite Hp, lookup_insert_eq. by split; [left|right].
    + by rewrite lookup_delete_ne, lookup_insert_ne by done.
Qed.

Lemma promises_disconnect boot n : promises_ok n → promises_ok (resolve_disconnect boot n).
Proof.
  intros Hok. apply promises_routes; [done| |].
  - intros d b [Hd Hb]%map_lookup_filter_Some. apply lookup_union_None.
    split; [|by eapply po_once]. rewrite lookup_fmap, fmap_None.
    apply map_lookup_filter_None. right. intros b' Hb'. simpl in *. congruence.
  - intros d. unfold known.
    rewrite (lookup_union_is_Some ((fun _ => disconnect_reply) <$> _)), lookup_fmap, fmap_is_Some.
    destruct (pending n !! d) as [b|] eqn:Hp.
    + split; [intros _; left; by eexists|]. intros _. destruct (decide (b = boot)) as [->|].
      * right. left. exists boot. by apply map_lookup_filter_Some.
      * left. exists b. by apply map_lookup_filter_Some.
    + split; [|by intros [[? [=]]|?]; right; right].
      intros [[b Hb]|[[b Hb]|?]]; [..|by right];
        apply map_lookup_filter_Some in Hb as [Hb _]; congruence.
Qed.

Lemma promises_register tid th k d dm sock corr n :
  promises_ok n → threads n !! tid = Some th → t_pc th = Registering k d dm sock corr →
  promises_ok (set_thread tid (at_pc (Sending k d dm sock corr) th)
    (set_routes (sockets n) (<[d := DispatchMsg.worker_boot dm]> (pending n)) (futures n) n)).
Proof.
  intros Hok Hth Hpc.
  assert (Ho : owns (t_pc th) = Some d) by by rewrite Hpc.
  assert (Hn : ~ known d n) by (rewrite <- (po_thread _ Hok _ _ _ Hth Ho), Hpc; done).
  destruct Hok as [H1 H2 H3]. split; simpl.
  - intros d' b [[<- _]|[_ Hd]]%lookup_insert_Some; [|by eapply H1].
    destruct (futures n !! d) eqn:Hf; [|done]. destruct Hn. right. by eexists.
  - intros tid' th' d' [[<- <-]|[Hne Hl]]%lookup_insert_Some Ho'; unfold known; simpl.
    + simpl in Ho'. simplify_eq. rewrite lookup_insert_eq. split; [by left; eexists|done].
    + rewrite (H2 _ _ _ Hl Ho'). assert (d' ≠ d) by (intros ->; by destruct Hne; eapply H3).
      by rewrite lookup_insert_ne by done.
  - intros tid1 tid2 th1 th2 d' [[<- <-]|[? Hl1]]%lookup_insert_Some
      [[<- <-]|[? Hl2]]%lookup_insert_Some Ho1 Ho2; simpl in *; simplify_eq; [done|by eapply H3..].
Qed.

Lemma promises_coord c n : promises_ok n → promises_ok (set_coord c n).
Proof. by intros []. Qed.
Lemma promises_disk fs n : promises_ok n → promises_ok (set_disk fs n).
Proof. by intros []. Qed.
Lemma promises_flags a b n : promises_ok n → promises_ok (set_flags a b n).
Proof. by intros []. Qed.
Lemma promises_reply tid corr r n : promises_ok n → promises_ok (reply_client tid corr r n).
Proof. by intros []. Qed.
#[local] Hint Resolve promises_coord promises_disk promises_flags promises_reply
  promises_resolve promises_disconnect : nmc.

Lemma resolve_dispatch_threads d reply n : threads (resolve_dispatch d reply n) = threads n.
Proof. unfold resolve_dispatch. by case_match. Qed.

Lemma on_frame_promises draw tid th t corr bytes n :
  unused_dispatch (draw 0%nat) n → threads n !! tid = Some th → t_pc th = Serving →
  promises_ok n → promises_ok (on_frame draw tid th t corr bytes n).
Proof.
  intros (Hp & Hf & Hu) Hth Hpc Hok. unfold on_frame, on_result.
  destruct t; auto with nmc; (destruct (decoded _ bytes) as [[]|]; auto with nmc).
  - apply promises_thread; [auto with nmc|done].
  - destruct (apply_result _ m _) as [[res|e] c]; apply promises_move; auto with nmc; left;
      by case_match.
  - destruct (create_operation _ _). auto with nmc.
  - destruct (plan_locked _ _ _). auto with nmc.
  - apply promises_thread; [done|]. simpl. intros d [= <-]. split.
    + split; [done|]. unfold known. rewrite Hp, Hf. by intros [[]|[]].
    + intros tid' th' Hth' Ho. by destruct (Hu tid' th' Hth').
  - case_match; [apply promises_move; auto|auto with nmc].
Qed.

Lemma resume_promises os sent tid th n n' :
  threads n !! tid = Some th → resume os sent tid th n = Some n' → promises_ok n → promises_ok n'.
Proof.
  unfold resume. intros Hth Hs Hok. destruct (t_pc th) eqn:Hpc; simplify_eq.
  all: repeat case_match; simplify_eq.
  all: try (eapply promises_register; by eauto).
  all: try apply promises_move; auto with nmc; rewrite ?resolve_dispatch_threads, ?Hpc; auto.
  destruct Hok. by apply promises_routes.
Qed.

Lemma serving_Some tid n th :
  serving tid n = Some th → threads n !! tid = Some th ∧ t_pc th = Serving.
Proof. unfold serving. repeat case_match; try done. by intros [= <-]. Qed.

Lemma act_promises e n n' :
  event_fresh e n → act e n = Some n' → promises_ok n → promises_ok n'.
Proof.
  unfold act. intros Hf. destruct (exited n); [done|]. destruct e; simpl in *.
  - case_match; [done|]. intros [= <-] Hok. apply promises_flags, promises_thread; [done|]. done.
  - destruct (serving tid n) as [th|] eqn:Hs; [|done]. apply serving_Some in Hs as [??].
    intros [= <-]. apply on_frame_promises; [apply Hf|done..].
  - destruct (serving tid n) as [th|] eqn:Hs; [|done]. apply serving_Some in Hs as [??].
    intros [= <-] Hok. apply promises_move; auto. left. by case_match.
  - case_match; [|done]. by apply resume_promises.
Qed.

Lemma node_promises c persist fs es n :
  node_execution (node_of c persist fs) es n → promises_ok n.
Proof.
  induction 1 as [|es e n1 n2 _ IH Hf Ha]; [|by eapply act_promises].
  split; simpl; intros *; by rewrite ?lookup_empty.
Qed.

(** A promise that is set keeps its value. *)
Lemma resolve_dispatch_keeps d reply n :
  promises_ok n → futures n ⊆ futures (resolve_dispatch d reply n).
Proof.
  intros Hok. unfold resolve_dispatch. destruct (pending n !! d) as [b|] eqn:Hp; [|done].
  apply insert_subseteq. by eapply po_once.
Qed.
Lemma resolve_disconnect_keeps boot n :
  promises_ok n → futures n ⊆ futures (resolve_disconnect boot n).
Proof.
  intros Hok. apply map_union_subseteq_r, map_disjoint_spec. intros d r1 r2 H1 H2.
  rewrite lookup_fmap in H1. apply fmap_Some in H1 as (b & Hb & _).
  apply map_lookup_filter_Some in Hb as [Hb _]. rewrite (po_once _ Hok _ _ Hb) in H2. done.
Qed.
Lemma resume_keeps os sent tid th n n' :
  promises_ok n → resume os sent tid th n = Some n' → futures n ⊆ futures n'.
Proof.
  unfold resume. intros Hok Hs. repeat case_match; simplify_eq; try done.
  all: simpl; first [by apply resolve_dispatch_keeps | by apply resolve_disconnect_keeps].
Qed.
Lemma on_frame_futures draw tid th t corr bytes n :
  futures (on_frame draw tid th t corr bytes n) = futures n.
Proof. unfold on_frame, on_result. by repeat case_match. Qed.
Lemma act_keeps e n n' : promises_ok n → act e n = Some n' → futures n ⊆ futures n'.
Proof.
  unfold act. intros Hok. destruct (exited n); [done|]. destruct e; simpl.
  - case_match; [done|]. by intros [= <-].
  - case_match; [|done]. intros [= <-]. by rewrite on_frame_futures.
  - case_match; [|done]. by intros [= <-].
  - case_match; [|done]. by apply resume_keeps.
Qed.

(** A step of a thread of worker [b] past its disconnection, or past a
    completion of [d], sets the promise of [d]. *)
Definition settles (pc : Pc) (boot : WorkerBootId) (d : DispatchId) (b : WorkerBootId)
    (r : ClientReplyMsg) : Prop :=
  pc = Resolving d r ∨ pc = Departing ∧ boot = b ∧ r = disconnect_reply.

Lemma settles_sets tid th os sent d b r n n' :
  threads n !! tid = Some th → settles (t_pc th) (t_boot th) d b r → pending n !! d = Some b →
  act (Resume tid os sent) n = Some n' → futures n' !! d = Some r.
Proof.
  unfold act. intros Hth Hs Hp. destruct (exited n); [done|]. rewrite Hth. unfold resume.
  destruct Hs as [->|(-> & -> & ->)]; intros [= <-]; simpl.
  - unfold resolve_dispatch. rewrite Hp. simpl. by rewrite lookup_insert_eq.
  - apply lookup_union_Some_l. rewrite lookup_fmap.
    rewrite (proj2 (map_lookup_filter_Some (fun e => e.2 = b) _ _ _) (conj Hp eq_refl)). done.
Qed.

(** ** A waiting client that nobody will answer *)

(** The dispatch a thread is working on. *)
Definition pc_dispatch (pc : Pc) : option DispatchId :=
  match pc with
  | Saving d _ | Storing d _ _ | Writing d _ _ | Replacing d _ | Discarding d _
  | Resolving d _ | Reserving _ d _ _ | Preparing _ d _ _ | Looking _ d _ _
  | Confirming _ d _ _ _ | Registering _ d _ _ _ | Sending _ d _ _ _ | Unsent _ d _
  | Retracting _ d _ | Waiting _ d _ => Some d
  | _ => None
  end.

(** The client's thread is about to register the promise of [d] on the worker
    [boot], or to send, or waits. *)
Definition late (d : DispatchId) (boot : WorkerBootId) (pc : Pc) : Prop :=
  match pc with
  | Registering _ d' dm _ _ | Sending _ d' dm _ _ => d' = d ∧ DispatchMsg.worker_boot dm = boot
  | Waiting _ d' _ => d' = d
  | _ => False
  end.
(** The thread is past [resolve_disconnect]. *)
Definition gone (pc : Pc) : Prop := pc = Closing ∨ pc = Closed.
(** No other thread works on [d], and those of the worker's connections have
    resolved what was pending. *)
Definition departed (tid : Z) (d : DispatchId) (boot : WorkerBootId) (n : Node) : Prop :=
  map_Forall (fun t th => t ≠ tid →
    pc_dispatch (t_pc th) ≠ Some d ∧ (t_boot th = boot → gone (t_pc th))) (threads n).

Record stuck (tid : Z) (d : DispatchId) (boot : WorkerBootId) (n : Node) : Prop := {
  st_waits : ∃ th, threads n !! tid = Some th ∧ late d boot (t_pc th) ∧
    pending n !! d = if registered (t_pc th) then Some boot else None;
  st_unset : futures n !! d = None;
  st_others : departed tid d boot n
}.

(** No frame brings a completion of [d] or a worker with the identity [boot]. *)
Definition quiet (d : DispatchId) (boot : WorkerBootId) (e : Event) : Prop :=
  match e with
  | Frame _ t _ bytes _ =>
      match decoded t bytes with
      | Some (P_RESULT m) => ResultMsg.dispatch m ≠ d
      | Some (P_HELLO m) => HelloMsg.worker_boot m ≠ boot
      | _ => True
      end
  | _ => True
  end.
(** The client's thread failed to send. *)
Definition unsent (tid : Z) (d : DispatchId) (n : Node) : Prop :=
  ∃ th k corr, threads n !! tid = Some th ∧ t_pc th = Unsent k d corr.

Section Stuck.
Context (tid0 : Z) (d0 : DispatchId) (boot0 : WorkerBootId).
Hypothesis boot0_set : boot0 ≠ 0.
Abbreviation stuck0 := (stuck tid0 d0 boot0).

Lemma stuck_thread tid th n :
  stuck0 n → tid ≠ tid0 → pc_dispatch (t_pc th) ≠ Some d0 →
  (t_boot th = boot0 → gone (t_pc th)) → stuck0 (set_thread tid th n).
Proof.
  intros [(th0 & H1 & H2 & H3) Hf Ho] Hne Hd Hb. split; simpl; [|done|].
  - exists th0. by rewrite lookup_insert_ne by done.
  - by apply map_Forall_insert_2.
Qed.
Lemma stuck_routes ss pd fu n :
  stuck0 n → pd !! d0 = pending n !! d0 → fu !! d0 = None → stuck0 (set_routes ss pd fu n).
Proof. intros [(th & ? & ? & Hp) ? ?] He ?. split; [exists th; by rewrite <- Hp, <- He|done|done]. Qed.
Lemma stuck_resolve d reply n : stuck0 n → d ≠ d0 → stuck0 (resolve_dispatch d reply n).
Proof.
  intros Hs Hd. unfold resolve_dispatch. case_match; [|done].
  apply stuck_routes; [done|by rewrite lookup_delete_ne|rewrite lookup_insert_ne by done; apply Hs].
Qed.
Lemma stuck_pending n : stuck0 n → pending n !! d0 = None ∨ pending n !! d0 = Some boot0.
Proof. intros [(th & _ & _ & ->) _ _]. destruct (registered _); auto. Qed.
Lemma stuck_disconnect boot n : stuck0 n → boot ≠ boot0 → stuck0 (resolve_disconnect boot n).
Proof.
  intros Hs Hb. unfold resolve_disconnect. destruct (stuck_pending _ Hs) as [Hp|Hp].
  all: apply stuck_routes; [done|rewrite Hp|apply lookup_union_None; split; [|apply Hs];
    rewrite lookup_fmap, fmap_None; apply map_lookup_filter_None].
  - apply map_lookup_filter_None. by left.
  - by left.
  - apply map_lookup_filter_Some. split; [done|]. simpl. congruence.
  - right. intros b Hb'. simpl. congruence.
Qed.
Lemma stuck_coord c n : stuck0 n → stuck0 (set_coord c n).
Proof. by intros []. Qed.
Lemma stuck_disk fs n : stuck0 n → stuck0 (set_disk fs n).
Proof. by intros []. Qed.
Lemma stuck_flags a b n : stuck0 n → stuck0 (set_flags a b n).
Proof. by intros []. Qed.
Lemma stuck_reply tid corr r n : stuck0 n → stuck0 (reply_client tid corr r n).
Proof. by intros []. Qed.
Hint Resolve stuck_coord stuck_disk stuck_flags stuck_reply : nmc.

(** A thread in its frame loop is not the waiting one and not the worker's. *)
Lemma stuck_serving tid th n :
  stuck0 n → threads n !! tid = Some th → t_pc th = Serving → tid ≠ tid0 ∧ t_boot th ≠ boot0.
Proof.
  intros [(th0 & H1 & H2 & _) _ Ho] Hth Hpc.
  assert (tid ≠ tid0) by (intros ->; simplify_eq; by rewrite Hpc in H2). split; [done|].
  intros Hb. destruct (Ho _ _ Hth) as [_ Hc]; [done|]. rewrite Hpc in Hc. by destruct (Hc Hb).
Qed.

Lemma stuck_frame draw tid th t corr bytes n :
  stuck0 n → draw 0%nat ≠ d0 → quiet d0 boot0 (Frame tid t corr bytes draw) → threads n !! tid = Some th →
  t_pc th = Serving → stuck0 (on_frame draw tid th t corr bytes n).
Proof.
  intros Hs Hdraw Hq Hth Hpc. destruct (stuck_serving _ _ _ Hs Hth Hpc) as [Hne Hb].
  unfold on_frame. unfold quiet in Hq. revert Hq. destruct t; try done; auto with nmc.
  all: destruct (decoded _ bytes) as [[]|]; intros Hq; auto with nmc.
  - apply stuck_thread; simpl; auto with nmc; congruence.
  - unfold on_result. destruct (apply_result _ _ _) as [[res|e] c]; [destruct (_ && _)|];
      apply stuck_thread; simpl; auto with nmc; congruence.
  - destruct (create_operation _ _). auto with nmc.
  - destruct (plan_locked _ _ _). auto with nmc.
  - apply stuck_thread; simpl; auto with nmc; congruence.
  - simpl. case_match; [|by auto with nmc]. apply stuck_thread; simpl; auto with nmc; congruence.
Qed.

(** A step of the client's own thread. *)
Lemma stuck_client os sent th n n' :
  stuck0 n → threads n !! tid0 = Some th → resume os sent tid0 th n = Some n' →
  stuck0 n' ∨ unsent tid0 d0 n'.
Proof.
  intros [(th0 & H1 & H2 & Hp) Hf Ho] Hth Hr. rewrite Hth in H1. injection H1 as <-. unfold resume in Hr.
  assert (Hset : ∀ pc m, threads m = threads n → late d0 boot0 pc → registered pc = true →
    pending m !! d0 = Some boot0 → futures m !! d0 = None → stuck0 (set_thread tid0 (at_pc pc th) m)).
  { intros pc m Ht Hl Hg Hpm Hfm. split; simpl; [|done|].
    - exists (at_pc pc th). rewrite lookup_insert_eq. simpl. by rewrite Hg.
    - unfold departed. simpl. rewrite Ht. apply map_Forall_insert_2; [done|exact Ho]. }
  destruct (t_pc th); try done; simpl in H2, Hp.
  - destruct H2 as [-> H2]. simplify_eq. left. apply Hset; try done. simpl. by rewrite lookup_insert_eq.
  - destruct H2 as [-> H2]. destruct (_ && _); simplify_eq; [left; by apply Hset|].
    right. unfold unsent. simpl. rewrite lookup_insert_eq. by repeat eexists.
  - subst d. by rewrite Hf in Hr.
Qed.

Lemma stuck_resume os sent tid th n n' :
  stuck0 n → threads n !! tid = Some th → resume os sent tid th n = Some n' →
  stuck0 n' ∨ unsent tid0 d0 n'.
Proof.
  intros Hs Hth Hr. destruct (decide (tid = tid0)) as [->|Hne]; [by eapply stuck_client|left].
  destruct (st_others _ _ _ _ Hs _ _ Hth Hne) as [Hd Hb].
  destruct (decide (t_boot th = boot0)) as [Hbt|Hbt].
  { unfold resume in Hr. destruct (Hb Hbt) as [Hc|Hc]; rewrite Hc in Hr; [|done]. injection Hr as <-.
    apply stuck_thread; [done|done|done|]. intros _. by right. }
  unfold resume in Hr. destruct (t_pc th) eqn:Hpc; simpl in Hd; simplify_eq.
  all: repeat case_match; simplify_eq.
  all: try (apply stuck_thread; [|done|simpl; congruence|done]);
    auto using stuck_resolve, stuck_disconnect with nmc.
  all: try (apply stuck_resolve; [done|congruence]).
  - apply stuck_routes; [done|done|apply Hs].
  - apply stuck_routes; [done| |apply Hs]. rewrite lookup_insert_ne by congruence. done.
Qed.

Lemma stuck_act e n n' :
  quiet d0 boot0 e → event_fresh e n → act e n = Some n' → stuck0 n → stuck0 n' ∨ unsent tid0 d0 n'.
Proof.
  intros Hq Hfr Ha Hs. unfold act, serving in Ha. destruct (exited n); [done|].
  pose proof (st_waits _ _ _ _ Hs) as (th0 & H0 & Hl0 & _).
  destruct e; simpl in Ha, Hfr.
  - left. case_match; [done|]. simplify_eq. apply stuck_flags, stuck_thread; simpl; try done. congruence.
  - left. repeat case_match; simplify_eq. apply stuck_frame; try done.
    intros E. destruct Hfr as (_ & _ & _ & _ & _ & Hown). apply (Hown _ _ H0). rewrite E.
    destruct (t_pc th0); simpl in Hl0 |- *; naive_solver.
  - left. repeat case_match; simplify_eq; destruct (stuck_serving tid _ _ Hs ltac:(done) ltac:(done));
      (apply stuck_thread; simpl; [done|done|done|congruence]).
  - destruct (threads n !! tid) as [th|] eqn:Ht; [|done]. exact (stuck_resume _ _ _ _ _ _ Hs Ht Ha).
Qed.

(** From then on, unless the client's own send fails. *)
Lemma stuck_forever n es n' :
  stuck0 n → Forall (quiet d0 boot0) es → node_execution n es n' →
  stuck0 n' ∨ ∃ es1 es2 n1, es = es1 ++ es2 ∧ node_execution n es1 n1 ∧ unsent tid0 d0 n1.
Proof.
  intros Hs Hq Hex. induction Hex as [|es e n1 n2 Hex IH Hf Ha]; [by left|].
  pose proof Hq as Hq'. apply Forall_app in Hq' as [Hq1 He%Forall_cons_iff]. destruct He as [He _].
  destruct (IH Hq1) as [Hs1|(es1 & es2 & m & -> & Hm & Hu)].
  - destruct (stuck_act _ _ _ He Hf Ha Hs1) as [?|Hu]; [by left|right].
    exists (es ++ [e]), [], n2. rewrite app_nil_r. split; [done|]. split; [by econstructor|done].
  - right. exists es1, (es2 ++ [e]), m. by rewrite (assoc_L (++)).
Qed.
End Stuck.

(** ** Running events *)

#[global] Instance event_fresh_dec e n : base.Decision (event_fresh e n).
Proof. destruct e; simpl; unfold unused_dispatch; apply _. Defined.

Fixpoint run_node (es : list Event) (n : Node) : option Node :=
  match es with
  | [] => Some n
  | e :: es =>
      if bool_decide (event_fresh e n)
      then let? n := act e n otherwise None in run_node es n else None
  end.

Lemma node_execution_cons n e n1 es n2 :
  event_fresh e n → act e n = Some n1 → node_execution n1 es n2 → node_execution n (e :: es) n2.
Proof.
  intros Hf Ha. induction 1 as [|es e' n2 n3 Hex IH Hf' Ha'].
  - apply (node_snoc n [] e n); [constructor|done|done].
  - by apply (node_snoc n (e :: es) e' n2 n3).
Qed.
Lemma run_node_execution es n n' : run_node es n = Some n' → node_execution n es n'.
Proof.
  revert n. induction es as [|e es IH]; simpl; intros n Hrun.
  - simplify_eq. constructor.
  - case_bool_decide as Hf; [|done]. destruct (act e n) as [n1|] eqn:Ha; [|done].
    eapply node_execution_cons; [done|done|by apply IH].
Qed.

Lemma run_node_app es1 es2 n :
  run_node (es1 ++ es2) n = run_node es1 n ≫= run_node es2.
Proof.
  revert n. induction es1 as [|e es IH]; intros n; simpl; [done|].
  case_bool_decide; [|done]. by destruct (act e n).
Qed.

Lemma act_resume tid os sent th n :
  exited n = false → threads n !! tid = Some th →
  act (Resume tid os sent) n = resume os sent tid th n.
Proof. intros He Ht. unfold act. by rewrite He, Ht. Qed.

Lemma run_node_resume tid os sent es n th n' :
  exited n = false → threads n !! tid = Some th → resume os sent tid th n = Some n' →
  run_node (Resume tid os sent :: es) n = run_node es n'.
Proof.
  intros He Ht Hr. cbn [run_node]. rewrite bool_decide_true by exact I.
  by rewrite (act_resume _ _ _ th), Hr.
Qed.

Lemma node_eq n1 n2 :
  coord n1 = coord n2 → sockets n1 = sockets n2 → pending n1 = pending n2 →
  futures n1 = futures n2 → persist n1 = persist n2 → disk n1 = disk n2 →
  running n1 = running n2 → exited n1 = exited n2 → threads n1 = threads n2 →
  replies n1 = replies n2 → n1 = n2.
Proof. destruct n1, n2. simpl. intros. by subst. Qed.

(** A worker (connection 1) and a client (connection 2) of the demonstration
    coordinator, up to a dispatch of plan 21 that is confirmed and not yet
    registered. *)
Definition frame (tid : Z) (p : Payload) (draw : nat → Z) : Event :=
  Frame tid (payload_type p) 7 (encode_payload p) draw.
Definition resume_ (tid : Z) : Event := Resume tid (os_fine 0) true.
Definition drawing (v : Z) (i : nat) : Z := v + 10 * Z.of_nat i.
Definition dispatching : list Event :=
  [Connect 1;
   frame 1 (P_HELLO {| HelloMsg.worker := 12; HelloMsg.worker_boot := 11; HelloMsg.name := "w" |})
     (drawing 61); resume_ 1; Connect 2;
   frame 2 (P_CLIENT_PLAN {| ClientPlanMsg.op := 17 |}) (drawing 21);
   frame 2 (P_CLIENT_DISPATCH {| ClientDispatchMsg.plan := 21 |}) (drawing 31)] ++
  replicate 4 (resume_ 2).
(** The promise is registered, the frame sent, the completion applied, the
    client answered. *)
Definition completing : list Event :=
  dispatching ++ replicate 2 (resume_ 2) ++
  [frame 1 (P_RESULT demo_honest) (drawing 51); resume_ 1; resume_ 2].

Definition node_after (es : list Event) : Node :=
  default (node_of (new_coordinator 1) "" ∅) (run_node es (node_of (demo_state []) "" ∅)).

Lemma node_after_execution es :
  bool_decide (is_Some (option_map replies (run_node es (node_of (demo_state []) "" ∅)))) = true →
  node_execution (node_of (demo_state []) "" ∅) es (node_after es).
Proof.
  unfold node_after. intros [x Hx]%bool_decide_eq_true_1.
  destruct (run_node es _) as [n|] eqn:Hn; [|done]. by apply run_node_execution.
Qed.

(** ** Properties *)

(** Claim C3: a client is only told "committed" for a commit that happened.
    Whatever frames arrive on whatever connections, however the threads
    interleave and workers disconnect, every reply sent to a client that says
    committed is for a plan that is COMMITTED in the coordinator, with exactly
    one stored result, verified, whose digest is the one in the reply. *)
Theorem client_commits_are_real c persist fs es n tid corr r :
  lifetime c → node_execution (node_of c persist fs) es n →
  (tid, corr, r) ∈ replies n → ClientReplyMsg.committed r = true →
  exactly_once (coord n) ∧
  ∃ p rid res, plans (coord n) !! ClientReplyMsg.plan r = Some p ∧
    ExecutionPlan.lifecycle p = ExecutionLifecycle.COMMITTED ∧
    results (coord n) !! rid = Some res ∧ ExecutionResult.plan res = ClientReplyMsg.plan r ∧
    ExecutionResult.verification res = VerifyState.VERIFIED ∧
    ExecutionResult.output_digest res = ClientReplyMsg.output_digest r.
Proof.
  intros Hc Hex Hin Hcom. destruct (node_invariant _ _ _ _ _ Hc Hex) as [Hl Hb].
  pose proof (lifetime_ledger _ Hl) as Hok. split; [by apply ledger_exactly_once|].
  destruct (Hb r) as (rid & res & Hr & Hpl & Hrc & Hd);
    [right; right; by exists (tid, corr, r)|done|].
  destruct (lo_result _ Hok _ _ Hr) as (_ & _ & (p & Hp & _) & Hv & _). rewrite Hpl in Hp.
  exists p, rid, res. split_and!; try done; [|by apply Hv].
  apply (lo_commit _ Hok _ _ Hp). by exists rid, res.
Qed.

Definition last_reply (n : Node) : ClientReplyMsg := (List.last (replies n) (0, 0, ok_reply false)).2.

Lemma client_commits_are_real_witness :
  ∃ p, plans (coord (node_after completing)) !! 21 = Some p ∧
       ExecutionPlan.lifecycle p = ExecutionLifecycle.COMMITTED.
Proof.
  assert (Hr : map (fun x => (x.1, ClientReplyMsg.plan x.2, ClientReplyMsg.committed x.2))
    (replies (node_after completing)) = [((2, 7), 21, false); ((2, 7), 21, true)])
    by (vm_compute; reflexivity).
  destruct (replies (node_after completing)) as [|y [|[[tid corr] r] [|]]] eqn:Hn; try discriminate Hr.
  injection Hr as _ _ _ _ _ Hpl Hc.
  destruct (client_commits_are_real (demo_state []) "" ∅ completing (node_after completing) tid corr r)
    as (_ & q & rid & res & Hq & Hl & _).
  - apply reachable_lifetime, demo_reachable. vm_compute. reflexivity.
  - apply node_after_execution. vm_compute. reflexivity.
  - rewrite Hn. right. left.
  - exact Hc.
  - exists q. rewrite <- Hpl. split; [exact Hq|exact Hl].
Defined.

(** Claim C39: a waiting client is answered at most once, and by nobody else.
    In every interleaving, a client thread waiting in [fut.get()] is the only
    thread with its dispatch, and the promise of that dispatch is either set or
    pending on a worker, never both and never lost.  Once set it is never set
    again: every later step keeps the value, and the next step of the thread
    sends exactly that reply and returns to the frame loop.  While it is pending
    the applied completion of the dispatch sets it to the completion's reply,
    and the departure of that worker sets it to "outcome unknown". *)
Theorem waiting_client_answered_once c persist fs es n tid th k d corr :
  node_execution (node_of c persist fs) es n → exited n = false →
  threads n !! tid = Some th → t_pc th = Waiting k d corr →
  (∀ tid' th', threads n !! tid' = Some th' → owns (t_pc th') = Some d → tid' = tid) ∧
  ((∃ r, futures n !! d = Some r ∧ pending n !! d = None ∧
      (∀ e n', act e n = Some n' → futures n' !! d = Some r) ∧
      ∀ os sent, act (Resume tid os sent) n =
        Some (set_thread tid (at_pc Serving th) (reply_client tid corr r n))) ∨
   (∃ b, pending n !! d = Some b ∧ futures n !! d = None ∧
      (∀ os sent, act (Resume tid os sent) n = None) ∧
      ∀ tid' th' r os sent n', threads n !! tid' = Some th' →
        settles (t_pc th') (t_boot th') d b r →
        act (Resume tid' os sent) n = Some n' → futures n' !! d = Some r)).
Proof.
  intros Hex Hrun Hth Hpc. pose proof (node_promises _ _ _ _ _ Hex) as Hok.
  assert (Ho : owns (t_pc th) = Some d) by by rewrite Hpc.
  assert (Hstep : ∀ os sent, act (Resume tid os sent) n =
    let? r := futures n !! d otherwise None in
    Some (set_thread tid (at_pc Serving th) (reply_client tid corr r n))).
  { intros. unfold act, resume. by rewrite Hrun, Hth, Hpc. }
  split; [intros ????; by eapply (po_unique n)|].
  destruct (futures n !! d) as [r|] eqn:Hf.
  - left. exists r. split_and!; [done| | |done].
    + destruct (pending n !! d) as [b|] eqn:Hp; [|done]. by rewrite (po_once _ Hok _ _ Hp) in Hf.
    + intros e n' Ha. by eapply lookup_weaken, act_keeps.
  - right. destruct (proj1 (po_thread _ Hok _ _ _ Hth Ho)) as [[b Hb]|[r Hr]]; [by rewrite Hpc| |congruence].
    exists b. split_and!; try done. intros. by eapply settles_sets.
Qed.

(** The client of [completing] before the completion arrives, and after the
    worker's thread has resolved it. *)
Definition waiting_for : list Event := dispatching ++ replicate 2 (resume_ 2).
Definition resolved_for : list Event :=
  waiting_for ++ [frame 1 (P_RESULT demo_honest) (drawing 51); resume_ 1].

Lemma waiting_client_answered_once_witness :
  (∃ b, pending (node_after waiting_for) !! 31 = Some b) ∧
  (∃ r, futures (node_after resolved_for) !! 31 = Some r ∧
     pending (node_after resolved_for) !! 31 = None).
Proof.
  set (w := {| t_boot := 0; t_worker := false; t_pc := Waiting 21 31 7 |}).
  split.
  - destruct (waiting_client_answered_once (demo_state []) "" ∅ waiting_for
      (node_after waiting_for) 2 w 21 31 7) as [_ [(r & Hr & _)|(b & Hb & _)]].
    + apply node_after_execution. vm_compute. reflexivity.
    + vm_compute. reflexivity.
    + vm_compute. reflexivity.
    + reflexivity.
    + assert (Hn : futures (node_after waiting_for) !! 31 = None) by (vm_compute; reflexivity).
      rewrite Hn in Hr. discriminate Hr.
    + exists b. exact Hb.
  - destruct (waiting_client_answered_once (demo_state []) "" ∅ resolved_for
      (node_after resolved_for) 2 w 21 31 7) as [_ [(r & Hr & Hp & _)|(b & Hb & _)]].
    + apply node_after_execution. vm_compute. reflexivity.
    + vm_compute. reflexivity.
    + vm_compute. reflexivity.
    + reflexivity.
    + exists r. split; [exact Hr|exact Hp].
    + assert (Hn : pending (node_after resolved_for) !! 31 = None) by (vm_compute; reflexivity).
      rewrite Hn in Hb. discriminate Hb.
Defined.

(** Claim C40: a dispatch can be left waiting for ever.  Take any reachable state
    of the process in which a client's thread is about to register its promise
    for a dispatch [d] to a worker, the threads of that worker's connections are
    past [resolve_disconnect], and no other thread works on [d].  In every
    continuation without a completion for [d] and without a worker of that
    identity connecting again, the promise is never set: unless the client's own
    send failed on the way, it is still about to register, about to send, or
    waiting with the dispatch pending. *)
Theorem late_registration_never_resolved c persist fs es0 n ctid th k d dm sock corr es n' :
  node_execution (node_of c persist fs) es0 n →
  threads n !! ctid = Some th → t_pc th = Registering k d dm sock corr →
  DispatchMsg.worker_boot dm ≠ 0 → departed ctid d (DispatchMsg.worker_boot dm) n →
  Forall (quiet d (DispatchMsg.worker_boot dm)) es → node_execution n es n' →
  (∃ es1 es2 n1, es = es1 ++ es2 ∧ node_execution n es1 n1 ∧ unsent ctid d n1) ∨
  futures n' !! d = None ∧
  ∃ th', threads n' !! ctid = Some th' ∧ late d (DispatchMsg.worker_boot dm) (t_pc th') ∧
    (registered (t_pc th') = true → pending n' !! d = Some (DispatchMsg.worker_boot dm)).
Proof.
  intros Hex0 Hth Hpc Hb Hdep Hq Hex. pose proof (node_promises _ _ _ _ _ Hex0) as Hok.
  assert (Hn : ~ known d n).
  { rewrite <- (po_thread _ Hok _ _ d Hth) by by rewrite Hpc. by rewrite Hpc. }
  assert (Hs : stuck ctid d (DispatchMsg.worker_boot dm) n).
  { unfold known in Hn. split; [exists th; rewrite Hpc; split_and!; try done| |done];
      apply eq_None_not_Some; intros ?; apply Hn; auto. }
  destruct (stuck_forever _ _ _ Hb _ _ _ Hs Hq Hex) as [[(th' & H1 & H2 & H3) H4 _]|?]; [right|by left].
  split; [done|]. exists th'. split_and!; [done..|]. by intros Hr; rewrite Hr in H3.
Qed.

(** The state of the demonstration in which the worker has hung up and its thread
    resolved what was pending. *)
Definition late_start : list Event := dispatching ++ [Hangup 1; resume_ 1; resume_ 1].
Definition the_dispatch (n : Node) : DispatchMsg :=
  match t_pc <$> threads n !! 2 with Some (Registering _ _ dm _ _) => dm | _ => DispatchMsg.dflt end.

#[global] Instance gone_dec pc : base.Decision (gone pc).
Proof. destruct pc; (right; by intros []) || (left; (by left) || (by right)). Defined.
#[global] Instance departed_dec tid d boot n : base.Decision (departed tid d boot n).
Proof. unfold departed. apply _. Defined.

Lemma late_registration_never_resolved_witness :
  match run_node [resume_ 2; resume_ 2; resume_ 1] (node_after late_start) with
  | Some n => futures n !! 31 = None ∧ socket_open 1 n = false
  | None => False
  end.
Proof.
  set (n0 := node_after late_start).
  assert (Hfin : (fun n => (t_pc <$> threads n !! 2, socket_open 1 n, futures n !! 31)) <$>
    run_node [resume_ 2; resume_ 2; resume_ 1] n0 = Some (Some (Waiting 21 31 7), false, None))
    by (vm_compute; reflexivity).
  destruct (run_node [resume_ 2; resume_ 2; resume_ 1] n0) as [n|] eqn:Hrun; [|discriminate Hfin].
  injection Hfin as Hpc Hsock Hfut. split; [|exact Hsock].
  destruct (late_registration_never_resolved (demo_state []) "" ∅ late_start n0 2
    {| t_boot := 0; t_worker := false; t_pc := Registering 21 31 (the_dispatch n0) 1 7 |}
    21 31 (the_dispatch n0) 1 7 [resume_ 2; resume_ 2; resume_ 1] n) as [_|[Hf _]].
  - apply node_after_execution. vm_compute. reflexivity.
  - vm_compute. reflexivity.
  - reflexivity.
  - vm_compute. discriminate.
  - apply (bool_decide_eq_true_1 _). vm_compute. reflexivity.
  - repeat constructor.
  - apply run_node_execution. exact Hrun.
  - exact Hfut.
  - exact Hf.
Defined.

(** Claim C12: the process is the coordinator with its methods called one at a
    time.  Whatever frames arrive and however the threads interleave, the state
    of the coordinator is the one the methods they call, in the order of their
    critical sections, reach from the state at the start; and what those methods
    are is read off the frames and the threads' positions alone, so waiting,
    routing, sending and saving never touch it. *)
Theorem node_refines_coordinator n0 es n :
  node_execution n0 es n → execution (coord n0) (commands_of es n0) (coord n).
Proof. apply node_commands. Qed.

Lemma node_refines_coordinator_witness :
  execution (coord (node_of (demo_state []) "" ∅))
    (commands_of completing (node_of (demo_state []) "" ∅)) (coord (node_after completing)) ∧
  length (commands_of completing (node_of (demo_state []) "" ∅)) = 6%nat.
Proof.
  assert (Hex : node_execution (node_of (demo_state []) "" ∅) completing (node_after completing))
    by (apply node_after_execution; vm_compute; reflexivity).
  split; [exact (node_refines_coordinator _ completing (node_after completing) Hex)|].
  vm_compute. reflexivity.
Defined.
