(* ===== verification/CoordinatorProcess.v ===== *)
(** * The coordinator process ([main] of [nmc_coordinator.cpp])

    From the command line to the accept loop: the options, the network, the
    recovered state, the epoch asked for, and the listening socket whose port is
    printed.  The threads that serve connections are in [Node]. *)

From S2P Require Import Prelude Enums Ids Args Model State Coordinator Machine.
From S2P Require Import Worker Persistence StateCodec Recovery Net Sockets Node.

(** How [main] ends, or the process that accepts connections. *)
Inductive CoordinatorEnd : Type :=
| CoordinatorThrew
| CoordinatorExited (code : Z) (err : list string)
| CoordinatorListening (err : list string) (out : string) (n : Node) (net : NetState).

(** What the load at startup reports. *)
Definition load_report (ra : ReadAnswers) (persist : string) (fs : gmap string (list Z)) (s : RuntimeState)
    : list string :=
  if negb (String.eqb persist "") && bool_decide (is_Some (fs !! persist)) then
    match (coordinator_load ra (fs !! persist) s).1 with
    | Ok _ => []
    | Err e => ["load failed: " +:+ message e]
    end
  else [].

(** The object [listener] of [main]. *)
Definition listener : Z := 1.

(** [id] is the coordinator id drawn, [fs] the file system, [a] what the
    network and [ra] what the reads of the state file answer. *)
Definition coordinator_main (argv : list string) (id : CoordinatorId) (a : OpenAnswers)
    (ra : ReadAnswers) (fs : gmap string (list Z)) : CoordinatorEnd :=
  let? args := coordinator_args (parse_args argv ∅) otherwise CoordinatorThrew in
  let (init, net) := net_init (oa_wsa a) net_start in
  match init with
  | Err _ => CoordinatorExited 1 ["net_init failed"]
  | Ok _ =>
      let err := load_report ra (coa_persist args) fs (set_coordinator_id id (new_coordinator 0)) in
      let n := start ra id (coa_persist args) (coa_epoch args) fs in
      let net := set_object listener (new_object true) net in
      let (lr, net) := listen a listener "127.0.0.1" (coa_port args) net in
      match lr with
      | Err _ => CoordinatorExited 2 (err ++ ["listen failed"])
      | Ok _ =>
          let bound := match objects net !! listener with Some x => port_ x | None => 0 end in
          CoordinatorListening err ("PORT " +:+ to_string_u64 bound +:+ newline) n net
      end
  end.

(** ** What the process starts with *)

(** The coordinator before the epoch is advanced. *)
Definition first_state (ra : ReadAnswers) (id : CoordinatorId) (persist : string) (fs : gmap string (list Z))
    : RuntimeState :=
  let c := set_coordinator_id id (new_coordinator 0) in
  if negb (String.eqb persist "") && bool_decide (is_Some (fs !! persist))
  then (coordinator_load ra (fs !! persist) c).2 else c.

Lemma loaded_epoch ra file s : in_u64 (epoch s) → in_u64 (epoch (coordinator_load ra file s).2).
Proof.
  intros. unfold coordinator_load. destruct (load ra file decode_state); [|done]. apply u64_range.
Qed.

Lemma first_state_epoch ra id persist fs : in_u64 (epoch (first_state ra id persist fs)).
Proof. unfold first_state. case_match; [by apply loaded_epoch|done]. Qed.

(** The epoch asked for is reached and never lowered. *)
Lemma start_epoch ra id persist e fs :
  in_u64 e → epoch (coord (start ra id persist e fs)) =
    if 1 <? e then Z.max e (epoch (first_state ra id persist fs))
    else epoch (first_state ra id persist fs).
Proof.
  intros He. unfold start. fold (first_state ra id persist fs). cbn [coord node_of].
  case_match; [|done]. apply advance_until_reaches; [done|apply first_state_epoch].
Qed.

(** Advancing the epoch changes no result and no settled outcome. *)
Lemma advance_until_results fuel e s : results (advance_until fuel e s) = results s.
Proof.
  revert s. induction fuel as [|fuel IH]; intros s; simpl; [done|]. case_match; [|done].
  by rewrite IH.
Qed.

Lemma start_results ra id persist e fs :
  results (coord (start ra id persist e fs)) = results (first_state ra id persist fs).
Proof.
  unfold start. fold (first_state ra id persist fs). cbn [coord node_of].
  case_match; [apply advance_until_results|done].
Qed.

(** A process started on a file that a successful save wrote begins with what
    was saved. *)
Lemma first_state_saved os ra path s fs fs' id :
  read_ok ra = true → path ≠ "" → persistable s → coordinator_save os path s fs = Some (Ok tt, fs') →
  first_state ra id path fs' = recovered (durable s) ∧
  load_report ra path fs' (set_coordinator_id id (new_coordinator 0)) = [].
Proof.
  intros Hra Hne Hs Hsave. unfold first_state, load_report.
  assert (Hl : is_Some (fs' !! path)).
  { destruct (fs' !! path) eqn:Hf; [by eexists|].
    pose proof (saved_loads os ra path s fs fs' s Hra Hs Hsave) as H.
    rewrite Hf in H. unfold coordinator_load, load, read_whole_file in H. by destruct (ra_open ra). }
  rewrite (proj2 (String.eqb_neq _ _) Hne), bool_decide_eq_true_2 by done. simpl.
  by rewrite (saved_loads os ra path s fs fs' _ Hra Hs Hsave).
Qed.

(** The plan stored under [k], with its committed or resolved status kept. *)
Definition same_verdict (p p' : ExecutionPlan) : Prop :=
  plan_identity p' = plan_identity p ∧
  (ExecutionPlan.lifecycle p' = ExecutionLifecycle.COMMITTED ↔
   ExecutionPlan.lifecycle p = ExecutionLifecycle.COMMITTED).

Lemma advance_epoch_plan s k :
  plans (advance_epoch s) !! k =
  (fun p => ExecutionPlan.set_lifecycle (epoch_lifecycle (ExecutionPlan.lifecycle p)) p) <$> plans s !! k.
Proof.
  change (plans (advance_epoch s)) with
    ((fun p => ExecutionPlan.set_lifecycle (epoch_lifecycle (ExecutionPlan.lifecycle p)) p) <$> plans s).
  apply lookup_fmap.
Qed.

Lemma advance_until_plan fuel e s k p :
  plans s !! k = Some p → is_resolved (ExecutionPlan.lifecycle p) = true →
  ∃ p', plans (advance_until fuel e s) !! k = Some p' ∧ same_verdict p p' ∧
        is_resolved (ExecutionPlan.lifecycle p') = true.
Proof.
  revert s p. induction fuel as [|fuel IH]; intros s p Hp Hr; simpl; [by exists p|].
  case_match; [|by exists p].
  destruct (IH (advance_epoch s) (ExecutionPlan.set_lifecycle (epoch_lifecycle (ExecutionPlan.lifecycle p)) p))
    as (p' & Hp' & [Hid Hc] & Hr').
  - by rewrite advance_epoch_plan, Hp.
  - apply epoch_lifecycle_resolved.
  - exists p'. split_and!; [done|split; [done|]|done].
    rewrite Hc. apply epoch_lifecycle_committed.
Qed.

Lemma start_plan ra id persist e fs k p :
  plans (first_state ra id persist fs) !! k = Some p → is_resolved (ExecutionPlan.lifecycle p) = true →
  ∃ p', plans (coord (start ra id persist e fs)) !! k = Some p' ∧ same_verdict p p' ∧
        is_resolved (ExecutionPlan.lifecycle p') = true.
Proof.
  intros. unfold start. fold (first_state ra id persist fs). cbn [coord node_of].
  case_match; [by apply advance_until_plan|by exists p].
Qed.

(** The listening socket, once every call has succeeded. *)
Lemma listen_succeeds a port net h :
  g_wsa_init_ok net = true → wsa_called net = true → oa_socket a = Some h →
  oa_bind a = None → oa_listen a = None → objects net !! listener = Some (new_object true) →
  ∃ net', listen a listener "127.0.0.1" port net = (Ok tt, net') ∧
    objects net' !! listener = Some (object_of true h (default 0 (oa_port a))) ∧
    h ∈ opened net' ∧ listening net' !! h = Some (default INADDR_ANY (oa_pton a), port).
Proof.
  intros Hw Hc Hs Hb Hl Ho. unfold listen, net_init. rewrite Hc, Hw, Hs, Hb, Hl.
  cbn [objects bind_socket open_socket]. rewrite Ho. eexists. split; [reflexivity|]. simpl.
  rewrite !lookup_insert_eq. split_and!; [done|set_solver|done].
Qed.

(** ** Property *)

(** Claim C17: a restarted coordinator process takes up where the saved one left
    off, conservatively.  Let a successful save have written a state the format
    can hold ([persistable]: no operation names a program or a program generation,
    every enumerator is one of its enumeration, numbers are within their types, no
    table exceeds the count the loader accepts).  Started with the command line that spells out its port,
    epoch and state file, when the file is read and the network answers, [main]
    reaches its accept loop: it prints the port the system bound, its listening
    socket is open and bound to the requested port, every stored result is the
    saved one, the epoch is the successor of the saved one (a 64-bit counter,
    which wraps) or, if larger and above 1, the one asked for, and each saved plan
    is there, COMMITTED if and only if it was, and otherwise resolved. *)
Theorem coordinator_process_restarts c id a ra os s fs fs' h :
  coordinator_args_ok c → read_ok ra = true → coa_persist c ≠ "" → persistable s →
  coordinator_save os (coa_persist c) s fs = Some (Ok tt, fs') →
  oa_wsa a = true → oa_socket a = Some h → oa_bind a = None → oa_listen a = None →
  ∃ n net,
    coordinator_main (coordinator_argv c) id a ra fs' =
      CoordinatorListening [] ("PORT " +:+ to_string_u64 (default 0 (oa_port a)) +:+ newline) n net ∧
    h ∈ opened net ∧ listening net !! h = Some (default INADDR_ANY (oa_pton a), coa_port c) ∧
    results (coord n) = results s ∧
    epoch (coord n) = (if 1 <? coa_epoch c then Z.max (coa_epoch c) else fun e => e) (u64 (epoch s + 1)) ∧
    ∀ k p, plans s !! k = Some p →
      ∃ p', plans (coord n) !! k = Some p' ∧ same_verdict p p' ∧
            is_resolved (ExecutionPlan.lifecycle p') = true.
Proof.
  intros Hc Hra Hne Hs Hsave Hw Hh Hb Hl.
  destruct (first_state_saved os ra (coa_persist c) s fs fs' id Hra Hne Hs Hsave) as [Hfirst Hrep].
  unfold coordinator_main. rewrite coordinator_args_parse by done. unfold net_init. rewrite Hw. simpl.
  rewrite Hrep.
  destruct (listen_succeeds a (coa_port c)
    (set_object listener (new_object true) (set_wsa true true net_start)) h)
    as (net & -> & Ho & Hop & Hli); [done..|apply lookup_insert_eq|].
  rewrite Ho. eexists _, net. split; [reflexivity|]. split_and!; [done|done| | |].
  - by rewrite start_results, Hfirst.
  - rewrite start_epoch, Hfirst by apply Hc. by case_match.
  - intros k p Hp.
    destruct (start_plan ra id (coa_persist c) (coa_epoch c) fs' k
      (ExecutionPlan.set_lifecycle (epoch_lifecycle (ExecutionPlan.lifecycle p)) p))
      as (p' & Hp' & [Hid Hcm] & Hr).
    + rewrite Hfirst. apply recovered_lookup. by exists p.
    + apply epoch_lifecycle_resolved.
    + exists p'. split_and!; [done|split; [done|]|done]. rewrite Hcm. apply epoch_lifecycle_committed.
Qed.

Definition sample_coordinator_args : CoordinatorArgs :=
  {| coa_port := 4242; coa_persist := "state"; coa_epoch := 1 |}.
Definition sample_network : OpenAnswers :=
  {| oa_wsa := true; oa_socket := Some 7; oa_pton := Some 2130706433; oa_bind := None;
     oa_listen := None; oa_port := Some 4242; oa_connect := None; oa_accept := None; oa_error := 0 |}.

Lemma coordinator_process_restarts_witness :
  match coordinator_save (os_for (demo_state demo_committed)) "state" (demo_state demo_committed) ∅ with
  | Some (Ok _, fs') =>
      ∃ n net, coordinator_main ["--port"; "4242"; "--epoch"; "1"; "--persist"; "state"] 3
                 sample_network reads_fine fs' =
               CoordinatorListening [] ("PORT 4242" +:+ newline) n net ∧
        results (coord n) = results (demo_state demo_committed)
  | _ => False
  end.
Proof.
  destruct (coordinator_save _ _ _ _) as [[[[]|e] fs']|] eqn:Hsave.
  - destruct (coordinator_process_restarts sample_coordinator_args 3 sample_network reads_fine
      (os_for (demo_state demo_committed)) (demo_state demo_committed) ∅ fs' 7)
      as (n & net & Hm & _ & _ & Hr & _);
      [vm_compute; intuition congruence|reflexivity|discriminate| |exact Hsave|reflexivity..|].
    + apply (bool_decide_eq_true_1 _). vm_compute. reflexivity.
    + exists n, net. split; [exact Hm|exact Hr].
  - apply (f_equal (option_map fst)) in Hsave. vm_compute in Hsave. discriminate Hsave.
  - apply (f_equal (option_map fst)) in Hsave. vm_compute in Hsave. discriminate Hsave.
Defined.
