(* ===== verification/Serve.v ===== *)
(** * The accept loop and its sockets ([main] of [nmc_coordinator.cpp])

    The node of [Node] names a connection by a number and asks only whether its
    socket is open.  Here the number stands for a [TcpSocket] shared by the
    connection's thread, the entry of [workers] that routes to it and the client
    threads about to send on it; the accept loop makes it from what the system's
    [accept] answers.  The two models run side by side, and the node's view of a
    socket is shown to be the state of the object. *)

From S2P Require Import Prelude Enums Ids Args Model Codec Protocol State Coordinator Machine.
From S2P Require Import Worker Persistence StateCodec Recovery Net Sockets Node CoordinatorProcess.

(** ** The process while it serves *)

Record Server := { node : Node; net : NetState }.

(** The local [acc] of the loop, and the socket [*sock] of a connection. *)
Definition acc : Z := 3.
Definition sock_of (tid : Z) : Z := 2 * tid.

(** [accept], the move into the shared socket, and the end of [acc]'s scope;
    [None]: the call failed. *)
Definition accepted (a : OpenAnswers) (tid : Z) (s : NetState) : option NetState :=
  let (r, s) := accept a listener acc s in
  if has_value r then Some (destroy acc (move_construct (sock_of tid) acc s)) else None.

(** The end of [main]: [net_cleanup], then the destructor of [listener]. *)
Definition leave_main (s : NetState) : NetState := destroy listener (net_cleanup s).

(** The socket a client thread holds as [target_sock], until it has sent. *)
Definition aims (pc : Pc) : option Z :=
  match pc with
  | Confirming _ _ _ sock _ | Registering _ _ _ sock _ | Sending _ _ _ sock _ => Some sock
  | _ => None
  end.
Definition is_closed (pc : Pc) : bool := match pc with Closed => true | _ => false end.
(** Somebody has the shared pointer. *)
Definition referred (tid : Z) (n : Node) : Prop :=
  map_Exists (fun t th => (t = tid ∧ is_closed (t_pc th) = false) ∨ aims (t_pc th) = Some tid) (threads n) ∨
  map_Exists (fun _ t => t = tid) (sockets n).
#[global] Instance referred_dec tid n : base.Decision (referred tid n).
Proof. unfold referred. apply _. Defined.

Inductive ServerEvent :=
| Accepting (a : OpenAnswers) (tid : Z)     (* one turn of the accept loop *)
| Working (e : Event)                       (* a step of a connection's thread *)
| Releasing (tid : Z).                      (* the last pointer to a socket goes *)

(** The thread that closes its socket in this step. *)
Definition closes (e : Event) (n : Node) : option Z :=
  match e with
  | Resume tid _ _ =>
      let? th := threads n !! tid otherwise None in
      match t_pc th with Closing => Some tid | _ => None end
  | _ => None
  end.

Definition serve (ev : ServerEvent) (s : Server) : option Server :=
  if exited (node s) then None else
  match ev with
  | Accepting a tid =>
      let? net1 := accepted a tid (net s)
        otherwise (Some {| node := set_flags (running (node s)) true (node s);
                           net := leave_main (net s) |}) in
      let? n := act (Node.Connect tid) (node s) otherwise None in
      Some {| node := n; net := if exited n then leave_main net1 else net1 |}
  | Working (Node.Connect _) => None
  | Working e =>
      let? n := act e (node s) otherwise None in
      Some {| node := n; net := match closes e (node s) with
                                | Some tid => close (sock_of tid) (net s)
                                | None => net s
                                end |}
  | Releasing tid =>
      if bool_decide (is_Some (objects (net s) !! sock_of tid) ∧ ~ referred tid (node s))
      then Some {| node := node s; net := destroy (sock_of tid) (net s) |} else None
  end.

(** The system hands out sockets that are not open. *)
Definition serve_fresh (ev : ServerEvent) (s : Server) : Prop :=
  match ev with
  | Accepting a _ => fresh_handle (oa_accept a) (net s)
  | Working e => event_fresh e (node s)
  | Releasing _ => True
  end.

Inductive server_execution (s : Server) : list ServerEvent → Server → Prop :=
| server_nil : server_execution s [] s
| server_snoc evs ev s1 s2 :
    server_execution s evs s1 → serve_fresh ev s1 → serve ev s1 = Some s2 →
    server_execution s (evs ++ [ev]) s2.

(** ** What a thread's step does to connections and routes *)

Record thread_step (n n' : Node) (tid : Z) (th th' : Thread) (close : bool) : Prop := {
  ts_before : threads n !! tid = Some th;
  ts_after : threads n' = <[tid := th']> (threads n);
  ts_alive : is_closed (t_pc th) = false;
  ts_closed : is_closed (t_pc th') = close;
  ts_aims sock : aims (t_pc th') = Some sock →
    aims (t_pc th) = Some sock ∨ ∃ b, sockets n !! b = Some sock;
  ts_routes b sock : sockets n' !! b = Some sock → sockets n !! b = Some sock ∨ sock = tid
}.

Lemma resolve_dispatch_sockets d reply n : sockets (resolve_dispatch d reply n) = sockets n.
Proof. unfold resolve_dispatch. by case_match. Qed.

Lemma thread_step_same n n' tid th :
  threads n !! tid = Some th → is_closed (t_pc th) = false → threads n' = threads n →
  sockets n' = sockets n → thread_step n n' tid th th false.
Proof.
  intros Ht Hc Ht' Hs. split; try done; [by rewrite Ht', insert_id|by left|].
  rewrite Hs. by left.
Qed.

Lemma on_frame_step draw tid th t corr bytes n :
  serving tid n = Some th →
  ∃ th', thread_step n (on_frame draw tid th t corr bytes n) tid th th' false.
Proof.
  intros [Ht Hpc]%serving_Some.
  assert (Hc : is_closed (t_pc th) = false) by by rewrite Hpc.
  unfold on_frame, on_result. destruct t; try (exists th; by apply thread_step_same).
  all: destruct (decoded _ bytes) as [[]|]; try (exists th; by apply thread_step_same).
  all: try pair_state; repeat case_match.
  all: first [exists th; by apply thread_step_same
             | eexists; split; [done|reflexivity|done|done|done|by left]].
Qed.

Lemma resume_step os sent tid th n n' :
  threads n !! tid = Some th → resume os sent tid th n = Some n' →
  ∃ th', thread_step n n' tid th th' (match t_pc th with Closing => true | _ => false end).
Proof.
  intros Ht. unfold resume. destruct (t_pc th) eqn:Hpc; intros H; simplify_eq.
  all: try pair_state; repeat case_match; simplify_eq.
  all: try (exists th; apply thread_step_same; by rewrite ?Hpc).
  all: eexists; split; [done|simpl; rewrite ?resolve_dispatch_threads; reflexivity|by rewrite Hpc|done| |].
  all: try (simpl; rewrite ?resolve_dispatch_sockets; by left).
  - simpl. intros b sock [[_ <-]|[_ ?]]%lookup_insert_Some; [by right|by left].
  - intros sock [= <-]. right. by eexists.
  - intros sock' [= <-]. left. by rewrite Hpc.
  - intros sock' [= <-]. left. by rewrite Hpc.
  - simpl. intros b sock [_ ?]%lookup_delete_Some. by left.
Qed.

Lemma act_step e n n' :
  (∀ tid, e ≠ Node.Connect tid) → act e n = Some n' →
  ∃ tid th th', thread_step n n' tid th th' (bool_decide (is_Some (closes e n))) ∧
    ∀ tid', closes e n = Some tid' → tid' = tid.
Proof.
  intros He. unfold act, closes. destruct (exited n); [done|].
  destruct e as [tid|tid t corr bytes draw|tid|tid os sent]; [by destruct (He tid)|..].
  - destruct (serving tid n) as [th|] eqn:Hs; [|done]. intros [= <-]. simpl.
    destruct (on_frame_step draw tid th t corr bytes n Hs) as [th' Hst]. by exists tid, th, th'.
  - destruct (serving tid n) as [th|] eqn:Hs; [|done]. intros [= <-].
    apply serving_Some in Hs as [Ht Hpc]. exists tid, th. eexists. split; [|done].
    split; [done|reflexivity|by rewrite Hpc|by destruct (t_worker th)|by destruct (t_worker th)|by left].
  - destruct (threads n !! tid) as [th|] eqn:Ht; [|done]. intros Hr.
    destruct (resume_step _ _ _ _ _ _ Ht Hr) as [th' Hst]. exists tid, th, th'. simpl.
    destruct (t_pc th); by split; [|intros ? [=]].
Qed.

(** ** Sockets and connections *)

(** No object of the serving process is unopened. *)
Definition nowhere (h : Z) : Prop := False.
#[global] Instance nowhere_dec h : base.Decision (nowhere h).
Proof. right. by intros []. Defined.

Lemma valid_owned h : socket_valid h = true → owned nowhere h.
Proof. intros Hv%negb_true_iff%Z.eqb_neq. by split; [intros []|]. Qed.
Lemma sock_listener tid : sock_of tid ≠ listener.
Proof. unfold sock_of, listener. lia. Qed.
Lemma sock_acc tid : sock_of tid ≠ acc.
Proof. unfold sock_of, acc. lia. Qed.
Lemma sock_inj t1 t2 : sock_of t1 = sock_of t2 → t1 = t2.
Proof. unfold sock_of. lia. Qed.

(** The object holds an open socket. *)
Definition open_in (s : NetState) (o : Z) : Prop :=
  ∃ x, objects s !! o = Some x ∧ socket_valid (handle_ x) = true.

Lemma accepted_Some a tid s s' :
  objects s !! acc = None → accepted a tid s = Some s' →
  ∃ h, oa_accept a = Some h ∧ s' = destroy acc (set_object acc (object_of false kInvalidSocket 0)
    (set_object (sock_of tid) (object_of false h 0) (set_object acc (object_of false h 0) (open_socket h s)))).
Proof.
  intros Hacc. unfold accepted, accept. repeat case_match; simplify_eq; try done.
  intros [= <-]. eexists. split; [done|]. unfold move_construct. simpl. by rewrite lookup_insert_eq.
Qed.

Lemma accepted_objects a tid s s' :
  objects s !! acc = None → accepted a tid s = Some s' →
  ∃ h, oa_accept a = Some h ∧ objects s' = <[sock_of tid := object_of false h 0]> (objects s).
Proof.
  intros Hacc (h & Ha & ->)%accepted_Some; [|done]. exists h. split; [done|].
  unfold destroy, close. simpl. rewrite lookup_insert_eq. simpl. apply map_eq. intros o.
  destruct (decide (acc = o)) as [<-|Hne].
  - rewrite lookup_delete_eq, lookup_insert_ne; [done|apply sock_acc].
  - rewrite lookup_delete_ne, lookup_insert_ne by done.
    destruct (decide (sock_of tid = o)) as [<-|]; [by rewrite !lookup_insert_eq|].
    by rewrite !lookup_insert_ne.
Qed.

Lemma accepted_inv a tid s s' :
  net_inv nowhere ∅ s → objects s !! acc = None → objects s !! sock_of tid = None →
  fresh_handle (oa_accept a) s → accepted a tid s = Some s' → net_inv nowhere ∅ s'.
Proof.
  intros Hi Hacc Hs Hf (h & Ha & ->)%accepted_Some; [|done]. rewrite Ha in Hf. destruct Hf as [Hf Hv].
  apply net_inv_drop; [|intros x L; by eapply invalid_not_owned, close_releases].
  apply (net_inv_close nowhere), (net_inv_transfer nowhere ∅ (sock_of tid) acc (object_of false h 0)).
  - apply net_inv_give; [done|done|done|congruence].
  - apply lookup_insert_eq.
  - apply sock_acc.
  - intros x'. simpl. rewrite lookup_insert_ne; [congruence|]. intros E. by eapply sock_acc.
Qed.

(** The listener and the connections whose thread has not ended hold an open
    socket each, and nothing else does; a socket somebody can reach exists. *)
Record server_ok (s : Server) : Prop := {
  so_net : net_inv nowhere ∅ (net s);
  so_stray : stray (net s) = [];
  so_listener : open_in (net s) listener;
  so_objects o : is_Some (objects (net s) !! o) →
    o = listener ∨ ∃ tid, o = sock_of tid ∧ is_Some (threads (node s) !! tid);
  so_open tid th : threads (node s) !! tid = Some th → is_closed (t_pc th) = false →
    open_in (net s) (sock_of tid);
  so_closed tid th : threads (node s) !! tid = Some th → is_closed (t_pc th) = true →
    ~ open_in (net s) (sock_of tid);
  so_routes b sock : sockets (node s) !! b = Some sock → is_Some (objects (net s) !! sock_of sock);
  so_aims tid th sock : threads (node s) !! tid = Some th → aims (t_pc th) = Some sock →
    is_Some (objects (net s) !! sock_of sock)
}.

Lemma so_acc s : server_ok s → objects (net s) !! acc = None.
Proof.
  intros Hok. destruct (objects (net s) !! acc) eqn:Ha; [|done]. exfalso.
  destruct (so_objects _ Hok acc) as [E|(tid & E & _)]; [by eexists|done|by eapply sock_acc].
Qed.
Lemma so_new s tid : server_ok s → threads (node s) !! tid = None → objects (net s) !! sock_of tid = None.
Proof.
  intros Hok Ht. destruct (objects (net s) !! sock_of tid) eqn:Ha; [|done]. exfalso.
  destruct (so_objects _ Hok (sock_of tid)) as [E|(tid' & E%sock_inj & [? Ht'])];
    [by eexists|by eapply sock_listener|]. congruence.
Qed.

Lemma stray_close o s :
  net_inv nowhere ∅ s → stray (close o s) = stray s.
Proof.
  intros Hi. unfold close. destruct (objects s !! o) as [x|] eqn:Hx; [|done].
  destruct (socket_valid (handle_ x)) eqn:Hv; [|done]. simpl.
  rewrite decide_True; [by rewrite app_nil_r|]. eapply ni_open; [done|done|by apply valid_owned].
Qed.
Lemma open_in_close o o' s : open_in (close o s) o' ↔ open_in s o' ∧ o' ≠ o.
Proof.
  unfold open_in. destruct (decide (o' = o)) as [->|Hne].
  - split; [|by intros []]. intros (x & Hx & Hv). apply close_releases in Hx. congruence.
  - rewrite close_other by done. split; [done|by intros []].
Qed.
Lemma is_Some_close o o' s : is_Some (objects (close o s) !! o') ↔ is_Some (objects s !! o').
Proof.
  destruct (decide (o' = o)) as [->|]; [|by rewrite close_other].
  unfold close. destruct (objects s !! o) as [x|] eqn:Hx; [|by rewrite Hx].
  destruct (socket_valid _); simpl; rewrite ?lookup_insert_eq, ?Hx; split; intros; by eexists.
Qed.

(** A step of a thread that keeps its socket, or closes it. *)
Lemma server_ok_thread s n' tid th th' close_it :
  server_ok s → thread_step (node s) n' tid th th' close_it →
  server_ok {| node := n'; net := if close_it then close (sock_of tid) (net s) else net s |}.
Proof.
  intros Hok [Ht Ht' Ha Hc Haim Hr].
  assert (Hobj : ∀ o, is_Some (objects (if close_it then close (sock_of tid) (net s) else net s) !! o) ↔
    is_Some (objects (net s) !! o)) by (intros o; destruct close_it; [apply is_Some_close|done]).
  assert (Hopen : ∀ o, open_in (if close_it then close (sock_of tid) (net s) else net s) o ↔
    open_in (net s) o ∧ (close_it = true → o ≠ sock_of tid)).
  { intros o. destruct close_it; [rewrite open_in_close|]; split; [intros []| |intros|]; naive_solver. }
  destruct (so_open _ Hok _ _ Ht Ha) as (x & Hx & Hv).
  split; simpl; setoid_rewrite Hobj || setoid_rewrite Hopen || idtac.
  - destruct close_it; [apply (net_inv_close nowhere)|]; apply Hok.
  - destruct close_it; [rewrite stray_close|]; apply Hok.
  - split; [apply Hok|]. intros _ E. by eapply sock_listener.
  - intros o Ho. rewrite Ht'. destruct (so_objects _ Hok o Ho) as [?|(t & -> & Hst)]; [by left|right].
    exists t. split; [done|]. rewrite lookup_insert_is_Some. by destruct (decide (tid = t)); auto.
  - rewrite Ht'. intros t th1 [[<- <-]|[Hne Hth]]%lookup_insert_Some Hcl.
    + split; [by exists x|]. congruence.
    + split; [by eapply (so_open _ Hok)|]. intros _ E%sock_inj. done.
  - rewrite Ht'. intros t th1 [[<- <-]|[Hne Hth]]%lookup_insert_Some Hcl [Hop Hno].
    + by destruct (Hno ltac:(congruence)).
    + by eapply (so_closed _ Hok).
  - intros b sock Hs. destruct (Hr b sock Hs) as [?| ->]; [by eapply (so_routes _ Hok)|by eexists].
  - rewrite Ht'. intros t th1 sock [[<- <-]|[Hne Hth]]%lookup_insert_Some Hs; [|by eapply (so_aims _ Hok)].
    destruct (Haim sock Hs) as [?|[b ?]]; [by eapply (so_aims _ Hok)|by eapply (so_routes _ Hok)].
Qed.

(** A connection is accepted. *)
Lemma server_ok_accept s a tid net1 n :
  server_ok s → accepted a tid (net s) = Some net1 → act (Node.Connect tid) (node s) = Some n →
  fresh_handle (oa_accept a) (net s) → server_ok {| node := n; net := net1 |}.
Proof.
  intros Hok Hacc Ha Hf. unfold act in Ha. destruct (exited (node s)); [done|].
  destruct (threads (node s) !! tid) eqn:Ht; [done|]. injection Ha as <-.
  pose proof (so_acc _ Hok) as Hno. pose proof (so_new _ _ Hok Ht) as Hnew.
  destruct (accepted_objects _ _ _ _ Hno Hacc) as (h & Hh & Ho).
  assert (Hv : socket_valid h = true).
  { rewrite Hh in Hf. apply negb_true_iff, Z.eqb_neq, Hf. }
  assert (Hold : ∀ o, is_Some (objects (net s) !! o) → is_Some (objects net1 !! o)).
  { intros o. rewrite Ho, lookup_insert_is_Some. destruct (decide (sock_of tid = o)); auto. }
  assert (Hopen : ∀ o, open_in net1 o ↔ open_in (net s) o ∨ o = sock_of tid).
  { intros o. unfold open_in. rewrite Ho. destruct (decide (sock_of tid = o)) as [<-|Hne].
    - rewrite lookup_insert_eq. split; [by right|]. intros _. by eexists.
    - rewrite lookup_insert_ne by done. split; [by left|]. by intros [?| ->]. }
  split; simpl; try setoid_rewrite Hopen.
  - eapply accepted_inv; [apply Hok|exact Hno|exact Hnew|exact Hf|exact Hacc].
  - pose proof Hacc as (h' & _ & ->)%accepted_Some; [|done]. unfold destroy, close. simpl.
    rewrite lookup_insert_eq. simpl. apply Hok.
  - left. apply Hok.
  - intros o. rewrite Ho, lookup_insert_is_Some. intros [<-|[_ Hst]].
    + right. exists tid. by rewrite lookup_insert_eq.
    + destruct (so_objects _ Hok o Hst) as [?|(t & -> & Hst')]; [by left|right].
      exists t. split; [done|]. rewrite lookup_insert_is_Some. destruct (decide (tid = t)); auto.
  - intros t th [[<- <-]|[_ Hth]]%lookup_insert_Some Hcl; [by right|left]. by eapply (so_open _ Hok).
  - intros t th [[<- <-]|[Hne Hth]]%lookup_insert_Some Hcl; [done|]. intros [Hop|E%sock_inj]; [|done].
    by eapply (so_closed _ Hok).
  - intros b sock Hs. by eapply Hold, (so_routes _ Hok).
  - intros t th sock [[<- <-]|[_ Hth]]%lookup_insert_Some Hs; [done|]. by eapply Hold, (so_aims _ Hok).
Qed.

(** A socket nobody refers to is destroyed; it is closed already. *)
Lemma server_ok_release s tid :
  server_ok s → ~ referred tid (node s) →
  server_ok {| node := node s; net := destroy (sock_of tid) (net s) |}.
Proof.
  intros Hok Hun.
  assert (Hcl : ∀ th, threads (node s) !! tid = Some th → is_closed (t_pc th) = true).
  { intros th Ht. destruct (is_closed (t_pc th)) eqn:Hc; [done|]. destruct Hun. left. by exists tid, th; auto. }
  assert (Hobj : ∀ o, o ≠ sock_of tid → objects (destroy (sock_of tid) (net s)) !! o = objects (net s) !! o).
  { intros o Hne. simpl. rewrite lookup_delete_ne, close_other; done. }
  assert (Hopen : ∀ o, open_in (destroy (sock_of tid) (net s)) o ↔ open_in (net s) o ∧ o ≠ sock_of tid).
  { intros o. unfold open_in. destruct (decide (o = sock_of tid)) as [->|Hne]; [|rewrite Hobj by done; naive_solver].
    simpl. rewrite lookup_delete_eq. split; [by intros (? & [=] & _)|by intros []]. }
  assert (Hsock : ∀ t, t ≠ tid → sock_of t ≠ sock_of tid) by (intros t Hne E; by apply Hne, sock_inj).
  split; simpl; try setoid_rewrite Hopen.
  - apply net_inv_drop; [apply (net_inv_close nowhere), Hok|].
    intros x L. by eapply invalid_not_owned, close_releases.
  - rewrite stray_close; apply Hok.
  - split; [apply Hok|]. intros E. by eapply sock_listener.
  - intros o. rewrite lookup_delete_is_Some. intros [Hne Hst]. rewrite is_Some_close in Hst. by apply Hok.
  - intros t th Ht Hc. split; [by eapply (so_open _ Hok)|]. apply Hsock. intros ->.
    rewrite Hcl in Hc; done.
  - intros t th Ht Hc [Hop _]. by eapply (so_closed _ Hok).
  - intros b t Hs. rewrite lookup_delete_ne, close_other; [by eapply (so_routes _ Hok)|..].
    all: first [apply Hsock | apply not_eq_sym, Hsock]; intros ->; apply Hun; right; by exists b, tid.
  - intros t th sock Ht Hs. rewrite lookup_delete_ne, close_other; [by eapply (so_aims _ Hok)|..].
    all: first [apply Hsock | apply not_eq_sym, Hsock]; intros ->; apply Hun; left; by exists t, th; auto.
Qed.

Lemma closes_Some e n tid : closes e n = Some tid → ∃ os sent, e = Resume tid os sent.
Proof. destruct e; simpl; try done. repeat case_match; intros; simplify_eq. eauto. Qed.

Lemma server_ok_step ev s s' :
  server_ok s → serve_fresh ev s → serve ev s = Some s' → exited (node s') = false →
  server_ok s' ∧
  (node s' = node s ∨ ∃ e, event_fresh e (node s) ∧ act e (node s) = Some (node s')).
Proof.
  intros Hok Hf Hs Hx. unfold serve in Hs. destruct (exited (node s)) eqn:He; [done|].
  destruct ev as [a tid|e|tid]; simpl in Hf.
  - destruct (accepted a tid (net s)) as [net1|] eqn:Ha; [|by simplify_eq].
    destruct (act (Node.Connect tid) (node s)) as [n|] eqn:Hc; [|done]. injection Hs as <-. simpl in Hx.
    rewrite Hx. split; [by eapply server_ok_accept|]. right. by exists (Node.Connect tid).
  - assert (Hne : ∀ t, e ≠ Node.Connect t) by (intros t ->; done).
    assert (Hw : ∃ n, act e (node s) = Some n ∧ s' = {| node := n;
      net := match closes e (node s) with Some t => close (sock_of t) (net s) | None => net s end |}).
    { destruct e; [done|..]; (destruct (act _ _) as [n|]; [|done]); injection Hs as <-; by exists n. }
    destruct Hw as (n & Ha & ->). split; [|right; by exists e].
    destruct (act_step e _ _ Hne Ha) as (t & th & th' & Hst & Htid).
    pose proof (server_ok_thread _ _ _ _ _ _ Hok Hst) as Hok'.
    destruct (closes e (node s)) as [t'|] eqn:Hcl; [|exact Hok'].
    rewrite (Htid _ eq_refl). exact Hok'.
  - case_bool_decide as Hr; [|done]. injection Hs as <-. split; [by apply server_ok_release, Hr|by left].
Qed.

Lemma server_invariant s0 evs s :
  server_ok s0 → server_execution s0 evs s → exited (node s) = false →
  server_ok s ∧ ∃ es, node_execution (node s0) es (node s).
Proof.
  intros H0. induction 1 as [|evs ev s1 s2 Hex IH Hf Hs]; intros Hx; [split; [done|by exists []; constructor]|].
  assert (Hx1 : exited (node s1) = false) by (unfold serve in Hs; by destruct (exited (node s1))).
  destruct (IH Hx1) as (Hok & es & Hes).
  destruct (server_ok_step _ _ _ Hok Hf Hs Hx) as [Hok' [-> |(e & Hef & Ha)]]; split; eauto.
  exists (es ++ [e]). by econstructor.
Qed.

(** The process as [main] enters its loop. *)
Lemma server_ok_start n s h p :
  threads n = ∅ → sockets n = ∅ → objects s = {[listener := object_of true h p]} →
  opened s = {[h]} → stray s = [] → h ≠ kInvalidSocket → server_ok {| node := n; net := s |}.
Proof.
  intros Ht Hs Ho Hop Hst Hv. split; simpl; rewrite ?Ht, ?Hs; try done.
  - split; rewrite ?Ho, ?Hop, ?Hst; try constructor; try set_solver.
    + by intros o1 o2 x1 x2 [<- _]%lookup_singleton_Some [<- _]%lookup_singleton_Some.
    + intros o x [_ <-]%lookup_singleton_Some _. simpl. set_solver.
    + intros h' ->%elem_of_singleton _. exists listener. eexists. by rewrite lookup_singleton_eq.
  - eexists. rewrite Ho, lookup_singleton_eq. split; [done|]. by apply negb_true_iff, Z.eqb_neq.
  - intros o. rewrite Ho. intros [x [<- _]%lookup_singleton_Some]. by left.
Qed.

Lemma listening_ok argv id a ra fs err out n s :
  coordinator_main argv id a ra fs = CoordinatorListening err out n s → fresh_handle (oa_socket a) net_start →
  server_ok {| node := n; net := s |}.
Proof.
  unfold coordinator_main, listen, net_init. intros Hm Hf. repeat case_match; simplify_eq; try done.
  simpl in *. simplify_map_eq. destruct Hf as [_ Hv].
  eapply (server_ok_start _ _ z); try done; simpl; first [by rewrite insert_insert_eq | set_solver].
Qed.

(** ** Shutting down *)

Lemma on_frame_running draw tid th t corr bytes n :
  running n = false → running (on_frame draw tid th t corr bytes n) = false.
Proof.
  intros Hr. unfold on_frame, on_result. destruct t; try done.
  all: destruct (decoded _ bytes) as [[]|]; try done; try pair_state; repeat case_match; done.
Qed.
Lemma resume_flags os sent tid th n n' :
  resume os sent tid th n = Some n' → running n' = running n ∧
  (exited n' = exited n ∨ ∃ d reply copy, t_pc th = Storing d reply copy ∧ encode_state copy = None).
Proof.
  unfold resume. destruct (t_pc th) eqn:Hpc; intros H; simplify_eq; try (by split; [|left]).
  all: try pair_state; repeat case_match; simplify_eq; try (by split; [|left]).
  all: try (unfold resolve_dispatch; case_match; by split; [|left]).
  split; [done|right]. by repeat eexists.
Qed.

(** The open sockets are those of the listener and the living connections. *)
Lemma server_opened s h :
  server_ok s →
  h ∈ opened (net s) ↔ ∃ o x, objects (net s) !! o = Some x ∧ handle_ x = h ∧
    (o = listener ∨ ∃ tid th, o = sock_of tid ∧ threads (node s) !! tid = Some th ∧
                              is_closed (t_pc th) = false).
Proof.
  intros Hok. split.
  - intros Hh. destruct (ni_held _ _ _ (so_net _ Hok) h Hh) as (o & x & Ho & Hx); [by intros []|set_solver|].
    exists o, x. split_and!; [done|done|].
    destruct (so_objects _ Hok o) as [?|(tid & -> & th & Ht)]; [by eexists|by left|right].
    exists tid, th. split_and!; [done|done|]. apply not_true_is_false. intros Hc.
    eapply (so_closed _ Hok); [done|done|]. exists x. split; [done|]. apply negb_true_iff, Z.eqb_neq.
    intros E. apply (ni_valid _ _ _ (so_net _ Hok)). by rewrite <- E, Hx.
  - intros (o & x & Ho & <- & Hwho). eapply (ni_open _ _ _ (so_net _ Hok)); [done|]. apply valid_owned.
    assert (Hop : open_in (net s) o).
    { destruct Hwho as [->|(tid & th & -> & Ht & Hc)]; [apply Hok|by eapply (so_open _ Hok)]. }
    destruct Hop as (y & Hy & Hv). by simplify_eq.
Qed.

(** The node's view of a socket is the object's. *)
Lemma server_socket_open s sock :
  server_ok s → socket_open sock (node s) =
  match objects (net s) !! sock_of sock with Some x => socket_valid (handle_ x) | None => false end.
Proof.
  intros Hok. unfold socket_open. destruct (threads (node s) !! sock) as [th|] eqn:Ht.
  2: { by rewrite (so_new _ _ Hok Ht). }
  replace (match t_pc th with Closed => false | _ => true end) with (negb (is_closed (t_pc th)))
    by by destruct (t_pc th).
  destruct (is_closed (t_pc th)) eqn:Hc; simpl.
  - destruct (objects (net s) !! sock_of sock) as [x|] eqn:Hx; [|done].
    destruct (socket_valid (handle_ x)) eqn:Hv; [|done]. destruct (so_closed _ Hok _ _ Ht Hc). by exists x.
  - destruct (so_open _ Hok _ _ Ht Hc) as (x & -> & ->). done.
Qed.
Lemma on_frame_exited draw tid th t corr bytes n :
  exited (on_frame draw tid th t corr bytes n) = exited n.
Proof.
  unfold on_frame, on_result. destruct t; try done.
  all: destruct (decoded _ bytes) as [[]|]; try done; try pair_state; repeat case_match; done.
Qed.

(** Once SHUTDOWN was received the process still serves: only one more
    connection, or a failing [accept], makes [main] return (or a state that
    cannot be encoded ends it). *)
Lemma shutdown_waits_for_a_connection ev s s' :
  running (node s) = false → serve ev s = Some s' →
  running (node s') = false ∧
  match ev with
  | Accepting _ _ => exited (node s') = true
  | Working e => exited (node s') = false ∨
      ∃ tid os sent th d reply copy, e = Resume tid os sent ∧ threads (node s) !! tid = Some th ∧
        t_pc th = Storing d reply copy ∧ encode_state copy = None
  | Releasing _ => exited (node s') = false
  end.
Proof.
  intros Hr Hs. unfold serve in Hs. destruct (exited (node s)) eqn:He; [done|].
  destruct ev as [a tid|e|tid].
  - destruct (accepted a tid (net s)) as [net1|]; [|by simplify_eq]. unfold act in Hs. rewrite He in Hs.
    destruct (threads (node s) !! tid); [done|]. injection Hs as <-. simpl. by rewrite Hr.
  - destruct e as [tid|tid t corr bytes draw|tid|tid os sent]; [done|..].
    all: unfold act in Hs; rewrite He in Hs.
    + destruct (serving tid (node s)); [|done]. injection Hs as <-. simpl.
      split; [by apply on_frame_running|left]. by rewrite on_frame_exited.
    + destruct (serving tid (node s)); [|done]. injection Hs as <-. simpl. by rewrite Hr; auto.
    + destruct (threads (node s) !! tid) as [th|] eqn:Ht; [|done].
      destruct (resume os sent tid th (node s)) as [n|] eqn:Hre; [|done]. injection Hs as <-. simpl.
      destruct (resume_flags _ _ _ _ _ _ Hre) as [-> Hx]. split; [done|].
      destruct Hx as [->|(d & reply & copy & Hpc & Hn)]; [by left|right]. by exists tid, os, sent, th, d, reply, copy.
  - case_bool_decide; [|done]. injection Hs as <-. done.
Qed.

(** ** Properties *)

(** Claim C21: sockets follow connections.  From a start of the process that
    listens, and as long as it runs, whatever connections are accepted, whatever
    arrives on them and however their threads interleave: the process does what
    its node does; the sockets open for it are those of the listener and of the
    connections whose thread has not ended, one each; what the node asks of a
    connection's socket is what the object answers; every socket that a route or
    a client thread about to send can reach exists; and nothing is ever closed
    that is not open. *)
Theorem sockets_follow_connections argv id a ra fs err out n s0 evs s :
  coordinator_main argv id a ra fs = CoordinatorListening err out n s0 →
  fresh_handle (oa_socket a) net_start →
  server_execution {| node := n; net := s0 |} evs s → exited (node s) = false →
  (∃ es, node_execution n es (node s)) ∧
  (∀ h, h ∈ opened (net s) ↔ ∃ o x, objects (net s) !! o = Some x ∧ handle_ x = h ∧
     (o = listener ∨ ∃ tid th, o = sock_of tid ∧ threads (node s) !! tid = Some th ∧
                               is_closed (t_pc th) = false)) ∧
  (∀ o o' x x', objects (net s) !! o = Some x → objects (net s) !! o' = Some x' →
     handle_ x = handle_ x' → socket_valid (handle_ x) = true → o = o') ∧
  (∀ sock, socket_open sock (node s) =
     match objects (net s) !! sock_of sock with Some x => socket_valid (handle_ x) | None => false end) ∧
  (∀ b sock, sockets (node s) !! b = Some sock → is_Some (objects (net s) !! sock_of sock)) ∧
  (∀ tid th sock, threads (node s) !! tid = Some th → aims (t_pc th) = Some sock →
     is_Some (objects (net s) !! sock_of sock)) ∧
  stray (net s) = [].
Proof.
  intros Hm Hf Hex Hx. pose proof (listening_ok _ _ _ _ _ _ _ _ _ Hm Hf) as H0.
  destruct (server_invariant _ _ _ H0 Hex Hx) as [Hok Hn].
  split; [exact Hn|]. split; [intros h; by apply server_opened|]. split; [|split; [|split; [|split]]].
  - intros o o' x x' Ho Ho' E Hv. eapply (ni_unique _ _ _ (so_net _ Hok)); [done|done|done|by apply valid_owned].
  - intros sock. by apply server_socket_open.
  - apply (so_routes _ Hok).
  - apply (so_aims _ Hok).
  - apply Hok.
Qed.

#[global] Instance serve_fresh_dec ev s : base.Decision (serve_fresh ev s).
Proof. destruct ev; simpl; unfold fresh_handle; repeat case_match; apply _. Defined.

Fixpoint run_server (evs : list ServerEvent) (s : Server) : option Server :=
  match evs with
  | [] => Some s
  | ev :: evs =>
      if bool_decide (serve_fresh ev s)
      then let? s := serve ev s otherwise None in run_server evs s else None
  end.

Lemma run_server_execution s0 evs0 evs s s' :
  server_execution s0 evs0 s → run_server evs s = Some s' → server_execution s0 (evs0 ++ evs) s'.
Proof.
  revert evs0 s. induction evs as [|ev evs IH]; simpl; intros evs0 s Hex Hr.
  - simplify_eq. by rewrite app_nil_r.
  - case_bool_decide as Hf; [|done]. destruct (serve ev s) as [s1|] eqn:Hs; [|done].
    rewrite cons_middle, app_assoc. eapply IH; [|done]. by econstructor.
Qed.

(** A worker connects and leaves, its socket is released, and a client is given
    the same handle. *)
Definition hello (tid boot : Z) : Event :=
  frame tid (P_HELLO {| HelloMsg.worker := 12; HelloMsg.worker_boot := boot; HelloMsg.name := "w" |})
    (drawing 61).
Definition departing (tid : Z) : list Event := Hangup tid :: replicate 3 (resume_ tid).
Definition come_and_go : list ServerEvent :=
  [Accepting (fine_answers 104) 1] ++ map Working ([hello 1 11; resume_ 1] ++ departing 1) ++
  [Releasing 1; Accepting (fine_answers 104) 2].
Definition listening_process : option Server :=
  match coordinator_main ["--port"; "4242"] 5 (fine_answers 100) reads_fine ∅ with
  | CoordinatorListening _ _ n s => Some {| node := n; net := s |}
  | _ => None
  end.

Lemma sockets_follow_connections_witness :
  match listening_process with
  | Some s0 => match run_server come_and_go s0 with
               | Some s => elements (opened (net s)) = [100; 104] ∧ socket_open 1 (node s) = false ∧
                           stray (net s) = []
               | None => False
               end
  | None => False
  end.
Proof.
  destruct listening_process as [[n s0]|] eqn:Hp.
  2: { apply (f_equal (option_map (fun _ => true))) in Hp. vm_compute in Hp. discriminate Hp. }
  assert (Ho : (fun s => (elements (opened (net s)), exited (node s),
      bool_decide (is_Some (objects (net s) !! sock_of 1)))) <$>
    (let? s0 := listening_process otherwise None in run_server come_and_go s0) =
    Some ([100; 104], false, false)) by (vm_compute; reflexivity).
  rewrite Hp in Ho. destruct (run_server come_and_go _) as [s|] eqn:Hr; [|discriminate Ho].
  injection Ho as Ho Hx Hb. split; [exact Ho|].
  unfold listening_process in Hp.
  destruct (coordinator_main ["--port"; "4242"] 5 (fine_answers 100) reads_fine ∅) as [| |err out n' s'] eqn:Hm;
    [discriminate Hp..|]. injection Hp as -> ->.
  destruct (sockets_follow_connections _ _ _ _ _ _ _ _ _ come_and_go s Hm) as (_ & _ & _ & Hop & _ & _ & Hst).
  - split; [apply not_elem_of_empty|discriminate].
  - exact (run_server_execution _ [] _ _ _ (server_nil _) Hr).
  - exact Hx.
  - split; [|exact Hst]. rewrite Hop. apply bool_decide_eq_false_1 in Hb.
    destruct (objects (net s) !! sock_of 1); [destruct Hb; eexists; reflexivity|reflexivity].
Defined.

(** A worker that is back on a second connection before the first is found dead
    loses its route: the end of the first removes the entry of the second.  And a
    connection that says HELLO twice leaves the route of the first name behind,
    to a socket that is closed. *)
Lemma routes_outlive_or_miss_connections :
  (let n := node_after ([Node.Connect 1; hello 1 11; resume_ 1; Node.Connect 2; hello 2 11; resume_ 2] ++ departing 1) in
   serving 2 n = Some {| t_boot := 11; t_worker := true; t_pc := Serving |} ∧ sockets n !! 11 = None) ∧
  (let n := node_after ([Node.Connect 1; hello 1 11; resume_ 1; hello 1 13; resume_ 1] ++ departing 1) in
   sockets n !! 11 = Some 1 ∧ socket_open 1 n = false).
Proof. vm_compute. done. Qed.
