(* ===== verification/Durability.v ===== *)
(** * Saved commits and crashes

    [Coordinator::save] copies the state under the lock, releases it, and then
    encodes and writes the copy; the threads that serve workers do so side by
    side, on one destination and one temporary file.  This file follows the
    state of the file through the threads of the coordinator process: what a
    crash at any point leaves for the next start. *)

From S2P Require Import Prelude Enums Ids Codec Model Protocol State Coordinator.
From S2P Require Import Machine Worker Safety Persistence StateCodec Recovery Typed Node CoordinatorProcess.

(** ** Executions the file can hold *)

(** A registration and an operation name only enumerators, and the operation no
    program: what the file format takes.  The decoder sees to the rest. *)
Definition typed_payload (p : Payload) : Prop :=
  match p with
  | P_REGISTER_TARGET m => wf_target (definition_of m)
  | P_CLIENT_REGISTER_OPERATION m => wf_operation (ClientRegisterOperationMsg.op m)
  | _ => True
  end.
Definition typed_event (e : Event) : Prop :=
  match e with
  | Frame _ t _ bytes draw =>
      is_bytes bytes ∧ in_u64 (draw 0%nat) ∧ in_u64 (draw 1%nat) ∧
      match decoded t bytes with Some p => typed_payload p | None => True end
  | _ => True
  end.

Definition typed_thread (th : Thread) : Prop :=
  in_u64 (t_boot th) ∧
  match t_pc th with
  | Reserving _ d a _ | Preparing _ d a _ => in_u64 d ∧ in_u64 a
  | _ => True
  end.
Record typed_node (n : Node) : Prop := {
  tn_coord : typed_state (coord n);
  tn_threads : map_Forall (fun _ => typed_thread) (threads n)
}.

Lemma decoded_wf t bytes p : is_bytes bytes → decoded t bytes = Some p → wf_payload p.
Proof.
  unfold decoded. intros Hb Hd. apply fmap_Some in Hd as ([p' r] & Hd & ->).
  destruct (payload_bounded t {| data_ := bytes; pos_ := 0 |} p' r) as (_ & _ & _ & ?); [|done|done].
  split; [done|]. unfold size_. simpl. lia.
Qed.

(** The command of a typed event is savable. *)
Lemma frame_command_typed draw th t bytes c :
  typed_event (Frame 0 t 0 bytes draw) → in_u64 (t_boot th) →
  frame_command draw th t bytes = Some c → savable_command c.
Proof.
  intros (Hb & H0 & _ & Hp) Hbt. unfold frame_command.
  destruct t; try done; destruct (decoded _ bytes) as [p|] eqn:Hd; try done;
    pose proof (decoded_wf _ _ _ Hb Hd) as Hwf; destruct p; try done; intros [= <-]; simpl.
  all: cbn in Hwf; try done.
  - unfold CapabilityMsg.wf_capability in Hwf. by destruct_and! Hwf.
  - unfold DataEvidenceMsg.wf_data_evidence in Hwf. by destruct_and! Hwf.
Qed.
Lemma event_command_typed e n c :
  typed_event e → typed_node n → event_command e n = Some c → savable_command c.
Proof.
  intros He [_ Hth]. unfold event_command. destruct e; try done.
  - destruct (serving tid n) as [th|] eqn:Hs; [|done]. apply serving_Some in Hs as [Hs _].
    eapply frame_command_typed; [done|]. apply (Hth _ _ Hs).
  - destruct (threads n !! tid) as [th|] eqn:Hs; [|done]. destruct (Hth _ _ Hs) as [_ Hpc].
    unfold resume_command. destruct (t_pc th); intros [= <-]; done.
Qed.

(** Each event moves at most one thread. *)
Lemma on_frame_threads draw tid th t corr bytes n tid' th' :
  threads n !! tid = Some th → t_pc th = Serving → typed_thread th →
  typed_event (Frame tid t corr bytes draw) →
  threads (on_frame draw tid th t corr bytes n) !! tid' = Some th' →
  threads n !! tid' = Some th' ∨ typed_thread th'.
Proof.
  intros Hth Hpc Ht (Hb & H0 & H1 & _). unfold on_frame, on_result.
  destruct t; try by left.
  all: destruct (decoded _ bytes) as [[]|] eqn:Hd; simpl; try by left.
  all: repeat case_match; simpl; try by left.
  all: intros [[<- <-]|[_ ?]]%lookup_insert_Some; [right|by left]; split; simpl; try apply Ht; try done.
  all: try by case_match.
  apply decoded_wf in Hd; [|done]. cbn in Hd. unfold HelloMsg.wf_hello in Hd. by destruct_and! Hd.
Qed.
Lemma resume_threads os sent tid th n n' tid' th' :
  threads n !! tid = Some th → typed_thread th → resume os sent tid th n = Some n' →
  threads n' !! tid' = Some th' → threads n !! tid' = Some th' ∨ typed_thread th'.
Proof.
  intros Hth [Hb Ht]. unfold resume. destruct (t_pc th); intros; simplify_eq.
  all: try (right; by repeat case_match; simplify_eq).
  all: repeat case_match; simplify_eq.
  all: match goal with H : threads _ !! _ = _ |- _ => simpl in H end.
  all: rewrite ?resolve_dispatch_threads in *.
  all: try by left.
  all: match goal with H : <[_ := _]> _ !! _ = _ |- _ =>
         apply lookup_insert_Some in H as [[<- <-]|[_ ?]] end; [right|by left]; split; simpl; done.
Qed.

Lemma typed_act e n n' :
  typed_event e → event_fresh e n → act e n = Some n' → typed_node n → typed_node n'.
Proof.
  intros He Hf Ha Hn. split.
  - rewrite (act_command _ _ _ Ha). destruct (event_command e n) as [c|] eqn:Hc; [|apply Hn].
    eapply typed_step; [|by eapply event_command_typed|apply Hn].
    constructor. by eapply event_command_fresh.
  - destruct Hn as [_ Hth]. intros tid' th' Hl. unfold act in Ha. destruct (exited n); [done|].
    assert (threads n !! tid' = Some th' ∨ typed_thread th') as [?|?]; [|by eapply Hth|done].
    destruct e; simpl in Ha.
    + case_match; [done|]. simplify_eq. simpl in Hl.
      apply lookup_insert_Some in Hl as [[<- <-]|[_ ?]]; [right|by left]. by split; [split|].
    + destruct (serving tid n) as [th|] eqn:Hs; [|done]. apply serving_Some in Hs as [Hs Hpc].
      simplify_eq. eapply (on_frame_threads draw tid th); eauto.
    + destruct (serving tid n) as [th|] eqn:Hs; [|done]. apply serving_Some in Hs as [Hs Hpc].
      simplify_eq. simpl in Hl. apply lookup_insert_Some in Hl as [[<- <-]|[_ ?]]; [right|by left].
      split; [apply (Hth _ _ Hs)|]. by destruct (t_worker th).
    + destruct (threads n !! tid) as [th|] eqn:Hs; [|done]. eapply resume_threads; eauto.
Qed.

(** ** The save of one thread *)

(** The thread holds a copy or has the temporary file in hand. *)
Definition storing (pc : Pc) : bool :=
  match pc with
  | Storing _ _ _ | Writing _ _ _ | Replacing _ _ | Discarding _ _ => true
  | _ => false
  end.
(** It has created the temporary file. *)
Definition in_hand (pc : Pc) : bool :=
  match pc with Writing _ _ _ | Replacing _ _ | Discarding _ _ => true | _ => false end.
(** The thread's next step is one of [Coordinator::save], or sets a promise with
    the reply of a completion. *)
Definition completing_pc (pc : Pc) : bool :=
  match pc with Saving _ _ | Resolving _ _ => true | pc => storing pc end.

(** A thread just moved on by a step that belongs to no save. *)
Definition plain (n : Node) (th : Thread) : Prop :=
  storing (t_pc th) = false ∧
  match t_pc th with
  | Saving _ r => ClientReplyMsg.committed r = true ∧ backed (coord n) r
  | Resolving _ r => persist n = "" ∨ ClientReplyMsg.committed r = false
  | _ => True
  end.

(** Outside the saves the files do not change, no promise is set to
    "committed", and a thread starts a save only for a commit it has made. *)
Record quiet_step (n n' : Node) : Prop := {
  qs_disk : disk n' = disk n;
  qs_futures d r : futures n' !! d = Some r → ClientReplyMsg.committed r = true → futures n !! d = Some r;
  qs_threads tid th : threads n' !! tid = Some th → threads n !! tid = Some th ∨ plain n' th
}.

Definition step_thread (e : Event) (n : Node) : option Pc :=
  match e with Resume tid _ _ => t_pc <$> threads n !! tid | _ => None end.

Ltac moved_thread :=
  match goal with H : <[_ := _]> _ !! _ = _ |- _ => apply lookup_insert_Some in H as [[<- <-]|[_ ?]] end;
  [right|by left].

Lemma on_frame_quiet draw tid th t corr bytes n :
  quiet_step n (on_frame draw tid th t corr bytes n).
Proof.
  assert (Hid : ∀ n', disk n' = disk n → futures n' = futures n → threads n' = threads n → quiet_step n n').
  { intros n' Hd Hf Ht. split; [done| |]; intros *; rewrite ?Hf, ?Ht; auto. }
  unfold on_frame, on_result. destruct t; try by apply Hid.
  all: destruct (decoded _ bytes) as [[]|]; try by apply Hid.
  all: try (pair_state; by apply Hid).
  - split; simpl; [done..|]. intros. by moved_thread.
  - destruct (apply_result _ m _) as [[res|e] c] eqn:Ha; simpl.
    + destruct (apply_result_stored _ _ _ _ _ Ha) as [Hst Hpl]. split; simpl; [done..|]. intros.
      moved_thread. destruct (ExecutionResult.committed res) eqn:Hc; simpl;
        [|split; [done|by right]].
      destruct (String.eqb_spec (persist n) ""); simpl; [by split; [|left]|].
      split; [done|]. split; [done|]. rewrite <- Hpl. by eapply result_reply_backed.
    + split; simpl; [done..|]. intros. moved_thread. by split; [|right].
  - split; simpl; [done..|]. intros. by moved_thread.
  - simpl. case_match; [|by apply Hid]. split; simpl; [done..|]. intros. by moved_thread.
Qed.

Lemma resolve_uncommitted d reply n d' r :
  ClientReplyMsg.committed reply = false → futures (resolve_dispatch d reply n) !! d' = Some r →
  ClientReplyMsg.committed r = true → futures n !! d' = Some r.
Proof.
  intros Hr. unfold resolve_dispatch. case_match; [|done]. simpl.
  intros [[_ <-]|[_ ?]]%lookup_insert_Some; [congruence|done].
Qed.
Lemma disconnect_uncommitted boot n d r :
  futures (resolve_disconnect boot n) !! d = Some r → ClientReplyMsg.committed r = true →
  futures n !! d = Some r.
Proof.
  simpl. intros [Hd|[_ ?]]%lookup_union_Some_raw; [|done]. rewrite lookup_fmap in Hd.
  apply fmap_Some in Hd as (? & _ & ->). done.
Qed.

Lemma resume_quiet os sent tid th n n' :
  threads n !! tid = Some th → completing_pc (t_pc th) = false →
  resume os sent tid th n = Some n' → quiet_step n n'.
Proof.
  intros Hth Hpc Hr. unfold resume in Hr. destruct (t_pc th); simplify_eq.
  all: try pair_state; repeat case_match; simplify_eq.
  all: split; simpl; intros *; rewrite ?resolve_dispatch_threads; try done.
  all: try (intros; by moved_thread).
  all: try by apply resolve_uncommitted.
  all: try by apply disconnect_uncommitted.
  unfold resolve_dispatch. by case_match.
Qed.

Lemma act_quiet e n n' :
  act e n = Some n' → (∀ pc, step_thread e n = Some pc → completing_pc pc = false) → quiet_step n n'.
Proof.
  unfold act, step_thread. destruct (exited n); [done|]. intros Ha Hpc. destruct e; simpl in Ha.
  - case_match; [done|]. simplify_eq. split; simpl; [done..|]. intros. by moved_thread.
  - case_match; [|done]. simplify_eq. apply on_frame_quiet.
  - case_match; [|done]. simplify_eq. split; simpl; [done..|]. intros. moved_thread.
    by destruct (t_worker _).
  - destruct (threads n !! tid) as [th|] eqn:Hth; [|done]. eapply resume_quiet; [done| |done].
    by apply Hpc.
Qed.

Lemma act_persist e n n' : act e n = Some n' → persist n' = persist n.
Proof.
  unfold act. destruct (exited n); [done|]. destruct e; simpl.
  - case_match; [done|]. by intros [= <-].
  - case_match; [|done]. intros [= <-]. unfold on_frame, on_result. repeat case_match; by simplify_eq.
  - case_match; [|done]. by intros [= <-].
  - case_match; [|done]. unfold resume. intros. repeat case_match; simplify_eq; try done.
    all: simpl; unfold resolve_dispatch; by case_match.
Qed.

(** ** The file is always the whole or a part of a past state *)

(** [bytes] is what [save] writes of [s]. *)
Definition saved_as (s : RuntimeState) (bytes : list Z) : Prop :=
  ∃ payload, encode_state s = Some payload ∧ Z.of_nat (length payload) <= kMaxPayload ∧
    bytes = envelope payload.

Section PastStates.
Context (path : string).
Implicit Types (good : RuntimeState → Prop).

Definition piece good (content : list Z) : Prop :=
  ∃ s bytes m, good s ∧ saved_as s bytes ∧ content = take m bytes.

(** Every copy in flight, and whatever is in the temporary file once this
    process has created it, comes from a good state; the destination is as it
    was found, or such a piece. *)
Record past_ok good (fs0 : gmap string (list Z)) (n : Node) : Prop := {
  pk_persist : persist n = path;
  pk_thread tid th : threads n !! tid = Some th →
    match t_pc th with
    | Storing _ _ copy => good copy
    | Writing _ _ bytes => ∃ s, good s ∧ saved_as s bytes
    | _ => True
    end;
  pk_temp : (∀ c, disk n !! temp_of path = Some c → piece good c) ∨
    ∀ tid th, threads n !! tid = Some th → in_hand (t_pc th) = false;
  pk_path : disk n !! path = fs0 !! path ∨ ∃ c, disk n !! path = Some c ∧ piece good c
}.

Lemma piece_mono good good' c : (∀ s, good s → good' s) → piece good c → piece good' c.
Proof. intros H (s & bytes & m & Hs & ?). exists s, bytes, m. auto. Qed.

Lemma past_mono good good' fs0 n :
  (∀ s, good s → good' s) → past_ok good fs0 n → past_ok good' fs0 n.
Proof.
  intros H [Hp Ht Htmp Hpath]. split; [done| | |].
  - intros tid th Hth. specialize (Ht tid th Hth). destruct (t_pc th); auto.
    destruct Ht as (s & ? & ?). eauto.
  - destruct Htmp as [Htmp|?]; [left|by right]. intros c Hc. eapply piece_mono; eauto.
  - destruct Hpath as [?|(c & ? & ?)]; [by left|right]. exists c. split; [done|]. by eapply piece_mono.
Qed.

Lemma past_quiet good fs0 n n' :
  past_ok good fs0 n → persist n' = persist n → quiet_step n n' → past_ok good fs0 n'.
Proof.
  intros [Hp Ht Htmp Hpath] Hp' [Hd _ Hth]. split; rewrite ?Hd; [congruence| | |done].
  - intros tid th [?|[Hs _]]%Hth; [by eapply Ht|]. by destruct (t_pc th).
  - destruct Htmp as [?|Hno]; [by left|right]. intros tid th [?|[Hs _]]%Hth; [by eapply Hno|].
    by destruct (t_pc th).
Qed.

(** One thread moves on and the disk changes. *)
Lemma past_move good fs0 n tid th pc fs :
  past_ok good fs0 n → threads n !! tid = Some th →
  match pc with
  | Storing _ _ copy => good copy
  | Writing _ _ bytes => ∃ s, good s ∧ saved_as s bytes
  | _ => True
  end →
  (∀ c, fs !! temp_of path = Some c → piece good c) ∨
    (fs = disk n ∧ (in_hand pc = true → in_hand (t_pc th) = true)) →
  (fs !! path = disk n !! path ∨ ∃ c, fs !! path = Some c ∧ piece good c) →
  past_ok good fs0 (set_thread tid (at_pc pc th) (set_disk fs n)).
Proof.
  intros [Hp Ht Htmp Hpath] Hth Hpc Hfs Hf. split; simpl; [done| | |].
  - intros tid' th' [[<- <-]|[_ ?]]%lookup_insert_Some; [by destruct pc|by eapply Ht].
  - destruct Hfs as [?|(-> & Hnew)]; [by left|].
    destruct Htmp as [?|Hno]; [by left|right].
    intros tid' th' [[<- <-]|[_ ?]]%lookup_insert_Some; [|by eapply Hno]. simpl.
    apply not_true_is_false. intros Hh%Hnew. by rewrite (Hno _ _ Hth) in Hh.
  - destruct Hf as [->|?]; [done|by right].
Qed.

Lemma saved_piece good s bytes : good s → saved_as s bytes → piece good bytes.
Proof. intros. exists s, bytes, (length bytes). by rewrite take_ge by lia. Qed.
Lemma saved_piece_take good s bytes m : good s → saved_as s bytes → piece good (take m bytes).
Proof. intros. by exists s, bytes, m. Qed.
Lemma build_envelope_saved s payload bytes :
  encode_state s = Some payload → build_envelope payload = Ok bytes → saved_as s bytes.
Proof.
  unfold build_envelope, fail. intros He Hb. exists payload. case_match; [done|]. simplify_eq.
  split_and!; [done|by apply Z.ltb_ge|done].
Qed.

(** The content of the temporary file once it has been created. *)
Lemma past_temp good fs0 n tid th c :
  past_ok good fs0 n → threads n !! tid = Some th →
  in_hand (t_pc th) = true →
  disk n !! temp_of path = Some c → piece good c.
Proof.
  intros [_ _ [Ht|Hno] _] Hth Hpc Hc; [by apply Ht|].
  by rewrite (Hno _ _ Hth) in Hpc.
Qed.

Lemma past_create good fs0 n tid th d r s bytes os fs :
  past_ok good fs0 n → threads n !! tid = Some th → good s → saved_as s bytes →
  create_temp os (temp_of path) (disk n) = Some fs →
  past_ok good fs0 (set_thread tid (at_pc (Writing d r bytes) th) (set_disk fs n)).
Proof.
  intros Hp Hth Hs Hsv Hc. apply past_move; [done|done|by exists s| |].
  - left. unfold create_temp in Hc. case_match; [|done]. simplify_eq. intros c.
    rewrite lookup_insert_eq. intros [= <-]. by apply (saved_piece_take _ s bytes 0).
  - left. eapply create_temp_frame; [done|apply temp_ne].
Qed.

Lemma past_write good fs0 n tid th d r bytes os ok fs :
  past_ok good fs0 n → threads n !! tid = Some th → t_pc th = Writing d r bytes →
  write_temp os bytes (temp_of path) (disk n) = (ok, fs) →
  past_ok good fs0 (set_thread tid
    (at_pc (if ok then Replacing d r else Discarding d r) th) (set_disk fs n)).
Proof.
  intros Hp Hth Hpc Hw. pose proof (pk_thread _ _ _ Hp _ _ Hth) as Hb. rewrite Hpc in Hb.
  destruct Hb as (s & Hs & Hsv). apply past_move; [done|done|by destruct ok| |].
  - left. intros c Hc.
    assert (Hold : disk n !! temp_of path = Some c → piece good c).
    { apply (past_temp good fs0 n tid th); [done|done|]. by rewrite Hpc. }
    unfold write_temp in Hw. repeat case_match; simplify_eq; try by apply Hold.
    all: rewrite lookup_insert_eq in Hc; simplify_eq; by eapply saved_piece_take.
  - left. pose proof (write_temp_frame os bytes (temp_of path) (disk n) path (temp_ne path)) as Hf.
    by rewrite Hw in Hf.
Qed.

Lemma past_replace good fs0 n tid th d r os fs :
  past_ok good fs0 n → threads n !! tid = Some th → t_pc th = Replacing d r →
  replace_file os (temp_of path) path (disk n) = Some fs →
  past_ok good fs0 (set_thread tid (at_pc (Resolving d r) th) (set_disk fs n)).
Proof.
  intros Hp Hth Hpc (c & Hc & ->)%replace_file_Some. pose proof (temp_ne path).
  apply past_move; [done|done|done| |].
  - left. intros c'. by rewrite lookup_insert_ne, lookup_delete_eq.
  - right. exists c. rewrite lookup_insert_eq. split; [done|].
    apply (past_temp good fs0 n tid th); [done|done|by rewrite Hpc|done].
Qed.

Lemma past_discard good fs0 n tid th d r os :
  past_ok good fs0 n → threads n !! tid = Some th → t_pc th = Discarding d r →
  past_ok good fs0 (set_thread tid (at_pc (Resolving d r) th)
    (set_disk (delete_file os (temp_of path) (disk n)) n)).
Proof.
  intros Hp Hth Hpc. apply past_move; [done|done|done| |].
  - left. intros c Hc. apply (past_temp good fs0 n tid th); [done|done|by rewrite Hpc|].
    unfold delete_file in Hc. case_match; [|done]. by rewrite lookup_delete_eq in Hc.
  - left. by rewrite delete_file_frame by apply temp_ne.
Qed.

Lemma set_disk_same n : set_disk (disk n) n = n.
Proof. by destruct n. Qed.
(** The thread moves on, the disk as it was. *)
Lemma past_goto good fs0 n tid th pc :
  past_ok good fs0 n → threads n !! tid = Some th →
  match pc with Storing _ _ copy => good copy | Writing _ _ _ => False | _ => True end →
  (in_hand pc = true → in_hand (t_pc th) = true) →
  past_ok good fs0 (set_thread tid (at_pc pc th) n).
Proof.
  intros Hp Hth Hpc Hh. rewrite <- (set_disk_same n).
  apply past_move; [done|done|by destruct pc|by right|by left].
Qed.

Lemma past_resolve good fs0 n d r : past_ok good fs0 n → past_ok good fs0 (resolve_dispatch d r n).
Proof. intros [????]. unfold resolve_dispatch. by case_match. Qed.

(** The steps of a save, whatever the other threads do in between and whatever
    the system answers. *)
Lemma past_resume good fs0 os sent tid th n n' :
  past_ok good fs0 n → good (coord n) → threads n !! tid = Some th →
  completing_pc (t_pc th) = true → resume os sent tid th n = Some n' → past_ok good fs0 n'.
Proof.
  intros Hp Hc Hth Hpc Hr. pose proof (pk_thread _ _ _ Hp _ _ Hth) as Hb.
  unfold resume in Hr. rewrite (pk_persist _ _ _ Hp) in Hr.
  destruct (t_pc th) eqn:Ht; try done; simplify_eq.
  - by apply past_goto.
  - destruct (encode_state copy) as [payload|] eqn:He; [|simplify_eq; by destruct Hp].
    destruct (build_envelope payload) as [bytes|] eqn:Hbe; [|simplify_eq; by apply past_goto].
    destruct (create_temp _ _ _) as [fs|] eqn:Hcr; simplify_eq; [|by apply past_goto].
    eapply past_create; eauto using build_envelope_saved.
  - pair_state. simplify_eq. by eapply past_write.
  - destruct (replace_file _ _ _ _) as [fs|] eqn:Hm; simplify_eq.
    + by eapply past_replace.
    + apply past_goto; [done..|]. by rewrite Ht.
  - by eapply past_discard.
  - apply past_goto; [by apply past_resolve|by rewrite resolve_dispatch_threads|done|done].
Qed.

Lemma past_act good fs0 e n n' :
  past_ok good fs0 n → good (coord n) → act e n = Some n' → past_ok good fs0 n'.
Proof.
  intros Hp Hc Ha.
  assert (quiet_step n n' → past_ok good fs0 n') as Hq.
  { intros. eapply past_quiet; [done|by eapply act_persist|done]. }
  destruct (step_thread e n) as [pc|] eqn:Hs.
  2: { apply Hq, (act_quiet e); [done|]. by rewrite Hs. }
  destruct (completing_pc pc) eqn:Hpc; [|apply Hq, (act_quiet e); [done|]; congruence].
  destruct e as [| | |tid os sent]; try done. simpl in Hs.
  apply fmap_Some in Hs as (th & Hth & ->). unfold act in Ha. destruct (exited n); [done|].
  rewrite Hth in Ha. by eapply past_resume.
Qed.
End PastStates.

(** The states the coordinator goes through. *)
Definition visited (n0 : Node) (es : list Event) (s : RuntimeState) : Prop :=
  ∃ es1 es2 n, es = es1 ++ es2 ∧ node_execution n0 es1 n ∧ coord n = s.

Lemma visited_snoc n0 es e s : visited n0 es s → visited n0 (es ++ [e]) s.
Proof.
  intros (es1 & es2 & n & -> & ?). exists es1, (es2 ++ [e]), n. by rewrite (assoc_L (++)).
Qed.
Lemma visited_now n0 es n : node_execution n0 es n → visited n0 es (coord n).
Proof. intros. exists es, [], n. by rewrite app_nil_r. Qed.

Lemma node_of_past good c path fs : past_ok path good fs (node_of c path fs).
Proof. split; simpl; [done| |right|by left]; intros *; by rewrite lookup_empty. Qed.

Lemma past_execution c path fs es n :
  node_execution (node_of c path fs) es n →
  past_ok path (visited (node_of c path fs) es) fs n.
Proof.
  induction 1 as [|es e n1 n2 Hex IH Hf Ha]; [apply node_of_past|].
  eapply past_act; [|by apply visited_snoc, visited_now|done].
  eapply past_mono; [|done]. by apply visited_snoc.
Qed.

Lemma node_of_typed c path fs : typed_state c → typed_node (node_of c path fs).
Proof. split; [done|]. apply map_Forall_empty. Qed.

Lemma typed_execution n0 es n :
  typed_node n0 → Forall typed_event es → node_execution n0 es n → typed_node n.
Proof.
  intros Hn He Hex. induction Hex as [|es e n1 n2 _ IH Hf Ha]; [done|].
  apply Forall_app in He as [He Hl]. apply Forall_cons_iff in Hl as [Hl _].
  by eapply typed_act, IH.
Qed.

Lemma saved_as_bytes s bytes : saved_as s bytes → is_bytes bytes.
Proof. intros (payload & He & _ & ->). by eapply envelope_bytes, encode_state_bytes. Qed.

(** What loading the whole or a part of a saved state answers. *)
Lemma load_saved ra s bytes s0 :
  read_ok ra = true → typed_state s → fits s → saved_as s bytes →
  coordinator_load ra (Some bytes) s0 = (Ok tt, recovered (durable s)).
Proof.
  intros Hra Ht Hf (payload & He & Hl & ->). unfold coordinator_load.
  by rewrite (loaded_envelope ra s payload) by (done || by apply typed_fits_persistable).
Qed.
Lemma load_part ra s bytes m s0 :
  saved_as s bytes → (m < length bytes)%nat →
  ∃ e, coordinator_load ra (Some (take m bytes)) s0 = (Err e, s0).
Proof.
  intros (payload & He & Hl & ->) Hm. unfold coordinator_load, load.
  destruct (read_whole_file ra _) as [raw|e] eqn:Hr; [|by eexists].
  destruct (read_whole_file_Ok _ _ _ Hr) as [[= <-] _].
  destruct (open_envelope (take m (envelope payload))) as [p|e] eqn:Ho; [|by eexists].
  by apply truncated_envelope_rejected in Ho; [|by eapply encode_state_bytes|..].
Qed.

(** ** Commits a client was told of *)

Definition storable (s : RuntimeState) : Prop :=
  match encode_state s with
  | Some payload => Z.of_nat (length payload) <= kMaxPayload
  | None => True
  end.
Definition nobody_stores (n : Node) : Prop :=
  map_Forall (fun _ th => storing (t_pc th) = false) (threads n).

(** A save starts when no other is under way, on a state within the bounds of
    the file format, and the system does what it is asked to. *)
Definition saves_fine (e : Event) (n : Node) : Prop :=
  match e with
  | Resume tid os _ =>
      match t_pc <$> threads n !! tid with
      | Some (Saving _ _) => nobody_stores n ∧ fits (coord n) ∧ storable (coord n)
      | Some (Storing _ _ _) => os_create os = true
      | Some (Writing _ _ bytes) =>
          os_write os = Some (Z.of_nat (length bytes)) ∧ os_flush os = true
      | Some (Replacing _ _) => os_move os = true
      | _ => True
      end
  | _ => True
  end.

Inductive fine_execution (n : Node) : list Event → Node → Prop :=
| fine_nil : fine_execution n [] n
| fine_snoc es e n1 n2 :
    fine_execution n es n1 → event_fresh e n1 → typed_event e → saves_fine e n1 →
    act e n1 = Some n2 → fine_execution n (es ++ [e]) n2.

Section Durable.
Context (path : string).
Hypothesis path_set : path ≠ "".

Definition kept (s : RuntimeState) : Prop := typed_state s ∧ fits s ∧ ledger_ok s ∧ storable s.

(** The state in the file: none when there is no file. *)
Definition in_file (file : option RuntimeState) (fs : gmap string (list Z)) : Prop :=
  match file with
  | None => fs !! path = None
  | Some s => kept s ∧ ∃ bytes, fs !! path = Some bytes ∧ saved_as s bytes
  end.
Definition file_results (file : option RuntimeState) : gmap ResultId ExecutionResult :=
  match file with None => ∅ | Some s => results s end.
Definition stored (file : option RuntimeState) (r : ClientReplyMsg) : Prop :=
  ClientReplyMsg.committed r = true → ∃ s, file = Some s ∧ backed s r.

(** A copy on its way to the file: newer than the file, and with the commit
    its thread has yet to report. *)
Record fresh_copy (file : option RuntimeState) (n : Node) (s : RuntimeState) (r : ClientReplyMsg)
    : Prop := {
  fc_kept : kept s;
  fc_newer : file_results file ⊆ results s;
  fc_past : results s ⊆ results (coord n);
  fc_reply : backed s r
}.
Definition thread_durable (file : option RuntimeState) (n : Node) (th : Thread) : Prop :=
  match t_pc th with
  | Saving _ r => backed (coord n) r
  | Storing _ r copy => fresh_copy file n copy r
  | Writing _ r bytes => ∃ s, saved_as s bytes ∧ fresh_copy file n s r
  | Replacing _ r =>
      ∃ s bytes, disk n !! temp_of path = Some bytes ∧ saved_as s bytes ∧ fresh_copy file n s r
  | Discarding _ _ => False
  | Resolving _ r => stored file r
  | _ => True
  end.

Record durable_node (file : option RuntimeState) (n : Node) : Prop := {
  dn_persist : persist n = path;
  dn_typed : typed_node n;
  dn_ledger : ledger_ok (coord n);
  dn_file : in_file file (disk n);
  dn_past : file_results file ⊆ results (coord n);
  dn_threads tid th : threads n !! tid = Some th → thread_durable file n th;
  dn_alone tid1 tid2 th1 th2 : threads n !! tid1 = Some th1 → threads n !! tid2 = Some th2 →
    storing (t_pc th1) = true → storing (t_pc th2) = true → tid1 = tid2;
  dn_told d r : futures n !! d = Some r → stored file r
}.

Lemma stored_newer file s r : file_results file ⊆ results s → stored file r → stored (Some s) r.
Proof.
  intros Hsub Hs Hc. destruct (Hs Hc) as (s' & -> & Hb). exists s. split; [done|].
  by eapply backed_mono.
Qed.
Lemma fresh_copy_later file n n' s r :
  results (coord n) ⊆ results (coord n') → fresh_copy file n s r → fresh_copy file n' s r.
Proof. intros Hsub [????]. split; [done..| |done]. by etrans. Qed.

(** Nothing but the coordinator has moved. *)
Lemma thread_durable_later file n n' th :
  results (coord n) ⊆ results (coord n') → disk n' !! temp_of path = disk n !! temp_of path →
  thread_durable file n th → thread_durable file n' th.
Proof.
  intros Hsub Hd. unfold thread_durable. destruct (t_pc th); try done; rewrite ?Hd.
  - by apply backed_mono.
  - by apply fresh_copy_later.
  - intros (s & ? & ?). exists s. eauto using fresh_copy_later.
  - intros (s & b & ? & ? & ?). exists s, b. eauto using fresh_copy_later.
Qed.

Lemma ledger_act e n n' :
  event_fresh e n → act e n = Some n' → ledger_ok (coord n) →
  ledger_ok (coord n') ∧ results (coord n) ⊆ results (coord n').
Proof.
  intros Hf Ha Hl. destruct (act_coord _ _ _ Hf Ha) as [->|[c Hst]]; [done|].
  split; [by eapply ledger_preserved|]. destruct Hst as [c Hfr]. by apply effect_results_grow, exec_effect.
Qed.

Lemma durable_quiet file e n n' :
  durable_node file n → event_fresh e n → typed_event e → act e n = Some n' → quiet_step n n' →
  durable_node file n'.
Proof.
  intros Hn Hf Ht Ha [Hd Hfu Hth].
  destruct (ledger_act _ _ _ Hf Ha (dn_ledger _ _ Hn)) as [Hl Hsub].
  pose proof (act_persist _ _ _ Ha) as Hp. destruct Hn as [Hpe Hty _ Hfi Hpa Hthr Hal Hto].
  split; rewrite ?Hd; [congruence|by eapply typed_act|done|done|by etrans| | |].
  - intros tid th [Hold|[Hst Hpl]]%Hth.
    + eapply thread_durable_later; [done|by rewrite Hd|by eapply Hthr].
    + unfold thread_durable. destruct (t_pc th); try done; [by destruct Hpl|].
      intros Hc. destruct Hpl; congruence.
  - intros tid1 tid2 th1 th2 [?|[? _]]%Hth [?|[? _]]%Hth; [by eapply Hal|congruence..].
  - intros d r Hr Hc. by eapply Hto; [by eapply Hfu|].
Qed.

(** The one thread in a save moves on; the file may be replaced by a newer
    one. *)
Lemma durable_move file file' n tid th pc fs :
  durable_node file n → threads n !! tid = Some th → typed_thread (at_pc pc th) →
  (∀ tid' th', tid' ≠ tid → threads n !! tid' = Some th' → storing (t_pc th') = false) →
  in_file file' fs → file_results file' ⊆ results (coord n) →
  (∀ r, stored file r → stored file' r) →
  thread_durable file' (set_disk fs n) (at_pc pc th) →
  durable_node file' (set_thread tid (at_pc pc th) (set_disk fs n)).
Proof.
  intros Hn Hth Hty Ho Hf Hpa Hs Hnew. destruct Hn as [Hpe [Htc Htt] Hl _ _ Hthr Hal Hto].
  split; simpl; [done| |done|done|done| | |by eauto].
  - split; [done|]. simpl. by apply map_Forall_insert_2.
  - intros tid' th' [[<- <-]|[Hne Hl']]%lookup_insert_Some; [by eapply thread_durable_later, Hnew|].
    pose proof (Hthr _ _ Hl') as Ht. pose proof (Ho _ _ (not_eq_sym Hne) Hl').
    revert Ht. unfold thread_durable. destruct (t_pc th'); try done. apply Hs.
  - intros tid1 tid2 th1 th2 [[<- <-]|[Hne1 H1]]%lookup_insert_Some
      [[<- <-]|[Hne2 H2]]%lookup_insert_Some Hs1 Hs2; [done| | |by eapply Hal].
    + by rewrite (Ho _ _ (not_eq_sym Hne2) H2) in Hs2.
    + by rewrite (Ho _ _ (not_eq_sym Hne1) H1) in Hs1.
Qed.

Lemma others_idle file n tid th :
  durable_node file n → threads n !! tid = Some th → storing (t_pc th) = true →
  ∀ tid' th', tid' ≠ tid → threads n !! tid' = Some th' → storing (t_pc th') = false.
Proof.
  intros Hn Hth Hs tid' th' Hne Hth'. apply not_true_is_false. intros Hs'.
  apply Hne. by eapply (dn_alone _ _ Hn).
Qed.
(** Nobody else has the temporary file open. *)
Lemma temp_free file n tid th :
  durable_node file n → threads n !! tid = Some th → storing (t_pc th) = true →
  writing th = false → temp_open n = false.
Proof.
  intros Hn Hth Hs Hw. apply not_true_is_false. intros ([tid' th'] & Hin & Hw')%existsb_exists.
  apply list_elem_of_In, elem_of_map_to_list in Hin. simpl in Hw'.
  destruct (decide (tid' = tid)) as [->|Hne]; [congruence|].
  pose proof (others_idle _ _ _ _ Hn Hth Hs _ _ Hne Hin) as Hi.
  unfold writing in Hw'. by destruct (t_pc th').
Qed.

Lemma typed_plain_pc th pc :
  typed_thread th → match pc with Reserving _ _ _ _ | Preparing _ _ _ _ => False | _ => True end →
  typed_thread (at_pc pc th).
Proof. intros [Hb _] Hpc. split; [done|]. by destruct pc. Qed.

(** The copy is taken. *)
Lemma durable_copy file n tid th d r :
  durable_node file n → threads n !! tid = Some th → t_pc th = Saving d r →
  nobody_stores n → fits (coord n) → storable (coord n) →
  durable_node file (set_thread tid (at_pc (Storing d r (coord n)) th) n).
Proof.
  intros Hn Hth Hpc Hno Hfi Hst. rewrite <- (set_disk_same n) at 2.
  pose proof (dn_threads _ _ Hn _ _ Hth) as Hr. unfold thread_durable in Hr. rewrite Hpc in Hr.
  apply (durable_move file file n tid th).
  - done.
  - done.
  - apply typed_plain_pc; [by eapply (tn_threads _ (dn_typed _ _ Hn))|done].
  - intros ???. apply Hno.
  - apply Hn.
  - apply Hn.
  - done.
  - split; [|apply Hn|done|done]. split_and!; [apply Hn|done|apply Hn|done].
Qed.

(** The temporary file is created, written, and moved over the destination. *)
Lemma durable_create file n tid th d r copy os :
  durable_node file n → threads n !! tid = Some th → t_pc th = Storing d r copy →
  os_create os = true →
  ∃ payload, encode_state copy = Some payload ∧ build_envelope payload = Ok (envelope payload) ∧
    create_temp (sharing n os) (temp_of path) (disk n) = Some (<[temp_of path := []]> (disk n)) ∧
    durable_node file (set_thread tid (at_pc (Writing d r (envelope payload)) th)
      (set_disk (<[temp_of path := []]> (disk n)) n)).
Proof.
  intros Hn Hth Hpc Hos. assert (Hsto : storing (t_pc th) = true) by by rewrite Hpc.
  pose proof (dn_threads _ _ Hn _ _ Hth) as Hc. unfold thread_durable in Hc. rewrite Hpc in Hc.
  destruct (fc_kept _ _ _ _ Hc) as (Hty & _ & _ & Hst).
  destruct (typed_encodes _ Hty) as [payload He]. exists payload.
  unfold storable in Hst. rewrite He in Hst.
  assert (Hb : build_envelope payload = Ok (envelope payload)).
  { unfold build_envelope, fail. by rewrite (proj2 (Z.ltb_ge _ _)). }
  split_and!; [done|done| |].
  { unfold create_temp, sharing. simpl. rewrite Hos, (temp_free file n tid th Hn Hth Hsto); [done|].
    unfold writing. by rewrite Hpc. }
  apply (durable_move file file n tid th).
  - done.
  - done.
  - apply typed_plain_pc; [by eapply (tn_threads _ (dn_typed _ _ Hn))|done].
  - by eapply others_idle.
  - pose proof (dn_file _ _ Hn) as Hf. pose proof (temp_ne path). unfold in_file in *.
    destruct file; by rewrite lookup_insert_ne.
  - apply Hn.
  - done.
  - exists copy. split; [by exists payload|]. by destruct Hc.
Qed.

Lemma durable_write file n tid th d r bytes os :
  durable_node file n → threads n !! tid = Some th → t_pc th = Writing d r bytes →
  os_write os = Some (Z.of_nat (length bytes)) → os_flush os = true →
  write_temp os bytes (temp_of path) (disk n) = (true, <[temp_of path := bytes]> (disk n)) ∧
  durable_node file (set_thread tid (at_pc (Replacing d r) th)
    (set_disk (<[temp_of path := bytes]> (disk n)) n)).
Proof.
  intros Hn Hth Hpc Hw Hfl. assert (Hsto : storing (t_pc th) = true) by by rewrite Hpc.
  pose proof (dn_threads _ _ Hn _ _ Hth) as Hc. unfold thread_durable in Hc. rewrite Hpc in Hc.
  destruct Hc as (s & Hs & Hc). split.
  { destruct Hs as (payload & _ & _ & ->). unfold write_temp. pose proof (envelope_ne payload).
    rewrite bool_decide_false by done. by rewrite Hw, Z.eqb_refl, Hfl, Nat2Z.id, take_ge. }
  apply (durable_move file file n tid th).
  - done.
  - done.
  - apply typed_plain_pc; [by eapply (tn_threads _ (dn_typed _ _ Hn))|done].
  - by eapply others_idle.
  - pose proof (dn_file _ _ Hn) as Hf. pose proof (temp_ne path). unfold in_file in *.
    destruct file; by rewrite lookup_insert_ne.
  - apply Hn.
  - done.
  - exists s, bytes. simpl. rewrite lookup_insert_eq. split_and!; [done|done|]. by destruct Hc.
Qed.

Lemma durable_replace file n tid th d r os :
  durable_node file n → threads n !! tid = Some th → t_pc th = Replacing d r →
  os_move os = true →
  ∃ file' fs, replace_file (sharing n os) (temp_of path) path (disk n) = Some fs ∧
    (∀ r, stored file r → stored file' r) ∧
    durable_node file' (set_thread tid (at_pc (Resolving d r) th) (set_disk fs n)).
Proof.
  intros Hn Hth Hpc Hos. assert (Hsto : storing (t_pc th) = true) by by rewrite Hpc.
  pose proof (dn_threads _ _ Hn _ _ Hth) as Hc. unfold thread_durable in Hc. rewrite Hpc in Hc.
  destruct Hc as (s & bytes & Ht & Hs & [Hk Hnew Hpast Hb]).
  exists (Some s), (<[path := bytes]> (delete (temp_of path) (disk n))). split.
  { unfold replace_file, sharing. simpl. rewrite Hos, (temp_free file n tid th Hn Hth Hsto);
      [|unfold writing; by rewrite Hpc]. simpl. by rewrite Ht. }
  split; [intros r'; by apply stored_newer|].
  apply (durable_move file (Some s) n tid th).
  - done.
  - done.
  - apply typed_plain_pc; [by eapply (tn_threads _ (dn_typed _ _ Hn))|done].
  - by eapply others_idle.
  - split; [done|]. exists bytes. by rewrite lookup_insert_eq.
  - done.
  - intros r'. by apply stored_newer.
  - intros _. by exists s.
Qed.

(** The promise is set. *)
Lemma durable_resolve file n tid th d r :
  durable_node file n → threads n !! tid = Some th → t_pc th = Resolving d r →
  durable_node file (set_thread tid (at_pc Serving th) (resolve_dispatch d r n)).
Proof.
  intros Hn Hth Hpc. pose proof (dn_threads _ _ Hn _ _ Hth) as Hr.
  unfold thread_durable in Hr. rewrite Hpc in Hr.
  assert (Hfu : ∀ d' r', futures (resolve_dispatch d r n) !! d' = Some r' → stored file r').
  { intros d' r'. unfold resolve_dispatch. case_match; [|apply Hn]. simpl.
    intros [[_ <-]|[_ ?]]%lookup_insert_Some; [done|by eapply Hn]. }
  assert (He : ∀ A (f : Node → A), (∀ ss pd fu, f (set_routes ss pd fu n) = f n) →
    f (resolve_dispatch d r n) = f n) by (intros; unfold resolve_dispatch; by case_match).
  destruct Hn as [Hpe [Htc Htt] Hl Hfi Hpa Hthr Hal Hto].
  split; simpl; rewrite ?He by done; try done.
  - split; simpl; rewrite ?He by done; [done|]. apply map_Forall_insert_2; [|done].
    by apply typed_plain_pc; [eapply Htt|].
  - intros tid' th' [[<- <-]|[Hne Hl']]%lookup_insert_Some; [done|].
    eapply thread_durable_later; [| |by eapply Hthr]; simpl; by rewrite He.
  - intros tid1 tid2 th1 th2 [[<- <-]|[Hne1 H1]]%lookup_insert_Some
      [[<- <-]|[Hne2 H2]]%lookup_insert_Some Hs1 Hs2; [done..|by eapply Hal].
Qed.

Lemma durable_act file e n n' :
  durable_node file n → event_fresh e n → typed_event e → saves_fine e n → act e n = Some n' →
  ∃ file', (∀ r, stored file r → stored file' r) ∧ durable_node file' n'.
Proof.
  intros Hn Hf Ht Hs Ha.
  destruct (step_thread e n) as [pc|] eqn:Hst.
  2: { exists file. split; [done|]. eapply durable_quiet; eauto. eapply act_quiet; [done|]. by rewrite Hst. }
  destruct (completing_pc pc) eqn:Hcp.
  2: { exists file. split; [done|]. eapply durable_quiet; eauto. eapply act_quiet; [done|]. congruence. }
  destruct e as [| | |tid os sent]; try done. simpl in Hst, Hs. rewrite Hst in Hs.
  apply fmap_Some in Hst as (th & Hth & ->). unfold act in Ha. destruct (exited n); [done|].
  rewrite Hth in Ha. unfold resume in Ha. rewrite (dn_persist _ _ Hn) in Ha.
  destruct (t_pc th) eqn:Hpc; try done; simplify_eq.
  - destruct Hs as (? & ? & ?). exists file. split; [done|]. by eapply durable_copy.
  - destruct (durable_create _ _ _ _ _ _ _ os Hn Hth Hpc Hs) as (payload & He & Hb & Hc & Hd).
    rewrite He, Hb, Hc in Ha. simplify_eq. by exists file.
  - destruct Hs as [Hw Hfl].
    destruct (durable_write _ _ _ _ _ _ _ os Hn Hth Hpc Hw Hfl) as [Heq Hd].
    rewrite Heq in Ha. simplify_eq. by exists file.
  - destruct (durable_replace _ _ _ _ _ _ os Hn Hth Hpc Hs) as (file' & fs & Heq & Hmono & Hd).
    rewrite Heq in Ha. simplify_eq. by exists file'.
  - pose proof (dn_threads _ _ Hn _ _ Hth) as Hfalse. unfold thread_durable in Hfalse.
    by rewrite Hpc in Hfalse.
  - exists file. split; [done|]. by eapply durable_resolve.
Qed.

Lemma durable_execution file n0 es n :
  durable_node file n0 → fine_execution n0 es n →
  ∃ file', (∀ r, stored file r → stored file' r) ∧ durable_node file' n.
Proof.
  intros Hn. induction 1 as [|es e n1 n2 _ (file1 & Hm1 & Hn1) Hf Ht Hs Ha]; [by exists file|].
  destruct (durable_act _ _ _ _ Hn1 Hf Ht Hs Ha) as (file2 & Hm2 & Hn2). exists file2. auto.
Qed.

(** ** A start on what a crash left *)

Lemma in_file_first ra file fs id :
  read_ok ra = true → in_file file fs → in_u64 id →
  let s := first_state ra id path fs in
  typed_state s ∧ ledger_ok s ∧ file_results file = results s ∧
  load_report ra path fs (set_coordinator_id id (new_coordinator 0)) = [] ∧
  (∀ s', file = Some s' → s = recovered (durable s')).
Proof.
  intros Hra Hf Hid. unfold first_state, load_report.
  rewrite (proj2 (String.eqb_neq _ _) path_set). simpl. destruct file as [s|].
  - destruct Hf as ((Hty & Hfi & Hl & _) & bytes & Hb & Hs).
    rewrite Hb, bool_decide_eq_true_2, (load_saved ra s bytes) by done. simpl.
    split_and!; [by apply typed_recovered|by apply recovered_ledger|done|done|].
    by intros s' [= <-].
  - simpl in Hf. rewrite Hf, bool_decide_eq_false_2 by by intros [].
    pose proof (step_exec (new_coordinator 0) (AttachCoordinator id) I) as Hst.
    split_and!; [|by eapply ledger_preserved, ledger_ok_new|done|done|done].
    by eapply typed_step, typed_new.
Qed.

Lemma advance_until_ok fuel target s :
  typed_state s → ledger_ok s →
  typed_state (advance_until fuel target s) ∧ ledger_ok (advance_until fuel target s).
Proof.
  revert s. induction fuel as [|fuel IH]; intros s Ht Hl; simpl; [done|]. case_match; [|done].
  apply IH; [by apply typed_advance_epoch|].
  by apply (ledger_preserved s AdvanceEpoch (advance_epoch s)); [constructor|].
Qed.

Lemma start_durable ra file fs id e :
  read_ok ra = true → in_file file fs → in_u64 id → durable_node file (start ra id path e fs).
Proof.
  intros Hra Hf Hid. destruct (in_file_first ra file fs id Hra Hf Hid) as (Hty & Hl & Hr & _).
  assert (Hs : typed_state (coord (start ra id path e fs)) ∧ ledger_ok (coord (start ra id path e fs))).
  { unfold start. fold (first_state ra id path fs). cbn [coord node_of].
    case_match; [by apply advance_until_ok|done]. }
  pose proof (start_results ra id path e fs) as Hres. rewrite <- Hr in Hres. destruct Hs as [Ht' Hl'].
  split; [done|by apply node_of_typed|done|done|by rewrite Hres|..]; simpl; intros *; by rewrite lookup_empty.
Qed.

(** Lives of the process on one state file, each ended by a crash at any point,
    and the answers its clients were given so far. *)
Inductive history : gmap string (list Z) → list ClientReplyMsg → Prop :=
| history_new fs : fs !! path = None → history fs []
| history_life ra fs told id e es n :
    history fs told → read_ok ra = true → in_u64 id → fine_execution (start ra id path e fs) es n →
    history (disk n) (told ++ (map_to_list (futures n)).*2).

Lemma history_file fs told :
  history fs told → ∃ file, in_file file fs ∧ ∀ r, r ∈ told → stored file r.
Proof.
  induction 1 as [fs Hfs|ra fs told id e es n _ (file & Hf & Hto) Hra Hid Hex].
  { exists None. split; [done|]. by intros r ?%elem_of_nil. }
  destruct (durable_execution _ _ _ _ (start_durable ra _ _ id e Hra Hf Hid) Hex) as (file' & Hm & Hn).
  exists file'. split; [apply Hn|]. intros r [Hr|Hr]%elem_of_app; [by apply Hm, Hto|].
  apply list_elem_of_fmap in Hr as ([d r'] & -> & Hr%elem_of_map_to_list). by eapply Hn.
Qed.
End Durable.

(** ** One worker connection *)

(** The thread is in a save. *)
Definition in_save (pc : Pc) : bool := match pc with Saving _ _ => true | pc => storing pc end.

(** Only a completion frame starts a save, on its own connection. *)
Lemma act_in_save e n n' tid th :
  act e n = Some n' → threads n' !! tid = Some th → in_save (t_pc th) = true →
  (∃ th0, threads n !! tid = Some th0 ∧ in_save (t_pc th0) = true) ∨
  ∃ corr bytes draw, e = Frame tid FrameType.RESULT corr bytes draw.
Proof.
  unfold act. destruct (exited n); [done|]. intros Ha Hth Hs. destruct e as [t|t ft corr bytes draw|t|t os sent]; simpl in Ha.
  - case_match; simplify_eq. simpl in Hth. apply lookup_insert_Some in Hth as [[<- <-]|[_ ?]]; [done|by eauto].
  - destruct (serving t n) as [th0|]; simplify_eq.
    destruct (decide (tid = t ∧ ft = FrameType.RESULT)) as [[-> ->]|Hne]; [by eauto 6|left].
    unfold on_frame, on_result in Hth.
    destruct ft; [..|]; try by eauto.
    all: destruct (decoded _ bytes) as [[]|]; simpl in Hth; try by eauto.
    all: repeat case_match; simpl in Hth; try by eauto.
    all: apply lookup_insert_Some in Hth as [[<- <-]|[_ ?]]; [|by eauto]; simpl in Hs; by try (by destruct Hne).
  - destruct (serving t n) as [th0|]; simplify_eq. simpl in Hth.
    apply lookup_insert_Some in Hth as [[<- <-]|[_ ?]]; [|by eauto]. by destruct (t_worker th0).
  - destruct (threads n !! t) as [th0|] eqn:Ht; [|done]. left.
    unfold resume in Ha. destruct (t_pc th0) eqn:Hpc; simplify_eq.
    all: repeat case_match; simplify_eq; simpl in Hth; rewrite ?resolve_dispatch_threads in Hth; try by eauto.
    all: apply lookup_insert_Some in Hth as [[<- <-]|[_ ?]]; [|by eauto]; simpl in Hs; try done.
    all: exists th0; by rewrite Hpc.
Qed.

(** While completions arrive on one connection only, saves never overlap: its
    thread handles one frame at a time. *)
Lemma one_connection_saves_alone tid n0 es n th :
  map_Forall (fun tid' th => in_save (t_pc th) = true → tid' = tid) (threads n0) →
  Forall (fun e => match e with Frame tid' FrameType.RESULT _ _ _ => tid' = tid | _ => True end) es →
  node_execution n0 es n → threads n !! tid = Some th → storing (t_pc th) = false →
  nobody_stores n.
Proof.
  intros H0 He Hex Hth Hs.
  assert (Hall : map_Forall (fun tid' th => in_save (t_pc th) = true → tid' = tid) (threads n)).
  { clear Hth Hs. induction Hex as [|es e n1 n2 _ IH Hf Ha]; [done|].
    apply Forall_app in He as [He Hl]. apply Forall_cons_iff in Hl as [Hl _].
    intros tid' th' Hth' Hs'. destruct (act_in_save _ _ _ _ _ Ha Hth' Hs') as [(th0 & ? & ?)|(? & ? & ? & ->)].
    - by eapply (IH He).
    - done. }
  intros tid' th' Hth'. destruct (storing (t_pc th')) eqn:Hs'; [|done].
  rewrite (Hall tid' th' Hth') in Hth' by (by destruct (t_pc th')). congruence.
Qed.

(** The node with its thread [tid] moved to [pc] and the disk [fs]. *)
Definition saving_at (tid : Z) (th : Thread) (pc : Pc) (fs : gmap string (list Z)) (n : Node) : Node :=
  set_thread tid (at_pc pc th) (set_disk fs n).

Lemma temp_open_insert n n' tid th :
  temp_open n = false → writing th = false → threads n' = <[tid := th]> (threads n) →
  temp_open n' = false.
Proof.
  intros Hn Hw Hth. apply not_true_is_false. intros ([tid' th'] & Hin & Hw')%existsb_exists.
  apply list_elem_of_In, elem_of_map_to_list in Hin. rewrite Hth in Hin. simpl in Hin, Hw'.
  apply lookup_insert_Some in Hin as [[_ <-]|[_ Hin]]; [congruence|].
  apply not_true_iff_false in Hn. apply Hn, existsb_exists. exists (tid', th'). split; [|done].
  by apply list_elem_of_In, elem_of_map_to_list.
Qed.

Lemma saving_free tid th pc fs n os :
  temp_open n = false → writing (at_pc pc th) = false → sharing (saving_at tid th pc fs n) os = os.
Proof.
  intros Hn Hw. unfold sharing.
  rewrite (temp_open_insert n (saving_at tid th pc fs n) tid (at_pc pc th)) by done.
  destruct os. simpl. by rewrite !andb_true_r.
Qed.

Lemma saving_step tid th pc fs n os sent pc' fs' es :
  exited n = false →
  resume os sent tid (at_pc pc th) (saving_at tid th pc fs n) =
    Some (saving_at tid (at_pc pc th) pc' fs' (saving_at tid th pc fs n)) →
  run_node (Resume tid os sent :: es) (saving_at tid th pc fs n) =
  run_node es (saving_at tid th pc' fs' n).
Proof.
  intros He Hr. erewrite run_node_resume; [|exact He|simpl; apply lookup_insert_eq|exact Hr].
  f_equal. apply node_eq; try reflexivity. simpl. by rewrite insert_insert_eq.
Qed.

Lemma saving_last tid th pc fs n os sent pc' fs' :
  exited n = false →
  resume os sent tid (at_pc pc th) (saving_at tid th pc fs n) =
    Some (saving_at tid (at_pc pc th) pc' fs' (saving_at tid th pc fs n)) →
  run_node [Resume tid os sent] (saving_at tid th pc fs n) = Some (saving_at tid th pc' fs' n).
Proof. intros He Hr. by rewrite (saving_step _ _ _ _ _ _ _ _ _ [] He Hr). Qed.

Ltac at_save :=
  unfold resume; cbn [t_pc at_pc]; rewrite ?saving_free by done;
  cbn [persist disk saving_at set_thread set_disk].

(** The end of a save, from the closed temporary file. *)
Lemma uninterrupted_end n tid th d r os sent ok fs :
  exited n = false → temp_open n = false →
  ∃ k, run_node (replicate k (Resume tid os sent))
    (saving_at tid th (if ok : bool then Replacing d r else Discarding d r) fs n) =
  Some (saving_at tid th (Resolving d r)
    (let failed := delete_file os (temp_of (persist n)) fs in
     if ok then default failed (replace_file os (temp_of (persist n)) (persist n) fs) else failed) n).
Proof.
  intros He Ho.
  assert (Hd : run_node [Resume tid os sent] (saving_at tid th (Discarding d r) fs n) =
    Some (saving_at tid th (Resolving d r) (delete_file os (temp_of (persist n)) fs) n)).
  { apply saving_last; [done|]. by at_save. }
  destruct ok; [|by exists 1%nat].
  destruct (replace_file os (temp_of (persist n)) (persist n) fs) as [fs3|] eqn:Hm.
  - exists 1%nat. apply saving_last; [done|]. at_save. by rewrite Hm.
  - exists 2%nat. cbn [replicate]. erewrite saving_step; [exact Hd|done|]. at_save. rewrite Hm.
    f_equal; by apply node_eq.
Qed.

(** A save whose steps no other thread interrupts is [Coordinator::save]. *)
Lemma uninterrupted_save n tid th d r os sent rs fs :
  exited n = false → threads n !! tid = Some th → t_pc th = Saving d r → temp_open n = false →
  coordinator_save os (persist n) (coord n) (disk n) = Some (rs, fs) →
  ∃ k, run_node (replicate k (Resume tid os sent)) n =
       Some (set_thread tid (at_pc (Resolving d r) th) (set_disk fs n)).
Proof.
  intros He Hth Hpc Hopen Hsave. unfold coordinator_save in Hsave.
  destruct (encode_state (coord n)) as [payload|] eqn:Hen; [|done]. simpl in Hsave. simplify_eq.
  assert (H1 : ∀ es, run_node (Resume tid os sent :: es) n =
    run_node es (saving_at tid th (Storing d r (coord n)) (disk n) n)).
  { intros es. erewrite run_node_resume; [|done|done|unfold resume; rewrite Hpc; reflexivity].
    unfold saving_at. by rewrite set_disk_same. }
  unfold save in Hsave. destruct (build_envelope payload) as [bytes|e] eqn:Hb.
  2: { simplify_eq. exists 2%nat. cbn [replicate]. rewrite H1. apply saving_last; [done|].
       at_save. rewrite Hen, Hb. f_equal; by apply node_eq. }
  destruct (create_temp os (temp_of (persist n)) (disk n)) as [fs1|] eqn:Hc.
  2: { simplify_eq. exists 2%nat. cbn [replicate]. rewrite H1. apply saving_last; [done|].
       at_save. rewrite Hen, Hb, Hc. f_equal; by apply node_eq. }
  destruct (write_temp os bytes (temp_of (persist n)) fs1) as [ok fs2] eqn:Hw.
  destruct (uninterrupted_end n tid th d r os sent ok fs2 He Hopen) as [k Hk].
  exists (S (S (S k))). cbn [replicate].
  rewrite H1, (saving_step _ _ _ _ _ _ _ (Writing d r bytes) fs1), (saving_step _ _ _ _ _ _ _ (if ok then Replacing d r else Discarding d r) fs2), Hk; try done.
  - unfold saving_at. do 3 f_equal. destruct ok; simpl in Hsave; [|by simplify_eq].
    destruct (replace_file _ _ _ _); by simplify_eq.
  - at_save. by rewrite Hw.
  - at_save. by rewrite Hen, Hb, Hc.
Qed.
