(* ===== verification/Crashes.v ===== *)
(** * What a crash of the coordinator process costs

    The properties of the state file across crashes, and the executions in
    which the process loses what it has told a client: saves of two threads that
    overlap, a write that fails between them, and a result read before it is
    saved. *)

From S2P Require Import Prelude Enums Ids Checksum Codec Model Protocol State Coordinator.
From S2P Require Import Machine Worker Safety Persistence StateCodec Recovery Typed Node CoordinatorProcess Durability.

(** ** Evaluating executions *)

#[global] Instance typed_event_dec e : base.Decision (typed_event e).
Proof.
  destruct e as [|tid t corr bytes draw| |]; simpl; try apply _.
  destruct (decoded t bytes) as [p|]; [|unfold is_bytes; apply _].
  assert (base.Decision (typed_payload p)).
  { destruct p; simpl; try apply _.
    - destruct (decide (savable_command (ApplyRegisterTarget (with_owner 0 m)))) as [[H _]|H].
      + by left.
      + right. intros Hw. apply H. by split.
    - apply (decide (savable_command (CreateOperation (ClientRegisterOperationMsg.op m)))). }
  unfold is_bytes. apply _.
Defined.
#[global] Instance fits_dec s : base.Decision (fits s).
Proof. unfold fits. apply _. Defined.
#[global] Instance storable_dec s : base.Decision (storable s).
Proof. unfold storable. destruct (encode_state s); apply _. Defined.
#[global] Instance saves_fine_dec e n : base.Decision (saves_fine e n).
Proof.
  destruct e as [| | |tid os sent]; simpl; try apply _.
  destruct (t_pc <$> _) as [[]|]; unfold nobody_stores; apply _.
Defined.



(** ** Two dispatches through one process *)

(** From an empty state file: a worker registers its target on connection 1,
    and two clients plan the operations 17 and 18 and dispatch the plans 21 and
    22, up to waiting for the worker.  The worker answers on connections 1 and
    4. *)
Definition setting_up : list Event :=
  [Connect 1;
   frame 1 (P_HELLO {| HelloMsg.worker := 12; HelloMsg.worker_boot := 11; HelloMsg.name := "w" |})
     (drawing 61); resume_ 1;
   frame 1 (P_REGISTER_TARGET (demo_register demo_ids)) (drawing 62);
   frame 1 (P_CAPABILITY (demo_capability demo_ids)) (drawing 63);
   frame 1 (P_DATA_EVIDENCE (demo_evidence demo_ids)) (drawing 64);
   frame 1 (P_HEARTBEAT small_heartbeat) (drawing 65);
   Connect 2; Connect 3; Connect 4;
   frame 2 (P_CLIENT_REGISTER_OPERATION {| ClientRegisterOperationMsg.op := small_operation 17 |})
     (drawing 66);
   frame 3 (P_CLIENT_REGISTER_OPERATION {| ClientRegisterOperationMsg.op := small_operation 18 |})
     (drawing 67);
   frame 2 (P_CLIENT_PLAN {| ClientPlanMsg.op := 17 |}) (drawing 21);
   frame 3 (P_CLIENT_PLAN {| ClientPlanMsg.op := 18 |}) (drawing 22);
   frame 2 (P_CLIENT_DISPATCH {| ClientDispatchMsg.plan := 21 |}) (drawing 31)] ++
  replicate 6 (resume_ 2) ++
  [frame 3 (P_CLIENT_DISPATCH {| ClientDispatchMsg.plan := 22 |}) (drawing 32)] ++
  replicate 6 (resume_ 3).

(** The worker's honest completions of the two plans. *)
Definition second_honest : ResultMsg :=
  {| ResultMsg.plan := 22; ResultMsg.plan_gen := 1; ResultMsg.dispatch := 32;
     ResultMsg.attempt := 42; ResultMsg.target := 16; ResultMsg.target_gen := 1;
     ResultMsg.worker_boot := 11; ResultMsg.epoch := 1; ResultMsg.dataset_gen := 1;
     ResultMsg.region_gen := 1; ResultMsg.operation_gen := 1; ResultMsg.result_gen := 1;
     ResultMsg.output := demo_output;
     ResultMsg.output_digest := to_hex (content_digest demo_output);
     ResultMsg.unknown := false; ResultMsg.note := "" |}.

Definition first_node : Node := start reads_fine 5 "state" 0 ∅.
(** The node after some events, and the answers of a system that writes the
    whole copy of the coordinator there. *)
Definition after (run : list Event → Node → option Node) (es : list Event) (n : Node) : Node :=
  default first_node (run es n).
Definition writing_all (tid : Z) (s : RuntimeState) : Event := Resume tid (os_for s) true.

(** The completion of plan 21 is applied; the copy that will be saved. *)
Definition first_done : list Event := setting_up ++ [frame 1 (P_RESULT demo_honest) (drawing 51)].
Definition first_copy : RuntimeState := coord (after run_node first_done first_node).

(** Connection 1 has its copy when the completion of plan 22 arrives on
    connection 4, is saved, and its client answered; then the older copy goes to
    the file. *)
Definition both_done : list Event :=
  first_done ++ [resume_ 1; frame 4 (P_RESULT second_honest) (drawing 52)].
Definition both_copy : RuntimeState := coord (after run_node both_done first_node).
Definition overlapping : list Event :=
  both_done ++ replicate 5 (writing_all 4 both_copy) ++ [resume_ 3] ++
  replicate 4 (writing_all 1 first_copy).

(** Connection 1 has written its file and not yet moved it when connection 4
    creates the temporary file again and its write fails. *)
Definition os_full : OsAnswers :=
  {| os_create := true; os_write := None; os_flush := true; os_delete := true; os_move := true |}.
Definition torn : list Event :=
  both_done ++ replicate 2 (writing_all 1 first_copy) ++
  replicate 3 (Resume 4 os_full true) ++ replicate 2 (writing_all 1 first_copy) ++ [resume_ 2].

(** A client reads the result of plan 21 before the save. *)
Definition early_read : list Event :=
  first_done ++
  [frame 4 (P_CLIENT_GET_RESULT {| ClientGetResultMsg.plan := 21 |}) (drawing 53); resume_ 4].

(** ** Properties *)





(** Claim C13: a crash never leaves a state that was not.  Whatever frames arrive,
    however the saves of several threads overlap on the one temporary file,
    whatever the system calls answer and wherever the process stops, the state
    file is as this life found it, or holds what [save] writes of a state the
    coordinator was in, or the beginning of that.  Such a beginning is refused
    by every load, whatever its reads answer.  The whole is loaded as the recovery
    of exactly that state when the reads succeed, the state is within the
    format's counts, and the state this life began with and the frames since
    carry only what the format can hold (no operation that names a program or a
    program generation, no enumerator outside its enumeration). *)
Theorem crash_recovers_a_past_state ra c path fs es n s0 :
  node_execution (node_of c path fs) es n →
  disk n !! path = fs !! path ∨
  ∃ s bytes m, visited (node_of c path fs) es s ∧ saved_as s bytes ∧
    disk n !! path = Some (take m bytes) ∧
    ((m < length bytes)%nat → ∃ e, coordinator_load ra (disk n !! path) s0 = (Err e, s0)) ∧
    ((length bytes ≤ m)%nat → typed_state c → Forall typed_event es → fits s → read_ok ra = true →
       coordinator_load ra (disk n !! path) s0 = (Ok tt, recovered (durable s))).
Proof.
  intros Hex. destruct (pk_path _ _ _ _ (past_execution _ _ _ _ _ Hex)) as [?|(bs & Hd & Hp)];
    [by left|right]. destruct Hp as (s & bytes & m & Hv & Hs & ->).
  exists s, bytes, m. rewrite Hd. split_and!; [done|done|done|by eapply load_part|].
  intros Hm Hc He Hf Hra. rewrite take_ge by done. apply load_saved; [done| |done|done].
  destruct Hv as (es1 & es2 & n1 & -> & Hex1 & <-). apply Forall_app in He as [He _].
  by eapply typed_execution, Hex1; [apply node_of_typed|].
Qed.

Lemma after_execution es :
  bool_decide (is_Some (option_map replies (run_node es first_node))) = true →
  node_execution first_node es (after run_node es first_node).
Proof.
  unfold after. intros [x Hx]%bool_decide_eq_true_1.
  destruct (run_node es first_node) as [n|] eqn:Hn; [|done]. by apply run_node_execution.
Qed.

Lemma crash_recovers_a_past_state_witness :
  ∃ s bytes m, visited first_node overlapping s ∧ saved_as s bytes ∧
    disk (after run_node overlapping first_node) !! "state" = Some (take m bytes) ∧
    ((length bytes ≤ m)%nat → fits s →
       coordinator_load reads_fine (disk (after run_node overlapping first_node) !! "state")
         (new_coordinator 0) = (Ok tt, recovered (durable s))).
Proof.
  destruct (crash_recovers_a_past_state reads_fine (coord first_node) "state" ∅ overlapping
    (after run_node overlapping first_node) (new_coordinator 0))
    as [Hd|(s & bytes & m & Hv & Hs & Hd & _ & Hl)].
  - apply after_execution. vm_compute. reflexivity.
  - apply (f_equal (option_map (@length Z))) in Hd. vm_compute in Hd. discriminate Hd.
  - exists s, bytes, m. split; [exact Hv|]. split; [exact Hs|]. split; [exact Hd|].
    intros Hm Hf. apply Hl; [exact Hm| | |exact Hf|reflexivity].
    + apply (start_durable "state" ltac:(discriminate) reads_fine None ∅ 5 0); [reflexivity|reflexivity|unfold in_u64; lia].
    + apply (bool_decide_eq_true_1 _). vm_compute. reflexivity.
Defined.

(** What the next process knows of a plan. *)
Definition verdict (k : ExecutionPlanId) (n : Node) : ExecutionLifecycle * bool :=
  let s := coord (start reads_fine 6 "state" 0 (disk n)) in (lifecycle_of k s, has_result k s).
(** The last answer: its connection, its plan and whether it says committed. *)
Definition last_told (n : Node) : Z * ExecutionPlanId * bool :=
  let x := List.last (replies n) (0, 0, ok_reply false) in
  (x.1.1, ClientReplyMsg.plan x.2, ClientReplyMsg.committed x.2).

(** Without those conditions a client is told of a commit that a crash
    then undoes.  When the saves of two connections overlap, every system call
    succeeding, the copy taken first is moved over the file last: the client of
    plan 22 has its answer, and the next process holds the outcome of plan 22 for
    unknown.  When a write fails between the other save's write and its move,
    that save moves an empty file into place, reports success, and the next
    process starts with nothing.  And a client that asks for the result of a plan
    is told it is committed before it is saved at all. *)
Theorem told_commits_can_be_lost :
  (let n := after run_node overlapping first_node in
   node_execution first_node overlapping n ∧ last_told n = (3, 22, true) ∧
   verdict 22 n = (ExecutionLifecycle.OUTCOME_UNKNOWN, false)) ∧
  (let n := after run_node torn first_node in
   node_execution first_node torn n ∧ last_told n = (2, 21, true) ∧
   disk n !! "state" = Some [] ∧ verdict 21 n = (ExecutionLifecycle.PLANNED, false)) ∧
  (let n := after run_node early_read first_node in
   node_execution first_node early_read n ∧ last_told n = (4, 21, true) ∧
   disk n !! "state" = None).
Proof.
  cbv zeta. split_and!; try (apply after_execution); vm_compute; reflexivity.
Qed.
