(* ===== verification/System.v ===== *)
(** * Coordinator and worker together

    A dispatch from end to end: the client's thread in the coordinator process,
    the DISPATCH frame on the wire, the worker's receive loop and engine, the
    RESULT frame back, and the client's answer. *)

From S2P Require Import Prelude Enums Ids Checksum Codec Model Protocol Backend State Coordinator.
From S2P Require Import Behaviour Machine Worker Safety Completion Persistence StateCodec Recovery.
From S2P Require Import Admission Net WorkerProcess Node Durability.

(** ** The worker's answer fits its frame *)

Lemma hex_digits_length n d : length (hex_digits n d) = n.
Proof. revert d. induction n as [|n IH]; intros d; simpl; [done|]. rewrite ?length_app, IH. simpl. lia. Qed.
Lemma to_hex_length d : String.length (to_hex d) = 16%nat.
Proof.
  unfold to_hex. rewrite <- (hex_digits_length 16 d) at 2.
  induction (hex_digits 16 d) as [|c l IH]; simpl; [done|]. by rewrite IH.
Qed.

(** The output of an engine: bytes, eight at most or as many as the input. *)
Lemma worker_execute_output synthetic ns dm :
  is_bytes (DispatchMsg.payload dm) →
  let r := worker_execute synthetic ns dm in
  is_bytes (BackendResult.output r) ∧
  (length (BackendResult.output r) ≤ 8 + length (DispatchMsg.payload dm))%nat ∧
  (String.length (BackendResult.note r) ≤ 64)%nat.
Proof.
  intros Hp. set (p := DispatchMsg.payload dm) in *.
  assert (Hle : ∀ s, is_bytes (le_output s)) by (intros s; rewrite le_output_bytes; apply le_bytes_range).
  assert (Hmin : is_bytes [byte_min p]).
  { constructor; [|constructor]. unfold byte_min. rewrite fold_min. clear -Hp.
    induction Hp as [|b l Hb Hl IH]; simpl; [ranges|]. unfold in_u8 in *. lia. }
  assert (Hmax : is_bytes [byte_max p]).
  { constructor; [|constructor]. unfold byte_max. rewrite fold_max. clear -Hp.
    induction Hp as [|b l Hb Hl IH]; simpl; [ranges|]. unfold in_u8 in *. lia. }
  unfold worker_execute, synthetic_execute, host_local_execute. cbn [BackendRequest.input BackendRequest.input_bytes BackendRequest.op_class].
  fold p. rewrite Z.eqb_refl. cbn [negb].
  destruct synthetic, (DispatchMsg.op_class dm); cbn [BackendResult.output BackendResult.note BackendResult.refuse];
    (split_and!; [first [apply Hle | apply Hmin | apply Hmax | exact Hp | constructor]
                 |rewrite ?le_output_length; simpl; lia
                 |try destruct (_ =? 0); simpl; lia]).
Qed.

Lemma worker_result_wf synthetic ns dm :
  DispatchMsg.wf_dispatch dm → Z.of_nat (length (DispatchMsg.payload dm)) <= 16384 →
  let rm := worker_result dm (worker_execute synthetic ns dm) in
  wf_payload (P_RESULT rm) ∧ is_bytes (ResultMsg.encode_result rm) ∧
  Z.of_nat (length (ResultMsg.encode_result rm)) <= kMaxFramePayload.
Proof.
  intros Hwf Hlen rm. unfold DispatchMsg.wf_dispatch in Hwf. destruct_and! Hwf.
  destruct (worker_execute_output synthetic ns dm) as (Hb & Hl & Hn); [done|]. split_and!.
  - unfold wf_payload, wire_wf, ResultMsg_wire, ResultMsg.wf_result, rm, blob_ok, string_ok, kMaxCodecBlobBytes.
    cbn [worker_result ResultMsg.plan ResultMsg.plan_gen ResultMsg.dispatch ResultMsg.attempt
      ResultMsg.target ResultMsg.target_gen ResultMsg.worker_boot ResultMsg.epoch ResultMsg.dataset_gen
      ResultMsg.region_gen ResultMsg.operation_gen ResultMsg.result_gen ResultMsg.output
      ResultMsg.output_digest ResultMsg.note].
    rewrite to_hex_length. split_and!; (done || ranges).
  - unfold ResultMsg.encode_result, rm. cbn [worker_result ResultMsg.output].
    repeat apply is_bytes_app; auto with nmc_codec.
  - unfold ResultMsg.encode_result, rm, kMaxFramePayload. autorewrite with nmc_length.
    cbn [worker_result ResultMsg.output ResultMsg.output_digest ResultMsg.note].
    rewrite to_hex_length. lia.
Qed.

Lemma sample_bytes_length n st : length (sample_bytes n st) = n.
Proof. revert st. induction n as [|n IH]; intros st; simpl; [done|]. by rewrite IH. Qed.

Lemma dispatch_payload_small s p op boot d a :
  Z.of_nat (length (DispatchMsg.payload (dispatch_message s p op boot d a))) <= 16384.
Proof.
  unfold dispatch_message, build_sample_payload. cbn [DispatchMsg.payload].
  rewrite sample_bytes_length. unfold kMaxSamplePayload. lia.
Qed.

Lemma dispatch_servable synthetic dm :
  DispatchMsg.wf_dispatch dm → Z.of_nat (length (DispatchMsg.payload dm)) <= 16384 →
  servable synthetic (P_DISPATCH dm, 0).
Proof.
  intros Hwf Hl. unfold servable. cbn [fst snd]. split_and!.
  - exact Hwf.
  - change (is_bytes (DispatchMsg.encode_dispatch dm)). unfold DispatchMsg.wf_dispatch in Hwf.
    destruct_and! Hwf. unfold DispatchMsg.encode_dispatch.
    repeat apply is_bytes_app; auto with nmc_codec. case_match; [auto with nmc_codec|constructor].
  - change (Z.of_nat (length (DispatchMsg.encode_dispatch dm)) <= kMaxFramePayload).
    unfold DispatchMsg.encode_dispatch, kMaxFramePayload. case_match; autorewrite with nmc_length; simpl; lia.
  - ranges.
  - intros ns. by apply worker_result_wf.
Qed.

(** ** The client's side *)

(** The node once the promise is registered and the frame sent. *)
Definition waiting_node (ctid : Z) (cth : Thread) (k : ExecutionPlanId) (d : DispatchId)
    (boot : WorkerBootId) (corr : Z) (s2 : RuntimeState) (n : Node) : Node :=
  {| coord := s2; sockets := sockets n; pending := <[d := boot]> (pending n);
     futures := futures n; persist := persist n; disk := disk n; running := running n;
     exited := exited n; threads := <[ctid := at_pc (Waiting k d corr) cth]> (threads n);
     replies := replies n |}.

Lemma thread_other tid th n tid' x :
  tid ≠ tid' → threads n !! tid' = x → threads (set_thread tid th n) !! tid' = x.
Proof. intros Hne Hx. simpl. by rewrite lookup_insert_ne. Qed.
Lemma socket_open_serving tid n th :
  threads n !! tid = Some th → t_pc th = Serving → socket_open tid n = true.
Proof. intros Ht Hpc. unfold socket_open. by rewrite Ht, Hpc. Qed.

(** From a prepared reservation to waiting for the worker: five critical
    sections of the client's thread. *)
Lemma client_reaches_waiting n ctid cth k d a corr out s1 s2 wtid wth os es :
  exited n = false → threads n !! ctid = Some cth → t_pc cth = Preparing k d a corr →
  prepare_dispatch k d a (coord n) = (Ok out, s1) → confirm_dispatched k d s1 = (Ok tt, s2) →
  sockets n !! DispatchMsg.worker_boot (DispatchOutput.message out) = Some wtid →
  serving wtid n = Some wth →
  run_node (replicate 5 (Resume ctid os true) ++ es) n =
  run_node es (waiting_node ctid cth k d (DispatchMsg.worker_boot (DispatchOutput.message out)) corr s2 n).
Proof.
  intros He Ht Hpc Hprep Hconf Hsock Hserv. apply serving_Some in Hserv as [Hw Hwpc].
  assert (Hne : ctid ≠ wtid) by (intros ->; congruence).
  destruct n as [c ss pd fu ps fs run ex ths rs]. simpl in He, Ht, Hprep, Hsock, Hw. subst ex.
  set (r := Resume ctid os true). change (replicate 5 r ++ es) with (r :: r :: r :: r :: r :: es). subst r.
  erewrite (run_node_resume ctid os true _ _ cth);
    [|done|done|unfold resume; rewrite Hpc; cbn [coord]; rewrite Hprep; reflexivity].
  erewrite (run_node_resume ctid os true _ _ (at_pc _ cth));
    [|done|simpl; apply lookup_insert_eq|unfold resume; cbn [t_pc at_pc sockets set_coord set_thread]; rewrite Hsock; reflexivity].
  erewrite (run_node_resume ctid os true _ _ (at_pc _ (at_pc _ cth)));
    [|done|simpl; apply lookup_insert_eq|unfold resume; cbn [t_pc at_pc coord set_coord set_thread]; rewrite Hconf; reflexivity].
  erewrite (run_node_resume ctid os true _ _ (at_pc _ (at_pc _ (at_pc _ cth))));
    [|done|simpl; apply lookup_insert_eq|reflexivity].
  erewrite (run_node_resume ctid os true _ _ (at_pc _ (at_pc _ (at_pc _ (at_pc _ cth)))));
    [|done|simpl; apply lookup_insert_eq|].
  2: { unfold resume. cbn [t_pc at_pc]. rewrite (socket_open_serving wtid _ wth); [reflexivity| |exact Hwpc].
       repeat (apply thread_other; [exact Hne|]). exact Hw. }
  f_equal. apply node_eq; try reflexivity.
  cbn [threads set_thread set_coord set_routes waiting_node].
  rewrite !insert_insert_eq. reflexivity.
Qed.

(** A state that encodes keeps encoding while no operation is added. *)
Lemma encode_state_kept s s' :
  operations s' = operations s → is_Some (encode_state s) → is_Some (encode_state s').
Proof. intros Heq. unfold encode_state. rewrite Heq. destruct (existsb _ _); [by intros [? ?]|done]. Qed.

Lemma apply_result_operations fresh m s : operations (apply_result fresh m s).2 = operations s.
Proof.
  destruct (operations_step (ApplyResult fresh m) s) as [H|(? & ? & _)]; [|done].
  simpl in H. by destruct (apply_result fresh m s).
Qed.

(** What a save of the applied completion needs to run through: no state file at
    all, or a coordinator that encodes and no save of another thread under
    way. *)
Definition saves_freely (n : Node) : Prop :=
  persist n = "" ∨ temp_open n = false ∧ is_Some (encode_state (coord n)).

(** The worker's thread, left to run after a completion that was applied, comes
    to resolve the promise, having saved if there is a state file. *)
Lemma runs_to_resolving n wtid w0 d r os :
  saves_freely n → exited n = false →
  let pc := if negb (String.eqb (persist n) "") then Saving d r else Resolving d r in
  let n1 := set_thread wtid (at_pc pc w0) n in
  ∃ m fs, run_node (replicate m (Resume wtid os true)) n1 =
    Some (set_thread wtid (at_pc (Resolving d r) w0) (set_disk fs n)).
Proof.
  intros [Hp|[Ho He]] Hx; cbv zeta.
  { exists 0%nat, (disk n). by rewrite Hp. }
  destruct (String.eqb (persist n) ""); cbn [negb].
  { by exists 0%nat, (disk n). }
  destruct He as [payload Hen]. set (n1 := set_thread wtid _ n).
  destruct (save os (persist n) payload (disk n)) as [rs fs] eqn:Hs.
  destruct (uninterrupted_save n1 wtid (at_pc (Saving d r) w0) d r os true rs fs) as [m Hm];
    [done|apply lookup_insert_eq|done| | |].
  { by apply (temp_open_insert n _ wtid (at_pc (Saving d r) w0)). }
  { unfold coordinator_save. simpl. by rewrite Hen, <- Hs. }
  exists m, fs. rewrite Hm. f_equal. apply node_eq; try reflexivity. simpl. apply insert_insert_eq.
Qed.

(** The worker's completion reaches the waiting client: the RESULT frame, the
    save if there is a state file, the resolution of the promise, the client's
    step. *)
Lemma completion_reaches_client n ctid cth wtid wth k d corr boot s2 rm res s3 c bytes draw os :
  let n5 := waiting_node ctid cth k d boot corr s2 n in
  exited n = false → saves_freely n → operations s2 = operations (coord n) →
  serving wtid n = Some wth → ctid ≠ wtid →
  event_fresh (Frame wtid FrameType.RESULT c bytes draw) n5 →
  decoded FrameType.RESULT bytes = Some (P_RESULT rm) → ResultMsg.dispatch rm = d →
  apply_result (draw 0%nat) rm s2 = (Ok res, s3) → ExecutionResult.committed res = true →
  ∃ m n', run_node (Frame wtid FrameType.RESULT c bytes draw ::
      replicate m (Resume wtid os true) ++ [Resume ctid os true]) n5 = Some n' ∧ coord n' = s3 ∧
    replies n' = replies n ++ [(ctid, corr, result_reply (ResultMsg.plan rm) res)].
Proof.
  intros n5 He Hfree Hops Hserv Hne Hfresh Hdec Hd Har Hcom. apply serving_Some in Hserv as [Hw Hwpc].
  set (reply := result_reply (ResultMsg.plan rm) res). set (n6 := set_coord s3 n5).
  assert (H6 : act (Frame wtid FrameType.RESULT c bytes draw) n5 = Some (set_thread wtid
    (at_pc (if negb (String.eqb (persist n6) "") then Saving d reply else Resolving d reply) wth) n6)).
  { unfold act, serving. subst n6 n5. cbn [exited waiting_node threads].
    rewrite He, (lookup_insert_ne _ _ _ _ Hne), Hw, Hwpc.
    unfold on_frame. rewrite Hdec. unfold on_result. cbn [coord waiting_node]. rewrite Har.
    cbn [persist set_coord waiting_node]. by rewrite Hcom, Hd. }
  assert (Hf6 : saves_freely n6).
  { destruct Hfree as [Hp|[Ho Hen]]; [by left|right]. split; [by apply (temp_open_insert n _ ctid (at_pc (Waiting k d corr) cth))|].
    eapply encode_state_kept; [|exact Hen]. simpl. rewrite <- Hops.
    replace s3 with (apply_result (draw 0%nat) rm s2).2 by by rewrite Har. apply apply_result_operations. }
  destruct (runs_to_resolving n6 wtid wth d reply os Hf6 He) as (m & fs & Hm).
  set (n7 := set_thread wtid _ (set_disk fs n6)) in Hm.
  set (n8 := set_thread wtid (at_pc Serving (at_pc (Resolving d reply) wth)) (resolve_dispatch d reply n7)).
  assert (Hc : threads n8 !! ctid = Some (at_pc (Waiting k d corr) cth)).
  { subst n8 n7 n6 n5. simpl. rewrite resolve_dispatch_threads. simpl.
    rewrite !(lookup_insert_ne _ _ _ _ (not_eq_sym Hne)). apply lookup_insert_eq. }
  assert (H8 : futures n8 !! d = Some reply ∧ exited n8 = false ∧ coord n8 = s3 ∧ replies n8 = replies n).
  { subst n8 n7 n6 n5. simpl. unfold resolve_dispatch. simpl. rewrite lookup_insert_eq. simpl.
    by rewrite lookup_insert_eq. }
  destruct H8 as (Hf & He8 & Hc8 & Hr8).
  exists (m + 1)%nat. rewrite replicate_add, <- (app_assoc (replicate m _)). cbn [run_node].
  rewrite bool_decide_true, H6 by exact Hfresh. rewrite run_node_app, Hm. cbn [mbind option_bind replicate app].
  erewrite (run_node_resume wtid os true _ n7); [|exact He|simpl; apply lookup_insert_eq|reflexivity].
  fold n8. clearbody n8. erewrite (run_node_resume ctid os true _ n8); [|done|exact Hc|].
  2: { unfold resume. cbn [t_pc at_pc]. rewrite Hf. reflexivity. }
  eexists. split; [reflexivity|]. simpl. by rewrite Hc8, Hr8.
Qed.

(** The worker's side of one dispatch. *)
Lemma worker_answers sent clock synthetic handle receives dm w fuel :
  (∀ i, sent i = true) → socket_valid handle = true → servable synthetic (P_DISPATCH dm, 0) →
  recv_fair (length (stream_of [(P_DISPATCH dm, 0)])) receives → (length receives < fuel)%nat →
  ∃ w', end_run (worker_serve sent clock fuel synthetic false handle receives
      (stream_of [(P_DISPATCH dm, 0)]) w) = Some w' ∧
    wr_out w' = wr_out w ++ [{| of_type := FrameType.RESULT; of_corr := wr_corr w;
      of_payload := ResultMsg.encode_result
        (worker_result dm (worker_execute synthetic (clock (length (wr_out w))) dm)) |}].
Proof.
  intros Hsent Hh Hsv Hr Hf.
  destruct (serve_stream sent clock synthetic handle receives [(P_DISPATCH dm, 0)] w fuel)
    as (w' & He & Ho); [done|done|by constructor|done|done|].
  exists w'. split; [|exact Ho]. by destruct He as [-> | ->].
Qed.

(** Identifiers fresh before the client goes on are fresh when it waits. *)
Lemma fresh_while_waiting n ctid cth k d a corr boot p op rt w wtid c bytes draw :
  threads n !! ctid = Some cth → t_pc cth = Preparing k d a corr →
  dispatchable (coord n) k p op rt w →
  event_fresh (Frame wtid FrameType.RESULT 0 [] draw) n →
  event_fresh (Frame wtid FrameType.RESULT c bytes draw)
    (waiting_node ctid cth k d boot corr (dispatched_state k d a p (coord n)) n).
Proof.
  intros Hct Hpc Hd (H0 & Hp & Hr & Hpe & Hfu & Hth).
  assert (Hdd : d ≠ draw 0%nat).
  { intros ->. apply (Hth _ _ Hct). by rewrite Hpc. }
  split; [done|]. split; [|split; [done|split; [|split; [done|]]]]; simpl.
  - rewrite lookup_insert_ne; [done|]. intros E. pose proof (dp_plan _ _ _ _ _ _ Hd). congruence.
  - by rewrite lookup_insert_ne.
  - intros tid th [[<- <-]|[_ Hl]]%lookup_insert_Some; [|by eapply Hth]. simpl. congruence.
Qed.

Lemma decoded_encoded p : wf_payload p → decoded (payload_type p) (encode_payload p) = Some p.
Proof. intros Hp. unfold decoded. by rewrite (reads_whole _ _ _ (payload_reads p Hp)). Qed.

(** ** Property *)

(** Claim C14: a dispatch commits end to end.  In any state the coordinator
    process can reach from a new coordinator, or from one recovered from states
    the format can hold, with a state file or without, take a client whose
    reservation can be dispatched, in a message that fits its frame, to a
    connected worker that serves the operation;
    when there is a state file, no other thread is in the middle of a save and the
    state can be encoded.  The frame the coordinator sends, cut into any pieces on
    the way, makes the worker, all of whose sends are taken, send exactly one
    frame, a RESULT.  In the schedule in which the client's thread runs on until
    it waits, that frame is handled, with fresh identifiers, the worker's thread
    runs on through its save, whatever the system answers, and the client's thread
    wakes, the plan is COMMITTED and the one reply the client gets says so, for
    its plan. *)
Theorem dispatch_commits_end_to_end c path fs es n ctid wtid cth wth k d a corr out s1 os draw
    sent clock synthetic handle receives fuel w :
  lifetime c → node_execution (node_of c path fs) es n → exited n = false → saves_freely n →
  threads n !! ctid = Some cth → t_pc cth = Preparing k d a corr →
  prepare_dispatch k d a (coord n) = (Ok out, s1) →
  sockets n !! DispatchMsg.worker_boot (DispatchOutput.message out) = Some wtid →
  serving wtid n = Some wth → DispatchMsg.wf_dispatch (DispatchOutput.message out) →
  engine_serves synthetic (DispatchMsg.op_class (DispatchOutput.message out)) = true →
  event_fresh (Frame wtid FrameType.RESULT 0 [] draw) n →
  (∀ i, sent i = true) → socket_valid handle = true →
  recv_fair (length (stream_of [(P_DISPATCH (DispatchOutput.message out), 0)])) receives →
  (length receives < fuel)%nat →
  ∃ f w' m n',
    end_run (worker_serve sent clock fuel synthetic false handle receives
      (stream_of [(P_DISPATCH (DispatchOutput.message out), 0)]) w) = Some w' ∧
    wr_out w' = wr_out w ++ [f] ∧ of_type f = FrameType.RESULT ∧
    run_node (replicate 5 (Resume ctid os true) ++
      Frame wtid FrameType.RESULT (of_corr f) (of_payload f) draw ::
      replicate m (Resume wtid os true) ++ [Resume ctid os true]) n = Some n' ∧
    lifecycle_of k (coord n') = ExecutionLifecycle.COMMITTED ∧
    ∃ r, replies n' = replies n ++ [(ctid, corr, r)] ∧
      ClientReplyMsg.committed r = true ∧ ClientReplyMsg.plan r = k.
Proof.
  intros Hc Hex He Hfree Hct Hcpc Hprep Hsock Hserv Hwf Hsv Hfresh Hsent Hh Hrecv Hfuel.
  destruct (node_invariant _ _ _ _ _ Hc Hex) as [Hlife _].
  pose proof (lifetime_ledger _ Hlife) as Hok.
  destruct (honest_outcome (coord n) k d a out s1 synthetic (clock (length (wr_out w))) (draw 0%nat) Hok Hprep)
    as (p & op & rt & ww & Hdp & Hdm & Hconf & res & s3 & Har & Hcom & Hpl & Hlc).
  set (dm := DispatchOutput.message out) in *.
  assert (Hsmall : Z.of_nat (length (DispatchMsg.payload dm)) <= 16384)
    by (rewrite Hdm; apply dispatch_payload_small).
  set (rm := worker_result dm (worker_execute synthetic (clock (length (wr_out w))) dm)) in *.
  destruct (worker_result_wf synthetic (clock (length (wr_out w))) dm Hwf Hsmall) as (Hrwf & _ & _).
  destruct (worker_answers sent clock synthetic handle receives dm w fuel Hsent Hh
    (dispatch_servable synthetic dm Hwf Hsmall) Hrecv Hfuel) as (w' & Hrun & Hout).
  eexists _, w'.
  destruct (completion_reaches_client n ctid cth wtid wth k d corr (DispatchMsg.worker_boot dm)
    (dispatched_state k d a p (coord n)) rm res s3 (wr_corr w) (ResultMsg.encode_result rm) draw os)
    as (m & n' & Hrn & Hcn & Hrep); try done.
  { intros ->. apply serving_Some in Hserv as [? ?]. congruence. }
  { by eapply fresh_while_waiting. }
  { by apply (decoded_encoded (P_RESULT rm)). }
  { unfold rm. simpl. by rewrite Hdm. }
  { by rewrite Hcom. }
  exists m, n'. split; [exact Hrun|]. split; [exact Hout|]. split; [reflexivity|]. split.
  { by rewrite (client_reaches_waiting n ctid cth k d a corr out s1 _ wtid wth os _ He Hct Hcpc Hprep Hconf Hsock Hserv). }
  rewrite Hcn, Hlc, Hsv. split; [reflexivity|]. eexists. split; [exact Hrep|].
  simpl. split; [by rewrite Hcom|]. unfold rm. simpl. rewrite Hdm. simpl.
  by destruct (lo_plan _ Hok _ _ (dp_plan _ _ _ _ _ _ Hdp)) as (_ & -> & _).
Qed.

(** The demonstration up to the client's dispatch of its reserved plan. *)
Definition preparing : list Event := take 7 dispatching.
Definition no_output : DispatchOutput :=
  {| DispatchOutput.ready := false; DispatchOutput.message := DispatchMsg.dflt;
     DispatchOutput.worker := 0 |}.
Definition demo_output_of (n : Node) : DispatchOutput :=
  value_or (prepare_dispatch 21 31 41 (coord n)).1 no_output.

(** It is run with a state file, so that the completion is saved. *)
Definition saving_node : Node :=
  let n := node_of (demo_state []) "state" ∅ in default n (run_node preparing n).

Lemma dispatch_commits_end_to_end_witness :
  ∃ f m n', of_type f = FrameType.RESULT ∧
    run_node (replicate 5 (Resume 2 (os_fine 0) true) ++
      Frame 1 FrameType.RESULT (of_corr f) (of_payload f) (drawing 51) ::
      replicate m (Resume 1 (os_fine 0) true) ++ [Resume 2 (os_fine 0) true]) saving_node = Some n' ∧
    lifecycle_of 21 (coord n') = ExecutionLifecycle.COMMITTED.
Proof.
  destruct (dispatch_commits_end_to_end (demo_state []) "state" ∅ preparing saving_node 2 1
    {| t_boot := 0; t_worker := false; t_pc := Preparing 21 31 41 7 |}
    {| t_boot := 11; t_worker := true; t_pc := Serving |} 21 31 41 7
    (demo_output_of saving_node) (prepare_dispatch 21 31 41 (coord saving_node)).2
    (os_fine 0) (drawing 51) (fun _ => true) (fun _ => 0) true 5
    (replicate (Z.to_nat 1000) (Arrived 7)) (Z.to_nat 1001) worker_fresh)
    as (f & w' & m & n' & _ & _ & Ht & Hrun & Hl & _).
  - apply reachable_lifetime, demo_reachable. vm_compute. reflexivity.
  - apply run_node_execution. unfold saving_node.
    assert (Hr : bool_decide (is_Some (run_node preparing (node_of (demo_state []) "state" ∅))) = true)
      by (vm_compute; reflexivity).
    apply bool_decide_eq_true_1 in Hr as [x Hx]. by rewrite Hx.
  - vm_compute. reflexivity.
  - right. split; [vm_compute; reflexivity|]. apply (bool_decide_eq_true_1 _). vm_compute. reflexivity.
  - vm_compute. reflexivity.
  - reflexivity.
  - vm_compute. reflexivity.
  - vm_compute. reflexivity.
  - vm_compute. reflexivity.
  - vm_compute. repeat split; try congruence. all: repeat constructor; vm_compute; congruence.
  - vm_compute. reflexivity.
  - apply (bool_decide_eq_true_1 _). vm_compute. reflexivity.
  - reflexivity.
  - reflexivity.
  - split; [apply Forall_replicate; by left|]. apply Nat.leb_le. vm_compute. reflexivity.
  - rewrite length_replicate. lia.
  - exists f, m, n'. split; [exact Ht|]. split; [exact Hrun|exact Hl].
Defined.
