(* ===== verification/Cli.v ===== *)
(** * The command-line tool ([nmc_cli.cpp])

    [cli_main] is the whole program: the command, what it prints and its exit
    code.  The tool runs the demonstration scenario of [setup_demo] in a
    coordinator of its own, so the identifiers it draws are arguments. *)

From S2P Require Import Prelude Enums Ids Double Model Authority Economics Planning Protocol.
From S2P Require Import Discovery State Coordinator Behaviour Machine Worker Planner.

(** ** The demonstration coordinator *)

(** What one run of the tool draws. *)
Record CliIds := {
  cli_coordinator : CoordinatorId; cli_demo : DemoIds; cli_plan : ExecutionPlanId;
  cli_dispatch : DispatchId; cli_attempt : AttemptId
}.

(** [Coordinator c; setup_demo(c, ...)]; the answers of the calls are ignored. *)
Definition demo_coordinator (i : CliIds) : RuntimeState :=
  fold_left (fun s c => (exec c s).2) (setup_demo (cli_demo i)) (new_coordinator (cli_coordinator i)).

(** ** Printing *)

Definition print_int (n : Z) : string := to_string_u64 n.
Definition print_flag (b : bool) : string := if b then "1" else "0".
Definition print_lines {A} (f : A → string) (l : list A) : string :=
  foldr (fun a rest => f a +:+ rest) "" l.
Definition mebibytes (n : Z) : string := print_int (Z.shiftr n 20).

Section PrintDiscovery.
Import NearMemoryHardwareInfo.
Definition physical_hardware (h : NearMemoryHardwareInfo) : bool :=
  physical_pim h || physical_cxl_adjacent_compute h || physical_memory_side_processor h ||
  physical_storage_side_compute h || physical_dpu_compute h.

Definition print_discovery (d : SystemDiscovery) : string :=
  let cpu := SystemDiscovery.cpu d in
  let memory := SystemDiscovery.memory d in
  let near := SystemDiscovery.near_memory d in
  "CPU " +:+ print_int (CpuInfo.logical_processors cpu) +:+ " logical / " +:+
  print_int (CpuInfo.physical_cores cpu) +:+ " physical cores, " +:+
  print_int (CpuInfo.numa_nodes cpu) +:+ " NUMA nodes" +:+ newline +:+
  "Memory " +:+ mebibytes (MemoryInfo.total_bytes memory) +:+ " MiB total / " +:+
  mebibytes (MemoryInfo.available_bytes memory) +:+ " MiB available" +:+ newline +:+
  print_lines (fun g => "GPU: " +:+ GpuInfo.name g +:+ " (dedicated " +:+
    mebibytes (GpuInfo.dedicated_memory_bytes g) +:+ " MiB)" +:+ newline) (SystemDiscovery.gpus d) +:+
  "Physical near-memory compute hardware: " +:+
  (if physical_hardware near then "REAL" else "UNSUPPORTED (none present)") +:+ newline +:+
  "Synthetic near-memory targets available: " +:+
  (if synthetic_targets_available near then "SYNTHETIC" else "UNKNOWN") +:+ newline.
End PrintDiscovery.

Definition help_text : string :=
  "nmc-cli commands:" +:+ newline +:+
  "  discover  targets  operations  datasets  evaluate  plan  dispatch  results  drain  audit  inspect-state"
  +:+ newline.

Definition print_operation (e : OperationId * OperationSpec) : string :=
  "  op " +:+ print_int e.1 +:+ " class=" +:+ to_string (OperationSpec.op_class e.2) +:+
  " dataset=" +:+ print_int (OperationSpec.dataset e.2) +:+ " region=" +:+
  print_int (OperationSpec.region e.2) +:+ " " +:+ newline.

Definition print_result (e : ResultId * ExecutionResult) : string :=
  "  result " +:+ print_int e.1 +:+ " plan=" +:+ print_int (ExecutionResult.plan e.2) +:+
  " committed=" +:+ print_flag (ExecutionResult.committed e.2) +:+ " verification=" +:+
  to_string (ExecutionResult.verification e.2) +:+ newline.

(** ** The commands *)

Definition is_ok {A} (r : Result A) : bool := match r with Ok _ => true | Err _ => false end.

Definition cli_plan_command (i : CliIds) (s : RuntimeState) : string * Z :=
  match (plan_locked (cli_plan i) (demo_op (cli_demo i)) s).1 with
  | Err e => ("plan failed: " +:+ message e +:+ newline, 1)
  | Ok out =>
      ("decision=" +:+ to_string (PlanOutput.decision out) +:+ " created=" +:+
       print_flag (PlanOutput.created out) +:+ newline +:+
       print_lines (fun l => "  " +:+ l +:+ newline) (PlanOutput.explanation out), 0)
  end.

(** The state at the end is that of the tool's coordinator when it exits. *)
Definition cli_dispatch_command (i : CliIds) (s : RuntimeState) : string * Z * RuntimeState :=
  let (out, s) := plan_locked (cli_plan i) (demo_op (cli_demo i)) s in
  match out with
  | Err _ => ("no near-memory plan to dispatch" +:+ newline, 1, s)
  | Ok out =>
      reject_if negb (PlanOutput.created out)
        with ("no near-memory plan to dispatch" +:+ newline, 1, s) in
      let pid := ExecutionPlan.id (PlanOutput.plan out) in
      let (r, s) := reserve pid s in
      reject_if negb (is_ok r) with ("reserve failed" +:+ newline, 1, s) in
      let (dop, s) := prepare_dispatch pid (cli_dispatch i) (cli_attempt i) s in
      match dop with
      | Err e => ("dispatch rejected (stale/unsupported): " +:+ message e +:+ newline, 1, s)
      | Ok _ =>
          let (r, s) := confirm_dispatched pid (cli_dispatch i) s in
          reject_if negb (is_ok r) with ("confirm failed" +:+ newline, 1, s) in
          ("dispatched plan " +:+ print_int pid +:+ " to worker; awaiting result" +:+ newline, 0, s)
      end
  end.

(** The commands on the demonstration coordinator. *)
Definition cli_command (i : CliIds) (cmd : string) : string * Z :=
  let s := demo_coordinator i in
  let target := demo_target (cli_demo i) in
  if String.eqb cmd "targets" || String.eqb cmd "inspect-state" then (inspect_text s, 0)
  else if String.eqb cmd "operations" then
    ("operations=" +:+ map_size (operations s) +:+ newline +:+
     print_lines print_operation (map_entries (operations s)), 0)
  else if String.eqb cmd "datasets" then
    ("datasets=" +:+ map_size (datasets s) +:+ " regions=" +:+ map_size (regions s) +:+ newline, 0)
  else if String.eqb cmd "evaluate" || String.eqb cmd "plan" then cli_plan_command i s
  else if String.eqb cmd "dispatch" then (cli_dispatch_command i s).1
  else if String.eqb cmd "results" then
    ("results=" +:+ map_size (results s) +:+ newline +:+
     print_lines print_result (map_entries (results s)), 0)
  else if String.eqb cmd "drain" then
    let r := (begin_drain target s).1 in
    ("drain target " +:+ print_int target +:+ ": " +:+
     (if is_ok r then "accepted" else "failed") +:+ newline, if is_ok r then 0 else 1)
  else if String.eqb cmd "audit" then
    ("coordinator epoch=" +:+ print_int (epoch s) +:+ " targets=" +:+ map_size (targets s) +:+
     " plans=" +:+ map_size (plans s) +:+ " results=" +:+ map_size (results s) +:+ newline, 0)
  else ("unknown command: " +:+ cmd +:+ newline, 1).

(** [main] on the arguments after the program's name; [None] when discovery does
    not return. *)
Definition cli_main (fuel : nat) (argv : list string) (a : SystemAnswers) (i : CliIds)
    : option (string * Z) :=
  let cmd := default "help" (head argv) in
  if String.eqb cmd "discover" then
    (fun d => (print_discovery d, 0)) <$> discover_system fuel a
  else if String.eqb cmd "help" then Some (help_text, 0)
  else Some (cli_command i cmd).

(** ** The scenario, for all drawn identifiers *)

(** [Id::make()] never answers the null identity. *)
Definition drawn (i : DemoIds) : Prop :=
  Forall (fun v => is_null v = false)
    [demo_md i; demo_dataset i; demo_region i; demo_target i; demo_op i].

Definition demo_caps (i : DemoIds) : CapabilitySet :=
  capabilities_of (demo_draw i) (demo_capability i) (definition_of (demo_register i)).

(** The coordinator after [setup_demo]: one entry in each table. *)
Definition demo_built (i : CliIds) : RuntimeState :=
  let d := cli_demo i in
  {| coordinator_id := cli_coordinator i; epoch := 1;
     memory_domains := {[demo_md d := demo_domain d]};
     datasets := {[demo_dataset d := demo_dataset_of d]};
     regions := {[demo_region d := demo_region_of d]};
     data_evidence := {[demo_region d := evidence_of (demo_evidence d)]};
     targets := {[demo_target d := definition_of (demo_register d)]};
     target_runtime := {[demo_target d := observe (demo_heartbeat d) (runtime_of (demo_register d))]};
     capabilities := {[demo_target d := demo_caps d]};
     operations := {[demo_op d := demo_operation d]}; programs := ∅;
     policies := {[1 := builtin_policy]}; plans := ∅; active_plans := ∅; results := ∅;
     reservations := ∅;
     workers := {[demo_worker d := {| WorkerSession.worker := demo_worker d;
                    WorkerSession.boot := demo_boot d; WorkerSession.name := "demo-worker";
                    WorkerSession.connected := true |}]} |}.

Lemma absent {V} (k : Z) (m : gmap Z V) :
  m !! k = None → bool_decide (is_Some (m !! k)) = false.
Proof. intros ->. by apply bool_decide_eq_false_2; intros []. Qed.

Section Steps.
Context (s : RuntimeState).
Lemma exec_memory_domain md :
  is_null (MemoryDomainDescriptor.id md) = false →
  is_null (MemoryDomainDescriptor.generation md) = false →
  memory_domains s !! MemoryDomainDescriptor.id md = None →
  (exec (RegisterMemoryDomain md) s).2 =
  set_memory_domains (<[MemoryDomainDescriptor.id md := md]> (memory_domains s)) s.
Proof. intros H1 H2 H3%absent. simpl. unfold register_memory_domain. by rewrite H1, H2, H3. Qed.
Lemma exec_dataset ds :
  is_null (DatasetDescriptor.id ds) = false → is_null (DatasetDescriptor.generation ds) = false →
  datasets s !! DatasetDescriptor.id ds = None →
  (exec (RegisterDataset ds) s).2 = set_datasets (<[DatasetDescriptor.id ds := ds]> (datasets s)) s.
Proof. intros H1 H2 H3%absent. simpl. unfold register_dataset. by rewrite H1, H2, H3. Qed.
Lemma exec_region rg :
  is_null (DataRegionDescriptor.id rg) = false → is_null (DataRegionDescriptor.generation rg) = false →
  regions s !! DataRegionDescriptor.id rg = None →
  (exec (RegisterRegion rg) s).2 = set_regions (<[DataRegionDescriptor.id rg := rg]> (regions s)) s.
Proof. intros H1 H2 H3%absent. simpl. unfold register_region. by rewrite H1, H2, H3. Qed.
Lemma exec_operation op :
  is_null (OperationSpec.id op) = false → is_null (OperationSpec.generation op) = false →
  operations s !! OperationSpec.id op = None →
  (exec (CreateOperation op) s).2 = set_operations (<[OperationSpec.id op := op]> (operations s)) s.
Proof. intros H1 H2 H3%absent. simpl. unfold create_operation. by rewrite H1, H2, H3. Qed.
Lemma exec_target msg :
  is_null (RegisterTargetMsg.target msg) = false → is_null (RegisterTargetMsg.generation msg) = false →
  (exec (ApplyRegisterTarget msg) s).2 =
  set_target_runtime (<[RegisterTargetMsg.target msg := runtime_of msg]> (target_runtime s))
    (set_targets (<[RegisterTargetMsg.target msg := definition_of msg]> (targets s)) s).
Proof. intros H1 H2. simpl. unfold apply_register_target. by rewrite H1, H2. Qed.
Lemma exec_capability draw msg tdef :
  is_null (CapabilityMsg.target msg) = false → targets s !! CapabilityMsg.target msg = Some tdef →
  (exec (ApplyCapability draw msg) s).2 =
  set_capabilities (<[CapabilityMsg.target msg := capabilities_of draw msg tdef]> (capabilities s)) s.
Proof. intros H1 H2. cbn [exec]. unfold apply_capability. by rewrite H1, H2. Qed.
Lemma exec_evidence msg :
  is_null (DataEvidenceMsg.region msg) = false →
  (exec (ApplyDataEvidence msg) s).2 =
  set_data_evidence (<[DataEvidenceMsg.region msg := evidence_of msg]> (data_evidence s)) s.
Proof. intros H1. cbn [exec]. unfold apply_data_evidence. by rewrite H1. Qed.
Lemma exec_heartbeat msg rt :
  target_runtime s = {[HeartbeatMsg.target msg := rt]} →
  is_terminal_target (TargetRuntime.lifecycle rt) = false →
  (exec (ApplyHeartbeat msg) s).2 =
  set_target_runtime {[HeartbeatMsg.target msg := observe msg rt]} s.
Proof.
  intros H1 H2. cbn [exec]. unfold apply_heartbeat. rewrite H1, lookup_singleton_eq, H2.
  by rewrite insert_singleton_eq.
Qed.
End Steps.

Lemma demo_coordinator_built i : drawn (cli_demo i) → demo_coordinator i = demo_built i.
Proof.
  intros Hd. unfold drawn in Hd. repeat (apply Forall_cons_iff in Hd as [? Hd]).
  unfold demo_coordinator, setup_demo. cbn [fold_left].
  rewrite exec_memory_domain by (done || apply lookup_empty).
  rewrite exec_dataset by (done || apply lookup_empty).
  rewrite exec_region by (done || apply lookup_empty).
  rewrite exec_target by done.
  rewrite (exec_capability _ _ _ (definition_of (demo_register (cli_demo i))))
    by (done || apply lookup_insert_eq).
  rewrite exec_evidence by done.
  rewrite (exec_heartbeat _ _ (runtime_of (demo_register (cli_demo i)))) by reflexivity.
  rewrite exec_operation by (done || apply lookup_empty). reflexivity.
Qed.

(** Every table of the scenario holds one entry. *)
Lemma only {V} (m : gmap Z V) k k' v x : m = {[k := v]} → m !! k' = Some x → x = v.
Proof. intros ->. by intros [_ <-]%lookup_singleton_Some. Qed.

Section Run.
Context (i : CliIds).
Abbreviation d := (cli_demo i).
Abbreviation op := (demo_operation d).
Abbreviation tdef := (definition_of (demo_register d)).
Abbreviation rt := (observe (demo_heartbeat d) (runtime_of (demo_register d))).

Lemma demo_eligible :
  hard_filter (filter_input (demo_built i) op builtin_policy tdef rt (demo_caps d)) = [].
Proof.
  apply hard_filter_nil. exists tdef, rt, op, (evidence_of (demo_evidence d)), (demo_caps d), builtin_policy.
  split; [split_and!; try reflexivity; apply lookup_singleton_eq|].
  constructor; try done; try (by vm_compute); try (simpl; congruence); first [by left|by right].
Qed.

Definition demo_best : RankedCandidate :=
  build_candidate op (demo_target d) tdef (TargetRuntime.performance rt).

Lemma demo_ranked : PlanOutput.ranked (gather (demo_built i) op builtin_policy) = [demo_best].
Proof.
  rewrite gather_ranked.
  assert (Ht : targets (demo_built i) = {[demo_target d := tdef]}) by reflexivity.
  rewrite Ht, map_entries_singleton. cbn [omap list_omap]. unfold candidate_of. cbn [fst snd].
  assert (Hr : target_runtime (demo_built i) !! demo_target d = Some rt) by apply lookup_singleton_eq.
  assert (Hc : capabilities (demo_built i) !! demo_target d = Some (demo_caps d))
    by apply lookup_singleton_eq.
  rewrite Hr, Hc, demo_eligible. reflexivity.
Qed.

Abbreviation pid := (cli_plan i).
Definition demo_plan : ExecutionPlan := build_plan pid (demo_built i) op (demo_target d).
Definition demo_planned_state : RuntimeState :=
  set_active_plans {[demo_op d := pid]} (set_plans {[pid := demo_plan]} (demo_built i)).

Lemma demo_plans :
  plan_locked pid (demo_op d) (demo_built i) =
  (Ok (conclude (gather (demo_built i) op builtin_policy) (Some demo_plan)
         Decision.NEAR_MEMORY_SELECTED
         ("selected target " +:+ to_string_u64 (demo_target d) +:+ " (syn-reduce)")),
   demo_planned_state).
Proof.
  unfold plan_locked.
  assert (Ho : operations (demo_built i) !! demo_op d = Some op) by apply lookup_singleton_eq.
  assert (Hp : policies (demo_built i) !! OperationSpec.policy op = Some builtin_policy)
    by apply lookup_singleton_eq.
  assert (Ha : active_plans (demo_built i) !! OperationSpec.id op = None) by apply lookup_empty.
  assert (Ht : targets (demo_built i) !! demo_target d = Some tdef) by apply lookup_singleton_eq.
  assert (Hb : RankedCandidate.decision demo_best = Decision.NEAR_MEMORY_SELECTED)
    by (vm_compute; reflexivity).
  rewrite Ho, Hp, Ha, demo_ranked, Hb. cbn [bool_decide decide].
  rewrite bool_decide_eq_false_2 by (by intros []). rewrite bool_decide_eq_true_2 by done.
  change (RankedCandidate.target demo_best) with (demo_target d). rewrite Ht. reflexivity.
Qed.

Definition demo_reserved_state : RuntimeState :=
  reserved_state pid demo_plan ReservationState.dflt 0 demo_planned_state.

Lemma demo_reserves : reserve pid demo_planned_state = (Ok tt, demo_reserved_state).
Proof.
  apply (reserve_granted _ _ demo_plan rt tdef).
  assert (Hop : operations demo_planned_state !! ExecutionPlan.operation demo_plan = Some op)
    by apply lookup_singleton_eq.
  assert (Ht : targets demo_planned_state !! ExecutionPlan.target demo_plan = Some tdef)
    by apply lookup_singleton_eq.
  constructor; rewrite ?Hop, ?Ht; try reflexivity; try apply lookup_singleton_eq; by vm_compute.
Qed.

Definition demo_held_plan : ExecutionPlan :=
  ExecutionPlan.set_reserved 1 0 ExecutionLifecycle.RESERVED demo_plan.

Lemma demo_held : plans demo_reserved_state !! pid = Some demo_held_plan.
Proof. apply lookup_insert_eq. Qed.

Lemma demo_targets_kept : targets demo_reserved_state = {[demo_target d := tdef]}.
Proof.
  unfold demo_reserved_state, reserved_state, touched.
  cbn [targets set_plans set_reservations set_targets]. unfold at_or_insert.
  assert (Ht : targets demo_planned_state !! ExecutionPlan.target demo_plan = Some tdef)
    by apply lookup_singleton_eq.
  by rewrite Ht.
Qed.

Lemma demo_snapshot :
  snapshot_of demo_held_plan =
  {| AuthoritySnapshot.epoch := 1; AuthoritySnapshot.worker_boot := demo_boot d;
     AuthoritySnapshot.target := demo_target d; AuthoritySnapshot.target_generation := 1;
     AuthoritySnapshot.memory_domain_generation := 1;
     AuthoritySnapshot.dataset_generation := 1; AuthoritySnapshot.region_generation := 1;
     AuthoritySnapshot.operation_generation := 1; AuthoritySnapshot.program_generation := None;
     AuthoritySnapshot.capability_generation := 1; AuthoritySnapshot.policy_generation := 1;
     AuthoritySnapshot.evidence_generation := 1; AuthoritySnapshot.plan_generation := 1 |}.
Proof.
  assert (Ht : targets (demo_built i) !! demo_target d = Some tdef) by apply lookup_singleton_eq.
  assert (Hr : target_runtime (demo_built i) !! demo_target d = Some rt) by apply lookup_singleton_eq.
  assert (Hc : capabilities (demo_built i) !! demo_target d = Some (demo_caps d))
    by apply lookup_singleton_eq.
  assert (He : data_evidence (demo_built i) !! demo_region d = Some (evidence_of (demo_evidence d)))
    by apply lookup_singleton_eq.
  cbn [demo_held_plan ExecutionPlan.set_reserved ExecutionPlan.authority].
  unfold demo_plan, build_plan. cbn [ExecutionPlan.authority PlanAuthority.snapshot].
  change (OperationSpec.region op) with (demo_region d). by rewrite Ht, Hr, Hc, He.
Qed.

Lemma demo_current : plan_current demo_reserved_state demo_held_plan.
Proof.
  constructor; try rewrite demo_snapshot; try reflexivity.
  - intros x Hx. by rewrite (only _ _ _ rt x eq_refl Hx).
  - intros x Hx. by rewrite (only _ _ _ tdef x demo_targets_kept Hx).
  - intros x Hx. by rewrite (only _ _ _ (demo_dataset_of d) x eq_refl Hx).
  - intros x Hx. by rewrite (only _ _ _ (demo_region_of d) x eq_refl Hx).
  - intros x Hx. by rewrite (only _ _ _ op x eq_refl Hx).
  - intros x Hx. by rewrite (only _ _ _ (demo_caps d) x eq_refl Hx).
  - done.
  - intros o x Ho Hx. by rewrite (only _ _ _ builtin_policy x eq_refl Hx).
  - intros x Hx. by rewrite (only _ _ _ (evidence_of (demo_evidence d)) x eq_refl Hx).
Qed.

Lemma demo_dispatches :
  dispatchable demo_reserved_state pid demo_held_plan op rt (demo_worker d).
Proof.
  constructor; [apply demo_held|reflexivity|apply demo_current|apply lookup_singleton_eq|
    apply lookup_singleton_eq|].
  change (workers demo_reserved_state) with (workers (demo_built i)).
  unfold demo_built. cbn [workers]. rewrite map_entries_singleton. cbn [find_session WorkerSession.boot].
  change (TargetRuntime.owner_boot rt) with (demo_boot d). by rewrite Z.eqb_refl.
Qed.

Lemma cli_dispatches :
  ∃ s, cli_dispatch_command i (demo_built i) =
    ("dispatched plan " +:+ print_int pid +:+ " to worker; awaiting result" +:+ newline, 0, s) ∧
    lifecycle_of pid s = ExecutionLifecycle.DISPATCHED.
Proof.
  unfold cli_dispatch_command. rewrite demo_plans. set (out := conclude _ _ _ _).
  assert (Hc : PlanOutput.created out = true) by (by apply bool_decide_eq_true_2; eexists).
  assert (Hid : ExecutionPlan.id (PlanOutput.plan out) = pid) by reflexivity.
  rewrite Hc, Hid, demo_reserves. cbn [is_ok negb].
  rewrite (prepare_dispatch_ok _ _ _ _ _ _ _ _ demo_dispatches).
  unfold confirm_dispatched. cbn [plans set_plans]. rewrite lookup_insert_eq.
  replace (differs _ _) with false by (symmetry; by apply differs_false). cbn [is_ok negb]. eexists. split; [reflexivity|].
  unfold lifecycle_of. cbn [plans set_plans]. by rewrite lookup_insert_eq.
Qed.

Lemma cli_plans : (cli_plan_command i (demo_built i)).2 = 0.
Proof. unfold cli_plan_command. by rewrite demo_plans. Qed.

Lemma cli_drains : is_ok (begin_drain (demo_target d) (demo_built i)).1 = true.
Proof.
  unfold begin_drain.
  assert (Hr : target_runtime (demo_built i) !! demo_target d = Some rt) by apply lookup_singleton_eq.
  by rewrite Hr.
Qed.
End Run.

(** ** Property *)

(** The words of a text: its longest pieces without blanks and line ends. *)
Definition is_blank (c : Ascii.ascii) : bool :=
  Ascii.eqb c (Ascii.ascii_of_nat 32) || Ascii.eqb c (Ascii.ascii_of_nat 10).
Fixpoint words_from (word : string) (s : string) : list string :=
  let ended := if String.eqb word "" then [] else [word] in
  match s with
  | EmptyString => ended
  | String c s => if is_blank c then ended ++ words_from "" s else words_from (word +:+ String c "") s
  end.

(** The commands the help text lists: its words after the title "nmc-cli
    commands:".  [help] is not among them. *)
Definition cli_commands : list string := drop 2 (words_from "" help_text).

Lemma cli_commands_listed :
  cli_commands = ["discover"; "targets"; "operations"; "datasets"; "evaluate"; "plan"; "dispatch";
                  "results"; "drain"; "audit"; "inspect-state"].
Proof. reflexivity. Qed.

Lemma cli_command_code i cmd :
  drawn (cli_demo i) → cmd ≠ "discover" →
  (cli_command i cmd).2 = if bool_decide (cmd ∈ cli_commands) then 0 else 1.
Proof.
  intros Hd Hnd. rewrite cli_commands_listed. unfold cli_command. rewrite (demo_coordinator_built i Hd).
  destruct (String.eqb_spec cmd "targets") as [->|]; [reflexivity|].
  destruct (String.eqb_spec cmd "inspect-state") as [->|]; [reflexivity|]. cbn [orb].
  destruct (String.eqb_spec cmd "operations") as [->|]; [reflexivity|].
  destruct (String.eqb_spec cmd "datasets") as [->|]; [reflexivity|].
  destruct (String.eqb_spec cmd "evaluate") as [->|]; [exact (cli_plans i)|].
  destruct (String.eqb_spec cmd "plan") as [->|]; [exact (cli_plans i)|]. cbn [orb].
  destruct (String.eqb_spec cmd "dispatch") as [->|].
  { destruct (cli_dispatches i) as (s & -> & _). reflexivity. }
  destruct (String.eqb_spec cmd "results") as [->|]; [reflexivity|].
  destruct (String.eqb_spec cmd "drain") as [->|]; [by rewrite cli_drains|].
  destruct (String.eqb_spec cmd "audit") as [->|]; [reflexivity|].
  rewrite bool_decide_eq_false_2; [done|]. rewrite !elem_of_cons, elem_of_nil. tauto.
Qed.

(** Claim C24: the command-line tool serves exactly the commands it lists.
    Whatever identities are drawn, every command but [discover] ends with exit
    code 0 when it is [help] (which no command means too) or a word of the help
    text's list, and with 1 when not; [discover] prints what discovery found; and [dispatch] takes the
    demonstration operation all the way to a DISPATCHED plan: planning finds the
    target eligible and cheaper than moving the data, the reservation is
    granted, and the plan is still current at dispatch. *)
Theorem cli_serves_its_commands fuel argv a i :
  drawn (cli_demo i) →
  let cmd := default "help" (head argv) in
  (cmd ≠ "discover" → ∃ text, cli_main fuel argv a i =
     Some (text, if bool_decide (cmd ∈ "help" :: cli_commands) then 0 else 1)) ∧
  (cmd = "discover" → ∀ d, discover_system fuel a = Some d →
     cli_main fuel argv a i = Some (print_discovery d, 0)) ∧
  (cmd = "dispatch" → ∃ s,
     cli_main fuel argv a i =
       Some ("dispatched plan " +:+ print_int (cli_plan i) +:+ " to worker; awaiting result" +:+ newline, 0) ∧
     (cli_dispatch_command i (demo_coordinator i)).2 = s ∧
     lifecycle_of (cli_plan i) s = ExecutionLifecycle.DISPATCHED).
Proof.
  intros Hd cmd. unfold cli_main. fold cmd. split_and!.
  - intros Hnd. rewrite (proj2 (String.eqb_neq _ _) Hnd).
    destruct (String.eqb_spec cmd "help") as [->|Hh]; [by eexists|].
    exists (cli_command i cmd).1.
    rewrite (bool_decide_ext (cmd ∈ "help" :: cli_commands) (cmd ∈ cli_commands))
      by (rewrite elem_of_cons; naive_solver).
    rewrite <- (cli_command_code i cmd Hd Hnd). by rewrite <- surjective_pairing.
  - intros -> d Hf. cbn [String.eqb]. by rewrite Hf.
  - intros ->. cbn [String.eqb Ascii.eqb Bool.eqb]. destruct (cli_dispatches i) as (s & Hs & Hl). exists s.
    unfold cli_command. by rewrite (demo_coordinator_built i Hd), Hs.
Qed.

Definition cli_ids : CliIds :=
  {| cli_coordinator := 1; cli_demo := demo_ids; cli_plan := 21; cli_dispatch := 31;
     cli_attempt := 41 |}.

Lemma cli_serves_its_commands_witness :
  lifecycle_of 21 (cli_dispatch_command cli_ids (demo_coordinator cli_ids)).2 =
    ExecutionLifecycle.DISPATCHED ∧
  ∃ text, cli_main 3 ["status"] sample_system cli_ids = Some (text, 1).
Proof.
  assert (Hd : drawn (cli_demo cli_ids)) by (repeat constructor).
  split.
  - destruct (cli_serves_its_commands 3 ["dispatch"] sample_system cli_ids Hd) as (_ & _ & H).
    destruct (H eq_refl) as (s & _ & Hs & Hl). rewrite Hs. exact Hl.
  - destruct (cli_serves_its_commands 3 ["status"] sample_system cli_ids Hd) as (H & _).
    destruct (H ltac:(discriminate)) as [text Ht]. exists text. exact Ht.
Defined.
