(* ===== verification/Scenarios.v ===== *)
(** * The example programs and the benchmark ([src/examples], [src/benchmark])

    Each [main] as a function of the identities it draws and of what the
    operating system answers; it returns what is printed and the exit code.  The
    elapsed times the benchmark prints are left out: it returns the two counts.
    The programs are evaluated at the end with sample identities. *)

From S2P Require Import Prelude Enums Ids Double Checksum Model Authority Planning Protocol Backend.
From S2P Require Import Discovery State Coordinator Machine Worker Persistence StateCodec Recovery Cli.

(** ** [support.hpp] *)

Definition example_domain (i : DemoIds) : MemoryDomainDescriptor :=
  {| MemoryDomainDescriptor.id := demo_md i; MemoryDomainDescriptor.generation := 1;
     MemoryDomainDescriptor.name := ""; MemoryDomainDescriptor.durable := true |}.
Definition example_dataset (i : DemoIds) : DatasetDescriptor :=
  {| DatasetDescriptor.id := demo_dataset i; DatasetDescriptor.generation := 1;
     DatasetDescriptor.name := "ds"; DatasetDescriptor.producer := "";
     DatasetDescriptor.durable := true |}.

(** [Demo()]: the target, the evidence and the heartbeat are those of the
    command-line tool. *)
Definition example_setup (i : DemoIds) : list Command :=
  [BindWorkerSession (demo_worker i) (demo_boot i) "worker";
   RegisterMemoryDomain (example_domain i); RegisterDataset (example_dataset i);
   RegisterRegion (demo_region_of i); ApplyRegisterTarget (demo_register i);
   ApplyCapability (demo_draw i) (demo_capability i); ApplyDataEvidence (demo_evidence i);
   ApplyHeartbeat (demo_heartbeat i)].
Definition run_all (cs : list Command) (s : RuntimeState) : RuntimeState :=
  fold_left (fun s c => (exec c s).2) cs s.
Definition example_demo (i : CliIds) : RuntimeState :=
  run_all (example_setup (cli_demo i)) (new_coordinator (cli_coordinator i)).

(** [make_sum_op]. *)
Definition make_sum_op (i : CliIds) (id : OperationId) (bytes : Z) (s : RuntimeState)
    : RuntimeState :=
  (create_operation (sum_operation (cli_demo i) id bytes 1) s).2.

Definition large : Z := 8 * 2 ^ 30.

(** The plan an output carries, when one was created. *)
Definition created_plan (r : Result PlanOutput) : option ExecutionPlanId :=
  match r with
  | Ok out => if PlanOutput.created out then Some (ExecutionPlan.id (PlanOutput.plan out)) else None
  | Err _ => None
  end.
(** A demonstration with one large operation, planned. *)
Definition example_planned (i : CliIds) : Result PlanOutput * RuntimeState :=
  let op := demo_op (cli_demo i) in
  plan_locked (cli_plan i) op (make_sum_op i op large (example_demo i)).

(** ** The programs *)

Definition basic_target (i : CliIds) : string * Z :=
  let (out, s) := example_planned i in
  let? pid := created_plan out otherwise ("no plan" +:+ newline, 1) in
  let (r, s) := reserve pid s in
  reject_if negb (is_ok r) with ("reserve failed" +:+ newline, 1) in
  match (prepare_dispatch pid (cli_dispatch i) (cli_attempt i) s).1 with
  | Err e => ("dispatch rejected: " +:+ message e +:+ newline, 1)
  | Ok _ => ("basic_target: plan " +:+ print_int pid +:+ " reserved+dispatch-ready on target " +:+
             print_int (demo_target (cli_demo i)) +:+ " (SYNTHETIC)" +:+ newline, 0)
  end.

(** [state().targets.at(target)]; [None] is the exception. *)
Definition synthetic_pim (i : CliIds) : option (string * Z) :=
  let (out, s) := example_planned i in
  let created := bool_decide (is_Some (created_plan out)) in
  (fun d => ("synthetic_pim: near-memory target kind=" +:+ to_string (TargetDefinition.kind d) +:+
             " provider=" +:+ to_string (TargetDefinition.provider d) +:+
             " class=SYNTHETIC plan_created=" +:+ print_flag created +:+ newline, 0))
  <$> targets s !! demo_target (cli_demo i).

Definition plan_decision (r : Result PlanOutput) : option Decision :=
  match r with Ok out => Some (PlanOutput.decision out) | Err _ => None end.
Definition print_decision (r : Result PlanOutput) : string :=
  match plan_decision r with Some d => to_string d | None => "ERROR" end.

(** The policy that forbids falling back. *)
Definition required_policy : Policy :=
  {| Policy.id := 100; Policy.generation := 1; Policy.name := "nm-required";
     Policy.outcome := PolicyOutcome.NEAR_MEMORY_REQUIRED;
     Policy.permitted_fallbacks := Policy.permitted_fallbacks Policy.dflt;
     Policy.required_confidence := Policy.required_confidence Policy.dflt;
     Policy.near_memory_bias := Policy.near_memory_bias Policy.dflt;
     Policy.reject_on_stale := Policy.reject_on_stale Policy.dflt;
     Policy.max_near_memory_input_bytes := Policy.max_near_memory_input_bytes Policy.dflt;
     Policy.require_verification := Policy.require_verification Policy.dflt |}.

Definition fallback (i : CliIds) : string * Z :=
  let d := cli_demo i in
  let s := run_all [RegisterPolicy required_policy; RetireTarget (demo_target d);
                    CreateOperation (sum_operation d (demo_op d) large 100)] (example_demo i) in
  let out := (plan_locked (cli_plan i) (demo_op d) s).1 in
  ("fallback: near-memory-required + no eligible target -> decision=" +:+ print_decision out +:+
   " (REJECT, no silent fallback)" +:+ newline,
   if bool_decide (plan_decision out = Some Decision.REJECT) then 0 else 1).

(** [begin_drain] before planning: the plan is created, the reservation
    refused. *)
Definition drain (i : CliIds) : string * Z :=
  let d := cli_demo i in
  let (r, s) := begin_drain (demo_target d) (example_demo i) in
  let (out, s) := plan_locked (cli_plan i) (demo_op d) (make_sum_op i (demo_op d) large s) in
  ("drain: begin_drain -> " +:+ print_flag (is_ok r) +:+ newline +:+
   match created_plan out with
   | Some pid => "drain: reserve during drain -> ok=" +:+ print_flag (is_ok (reserve pid s).1) +:+ newline
   | None => ""
   end, 0).

(** The observed dataset generation moves between reservation and dispatch. *)
Definition moved_evidence (d : DemoIds) : DataEvidenceMsg :=
  {| DataEvidenceMsg.region := demo_region d; DataEvidenceMsg.region_generation := 1;
     DataEvidenceMsg.dataset := demo_dataset d; DataEvidenceMsg.dataset_generation := 2;
     DataEvidenceMsg.memory_domain := 1; DataEvidenceMsg.memory_domain_generation := 1;
     DataEvidenceMsg.present := true; DataEvidenceMsg.current := true;
     DataEvidenceMsg.reachable := true; DataEvidenceMsg.publisher := 0 |}.
Definition stale_data_rejection (i : CliIds) : option (string * Z) :=
  let (out, s) := example_planned i in
  let? pid := created_plan out otherwise (Some ("no plan" +:+ newline, 1)) in
  let s := run_all [Reserve pid; ApplyDataEvidence (moved_evidence (cli_demo i))] s in
  let? plan := plans s !! pid otherwise None in
  let stale := staleness_locked s plan in
  let dop := (prepare_dispatch pid (cli_dispatch i) (cli_attempt i) s).1 in
  Some ("stale_data_rejection: stale=" +:+ print_int (Z.of_nat (length stale)) +:+ " dispatch_ok=" +:+
        print_flag (is_ok dop) +:+ newline, if is_ok dop then 1 else 0).

Definition target_failure (i : CliIds) : option (string * Z) :=
  let (out, s) := example_planned i in
  let? _ := created_plan out otherwise (Some ("", 0)) in
  let s := (fence_worker (demo_boot (cli_demo i)) s).2 in
  (fun rt => ("target_failure: worker fenced; target lifecycle=" +:+
              to_string (TargetRuntime.lifecycle rt) +:+ newline, 0))
  <$> target_runtime s !! demo_target (cli_demo i).

(** The loops over two sizes; [ids] are the operation and plan drawn for each. *)
Fixpoint plan_sizes (i : CliIds) (print : Z → PlanOutput → string)
    (l : list (Z * OperationId * ExecutionPlanId)) (s : RuntimeState) : string :=
  match l with
  | [] => ""
  | (bytes, op, pid) :: l =>
      let (out, s) := plan_locked pid op (make_sum_op i op bytes s) in
      match out with Ok out => print bytes out | Err _ => "" end +:+ plan_sizes i print l s
  end.
Definition operation_selection (i : CliIds) (op1 pid1 op2 pid2 : Z) : string * Z :=
  (plan_sizes i (fun bytes out =>
     "operation_selection: bytes=" +:+ print_int bytes +:+ " decision=" +:+
     to_string (PlanOutput.decision out) +:+ " created=" +:+
     print_flag (PlanOutput.created out) +:+ newline)
     [(large, op1, pid1); (2 ^ 20, op2, pid2)] (example_demo i), 0).
Definition movement_vs_compute (i : CliIds) (op1 pid1 op2 pid2 : Z) : string * Z :=
  (plan_sizes i (fun bytes out =>
     "movement_vs_compute: bytes=" +:+ print_int bytes +:+ " decision=" +:+
     to_string (PlanOutput.decision out) +:+ newline +:+
     print_lines (fun l => "    " +:+ l +:+ newline) (PlanOutput.explanation out))
     [(large, op1, pid1); (4 * 2 ^ 20, op2, pid2)] (example_demo i), 0).

(** The buffer of the host-local example, its sum and what is read back. *)
Definition host_buffer : list Z :=
  (fun i => Z.land (Z.of_nat i * 17 + 3) 255) <$> seq 0 (Z.to_nat 4096).
Fixpoint read_back (i : nat) (out : list Z) : Z :=
  match i with
  | O => 0
  | S n => Z.lor (read_back n out) (Z.shiftl (default 0 (out !! n)) (8 * Z.of_nat n))
  end.
Definition host_local_execution (elapsed_ns : Z) : string * Z :=
  let ref := fold_left (fun r b => u64 (r + b)) host_buffer 0 in
  let req := {| BackendRequest.op_class := OperationClass.SUM; BackendRequest.data_type := DataType.U8;
                BackendRequest.input := host_buffer;
                BackendRequest.input_bytes := Z.of_nat (length host_buffer) |} in
  let got := read_back 8 (BackendResult.output (host_local_execute elapsed_ns req)) in
  ("host_local_execution: REAL host-local sum=" +:+ print_int got +:+ " reference=" +:+
   print_int ref +:+ " match=" +:+ print_flag (got =? ref) +:+ newline, if got =? ref then 0 else 1).

Definition cuda_conventional_comparison (fuel : nat) (a : SystemAnswers) (i : CliIds)
    : option (string * Z) :=
  let? disc := discover_system fuel a otherwise None in
  let gpu := existsb (fun g => contains_text "RTX" (GpuInfo.name g)) (SystemDiscovery.gpus disc) in
  let out := (example_planned i).1 in
  Some ("cuda_conventional_comparison: real_gpu_present=" +:+ print_flag gpu +:+
        " near_memory_decision=" +:+ print_decision out +:+
        " (SYNTHETIC near-memory; REAL conventional GPU executed in the CUDA test)" +:+ newline,
        if bool_decide (plan_decision out = Some Decision.NEAR_MEMORY_SELECTED) then 0 else 1).

(** ** Executing in the same process *)

(** The backend run on the dispatch and the completion built from it. *)
Definition in_process_result (elapsed_ns : Z) (dm : DispatchMsg) : ResultMsg :=
  let r := worker_execute false elapsed_ns dm in
  {| ResultMsg.plan := DispatchMsg.plan dm; ResultMsg.plan_gen := DispatchMsg.plan_gen dm;
     ResultMsg.dispatch := DispatchMsg.dispatch dm; ResultMsg.attempt := DispatchMsg.attempt dm;
     ResultMsg.target := DispatchMsg.target dm; ResultMsg.target_gen := DispatchMsg.target_gen dm;
     ResultMsg.worker_boot := DispatchMsg.worker_boot dm; ResultMsg.epoch := DispatchMsg.epoch dm;
     ResultMsg.dataset_gen := DispatchMsg.dataset_gen dm;
     ResultMsg.region_gen := DispatchMsg.region_gen dm;
     ResultMsg.operation_gen := DispatchMsg.operation_gen dm;
     ResultMsg.result_gen := 1; ResultMsg.output := BackendResult.output r;
     ResultMsg.output_digest := to_hex (BackendResult.digest r);
     ResultMsg.unknown := false; ResultMsg.note := "" |}.

(** Dispatch, confirm, execute and apply; whether the completion was applied. *)
Definition dispatch_and_commit (elapsed_ns : Z) (pid : ExecutionPlanId) (d : DispatchId)
    (a : AttemptId) (fresh : ResultId) (s : RuntimeState) : bool * RuntimeState :=
  let (dop, s) := prepare_dispatch pid d a s in
  match dop with
  | Err _ => (false, s)
  | Ok out =>
      let (r, s) := confirm_dispatched pid d s in
      reject_if negb (is_ok r) with (false, s) in
      let (res, s) := apply_result fresh (in_process_result elapsed_ns (DispatchOutput.message out)) s in
      (is_ok res, s)
  end.

(** [None] is the exception of [encode_state]. *)
Definition coordinator_recovery (os : OsAnswers) (ra : ReadAnswers) (elapsed_ns : Z) (fresh : ResultId)
    (id2 : CoordinatorId) (i : CliIds) : option (string * Z) :=
  let (out, s) := example_planned i in
  let s := match created_plan out with
           | Some pid =>
               (dispatch_and_commit elapsed_ns pid (cli_dispatch i) (cli_attempt i) fresh
                  (reserve pid s).2).2
           | None => s
           end in
  let path := "nmc_example_recovery.bin" in
  let? saved := coordinator_save os path s ∅ otherwise None in
  let (r, fs) := saved in
  reject_if negb (is_ok r) with Some ("save failed" +:+ newline, 1) in
  let (r, c2) := coordinator_load ra (fs !! path) (new_coordinator id2) in
  reject_if negb (is_ok r) with Some ("load failed" +:+ newline, 1) in
  Some ("coordinator_recovery: recovered epoch=" +:+ print_int (epoch c2) +:+ " has_target=" +:+
        print_flag (has_target (demo_target (cli_demo i)) c2) +:+
        " (dynamic authority reset to REVALIDATION_REQUIRED)" +:+ newline, 0).

(** ** The benchmark *)

Definition bench_region (d : DemoIds) : DataRegionDescriptor :=
  {| DataRegionDescriptor.id := demo_region d; DataRegionDescriptor.generation := 1;
     DataRegionDescriptor.dataset := demo_dataset d;
     DataRegionDescriptor.dataset_generation := 1;
     DataRegionDescriptor.memory_domain := demo_md d;
     DataRegionDescriptor.window := {| ByteWindow.offset := 0; ByteWindow.length := 64 |};
     DataRegionDescriptor.shape :=
       {| DataShape.element_count := 4096; DataShape.data_type := DataType.U8;
          DataShape.layout := Layout.CONTIGUOUS; DataShape.alignment := 1 |};
     DataRegionDescriptor.integrity := IntegrityState.UNKNOWN;
     DataRegionDescriptor.durable := true |}.
Definition bench_register (d : DemoIds) : RegisterTargetMsg :=
  {| RegisterTargetMsg.target := demo_target d;
     RegisterTargetMsg.generation := 1; RegisterTargetMsg.provider := ProviderKind.SYNTHETIC;
     RegisterTargetMsg.kind := TargetKind.MEMORY_SIDE_PROCESSOR;
     RegisterTargetMsg.synthetic := true; RegisterTargetMsg.name := "t";
     RegisterTargetMsg.ops := [OperationClass.SUM]; RegisterTargetMsg.data_types := [DataType.U8];
     RegisterTargetMsg.layouts := [Layout.CONTIGUOUS];
     RegisterTargetMsg.max_input_bytes := 8 * 2 ^ 30; RegisterTargetMsg.alignment := 1;
     RegisterTargetMsg.concurrency := 2 ^ 20; RegisterTargetMsg.workspace := 2 ^ 20;
     RegisterTargetMsg.owner_boot := demo_boot d |}.
Definition bench_capability (d : DemoIds) : CapabilityMsg :=
  {| CapabilityMsg.target := demo_target d; CapabilityMsg.generation := 1;
     CapabilityMsg.entries := [supported "operation:SUM"];
     CapabilityMsg.evidence_generation := 1; CapabilityMsg.publisher := 0 |}.
Definition bench_evidence (d : DemoIds) : DataEvidenceMsg :=
  {| DataEvidenceMsg.region := demo_region d;
     DataEvidenceMsg.region_generation := 1; DataEvidenceMsg.dataset := demo_dataset d;
     DataEvidenceMsg.dataset_generation := 1; DataEvidenceMsg.memory_domain := demo_md d;
     DataEvidenceMsg.memory_domain_generation := 1; DataEvidenceMsg.present := true;
     DataEvidenceMsg.current := true; DataEvidenceMsg.reachable := true;
     DataEvidenceMsg.publisher := 0 |}.
Definition setup_target (d : DemoIds) : list Command :=
  [BindWorkerSession (demo_worker d) (demo_boot d) "w";
   RegisterMemoryDomain (example_domain d); RegisterDataset (example_dataset d);
   RegisterRegion (bench_region d); ApplyRegisterTarget (bench_register d);
   ApplyCapability (demo_draw d) (bench_capability d); ApplyDataEvidence (bench_evidence d);
   ApplyHeartbeat (demo_heartbeat d)].

(** What is drawn for one operation of the benchmark. *)
Record BenchIds := {
  be_op : OperationId; be_plan : ExecutionPlanId; be_dispatch : DispatchId;
  be_attempt : AttemptId; be_result : ResultId
}.

(** The planning loop: the plans created, in order. *)
Fixpoint bench_plan (l : list BenchIds) (s : RuntimeState) : list BenchIds * RuntimeState :=
  match l with
  | [] => ([], s)
  | b :: l =>
      let (out, s) := plan_locked (be_plan b) (be_op b) s in
      let (rest, s) := bench_plan l s in
      (if bool_decide (is_Some (created_plan out)) then b :: rest else rest, s)
  end.

(** The dispatch loop; [clock] gives the time the backend took for a plan. *)
Fixpoint bench_commit (clock : ExecutionPlanId → Z) (l : list BenchIds) (s : RuntimeState)
    : nat * RuntimeState :=
  match l with
  | [] => (0%nat, s)
  | b :: l =>
      let (ok, s) := dispatch_and_commit (clock (be_plan b)) (be_plan b) (be_dispatch b)
                       (be_attempt b) (be_result b) s in
      let (n, s) := bench_commit clock l s in
      (if ok then S n else n, s)
  end.

(** One scale: [created], [committed] and the coordinator. *)
Definition bench_scale (clock : ExecutionPlanId → Z) (i : CliIds) (l : list BenchIds)
    : nat * nat * RuntimeState :=
  let d := cli_demo i in
  let s := run_all (setup_target d) (new_coordinator (cli_coordinator i)) in
  let s := run_all ((fun b => CreateOperation (sum_operation d (be_op b) large 1)) <$> l) s in
  let (plans, s) := bench_plan l s in
  let s := run_all ((fun b => Reserve (be_plan b)) <$> plans) s in
  let (committed, s) := bench_commit clock plans s in
  (length plans, committed, s).

(** ** Evaluated *)

Example drain_refuses_reservation :
  drain cli_ids =
  ("drain: begin_drain -> 1" +:+ newline +:+ "drain: reserve during drain -> ok=0" +:+ newline, 0).
Proof. vm_compute. reflexivity. Qed.

Example fallback_rejects :
  fallback cli_ids =
  ("fallback: near-memory-required + no eligible target -> decision=REJECT (REJECT, no silent fallback)"
   +:+ newline, 0).
Proof. vm_compute. reflexivity. Qed.

Example stale_data_is_rejected :
  stale_data_rejection cli_ids = Some ("stale_data_rejection: stale=1 dispatch_ok=0" +:+ newline, 0).
Proof. vm_compute. reflexivity. Qed.

Example fenced_target_needs_revalidation :
  target_failure cli_ids =
  Some ("target_failure: worker fenced; target lifecycle=REVALIDATION_REQUIRED" +:+ newline, 0).
Proof. vm_compute. reflexivity. Qed.

Example small_operations_move :
  operation_selection cli_ids 17 21 18 22 =
  ("operation_selection: bytes=8589934592 decision=NEAR_MEMORY_SELECTED created=1" +:+ newline +:+
   "operation_selection: bytes=1048576 decision=CONVENTIONAL_CPU_SELECTED created=0" +:+ newline, 0).
Proof. vm_compute. reflexivity. Qed.

Example host_local_sum_matches :
  host_local_execution 5 =
  ("host_local_execution: REAL host-local sum=522240 reference=522240 match=1" +:+ newline, 0).
Proof. vm_compute. reflexivity. Qed.

Example comparison_selects_near_memory :
  snd <$> cuda_conventional_comparison 3 sample_system cli_ids = Some 0.
Proof. vm_compute. reflexivity. Qed.
