(* ===== verification/Benchmark.v ===== *)
(** * The benchmark commits all its work ([benchmark.cpp])

    For every number of operations up to the capacity of its target, and for all
    identities drawn: every operation of the benchmark is planned, reserved,
    dispatched, executed and committed.  [static] is the part of the state the
    loops never change; each loop is followed by induction on the operations. *)

From S2P Require Import Prelude Enums Ids Double Checksum Model Authority Economics Planning.
From S2P Require Import Protocol Backend State Coordinator Behaviour Machine Worker Planner.
From S2P Require Import Completion Cli Scenarios.

Section Bench.
Context (d : DemoIds).

Abbreviation tdef := (definition_of (bench_register d)).
Abbreviation rt := (observe (demo_heartbeat d) (runtime_of (bench_register d))).
Abbreviation target := (demo_target d).
Abbreviation operation_of op := (sum_operation d op large 1).

Definition bench_caps : CapabilitySet :=
  capabilities_of (demo_draw d) (bench_capability d) tdef.
Abbreviation bench_data := (evidence_of (bench_evidence d)).
Definition bench_session : WorkerSession :=
  {| WorkerSession.worker := demo_worker d; WorkerSession.boot := demo_boot d;
     WorkerSession.name := "w"; WorkerSession.connected := true |}.

(** ** What the loops leave alone *)

Definition static (s : RuntimeState) :=
  (epoch s, policies s, targets s, target_runtime s, capabilities s, data_evidence s,
   datasets s, regions s, workers s, operations s).

(** The scenario set up, with the operations [ops]. *)
Definition ready (ops : gmap OperationId OperationSpec) (s : RuntimeState) : Prop :=
  static s =
  (1, {[1 := builtin_policy]}, {[target := tdef]}, {[target := rt]}, {[target := bench_caps]},
   {[demo_region d := bench_data]}, {[demo_dataset d := example_dataset d]},
   {[demo_region d := bench_region d]}, {[demo_worker d := bench_session]}, ops).

(** The plan the planner makes for an operation. *)
Definition planned (pid : ExecutionPlanId) (op : OperationId) : ExecutionPlan :=
  {| ExecutionPlan.id := pid; ExecutionPlan.generation := 1;
     ExecutionPlan.authority :=
       {| PlanAuthority.snapshot :=
            {| AuthoritySnapshot.epoch := 1; AuthoritySnapshot.worker_boot := demo_boot d;
               AuthoritySnapshot.target := target; AuthoritySnapshot.target_generation := 1;
               AuthoritySnapshot.memory_domain_generation := 1;
               AuthoritySnapshot.dataset_generation := 1;
               AuthoritySnapshot.region_generation := 1;
               AuthoritySnapshot.operation_generation := 1;
               AuthoritySnapshot.program_generation := None;
               AuthoritySnapshot.capability_generation := 1;
               AuthoritySnapshot.policy_generation := 1;
               AuthoritySnapshot.evidence_generation := 1;
               AuthoritySnapshot.plan_generation := 1 |};
          PlanAuthority.plan := pid; PlanAuthority.plan_generation := 1 |};
     ExecutionPlan.target := target; ExecutionPlan.target_generation := 1;
     ExecutionPlan.operation := op; ExecutionPlan.op_class := OperationClass.SUM;
     ExecutionPlan.dataset := demo_dataset d; ExecutionPlan.dataset_generation := 1;
     ExecutionPlan.region := demo_region d; ExecutionPlan.region_generation := 1;
     ExecutionPlan.lifecycle := ExecutionLifecycle.PLANNED;
     ExecutionPlan.reserved_slots := 0; ExecutionPlan.reserved_workspace := 0;
     ExecutionPlan.dispatch_id := None; ExecutionPlan.attempt_id := None;
     ExecutionPlan.retry_class := RetryClass.REPLAY_SAFE;
     ExecutionPlan.decision := Decision.NEAR_MEMORY_SELECTED; ExecutionPlan.notes := [] |}.
Definition held (pid : ExecutionPlanId) (op : OperationId) : ExecutionPlan :=
  ExecutionPlan.set_reserved 1 0 ExecutionLifecycle.RESERVED (planned pid op).

(** ** One iteration of each loop *)

Section Iteration.
Context (ops : gmap OperationId OperationSpec) (s : RuntimeState) (Hs : ready ops s).

Lemma ready_fields :
  epoch s = 1 ∧ policies s = {[1 := builtin_policy]} ∧ targets s = {[target := tdef]} ∧
  target_runtime s = {[target := rt]} ∧ capabilities s = {[target := bench_caps]} ∧
  data_evidence s = {[demo_region d := bench_data]} ∧
  datasets s = {[demo_dataset d := example_dataset d]} ∧
  regions s = {[demo_region d := bench_region d]} ∧
  workers s = {[demo_worker d := bench_session]} ∧ operations s = ops.
Proof. unfold ready, static in Hs. by simplify_eq. Qed.

Lemma ready_lookups :
  targets s !! target = Some tdef ∧ target_runtime s !! target = Some rt ∧
  capabilities s !! target = Some bench_caps ∧
  data_evidence s !! demo_region d = Some bench_data ∧
  policies s !! 1 = Some builtin_policy.
Proof.
  destruct ready_fields as (_ & -> & -> & -> & -> & -> & _). by rewrite !lookup_singleton_eq.
Qed.

Lemma ready_eligible op :
  hard_filter (filter_input s (operation_of op) builtin_policy tdef rt bench_caps) = [].
Proof.
  destruct ready_lookups as (_ & _ & _ & He & _).
  apply hard_filter_nil. exists tdef, rt, (operation_of op), bench_data, bench_caps, builtin_policy.
  split; [split_and!; try reflexivity; exact He|].
  constructor; try done; try (by vm_compute); try (simpl; congruence); first [by left|by right].
Qed.

Lemma ready_ranked op :
  PlanOutput.ranked (gather s (operation_of op) builtin_policy) =
  [build_candidate (operation_of op) target tdef (TargetRuntime.performance rt)].
Proof.
  destruct ready_lookups as (_ & Hr & Hc & _). destruct ready_fields as (_ & _ & Ht & _).
  rewrite gather_ranked, Ht, map_entries_singleton. cbn [omap list_omap]. unfold candidate_of.
  cbn [fst snd]. by rewrite Hr, Hc, ready_eligible.
Qed.

Lemma ready_build pid op : build_plan pid s (operation_of op) target = planned pid op.
Proof.
  destruct ready_lookups as (Ht & Hr & Hc & He & _). destruct ready_fields as (Hep & _).
  unfold build_plan. change (OperationSpec.region (operation_of op)) with (demo_region d).
  by rewrite Ht, Hr, Hc, He, Hep.
Qed.

(** An operation without an active plan gets one. *)
Lemma ready_plans pid op :
  ops !! op = Some (operation_of op) → active_plans s !! op = None →
  ∃ out, plan_locked pid op s =
    (Ok out, set_active_plans (<[op := pid]> (active_plans s))
               (set_plans (<[pid := planned pid op]> (plans s)) s)) ∧
    created_plan (Ok out) = Some pid.
Proof.
  intros Ho Ha. destruct ready_lookups as (Ht & _ & _ & _ & Hp). destruct ready_fields as (_ & _ & _ & _ & _ & _ & _ & _ & _ & Hops).
  unfold plan_locked. rewrite Hops, Ho.
  change (OperationSpec.policy (operation_of op)) with 1. rewrite Hp.
  change (OperationSpec.id (operation_of op)) with op. rewrite Ha, ready_ranked.
  rewrite bool_decide_eq_false_2 by (by intros []).
  rewrite bool_decide_eq_true_2 by (vm_compute; reflexivity).
  change (RankedCandidate.target _) with target. rewrite ready_build, Ht.
  eexists. split; [reflexivity|]. unfold created_plan, conclude. cbn [PlanOutput.created].
  by rewrite bool_decide_eq_true_2 by (by eexists).
Qed.

(** A plan is reserved while slots are left; [k] are taken. *)
Lemma ready_reserves pid op k :
  ops !! op = Some (operation_of op) → plans s !! pid = Some (planned pid op) →
  default ReservationState.dflt (reservations s !! target) =
    {| ReservationState.reserved_slots := k; ReservationState.reserved_workspace := 0 |} →
  0 <= k < 2 ^ 20 →
  ∃ s', reserve pid s = (Ok tt, s') ∧ static s' = static s ∧
    plans s' = <[pid := held pid op]> (plans s) ∧
    reservations s' !! target =
      Some {| ReservationState.reserved_slots := k + 1; ReservationState.reserved_workspace := 0 |}.
Proof.
  intros Ho Hp Hk Hlt. destruct ready_lookups as (Ht & Hr & _).
  destruct ready_fields as (_ & _ & _ & _ & _ & _ & _ & _ & _ & Hops).
  eexists. split; [apply (reserve_granted _ _ (planned pid op) rt tdef
    {| ReservationState.reserved_slots := k; ReservationState.reserved_workspace := 0 |} 0)|].
  - constructor; try done; cbn [ExecutionPlan.target ExecutionPlan.operation planned];
      rewrite ?Ht, ?Hk, ?Hops, ?Ho; try reflexivity; try (by vm_compute). simpl. lia.
  - unfold static, reserved_state, touched. cbn [ExecutionPlan.target planned].
    unfold at_or_insert. rewrite Ht. simpl. split; [done|]. split; [done|].
    rewrite lookup_insert_eq. simpl. do 2 f_equal. by rewrite u64_small by (unfold in_u64; lia).
Qed.

Lemma held_current pid op :
  ops !! op = Some (operation_of op) → plan_current s (held pid op).
Proof.
  intros Ho. destruct ready_fields as (He & Hp & Ht & Hr & Hc & Hd & Hds & Hrg & _ & Hops).
  constructor; try done.
  - intros x Hx. by rewrite (only _ _ _ _ x Hr Hx).
  - intros x Hx. by rewrite (only _ _ _ _ x Ht Hx).
  - intros x Hx. by rewrite (only _ _ _ _ x Hds Hx).
  - intros x Hx. by rewrite (only _ _ _ _ x Hrg Hx).
  - intros x Hx. rewrite Hops in Hx. cbn in Hx. by simplify_eq.
  - intros x Hx. by rewrite (only _ _ _ _ x Hc Hx).
  - intros o x _ Hx. by rewrite (only _ _ _ _ x Hp Hx).
  - intros x Hx. by rewrite (only _ _ _ _ x Hd Hx).
Qed.

Lemma held_dispatchable pid op :
  ops !! op = Some (operation_of op) → plans s !! pid = Some (held pid op) →
  dispatchable s pid (held pid op) (operation_of op) rt (demo_worker d).
Proof.
  intros Ho Hp. destruct ready_lookups as (_ & Hr & _).
  destruct ready_fields as (_ & _ & _ & _ & _ & _ & _ & _ & Hw & Hops).
  constructor; [done|done|by apply held_current|by rewrite Hops|done|].
  rewrite Hw, map_entries_singleton. cbn [find_session bench_session WorkerSession.boot].
  change (TargetRuntime.owner_boot rt) with (demo_boot d). by rewrite Z.eqb_refl.
Qed.

Abbreviation in_flight pid op d a :=
  (ExecutionPlan.set_lifecycle ExecutionLifecycle.DISPATCHED
     (ExecutionPlan.set_dispatch d a (held pid op))).

Lemma in_process_accepted pid op di a ns :
  accepts (dispatched_state pid di a (held pid op) s)
    (in_process_result ns (dispatch_message s (held pid op) (operation_of op) (demo_boot d) di a))
    (in_flight pid op di a).
Proof.
  destruct ready_fields as (He & _ & Ht & Hr & _).
  constructor; try done; simpl.
  - by rewrite lookup_insert_eq.
  - intros x Hx. by rewrite (only _ _ _ _ x Ht Hx).
  - intros x Hx. by rewrite (only _ _ _ _ x Hr Hx).
Qed.

(** A held plan is dispatched, executed and committed. *)
Lemma ready_commits pid op ns di a fresh :
  ops !! op = Some (operation_of op) → plans s !! pid = Some (held pid op) →
  ∃ s' p', dispatch_and_commit ns pid di a fresh s = (true, s') ∧ static s' = static s ∧
    plans s' = <[pid := p']> (plans s) ∧ ExecutionPlan.lifecycle p' = ExecutionLifecycle.COMMITTED.
Proof.
  intros Ho Hp. pose proof (held_dispatchable pid op Ho Hp) as Hd.
  unfold dispatch_and_commit. rewrite (prepare_dispatch_ok _ _ _ _ _ _ _ _ Hd).
  cbn [DispatchOutput.message]. rewrite confirm_after_prepare by done. cbn [is_ok negb].
  change (TargetRuntime.owner_boot rt) with (demo_boot d).
  set (dm := dispatch_message s (held pid op) (operation_of op) (demo_boot d) di a).
  rewrite (apply_result_accepted _ _ _ _ (in_process_accepted pid op di a ns)).
  destruct (worker_execute_spec false ns dm) as [Hok Hdg]. specialize (Hdg Hok).
  assert (Hi : intact (in_process_result ns dm) = true).
  { unfold intact, in_process_result. cbn [ResultMsg.output ResultMsg.output_digest].
    rewrite Hdg. apply String.eqb_refl. }
  unfold settle_completion. fold dm. rewrite Hi. cbn [ResultMsg.unknown in_process_result negb].
  eexists _, (ExecutionPlan.set_lifecycle ExecutionLifecycle.COMMITTED (in_flight pid op di a)).
  split; [reflexivity|].
  destruct (release_reservation_frame (in_flight pid op di a) (record_outcome (in_flight pid op di a)
    ExecutionLifecycle.COMMITTED (result_of_msg fresh (in_process_result ns dm) VerifyState.VERIFIED
    (ResultMsg.output_digest (in_process_result ns dm)) true false)
    (dispatched_state pid di a (held pid op) s))) as (Hpl & _ & _).
  split; [unfold static, release_reservation; by case_match|]. rewrite Hpl.
  split; [|reflexivity]. simpl. by rewrite insert_insert_eq.
Qed.
End Iteration.

(** ** The loops *)

(** The operations are registered under their ids, the identities drawn for
    operations and plans distinct. *)
Record drawn_work (ops : gmap OperationId OperationSpec) (l : list BenchIds) : Prop := {
  dw_ops : Forall (fun b => ops !! be_op b = Some (operation_of (be_op b))) l;
  dw_op_ids : NoDup (be_op <$> l);
  dw_plan_ids : NoDup (be_plan <$> l)
}.

Lemma drawn_work_cons ops b l :
  drawn_work ops (b :: l) →
  ops !! be_op b = Some (operation_of (be_op b)) ∧ drawn_work ops l ∧
  (∀ b', b' ∈ l → be_op b' ≠ be_op b ∧ be_plan b' ≠ be_plan b).
Proof.
  intros [Ho Hn Hp]. apply Forall_cons_iff in Ho as [Hb Ho].
  rewrite fmap_cons in Hn, Hp.
  pose proof (NoDup_cons_1_1 _ _ Hn) as Hn1. pose proof (NoDup_cons_1_1 _ _ Hp) as Hp1.
  apply NoDup_cons_1_2 in Hn, Hp. split_and!; [done|by split|].
  intros b' Hb'. split; intros Heq; [apply Hn1|apply Hp1]; rewrite <- Heq; by apply list_elem_of_fmap_2.
Qed.

(** The plans of the list, all in the given form. *)
Definition holds (form : ExecutionPlanId → OperationId → ExecutionPlan) (l : list BenchIds)
    (s : RuntimeState) : Prop :=
  Forall (fun b => plans s !! be_plan b = Some (form (be_plan b) (be_op b))) l.

Lemma holds_insert form l s s' k p :
  (∀ b, b ∈ l → be_plan b ≠ k) → plans s' = <[k := p]> (plans s) → holds form l s → holds form l s'.
Proof.
  unfold holds. intros Hk Hp Hf. apply Forall_forall. intros b Hb%list_elem_of_In.
  rewrite Hp, lookup_insert_ne by (intros ->; by apply (Hk b)).
  rewrite Forall_forall in Hf. by apply Hf, list_elem_of_In.
Qed.

Lemma ready_static ops s s' : ready ops s → static s' = static s → ready ops s'.
Proof. unfold ready. congruence. Qed.

(** Planning: every operation gets its plan; plans outside the list and
    reservations stay. *)
Lemma bench_plan_all ops l s :
  ready ops s → drawn_work ops l → Forall (fun b => active_plans s !! be_op b = None) l →
  ∃ s', bench_plan l s = (l, s') ∧ static s' = static s ∧ reservations s' = reservations s ∧
    holds planned l s' ∧
    ∀ k, (∀ b, b ∈ l → be_plan b ≠ k) → plans s' !! k = plans s !! k.
Proof.
  revert s. induction l as [|b l IH]; intros s Hs Hw Ha; simpl.
  { exists s. split_and!; by try constructor. }
  apply drawn_work_cons in Hw as (Hb & Hw & Hne). apply Forall_cons_iff in Ha as [Hab Ha].
  destruct (ready_plans ops s Hs (be_plan b) (be_op b) Hb Hab) as (out & -> & Hc). rewrite Hc.
  set (s1 := set_active_plans _ _).
  destruct (IH s1) as (s' & -> & Hst & Hres & Hh & Hfr); [by apply (ready_static ops s)|done| |].
  { apply Forall_forall. intros b' Hb'%list_elem_of_In. simpl.
    rewrite lookup_insert_ne by (apply not_eq_sym; by apply Hne).
    rewrite Forall_forall in Ha. by apply Ha, list_elem_of_In. }
  exists s'. rewrite bool_decide_eq_true_2 by (by eexists). split_and!; [done|done|done| |].
  - constructor; [|done]. rewrite Hfr by (intros b' Hb'; by apply Hne). apply lookup_insert_eq.
  - intros k Hk. rewrite Hfr by (intros b' Hb'; apply Hk; by right). simpl.
    apply lookup_insert_ne. apply Hk. by left.
Qed.

(** Reservation: [k] slots taken before, one more per plan. *)
Lemma bench_reserve_all ops l s k :
  ready ops s → drawn_work ops l → holds planned l s →
  default ReservationState.dflt (reservations s !! target) =
    {| ReservationState.reserved_slots := k; ReservationState.reserved_workspace := 0 |} →
  0 <= k → k + Z.of_nat (length l) <= 2 ^ 20 →
  let s' := run_all ((fun b => Reserve (be_plan b)) <$> l) s in
  static s' = static s ∧ holds held l s' ∧
  ∀ k', (∀ b, b ∈ l → be_plan b ≠ k') → plans s' !! k' = plans s !! k'.
Proof.
  revert s k. induction l as [|b l IH]; intros s k Hs Hw Hh Hk H0 Hle; cbv zeta.
  { split_and!; by try constructor. }
  apply drawn_work_cons in Hw as (Hb & Hw & Hne). apply Forall_cons_iff in Hh as [Hhb Hh].
  cbn [length] in Hle.
  destruct (ready_reserves ops s Hs (be_plan b) (be_op b) k Hb Hhb Hk) as (s1 & Hr & Hst & Hp & Hrs);
    [lia|].
  assert (Hrun : run_all ((fun b => Reserve (be_plan b)) <$> b :: l) s =
                 run_all ((fun b => Reserve (be_plan b)) <$> l) s1).
  { unfold run_all. rewrite fmap_cons. cbn [fold_left exec]. unfold outcome. by rewrite Hr. }
  rewrite Hrun.
  destruct (IH s1 (k + 1)) as (Hst' & Hh' & Hfr); [by apply (ready_static ops s)|done| | |lia|lia|].
  { eapply holds_insert; [|exact Hp|exact Hh]. intros b' Hb'. by apply Hne. }
  { by rewrite Hrs. }
  split_and!; [by rewrite Hst'| |].
  - constructor; [|done]. rewrite Hfr by (intros b' Hb'; by apply Hne). rewrite Hp. apply lookup_insert_eq.
  - intros k' Hk'. rewrite Hfr by (intros b' Hb'; apply Hk'; by right). rewrite Hp.
    apply lookup_insert_ne, Hk'. by left.
Qed.

(** Dispatch: every held plan commits. *)
Lemma bench_commit_all clock ops l s :
  ready ops s → drawn_work ops l → holds held l s →
  ∃ s', bench_commit clock l s = (length l, s') ∧
    Forall (fun b => lifecycle_of (be_plan b) s' = ExecutionLifecycle.COMMITTED) l ∧
    ∀ k, (∀ b, b ∈ l → be_plan b ≠ k) → plans s' !! k = plans s !! k.
Proof.
  revert s. induction l as [|b l IH]; intros s Hs Hw Hh; simpl.
  { exists s. split_and!; by try constructor. }
  apply drawn_work_cons in Hw as (Hb & Hw & Hne). apply Forall_cons_iff in Hh as [Hhb Hh].
  destruct (ready_commits ops s Hs (be_plan b) (be_op b) (clock (be_plan b)) (be_dispatch b)
    (be_attempt b) (be_result b) Hb Hhb) as (s1 & p' & -> & Hst & Hp & Hl).
  destruct (IH s1) as (s' & -> & Hc & Hfr); [by apply (ready_static ops s)|done| |].
  { eapply holds_insert; [|exact Hp|exact Hh]. intros b' Hb'. by apply Hne. }
  exists s'. split_and!; [done| |].
  - constructor; [|done]. unfold lifecycle_of. rewrite Hfr by (intros b' Hb'; by apply Hne).
    by rewrite Hp, lookup_insert_eq.
  - intros k Hk. rewrite Hfr by (intros b' Hb'; apply Hk; by right). rewrite Hp.
    apply lookup_insert_ne, Hk. by left.
Qed.

(** ** The setup *)

Definition bench_drawn : Prop :=
  Forall (fun v => is_null v = false) [demo_md d; demo_dataset d; demo_region d; target].

(** No plan, no active operation, no reservation. *)
Definition idle (s : RuntimeState) : Prop :=
  plans s = ∅ ∧ active_plans s = ∅ ∧ reservations s = ∅.

Lemma setup_target_ready id :
  bench_drawn →
  let s := run_all (setup_target d) (new_coordinator id) in ready ∅ s ∧ idle s.
Proof.
  intros Hd. unfold bench_drawn in Hd. repeat (apply Forall_cons_iff in Hd as [? Hd]).
  unfold run_all, setup_target. cbn [fold_left].
  rewrite exec_memory_domain by (done || apply lookup_empty).
  rewrite exec_dataset by (done || apply lookup_empty).
  rewrite exec_region by (done || apply lookup_empty).
  rewrite exec_target by done.
  rewrite (exec_capability _ _ _ tdef) by (done || apply lookup_insert_eq).
  rewrite exec_evidence by done.
  rewrite (exec_heartbeat _ _ (runtime_of (bench_register d))) by reflexivity.
  split; [reflexivity|by split_and!].
Qed.

Lemma ready_operations ops s k o :
  ready ops s → ready (<[k := o]> ops) (set_operations (<[k := o]> (operations s)) s).
Proof.
  intros (H1 & H2 & H3 & H4 & H5 & H6 & H7 & H8 & H9 & H10)%ready_fields.
  unfold ready, static. simpl. by rewrite H1, H2, H3, H4, H5, H6, H7, H8, H9, H10.
Qed.

Lemma bench_create_all l ops s :
  ready ops s → idle s → Forall (fun b => is_null (be_op b) = false) l →
  NoDup (be_op <$> l) → Forall (fun b => ops !! be_op b = None) l →
  ∃ ops', ready ops' (run_all ((fun b => CreateOperation (operation_of (be_op b))) <$> l) s) ∧
    idle (run_all ((fun b => CreateOperation (operation_of (be_op b))) <$> l) s) ∧
    Forall (fun b => ops' !! be_op b = Some (operation_of (be_op b))) l ∧
    ∀ k o, ops !! k = Some o → ops' !! k = Some o.
Proof.
  revert ops s. induction l as [|b l IH]; intros ops s Hs Hi Hn Hd Hno.
  { exists ops. split; [done|]. split; [done|]. split; [constructor|done]. }
  apply Forall_cons_iff in Hn as [Hnb Hn], Hno as [Hob Hno]. rewrite fmap_cons in Hd.
  pose proof (NoDup_cons_1_1 _ _ Hd) as Hd1. apply NoDup_cons_1_2 in Hd.
  destruct (ready_fields ops s Hs) as (_ & _ & _ & _ & _ & _ & _ & _ & _ & Hops).
  set (s1 := set_operations (<[be_op b := operation_of (be_op b)]> (operations s)) s).
  assert (Hrun : run_all ((fun b => CreateOperation (operation_of (be_op b))) <$> b :: l) s =
                 run_all ((fun b => CreateOperation (operation_of (be_op b))) <$> l) s1).
  { unfold run_all. rewrite fmap_cons. cbn [fold_left]. rewrite exec_operation; [done|done|done|].
    by rewrite Hops. }
  rewrite Hrun.
  destruct (IH (<[be_op b := operation_of (be_op b)]> ops) s1) as (ops' & Hr & Hid & Hl & Hk);
    [by apply ready_operations|done|done|done| |].
  { apply Forall_forall. intros b' Hb'%list_elem_of_In.
    rewrite lookup_insert_ne by (intros Heq; apply Hd1; rewrite Heq; by apply list_elem_of_fmap_2).
    rewrite Forall_forall in Hno. by apply Hno, list_elem_of_In. }
  exists ops'. split_and!; [done|done| |].
  - constructor; [|done]. apply Hk, lookup_insert_eq.
  - intros k o Ho. apply Hk. rewrite lookup_insert_ne; [done|]. by intros <-; simplify_eq.
Qed.
End Bench.

(** ** Property *)

(** Claim C16: the benchmark commits all its work.  For every number of
    operations up to the 2^20 slots of its target, so for each of its four
    scales, and for all identities drawn (not null, distinct for operations and
    for plans), every operation is planned, every plan reserved, and every
    dispatch executed and accepted: the counts it prints are both the number of
    operations, and every plan ends COMMITTED. *)
Theorem benchmark_commits_everything clock i l :
  bench_drawn (cli_demo i) → Forall (fun b => is_null (be_op b) = false) l →
  NoDup (be_op <$> l) → NoDup (be_plan <$> l) → Z.of_nat (length l) <= 2 ^ 20 →
  ∃ s, bench_scale clock i l = (length l, length l, s) ∧
       Forall (fun b => lifecycle_of (be_plan b) s = ExecutionLifecycle.COMMITTED) l.
Proof.
  intros Hd Hn Ho Hp Hle. set (d := cli_demo i) in *. unfold bench_scale. fold d.
  destruct (setup_target_ready d (cli_coordinator i) Hd) as [Hs Hi].
  destruct (bench_create_all d l ∅ _ Hs Hi Hn Ho) as (ops & Hs1 & (Hpl & Hact & Hres) & Hops & _).
  { apply Forall_forall. intros. apply lookup_empty. }
  set (s1 := run_all _ (run_all _ _)) in *.
  assert (Hw : drawn_work d ops l) by done.
  destruct (bench_plan_all d ops l s1 Hs1 Hw) as (s2 & -> & Hst2 & Hres2 & Hh2 & _).
  { apply Forall_forall. intros. rewrite Hact. apply lookup_empty. }
  pose proof (ready_static d ops s1 s2 Hs1 Hst2) as Hs2.
  destruct (bench_reserve_all d ops l s2 0) as (Hst3 & Hh3 & _); [done..| |done|done|].
  { by rewrite Hres2, Hres, lookup_empty. }
  destruct (bench_commit_all d clock ops l
    (run_all ((fun b => Reserve (be_plan b)) <$> l) s2)) as (s4 & -> & Hc & _);
    [by apply (ready_static d ops s2)|done|done|].
  by exists s4.
Qed.

Definition bench_two : list BenchIds :=
  [{| be_op := 17; be_plan := 21; be_dispatch := 31; be_attempt := 41; be_result := 51 |};
   {| be_op := 18; be_plan := 22; be_dispatch := 32; be_attempt := 42; be_result := 52 |}].

Lemma benchmark_commits_everything_witness :
  ∃ s, bench_scale (fun _ => 0) cli_ids bench_two = (2%nat, 2%nat, s) ∧
       lifecycle_of 22 s = ExecutionLifecycle.COMMITTED.
Proof.
  destruct (benchmark_commits_everything (fun _ => 0) cli_ids bench_two) as (s & Hs & Hl).
  - repeat constructor.
  - repeat constructor.
  - apply (bool_decide_eq_true_1 _). vm_compute. reflexivity.
  - apply (bool_decide_eq_true_1 _). vm_compute. reflexivity.
  - simpl. lia.
  - exists s. split; [exact Hs|]. apply Forall_cons_iff in Hl as [_ Hl].
    apply Forall_cons_iff in Hl as [Hl _]. exact Hl.
Defined.
